(* ===== verification/_CoqProject ===== *)
-Q . S2P
Prelude.v
Kernel.v
KernelLog.v
KernelWin.v
CircularBuffer.v
Resp.v
Hiredis.v
RedisHelper.v
RedisWire.v
RedisProfile.v
RedisMgr.v
RedisMgrProps.v
RedisSync.v
RedisSyncProps.v
RedisTyping.v
RedisAsync.v
RedisStore.v
RedisPeer.v
MysqlApi.v
DBConnection.v
MysqlBase.v
MysqlMgr.v
MysqlMgrProps.v
MysqlQueue.v
MysqlTest.v
LuaApi.v
LuaInterchange.v
ScriptEngine.v
ScriptEngineProps.v
ScriptLog.v
ScriptEngineTest.v
IRedisMgr.v
RedisAsyncStore.v
RedisSystem.v
RedisLedger.v
RedisFailure.v
RedisShape.v
RedisThreads.v
RedisSharing.v
RedisTest.v
UnitTest.v
