(* ===== verification/Prelude.v ===== *)
(** * A verification development for SeedCore

    SeedCore is a set of modules (dynamic libraries) for a game server kernel:
    a Redis client, a MySQL client, a Lua script engine and a unit test module
    that drives them.  The kernel itself is a compiled library of which the
    repository has the headers.  This library models the repository's own C++
    code as executable definitions over explicit state and proves what makes
    each part correct, or how far it is from it.

    ** How the parts interact

    The kernel loads a module, calls [Initialize] and [Launched] and hands its
    worker threads tasks through asynchronous queues.  [RedisMgr] has one
    connection for the main thread and one per worker; a synchronous command is
    built in a [RedisCmdBuilder], sent by [RedisWraaper] on the calling
    thread's connection and its reply read with [RedisResult]; an asynchronous
    command waits in its connection's list until a task sends the batch in a
    pipeline.  [MysqlMgr] wraps a handler in a [MysqlBase] task, chooses a
    [DBConnection] by the id and queues the task; a worker executes it, the
    main thread reports the result and releases it.  [ScriptEngine] calls
    script functions through one global Lua function and registers C++
    functions for scripts; values cross in [LuaInterchange] streams.  The unit
    test module runs the tests that the configuration names, and the tests are
    clients of the three managers.

    ** Files (paths under [src/])

    - [Prelude]: bytes, machine integers ([s8] ... [u64] wrap a [Z] to its
      width), memory blocks, decimal text, the results of C++ code ([outcome]:
      a value, a [fault], or not enough fuel) and the state monad [M], with the
      lemmas and hints all files share.  A [fault] is an assertion, an access
      out of bounds, a division by zero, a null pointer, an uninitialised
      value: where the C++ is undefined the model stops.
    - [Kernel]: the GridSeed headers (Thridlibrary/include/GridSeed/include):
      text helpers, constants, the module base class, the XML reader as the
      class [Xml].  It also has the entry point of each library (the four
      main.cpp).  [KernelLog] and [KernelWin]: the macros of IKernel.h, on
      Linux (LinSys.h) and on Windows (WinSys.h).  [CircularBuffer]:
      CircularBuffer.h of the same directory.
    - Redis (logic/Core/RedisMgr): [Resp], the request format as a
      specification; [Hiredis], the C library as a class; [RedisHelper], the
      builder and the reply view; [RedisWire], the write and read loops;
      [RedisProfile], the usage report; [RedisMgr] and [RedisMgrProps], the
      manager; [RedisSync] and [RedisSyncProps], the synchronous commands;
      [RedisTyping], the C++ types of what they hand back; [RedisAsync], the
      asynchronous ones.
    - [RedisStore] (what a server does with a command, after the command
      reference), [RedisPeer] (a connection with such a server, and several
      connections with one) and [IRedisMgr] (logic/Interface/IRedisMgr.h: the
      interfaces as type classes, the promise to clients, and [RedisMgr] as an
      instance of them).  [RedisAsyncStore]: what the waiting commands do when
      they run.  [RedisSystem]: the whole manager, with the calls of several
      threads, tasks and timers in any order, against a specification that
      knows only the stored data and what waits.  [RedisThreads]: synchronous
      calls of several threads that overlap, turn by turn; [RedisSharing]: two
      threads on one connection.  [RedisLedger]: which replies and contexts
      are freed; [RedisFailure]: connections that have failed; [RedisShape]:
      what no operation of the manager changes.
    - MySQL (logic/Core/MysqlMgr): [MysqlApi], the client library as a class;
      [DBConnection]; [MysqlBase], results and tasks; [MysqlMgr] and
      [MysqlMgrProps], the manager; [MysqlQueue], the manager under a queue
      that keeps the order of equal ids.
    - Lua (logic/Core/ScriptEngine): [LuaApi], lua.h and the library as a class
      with its documented laws; [LuaInterchange], the streams; [ScriptEngine]
      and [ScriptEngineProps], the engine; [ScriptLog], what it prints.
    - Unit tests (logic/Logic/UnitTest): [UnitTest], the module; [RedisTest],
      [MysqlTest] and [ScriptEngineTest], the three tests, the last with the
      script files of Config/envir/script it runs.

    A C++ member function is a definition of the same name in its file; the
    object's members are a record, and a reference parameter that is set is an
    argument and a component of the result.  A loop that is not structural
    takes fuel; a C++ block of memory is a list with offsets.  Code outside the
    repository is a type class; laws of such a class are documented behaviour
    and each class has a concrete instance, on which the witnesses run.

    ** What the theorems show

    - Encoding: whatever is pushed on a builder with any of its operators, the
      committed command is exactly the protocol's text of what was pushed
      ([Commit_encodes]); the streams between C++ and Lua read back
      what was written ([stream_roundtrip]).
    - The ring buffer is a bounded FIFO, across counter wrap-around
      ([Write_refines], [Read_refines], [cb_run_fifo]).
    - The wire: the server receives the whole command under every
      fragmentation of the writes; the reply handed to the caller is the next
      one ([redisBufferWriteInner_delivers], [pipeline_exchange]).
    - Each of the 45 synchronous commands is one exchange of a stated command,
      followed by a stated reading of the reply ([sync_call_exchange]).  What
      has been sent is what the Redis documentation gives for the method, with
      three exceptions ([sync_sends_documented]); seven methods report success
      for an error ([sync_error_reply]).  With a Redis server at the other end any sequence of calls has the effect of its commands on the
      stored data ([sync_calls_refine_store]).  What a call hands back has
      the C++ type of its parameter and a code the interface names
      ([run_sync_typed]).
    - Asynchronous calls: each queues its command ([async_call_queues]); a
      task sends what waits in batches of at most sixteen
      ([OnExecRedisTask_batches]) and the commands take effect
      ([async_calls_refine_store]).  The manager with all its connections
      refines the abstract system ([system_refines]); the order in which a
      task takes commands is left to the list.
    - What the manager owes the library: every reply and every context is freed
      exactly once, with the exceptions the theorem names
      ([replies_freed_once]).  A failed connection is never repaired, and its
      calls report success ([failed_connection_stays]).
    - Overlapping calls: threads that take turns between the calls of the
      network library, each on its own connection, see replies as if the
      commands had been executed one at a time ([threads_linearize]); a turn is
      a piece of the exchange ([exchange_turns]).  Threads whose indexes make
      them share a connection can read each other's replies
      ([shared_connection_swaps]).
    - The managers: shapes that every operation keeps ([reachable_shape],
      [mysql_lifecycle]), where a handler or a thread is sent
      ([PushMysqlHandler_routes], [connection_in_bounds]), the order of the
      handlers of one id ([handlers_in_order]) and reconnecting: the loop ends
      and its callback, the one [execCmd] passes, sends once on the new
      context ([execTaskByTimeOut_terminates]), but no caller gets there
      ([resend_never_happens]).
    - MySQL executions end: a statement is sent at most twice with one
      reconnection, and counters and times record it ([execute_total]); a task
      keeps the stored rows or the error ([OnExecute_outcome],
      [MysqlResult_Init_rows]).
    - The script engine: exactly one protected call per script call, and the
      Lua stack as it was ([CallScriptFunc_calls],
      [CallScriptFunc_missing_leaks]); registration and the calls back
      ([RegModuleFunc_registers], [LuaCall_returns]); the listing of the
      stack and where it goes wrong ([PrintLuaStack_lists]).  The log macros
      hand over one text each, cut to their buffer ([log_macros]).
    - Clients: the unit test of the Redis manager passes on any implementation
      that keeps the interface's promise ([RedisTest_passes]); the MySQL test's
      chain of tasks runs to its end in any order of the queue's calls
      ([MysqlTest_chain]); the script engine's test, in which C++ and Lua call
      each other recursively, registers its functions, ends, and each of its
      checks logs a success ([ScriptEngineTest_passes]).
      The unit test module runs what the configuration names
      ([Launched_runs_configured]).

    ** Fuel and bounds

    Fuel bounds loops whose length depends on the network, the clock, a chain
    of XML elements or a result set.  A theorem about such a loop says that
    from some amount on the result no longer depends on the fuel
    ("[exists N], for all fuel at least [N]"), or gives the amount: the number
    of bytes left for a write loop, the length of the chain for a configuration
    loop, the timeout in milliseconds for the reconnecting loop, which sleeps.
    The ping loop of a MySQL connection does not sleep: its bound is the number
    of pings that fit in its half hour, for a machine that makes at most
    [pings_per_ms] of them in a millisecond ([SqlClock]).  [FibNumber] takes its argument plus one.

    ** Not modelled, and why

    - The individual log statements, except those of the stack listing, of
      the script's [print] and of the script engine test's checks (a success or
      a failure each): they write text and change nothing else.  So the errors
      that the script engine logs for a failed call do not show.  The
      macros themselves and the text of the profile reports are modelled.
    - Locks and thread switching: every connection is used by one thread at a
      time through the queue, whose calls are modelled as steps in any order.
      Exchanges on different connections overlap at the calls of the network
      library only ([RedisThreads]); between them a thread touches its own
      connection.  Asynchronous batches do not overlap with other calls: the
      program never starts their task ([reachable_shape]), nor does it ever
      reconnect.
    - The kernel's interfaces (IKernel.h), hiredis, libmysql, Lua, the XML
      reader, the [tools] helpers and MysqlBuilder.h: not in the repository as
      code.  They are the classes named above.
    - logic/Define: message numbers and structures no code uses, and
      [SimpleTimer], which is abstract as it stands.
    - The vendored headers (DbgHelp.h, mysql, the unused ones of hiredis and
      Lua), data and build files. *)
From Stdlib Require Import ZArith Lia Ascii.
From Stdlib Require String.
From stdpp Require Import base numbers list list_numbers strings gmap.

Declare Scope seed_scope.
Delimit Scope seed_scope with seed.
Open Scope Z_scope.

(** ** Bytes

    A C++ [char] is an [ascii], a [std::string] or a [char] buffer is a list
    of them.  [lit] reads a literal. *)

Abbreviation bytes := (list ascii).

Definition lit (s : String.string) : bytes := String.list_ascii_of_string s.

Arguments lit s%_string.

Definition byte_val (c : ascii) : Z := Z.of_N (N_of_ascii c).

Definition byte_of (z : Z) : ascii := ascii_of_N (Z.to_N (z mod 256)).

(** The terminating NUL of a C string. *)
Definition NUL : ascii := ascii_of_N 0.

(** ** Machine integers

    A [w]-bit integer is a [Z]; [uwrap] and [swrap] are the conversions to the
    unsigned and to the two's complement signed type of that width. *)

Definition uwrap (w z : Z) : Z := z mod 2 ^ w.

Definition swrap (w z : Z) : Z := (z + 2 ^ (w - 1)) mod 2 ^ w - 2 ^ (w - 1).

Definition s8 (z : Z) : Z := swrap 8 z.
Definition s16 (z : Z) : Z := swrap 16 z.
Definition s32 (z : Z) : Z := swrap 32 z.
Definition s64 (z : Z) : Z := swrap 64 z.
Definition u32 (z : Z) : Z := uwrap 32 z.
Definition u64 (z : Z) : Z := uwrap 64 z.

Definition is_s8 (z : Z) : Prop := - 2 ^ 7 <= z < 2 ^ 7.
Definition is_s32 (z : Z) : Prop := - 2 ^ 31 <= z < 2 ^ 31.
Definition is_s64 (z : Z) : Prop := - 2 ^ 63 <= z < 2 ^ 63.

(** ** Outcomes of C++ code

    [Fault] is a call whose behaviour the language leaves undefined or that
    ends the process (an [ASSERT] in a build without [NDEBUG], a failed
    [new]); [OutOfFuel] is a loop of the model that was given too little
    fuel, and never a result of the code. *)

Inductive fault : Type :=
  | OutOfBounds
  | DivByZero
  | NullPointer
  | AssertFailed
  | BadAlloc
  | BadCall
  | Uninitialised
  | LuaRaised.

Inductive outcome (A : Type) : Type :=
  | Ok (a : A)
  | Fault (f : fault)
  | OutOfFuel.
Arguments Ok {A} a.
Arguments Fault {A} f.
Arguments OutOfFuel {A}.

#[export] Instance outcome_ret : MRet outcome := fun A a => Ok a.

#[export] Instance outcome_bind : MBind outcome := fun A B k m =>
  match m with
  | Ok a => k a
  | Fault f => Fault f
  | OutOfFuel => OutOfFuel
  end.

#[export] Instance fault_eq_dec : EqDecision fault.
Proof. solve_decision. Defined.

(** How the code was built: with [NDEBUG] the standard [assert] does nothing. *)
Class Build : Type := { ndebug : bool }.

(** [ASSERT(cond, ...)] (WinSys.h, LinSys.h): prints and calls [assert(false)]. *)
Definition ASSERT `{Build} (cond : bool) : outcome () :=
  if cond || ndebug then Ok tt else Fault AssertFailed.

(** Whether a result came back, for evaluating a model without its result. *)
Definition is_ok {A} (o : outcome A) : bool := match o with Ok _ => true | _ => false end.

Lemma is_ok_ex {A} (o : outcome A) : is_ok o = true -> exists a, o = Ok a.
Proof. destruct o; naive_solver. Qed.

(** The state a call that reported [true] ended in, and [d] for any other. *)
Definition state_of {A} (d : A) (o : outcome (bool * A)) : A :=
  match o with Ok (_, s) => s | _ => d end.
Definition is_true_result {A} (o : outcome (bool * A)) : bool :=
  match o with Ok (true, _) => true | _ => false end.

Lemma is_true_result_state {A} (d : A) o : is_true_result o = true -> o = Ok (true, state_of d o).
Proof. by destruct o as [[[] s]| |]. Qed.

(** The state monad over outcomes: [S] is the state the code mutates. *)
Definition M (S A : Type) : Type := S -> outcome (A * S).

#[export] Instance M_ret S : MRet (M S) := fun A a s => Ok (a, s).

#[export] Instance M_bind S : MBind (M S) := fun A B k m s =>
  match m s with
  | Ok (a, s') => k a s'
  | Fault f => Fault f
  | OutOfFuel => OutOfFuel
  end.

Definition mget {S} : M S S := fun s => Ok (s, s).
Definition mput {S} (s : S) : M S () := fun _ => Ok (tt, s).
Definition mmodify {S} (f : S -> S) : M S () := fun s => Ok (tt, f s).
Definition mfault {S A} (f : fault) : M S A := fun _ => Fault f.
Definition mfuel {S A} : M S A := fun _ => OutOfFuel.
Definition mwhen {S} (c : bool) (m : M S ()) : M S () := if c then m else mret tt.
Definition mlift {S A} (o : outcome A) : M S A := fun s => a ← o; Ok (a, s).
Definition of_option {A} (f : fault) (o : option A) : outcome A :=
  match o with Some a => Ok a | None => Fault f end.

Lemma M_bind_ret {S A B} (a : A) (k : A -> M S B) : (mret a ≫= k) = k a.
Proof. reflexivity. Qed.

Lemma M_bind_Ok {S A B} (m : M S A) (k : A -> M S B) s a s' :
  m s = Ok (a, s') -> (m ≫= k) s = k a s'.
Proof. intros H. unfold mbind, M_bind. by rewrite H. Qed.

Lemma M_bind_inv {S A B} (m : M S A) (k : A -> M S B) s b s' :
  (m ≫= k) s = Ok (b, s') -> exists a s1, m s = Ok (a, s1) /\ k a s1 = Ok (b, s').
Proof. unfold mbind, M_bind. destruct (m s) as [[a s1]| |]; naive_solver. Qed.

Lemma M_bind_ext {S A B} (m : M S A) (k k' : A -> M S B) s :
  (forall a s', k a s' = k' a s') -> (m ≫= k) s = (m ≫= k') s.
Proof. intros H. unfold mbind, M_bind. by destruct (m s) as [[a s1]| |]. Qed.

(** *** What a computation leaves unchanged

    [preserves R m]: whenever [m] returns, the states before and after are
    related by the preorder [R].  The hint database [preserve] does the
    structural cases; a component adds its own primitives. *)

Definition preserves {S A} (R : S -> S -> Prop) (m : M S A) : Prop :=
  forall s a s', m s = Ok (a, s') -> R s s'.

Section Preserves.
Context {S : Type} (R : S -> S -> Prop) `{!PreOrder R}.

Lemma preserves_ret {A} (a : A) : preserves R (mret a).
Proof. intros s ? s' [= <- <-]. reflexivity. Qed.

Lemma preserves_get : preserves R mget.
Proof. intros s ? s' [= <- <-]. reflexivity. Qed.

Lemma preserves_fault {A} f : preserves R (@mfault S A f).
Proof. by intros s a s'. Qed.

Lemma preserves_fuel {A} : preserves R (@mfuel S A).
Proof. by intros s a s'. Qed.

Lemma preserves_lift {A} (o : outcome A) : preserves R (mlift o).
Proof. intros s a s'. unfold mlift. destruct o; [|done..]. intros [= <- <-]. reflexivity. Qed.

Lemma preserves_bind {A B} (m : M S A) (k : A -> M S B) :
  preserves R m -> (forall a, preserves R (k a)) -> preserves R (m ≫= k).
Proof.
  intros Hm Hk s b s' (a & s1 & H1 & H2)%M_bind_inv. etrans; [by eapply Hm|by eapply Hk].
Qed.

Lemma preserves_modify f : (forall s, R s (f s)) -> preserves R (mmodify f).
Proof. intros H s a s' [= <- <-]. apply H. Qed.

Lemma preserves_match_option {A B} (o : option A) (f : A -> M S B) (g : M S B) :
  (forall a, preserves R (f a)) -> preserves R g ->
  preserves R (match o with Some a => f a | None => g end).
Proof. by destruct o. Qed.

Lemma preserves_if {A} (c : bool) (m1 m2 : M S A) :
  preserves R m1 -> preserves R m2 -> preserves R (if c then m1 else m2).
Proof. by destruct c. Qed.

Lemma preserves_pair {A B C} (p : A * B) (f : A -> B -> M S C) :
  (forall a b, preserves R (f a b)) -> preserves R (let '(a, b) := p in f a b).
Proof. by destruct p. Qed.
End Preserves.

Create HintDb preserve.
#[export] Hint Resolve preserves_ret preserves_get preserves_fault preserves_fuel preserves_lift
  preserves_bind preserves_modify preserves_match_option preserves_if preserves_pair : preserve.

#[export] Hint Extern 0 (PreOrder _) => apply _ : preserve.

(** Applies the structural rules as long as one fits. *)
Ltac preserve_tac := repeat first
  [ assumption
  | progress intros
  | match goal with
    | |- preserves _ (_ ≫= _) => apply preserves_bind; [apply _| |]
    | |- preserves _ (match ?o with _ => _ end) => destruct o
    | |- preserves _ (let '(_, _) := ?p in _) => destruct p
    | |- preserves _ (mmodify _) => apply preserves_modify
    end
  | solve [eauto with preserve] ].

(** *** Before and after

    [triple P m Q]: whenever [m] returns from a state in [P], the result and
    the state it leaves satisfy [Q]. *)

Definition triple {S A} (P : S -> Prop) (m : M S A) (Q : A -> S -> Prop) : Prop :=
  forall s a s', P s -> m s = Ok (a, s') -> Q a s'.

Section Triple.
Context {S : Type}.
Implicit Types P : S -> Prop.

Lemma triple_ret {A} P (Q : A -> S -> Prop) a : (forall s, P s -> Q a s) -> triple P (mret a) Q.
Proof. intros H s ? ? Hs [= <- <-]. by apply H. Qed.

Lemma triple_bind {A B} P R (Q : B -> S -> Prop) (m : M S A) (k : A -> M S B) :
  triple P m R -> (forall a, triple (R a) (k a) Q) -> triple P (m ≫= k) Q.
Proof. intros Hm Hk s b s' Hs (a & s1 & H1 & H2)%M_bind_inv. eapply Hk; [by eapply Hm|done]. Qed.

Lemma triple_get {A} P (Q : A -> S -> Prop) (k : S -> M S A) :
  (forall s, P s -> triple (eq s) (k s) Q) -> triple P (mget ≫= k) Q.
Proof. intros Hk s b s' Hs H. by apply (Hk s Hs s). Qed.

Lemma triple_read {A} P (Q : A -> S -> Prop) (k : S -> M S A) :
  (forall s, P s -> triple P (k s) Q) -> triple P (mget ≫= k) Q.
Proof. intros Hk s b s' Hs H. by apply (Hk s Hs s). Qed.

Lemma triple_modify P (Q : () -> S -> Prop) f : (forall s, P s -> Q tt (f s)) -> triple P (mmodify f) Q.
Proof. intros H s a s' Hs [= <- <-]. by apply H. Qed.

Lemma triple_fault {A} P (Q : A -> S -> Prop) f : triple P (mfault f) Q.
Proof. done. Qed.

Lemma triple_fuel {A} P (Q : A -> S -> Prop) : triple P mfuel Q.
Proof. done. Qed.

Lemma triple_lift {A} P (Q : A -> S -> Prop) o : (forall a s, o = Ok a -> P s -> Q a s) -> triple P (mlift o) Q.
Proof. intros H s a s' Hs. unfold mlift. destruct o as [a'| |]; [|done..]. intros [= <- <-]. by apply H. Qed.

Lemma triple_conseq {A} P P' (Q Q' : A -> S -> Prop) m : triple P' m Q' -> (forall s, P s -> P' s) ->
  (forall a s, Q' a s -> Q a s) -> triple P m Q.
Proof. intros H HP HQ s a s' Hs E. eapply HQ, H; [by apply HP|done]. Qed.

Lemma triple_preserves {A} P R (m : M S A) : preserves R m -> (forall s s', P s -> R s s' -> P s') ->
  triple P m (fun _ => P).
Proof. intros H HP s a s' Hs E. eapply HP; [done|by eapply H]. Qed.
End Triple.

(** ** Width lemmas *)

Lemma pow2_pos w : 0 <= w -> 0 < 2 ^ w.
Proof. intros. apply Z.pow_pos_nonneg; lia. Qed.

Lemma uwrap_range w z : 0 <= w -> 0 <= uwrap w z < 2 ^ w.
Proof. intros. apply Z.mod_pos_bound, pow2_pos. done. Qed.

Lemma uwrap_small w z : 0 <= z < 2 ^ w -> uwrap w z = z.
Proof. intros. by apply Z.mod_small. Qed.

Lemma pow2_half w : 0 < w -> 2 ^ w = 2 * 2 ^ (w - 1).
Proof. intros. rewrite <- Z.pow_succ_r by lia. f_equal. lia. Qed.

Lemma swrap_range w z : 0 < w -> - 2 ^ (w - 1) <= swrap w z < 2 ^ (w - 1).
Proof.
  intros Hw. unfold swrap.
  pose proof (Z.mod_pos_bound (z + 2 ^ (w - 1)) (2 ^ w) (pow2_pos w ltac:(lia))).
  pose proof (pow2_half w Hw). lia.
Qed.

Lemma swrap_small w z : 0 < w -> - 2 ^ (w - 1) <= z < 2 ^ (w - 1) -> swrap w z = z.
Proof.
  intros Hw Hz. unfold swrap. pose proof (pow2_half w Hw).
  rewrite Z.mod_small; lia.
Qed.

(** Two integers with the same residue wrap to the same value. *)
Lemma swrap_mod w z : 0 < w -> swrap w z mod 2 ^ w = z mod 2 ^ w.
Proof.
  intros Hw. unfold swrap. rewrite Zminus_mod_idemp_l. f_equal. lia.
Qed.

Lemma swrap_eq w x y : x mod 2 ^ w = y mod 2 ^ w -> swrap w x = swrap w y.
Proof.
  intros H. unfold swrap.
  rewrite (Zplus_mod x), (Zplus_mod y), H. done.
Qed.

Lemma s32_small z : is_s32 z -> s32 z = z.
Proof. intros H. apply swrap_small; [lia|exact H]. Qed.

Lemma s32_range z : is_s32 (s32 z).
Proof. apply (swrap_range 32). lia. Qed.

Lemma s64_small z : is_s64 z -> s64 z = z.
Proof. intros H. apply swrap_small; [lia|exact H]. Qed.

Lemma s8_small z : is_s8 z -> s8 z = z.
Proof. intros H. apply swrap_small; [lia|exact H]. Qed.

Lemma u32_small z : 0 <= z < 2 ^ 32 -> u32 z = z.
Proof. apply uwrap_small. Qed.

Lemma s32_mod z : s32 z mod 2 ^ 32 = z mod 2 ^ 32.
Proof. by apply swrap_mod. Qed.

Lemma s32_idem z : s32 (s32 z) = s32 z.
Proof. apply s32_small, s32_range. Qed.

Lemma s32_add_l a b : s32 (s32 a + b) = s32 (a + b).
Proof.
  apply (swrap_eq 32). rewrite <- (Z.add_mod_idemp_l (s32 a)), s32_mod, Z.add_mod_idemp_l by lia. done.
Qed.

Lemma s64_add a b : s64 (s64 a + s64 b) = s64 (a + b).
Proof. apply (swrap_eq 64). rewrite Zplus_mod, !(swrap_mod 64), <- Zplus_mod by lia. done. Qed.

Lemma u32_mod z : u32 z mod 2 ^ 32 = z mod 2 ^ 32.
Proof. unfold u32, uwrap. by rewrite Zmod_mod. Qed.

(** ** Memory blocks

    A block of memory is a list; [mem_read] and [mem_write] are [memcpy] out
    of it and into it, [None] when an access leaves the block. *)

Definition mem_read {A} (m : list A) (off n : Z) : option (list A) :=
  if bool_decide (0 <= off /\ 0 <= n /\ off + n <= Z.of_nat (length m))
  then Some (take (Z.to_nat n) (drop (Z.to_nat off) m)) else None.

Definition mem_write {A} (m : list A) (off : Z) (src : list A) : option (list A) :=
  if bool_decide (0 <= off /\ off + Z.of_nat (length src) <= Z.of_nat (length m))
  then Some (take (Z.to_nat off) m ++ src ++ drop (Z.to_nat off + length src) m)
  else None.

Section Memory.
Context {A : Type}.
Implicit Types m src : list A.

Lemma mem_read_Some m off n :
  0 <= off -> 0 <= n -> off + n <= Z.of_nat (length m) ->
  mem_read m off n = Some (take (Z.to_nat n) (drop (Z.to_nat off) m)).
Proof. intros. unfold mem_read. by rewrite bool_decide_eq_true_2. Qed.

Lemma mem_write_Some m off src :
  0 <= off -> off + Z.of_nat (length src) <= Z.of_nat (length m) ->
  mem_write m off src =
    Some (take (Z.to_nat off) m ++ src ++ drop (Z.to_nat off + length src) m).
Proof. intros. unfold mem_write. by rewrite bool_decide_eq_true_2. Qed.

(** The block between two others. *)
Lemma mem_read_app (x y z : list A) off n :
  off = Z.of_nat (length x) -> n = Z.of_nat (length y) ->
  mem_read (x ++ y ++ z) off n = Some y.
Proof.
  intros -> ->. rewrite mem_read_Some by (rewrite ?length_app; lia).
  by rewrite !Nat2Z.id, drop_app_length, take_app_length.
Qed.

Lemma mem_write_app (x y y' z : list A) off :
  off = Z.of_nat (length x) -> length y' = length y ->
  mem_write (x ++ y ++ z) off y' = Some (x ++ y' ++ z).
Proof.
  intros -> Hl. rewrite mem_write_Some by (rewrite ?length_app; lia).
  rewrite Nat2Z.id, take_app_length, Hl, <- drop_drop, drop_app_length.
  by rewrite drop_app_length.
Qed.

Lemma mem_write_length m off src m' :
  mem_write m off src = Some m' -> length m' = length m.
Proof.
  unfold mem_write. case_bool_decide as H; [|done]. intros [= <-].
  rewrite !length_app, length_take, length_drop. lia.
Qed.

(** What a write leaves at each index. *)
Lemma mem_write_lookup m off src m' (i : nat) :
  mem_write m off src = Some m' ->
  m' !! i = if bool_decide (off <= Z.of_nat i < off + Z.of_nat (length src))
            then src !! (i - Z.to_nat off)%nat else m !! i.
Proof.
  unfold mem_write. case_bool_decide as H; [|done]. intros [= <-].
  assert (Ht : length (take (Z.to_nat off) m) = Z.to_nat off)
    by (rewrite length_take; lia).
  destruct (decide (Z.of_nat i < off)).
  { rewrite lookup_app_l by lia. rewrite lookup_take_lt by lia.
    rewrite bool_decide_eq_false_2; [done|lia]. }
  rewrite lookup_app_r by lia. rewrite Ht. case_bool_decide.
  - rewrite lookup_app_l by lia. done.
  - rewrite lookup_app_r by lia. rewrite lookup_drop. f_equal. lia.
Qed.

Lemma mem_read_lookup m off n r (i : nat) :
  mem_read m off n = Some r -> Z.of_nat i < n -> r !! i = m !! (Z.to_nat off + i)%nat.
Proof.
  unfold mem_read. case_bool_decide as H; [|done]. intros [= <-] Hi.
  rewrite lookup_take_lt by lia. by rewrite lookup_drop.
Qed.

Lemma mem_read_length m off n r :
  mem_read m off n = Some r -> length r = Z.to_nat n.
Proof.
  unfold mem_read. case_bool_decide as H; [|done]. intros [= <-].
  rewrite length_take, length_drop. lia.
Qed.
End Memory.

(** ** Little-endian 32-bit words (the layout of an [int32_t] in memory) *)

Definition le32 (z : Z) : bytes :=
  [byte_of z; byte_of (z / 2 ^ 8); byte_of (z / 2 ^ 16); byte_of (z / 2 ^ 24)].

Definition unle32 (l : bytes) : Z :=
  s32 (foldr (fun c acc => byte_val c + 256 * acc) 0 l).

Lemma byte_val_of z : byte_val (byte_of z) = z mod 256.
Proof.
  unfold byte_val, byte_of. pose proof (Z.mod_pos_bound z 256 ltac:(lia)).
  rewrite N_ascii_embedding by lia. lia.
Qed.

Lemma byte_val_range c : 0 <= byte_val c < 256.
Proof. unfold byte_val. pose proof (N_ascii_bounded c). lia. Qed.

Lemma byte_of_val c : byte_of (byte_val c) = c.
Proof.
  unfold byte_of. rewrite Z.mod_small by apply byte_val_range.
  unfold byte_val. rewrite N2Z.id. apply ascii_N_embedding.
Qed.

Lemma le32_bytes_sum z :
  z mod 256 + 256 * ((z / 2 ^ 8) mod 256 + 256 * ((z / 2 ^ 16) mod 256 +
    256 * ((z / 2 ^ 24) mod 256 + 256 * 0))) = z mod 2 ^ 32.
Proof.
  change (2 ^ 24) with (256 * (256 * 256)). change (2 ^ 16) with (256 * 256).
  change (2 ^ 8) with 256. change (2 ^ 32) with (256 * (256 * (256 * 256))).
  rewrite <- !Z.div_div by lia. rewrite !Z.rem_mul_r by lia. lia.
Qed.

(** Storing an [int32_t] and loading it back gives it unchanged. *)
Lemma unle32_le32 z : unle32 (le32 z) = s32 z.
Proof.
  unfold unle32, le32. cbn [foldr]. rewrite !byte_val_of, le32_bytes_sum.
  apply swrap_eq. by rewrite Zmod_mod.
Qed.

Lemma le32_length z : length (le32 z) = 4%nat.
Proof. done. Qed.

(** ** Decimal text *)

Definition digit (z : Z) : ascii := byte_of (48 + z).

(** [dec k n] writes [n] with at most [k + 1] digits; every integer the code
    formats has at most 64 bits, and [k = 19] is enough for them. *)
Fixpoint dec (k : nat) (n : Z) : bytes :=
  match k with
  | O => [digit n]
  | S k' => if n <? 10 then [digit n] else dec k' (n / 10) ++ [digit (n mod 10)]
  end.

(** What [%d], [%ld] and [std::to_string] write. *)
Definition fmt_d (z : Z) : bytes :=
  if z <? 0 then lit "-" ++ dec 19 (- z) else dec 19 z.

Definition is_digit (c : ascii) : bool := (48 <=? byte_val c) && (byte_val c <=? 57).

(** The value of a string of digits, [None] on any other string. *)
Definition undec_step (acc : option Z) (c : ascii) : option Z :=
  a ← acc; if is_digit c then Some (10 * a + (byte_val c - 48)) else None.

Definition undec (l : bytes) : option Z :=
  match l with [] => None | _ => foldl undec_step (Some 0) l end.

(** [atoi] on what [fmt_d] writes. *)
Definition parse_d (l : bytes) : option Z :=
  match l with
  | c :: l' => if bool_decide (c = "-"%char) then Z.opp <$> undec l' else undec l
  | [] => None
  end.

Lemma digit_val z : 0 <= z < 10 -> byte_val (digit z) = 48 + z.
Proof. intros. unfold digit. rewrite byte_val_of. apply Z.mod_small. lia. Qed.

Lemma is_digit_digit z : 0 <= z < 10 -> is_digit (digit z) = true.
Proof. intros. unfold is_digit. rewrite digit_val by done. lia. Qed.

Lemma dec_digits k n :
  0 <= n < 10 ^ (Z.of_nat k + 1) -> Forall (fun c => is_digit c = true) (dec k n).
Proof.
  revert n. induction k as [|k IH]; intros n Hn; cbn [dec].
  { repeat constructor. apply is_digit_digit. lia. }
  destruct (Z.ltb_spec n 10).
  { repeat constructor. apply is_digit_digit. lia. }
  apply Forall_app. split.
  - apply IH. split; [apply Z.div_pos; lia|].
    apply Z.div_lt_upper_bound; [lia|]. rewrite <- Z.pow_succ_r by lia.
    replace (Z.succ (Z.of_nat k + 1)) with (Z.of_nat (S k) + 1) by lia. lia.
  - repeat constructor. apply is_digit_digit, Z.mod_pos_bound. lia.
Qed.

Lemma dec_nonempty k n : dec k n <> [].
Proof.
  destruct k; cbn [dec]; [done|]. case_match; [done|].
  intros [_ ?]%app_eq_nil. done.
Qed.

Lemma foldl_undec_dec k n :
  0 <= n < 10 ^ (Z.of_nat k + 1) -> foldl undec_step (Some 0) (dec k n) = Some n.
Proof.
  revert n. induction k as [|k IH]; intros n Hn; cbn [dec].
  { cbn. rewrite is_digit_digit, digit_val by lia. f_equal. lia. }
  destruct (Z.ltb_spec n 10).
  { cbn. rewrite is_digit_digit, digit_val by lia. f_equal. lia. }
  rewrite foldl_app, IH.
  - cbn. rewrite is_digit_digit by (apply Z.mod_pos_bound; lia).
    rewrite digit_val by (apply Z.mod_pos_bound; lia).
    f_equal. pose proof (Z.div_mod n 10 ltac:(lia)). lia.
  - split; [apply Z.div_pos; lia|].
    apply Z.div_lt_upper_bound; [lia|]. rewrite <- Z.pow_succ_r by lia.
    replace (Z.succ (Z.of_nat k + 1)) with (Z.of_nat (S k) + 1) by lia. lia.
Qed.

Lemma undec_dec k n : 0 <= n < 10 ^ (Z.of_nat k + 1) -> undec (dec k n) = Some n.
Proof.
  intros. unfold undec. destruct (dec k n) eqn:E; [by apply dec_nonempty in E|].
  rewrite <- E. by apply foldl_undec_dec.
Qed.

(** [n < 10 ^ d] is written with at most [d] digits, whatever the fuel. *)
Lemma dec_length k d n :
  0 <= n < 10 ^ (Z.of_nat d + 1) -> (length (dec k n) <= d + 1)%nat.
Proof.
  revert d n. induction k as [|k IH]; intros d n Hn; cbn [dec]; [cbn; lia|].
  destruct (Z.ltb_spec n 10); [cbn; lia|].
  rewrite length_app. cbn. destruct d as [|d].
  { change (10 ^ (Z.of_nat 0 + 1)) with 10 in Hn. lia. }
  enough (length (dec k (n / 10)) <= d + 1)%nat by lia. apply IH.
  split; [apply Z.div_pos; lia|].
  apply Z.div_lt_upper_bound; [lia|]. rewrite <- Z.pow_succ_r by lia.
  replace (Z.succ (Z.of_nat d + 1)) with (Z.of_nat (S d) + 1) by lia. lia.
Qed.

Lemma pow64_dec n : 0 <= n < 2 ^ 64 -> 0 <= n < 10 ^ (Z.of_nat 19 + 1).
Proof.
  intros [? H]. split; [done|]. eapply Z.lt_le_trans; [exact H|]. vm_compute. congruence.
Qed.

Lemma fmt_d_nonneg z : 0 <= z -> fmt_d z = dec 19 z.
Proof. intros. unfold fmt_d. destruct (Z.ltb_spec z 0); [lia|done]. Qed.

(** Reading back a formatted integer of at most 64 bits. *)
Lemma parse_fmt_d z : - 2 ^ 63 <= z < 2 ^ 64 -> parse_d (fmt_d z) = Some z.
Proof.
  intros Hz.
  assert (2 ^ 64 < 10 ^ (Z.of_nat 19 + 1) /\ 2 ^ 63 < 10 ^ (Z.of_nat 19 + 1)) as [H64 H63]
    by (vm_compute; split; reflexivity).
  unfold fmt_d. destruct (Z.ltb_spec z 0).
  - cbn [lit String.list_ascii_of_string app parse_d].
    rewrite bool_decide_eq_true_2 by done. rewrite undec_dec by lia.
    cbn. f_equal. lia.
  - pose proof (dec_digits 19 z ltac:(lia)) as Hd.
    pose proof (undec_dec 19 z ltac:(lia)) as Hu.
    pose proof (dec_nonempty 19 z) as Hne.
    revert Hd Hu Hne. generalize (dec 19 z). intros [|c l] Hd Hu Hne; [done|].
    cbn [parse_d]. rewrite bool_decide_eq_false_2; [exact Hu|].
    intros ->. apply Forall_cons in Hd. by destruct Hd.
Qed.

(** ** Residues *)

Lemma mod_of_eq a q s x : x = a + s * q -> 0 <= a < s -> x mod s = a.
Proof.
  intros -> H. rewrite (Z.mul_comm s), Z.mod_add by lia. by apply Z.mod_small.
Qed.

(** [x & (2^k - 1)] is the residue, also for a negative [x]. *)
Lemma land_mask x k : 0 <= k -> Z.land x (2 ^ k - 1) = x mod 2 ^ k.
Proof.
  intros. replace (2 ^ k - 1) with (Z.ones k) by (rewrite Z.ones_equiv; lia).
  by apply Z.land_ones.
Qed.

(** Wrapping to 32 bits keeps the residue modulo a smaller power of two. *)
Lemma s32_mod_pow2 z k : 0 <= k <= 32 -> s32 z mod 2 ^ k = z mod 2 ^ k.
Proof.
  intros Hk. assert (H : 2 ^ 32 = 2 ^ k * 2 ^ (32 - k))
    by (rewrite <- Z.pow_add_r by lia; f_equal; lia).
  pose proof (pow2_pos k ltac:(lia)).
  pose proof (Z.div_mod (s32 z) (2 ^ 32) ltac:(lia)) as E1.
  pose proof (Z.div_mod z (2 ^ 32) ltac:(lia)) as E2.
  rewrite s32_mod in E1.
  set (d := s32 z / 2 ^ 32 - z / 2 ^ 32).
  assert (Hd : s32 z = z + 2 ^ 32 * d) by (unfold d; lia).
  rewrite Hd, H. replace (2 ^ k * 2 ^ (32 - k) * d) with (2 ^ (32 - k) * d * 2 ^ k) by ring.
  apply Z.mod_add. lia.
Qed.
