(* ===== verification/Kernel.v ===== *)
(** * The kernel's headers (Thridlibrary/include/GridSeed/include)

    What every module takes from the platform and kernel headers: the text
    helpers of MultiSys.h and LinSys.h, the constants of IKernel.h and the
    module base class of IModule.h, with the C string functions they rely on.
    The XML reader of the configuration files is not in the repository; it is
    the class [Xml]. *)
From Stdlib Require Import ZArith Lia Ascii.
From stdpp Require Import base numbers list list_numbers strings.
From S2P Require Import Prelude.
Open Scope Z_scope.

(** ** C strings *)

(** The characters before the terminating NUL. *)
Fixpoint cstr (s : bytes) : bytes :=
  match s with
  | [] => []
  | c :: s' => if bool_decide (c = NUL) then [] else c :: cstr s'
  end.

Definition strlen (s : bytes) : Z := Z.of_nat (length (cstr s)).

(** [SafeSprintf(buff, size, ...)] is [vsnprintf]: at most [size - 1]
    characters of the formatted text are stored. *)
Definition SafeSprintf (size : Z) (text : bytes) : bytes := take (Z.to_nat (size - 1)) text.

Definition no_nul (s : bytes) : Prop := Forall (fun c => c <> NUL) s.

#[export] Instance no_nul_dec s : Decision (no_nul s).
Proof. unfold no_nul. apply _. Defined.

Lemma cstr_id s : no_nul s -> cstr s = s.
Proof.
  induction 1 as [|c s Hc Hs IH]; [done|]. cbn [cstr].
  by rewrite bool_decide_eq_false_2, IH.
Qed.

Lemma cstr_no_nul s : no_nul (cstr s).
Proof. induction s as [|c s IH]; cbn [cstr]; [constructor|]. case_bool_decide; by constructor. Qed.

(** The NUL that ends a C string hides what is behind it. *)
Lemma cstr_nul s t : no_nul s -> cstr (s ++ NUL :: t) = s.
Proof.
  induction 1 as [|c s Hc Hs IH]; cbn [cstr app]; [by rewrite bool_decide_eq_true_2|].
  by rewrite bool_decide_eq_false_2, IH.
Qed.

Lemma digit_no_nul c : is_digit c = true -> c <> NUL.
Proof. by intros H ->. Qed.

Lemma fmt_d_no_nul n : 0 <= n < 2 ^ 64 -> no_nul (fmt_d n).
Proof.
  intros Hn. pose proof (pow64_dec n Hn). rewrite fmt_d_nonneg by lia.
  eapply Forall_impl; [by apply dec_digits|]. intros c. apply digit_no_nul.
Qed.

Lemma SafeSprintf_fits size s : no_nul s -> Z.of_nat (length s) < size ->
  cstr (SafeSprintf size s) = s.
Proof.
  intros Hs Hl. unfold SafeSprintf. rewrite take_ge by lia. by apply cstr_id.
Qed.

(** The double quote. *)
Definition QUOTE : bytes := [ascii_of_N 34].

(** ** Constants *)

Definition MAX_PATH : Z := 260.
Definition MAIN_THREAD_IDX : Z := 0.
Definition FOREVER : Z := -1.
Definition MODULE_NAME_LENGTH : Z := 64.
Definition LOG_BUFF_SIZE : Z := 4096.

(** ** Configuration files (XmlReader.h) *)

Class Xml : Type := {
  xml : Type;
  (** The root of the configuration file; [None]: it does not load. *)
  LoadFile : option xml;
  GetFirstChrild : xml -> bytes -> option xml;
  GetNextSibling : xml -> option xml;
  GetAttribute_Str : xml -> bytes -> bytes;
  GetAttribute_S32 : xml -> bytes -> Z
}.

(** ** File names in logs (LinSys.h, WinSys.h) *)

(** [filePath[i]] of a C string of the given characters, its NUL included. *)
Definition char_of (filePath : bytes) (i : Z) : outcome ascii :=
  if i <? 0 then Fault OutOfBounds else of_option OutOfBounds ((filePath ++ [NUL]) !! Z.to_nat i).

(** The recursion on [len], on its number [n = len + 1] of steps left; [sep]
    is what the system has between the parts of a path. *)
Fixpoint getFileName_at (sep : ascii) (filePath : bytes) (n : nat) : outcome bytes :=
  match n with
  | O => Ok filePath
  | S len =>
      c ← char_of filePath (Z.of_nat len);
      if bool_decide (c = sep) then Ok (drop (S len) filePath) else getFileName_at sep filePath len
  end.

Definition getFileName (filePath : bytes) (len : Z) : outcome bytes :=
  getFileName_at "/"%char filePath (Z.to_nat (len + 1)).

(** The last component of a path, as a reference. *)
Fixpoint base_of (sep : ascii) (s : bytes) : bytes :=
  match s with
  | [] => []
  | c :: s' => if bool_decide (sep ∈ s') then base_of sep s'
               else if bool_decide (c = sep) then s' else c :: s'
  end.

Definition basename : bytes -> bytes := base_of "/"%char.

(** ** Modules (IModule.h) *)

Record IModule : Type := mkModule { _name : bytes }.

Definition IModule_new : IModule := mkModule (replicate (Z.to_nat MODULE_NAME_LENGTH) NUL).

(** [memcpy(_name, name, strlen(name))]. *)
Definition SetName (m : IModule) (name : bytes) : outcome IModule :=
  n ← of_option OutOfBounds (mem_write (_name m) 0 (cstr name)); Ok (mkModule n).

(** [_name] read as a C string: past its end there is another object. *)
Definition GetName (m : IModule) : outcome bytes :=
  if bool_decide (NUL ∈ _name m) then Ok (cstr (_name m)) else Fault OutOfBounds.

(** [CREATE_MODULE(name)]: the new module is put in front of the list that
    [_next] links from [g_module]. *)
Definition CREATE_MODULE (name : bytes) (g_module : list IModule) : outcome (list IModule) :=
  m ← SetName IModule_new name; Ok (m :: g_module).

(** The libraries' main.cpp: [GET_DLL_ENTRANCE] starts with no module and
    exports [GetLogicModule], which returns the list. *)
Definition GET_DLL_ENTRANCE : list IModule := [].
Definition RedisMgr_GetLogicModule : outcome (list IModule) := CREATE_MODULE (lit "RedisMgr") GET_DLL_ENTRANCE.
Definition MysqlMgr_GetLogicModule : outcome (list IModule) := CREATE_MODULE (lit "MysqlMgr") GET_DLL_ENTRANCE.
Definition ScriptEngine_GetLogicModule : outcome (list IModule) :=
  CREATE_MODULE (lit "ScriptEngine") GET_DLL_ENTRANCE.
Definition UnitTest_GetLogicModule : outcome (list IModule) := CREATE_MODULE (lit "UnitTest") GET_DLL_ENTRANCE.

(** [FIND_MODULE(module, name)], with the kernel's [FindModule]. *)
Definition FIND_MODULE `{Build} {A} (FindModule : bytes -> option A) (name : bytes) : outcome (option A) :=
  let module := FindModule name in ASSERT (bool_decide (is_Some module));; Ok module.

(** ** Properties *)

Lemma base_of_none sep s : sep ∉ s -> base_of sep s = s.
Proof.
  destruct s as [|c s]; [done|]. cbn [base_of]. intros [Hc Hs]%not_elem_of_cons.
  rewrite bool_decide_eq_false_2 by done. by rewrite bool_decide_eq_false_2 by congruence.
Qed.

Lemma base_of_last sep a b : sep ∉ b -> base_of sep (a ++ sep :: b) = b.
Proof.
  intros Hb. induction a as [|c a IH]; cbn [app base_of].
  - rewrite bool_decide_eq_false_2 by done. by rewrite bool_decide_eq_true_2.
  - rewrite bool_decide_eq_true_2; [done|]. apply elem_of_app. right. by left.
Qed.

Lemma getFileName_at_spec sep path n : (n <= length path)%nat -> sep ∉ drop n path ->
  getFileName_at sep path n = Ok (base_of sep path).
Proof.
  induction n as [|n IH]; intros Hn Hd; cbn [getFileName_at].
  { by rewrite base_of_none. }
  destruct (lookup_lt_is_Some_2 path n) as [c Hc]; [lia|].
  unfold char_of. destruct (Z.ltb_spec (Z.of_nat n) 0); [lia|].
  rewrite Nat2Z.id, lookup_app_l, Hc by lia. cbn [of_option mbind outcome_bind].
  case_bool_decide as E.
  - subst c. f_equal. rewrite <- (take_drop_middle path n _ Hc) at 2. by rewrite base_of_last.
  - apply IH; [lia|]. rewrite (drop_S path c n Hc). intros [?|?]%elem_of_cons; congruence.
Qed.

(** The recursion the log macros evaluate on [__FILE__] and the length of
    the literal ends and never reads outside of it; it returns what is behind
    the last separator, and the whole name when there is none. *)
Lemma getFileName_at_base sep path : sep <> NUL ->
  getFileName_at sep path (S (length path)) = Ok (base_of sep path).
Proof.
  intros Hsep. cbn [getFileName_at].
  unfold char_of. destruct (Z.ltb_spec (Z.of_nat (length path)) 0); [lia|].
  rewrite Nat2Z.id, list_lookup_middle by done. cbn [of_option mbind outcome_bind].
  rewrite bool_decide_eq_false_2 by congruence.
  apply getFileName_at_spec; [lia|]. rewrite drop_ge by lia. apply not_elem_of_nil.
Qed.

Lemma getFileName_basename path : no_nul path ->
  getFileName path (strlen path) = Ok (basename path).
Proof.
  intros Hp. unfold getFileName, strlen. rewrite (cstr_id _ Hp).
  replace (Z.to_nat _) with (S (length path)) by lia. by apply getFileName_at_base.
Qed.

Lemma SetName_new name : no_nul name -> (length name <= 64)%nat ->
  SetName IModule_new name = Ok (mkModule (name ++ replicate (64 - length name) NUL)).
Proof.
  intros Hn Hl. unfold SetName, IModule_new, MODULE_NAME_LENGTH. rewrite (cstr_id _ Hn).
  change (Z.to_nat 64) with 64%nat. cbn [Kernel._name].
  rewrite mem_write_Some by (rewrite ?length_replicate; lia). cbn [of_option mbind outcome_bind take app].
  change (Z.to_nat 0) with 0%nat. cbn [Nat.add take app]. by rewrite drop_replicate.
Qed.

(** A module is registered under its name when the name has at most 63
    characters: it is put in front of the modules registered before and
    [GetName] gives the name back.  [SetName] copies without a bound: with 64
    characters the name has no terminating NUL and [GetName] reads past the
    member, with more the copy itself leaves it. *)
Theorem CREATE_MODULE_name name mods : no_nul name ->
  ((length name <= 63)%nat -> exists m, CREATE_MODULE name mods = Ok (m :: mods) /\ GetName m = Ok name) /\
  (length name = 64%nat -> exists m, CREATE_MODULE name mods = Ok (m :: mods) /\ GetName m = Fault OutOfBounds) /\
  ((64 < length name)%nat -> CREATE_MODULE name mods = Fault OutOfBounds).
Proof.
  intros Hn. split_and!; intros Hl; unfold CREATE_MODULE.
  - rewrite SetName_new by (done || lia). eexists. split; [reflexivity|]. unfold GetName. cbn [Kernel._name].
    destruct (64 - length name)%nat as [|k] eqn:Ek; [lia|]. cbn [replicate].
    rewrite bool_decide_eq_true_2; [by rewrite cstr_nul|]. apply elem_of_app. right. by left.
  - rewrite SetName_new by (done || lia). eexists. split; [reflexivity|]. unfold GetName. cbn [Kernel._name].
    rewrite Hl, Nat.sub_diag. cbn [replicate]. rewrite app_nil_r.
    rewrite bool_decide_eq_false_2; [done|]. intros Hin. unfold no_nul in Hn. rewrite Forall_forall in Hn.
    by apply (Hn NUL Hin).
  - unfold SetName, IModule_new, MODULE_NAME_LENGTH, mem_write. rewrite (cstr_id _ Hn).
    rewrite bool_decide_eq_false_2; [done|]. cbn [Kernel._name]. rewrite length_replicate. lia.
Qed.

Lemma CREATE_MODULE_name_witness : exists m,
  CREATE_MODULE (lit "RedisMgr") [] = Ok [m] /\ GetName m = Ok (lit "RedisMgr").
Proof.
  destruct (CREATE_MODULE_name (lit "RedisMgr") []) as [H _]; [repeat constructor; done|].
  apply H. cbn. lia.
Defined.

(** Every library exports one module, under the name the tests look up. *)
Lemma entry_points : Forall (fun p => exists m, snd p = Ok [m] /\ GetName m = Ok (fst p))
  [(lit "RedisMgr", RedisMgr_GetLogicModule); (lit "MysqlMgr", MysqlMgr_GetLogicModule);
   (lit "ScriptEngine", ScriptEngine_GetLogicModule); (lit "UnitTest", UnitTest_GetLogicModule)].
Proof. repeat constructor; eexists; (split; [reflexivity|vm_compute; reflexivity]). Qed.
