(* ===== verification/KernelLog.v ===== *)
(** * The macros of the kernel headers (GridSeed/include/IKernel.h, LinSys.h; the Linux versions)

    A log macro is called with a format literal and its arguments.  It builds one
    text in a buffer of [LOG_BUFF_SIZE] bytes and hands it to the kernel; the
    macros that have a level do nothing at all below the global one.  The
    format is written [#format], which is the spelling of the literal, its
    quotation marks included: [message] is that spelling with the arguments
    filled in.  [WARN_LOG] expands a name it has not declared and compiles
    nowhere, so nothing uses it. *)
From Stdlib Require Import ZArith Lia Ascii.
From stdpp Require Import base numbers list list_numbers strings.
From S2P Require Import Prelude Kernel.
Open Scope Z_scope.

Definition LOG_LEVEL_DEBUG : Z := 0.
Definition LOG_LEVEL_TRACE : Z := 1.
Definition LOG_LEVEL_WARN : Z := 2.
Definition LOG_LEVEL_ERROR : Z := 3.

(** What the kernel, or standard output, is given. *)
Inductive log_call : Type :=
  | SyncLog (contents : bytes)
  | AsyncLog (fileName : option bytes) (content : bytes)
  | ThreadLog (fileName : option bytes) (contents : bytes)
  | Printed (text : bytes).

(** [__FILE__], [__LINE__] and [__FUNCTION__]. *)
Record site : Type := mkSite {
  site_file : bytes;
  site_line : Z;
  site_function : bytes
}.

(** The spelling of a literal. *)
Definition spelled (text : bytes) : bytes := QUOTE ++ text ++ QUOTE.

(** [SafeSprintf(log, sizeof(log), "[label]: %s:%d:%s | "#format, ...)]. *)
Definition log_text (label : bytes) (s : site) (message : bytes) : outcome bytes :=
  name ← getFileName (site_file s) (strlen (site_file s));
  Ok (cstr (SafeSprintf LOG_BUFF_SIZE
    (lit "[" ++ label ++ lit "]: " ++ name ++ lit ":" ++ fmt_d (site_line s) ++ lit ":" ++
     site_function s ++ lit " | " ++ message))).

Section Log.
(** [core::G_KERNEL::g_logLvl]. *)
Variable g_logLvl : Z.

Definition DEBUG_LOG (s : site) (message : bytes) : outcome (list log_call) :=
  if g_logLvl <=? LOG_LEVEL_DEBUG then log ← log_text (lit "DEBUG") s message; Ok [AsyncLog None log] else Ok [].

Definition TRACE_LOG (s : site) (message : bytes) : outcome (list log_call) :=
  if g_logLvl <=? LOG_LEVEL_TRACE then log ← log_text (lit "TRACE") s message; Ok [AsyncLog None log] else Ok [].

Definition ERROR_LOG (s : site) (message : bytes) : outcome (list log_call) :=
  log ← log_text (lit "ERROR") s message; Ok [SyncLog log].

Definition LABEL_LOG (logLvl : Z) (label : bytes) (s : site) (message : bytes) : outcome (list log_call) :=
  if g_logLvl <=? logLvl then log ← log_text label s message; Ok [AsyncLog None log] else Ok [].

Definition IMPORTANT_LOG (labl : bytes) (s : site) (message : bytes) : outcome (list log_call) :=
  log ← log_text labl s message; Ok [SyncLog log].

Definition THREAD_LOG (labl : bytes) (s : site) (message : bytes) : outcome (list log_call) :=
  log ← log_text labl s message; Ok [ThreadLog None log].

(** Nothing stands between the function and the spelled format. *)
Definition ECHO (s : site) (message : bytes) : list log_call :=
  [Printed (cstr (SafeSprintf LOG_BUFF_SIZE
     (site_file s ++ lit ":" ++ fmt_d (site_line s) ++ lit ":" ++ site_function s ++ message)) ++ [ascii_of_N 10])].
End Log.

(** ** Timers, frames and tasks (IKernel.h) *)

(** What the macros ask of the kernel; [T] is the object they hand over. *)
Inductive kernel_call (T : Type) : Type :=
  | StartTimer (timer : T) (delay count interval : Z) (trace : bytes)
  | AddFrame (frame : T) (runLvl : Z) (trace : bytes)
  | StartAsync (threadId : Z) (handler : T) (file : bytes) (line : Z).
Arguments StartTimer {T}.
Arguments AddFrame {T}.
Arguments StartAsync {T}.

(** [char trace[256]] *)
Definition trace_text (s : site) : bytes :=
  cstr (SafeSprintf 256 (lit "trace: " ++ site_file s ++ lit ":" ++ fmt_d (site_line s))).

Definition ADD_TIMER {T} (s : site) (timer : T) (delay count interval : Z) : kernel_call T :=
  StartTimer timer delay count interval (trace_text s).

Definition ADD_FRAME {T} (s : site) (frame : T) (runLvl : Z) : kernel_call T :=
  AddFrame frame runLvl (trace_text s).

Definition START_ASYNC {T} (s : site) (id : Z) (handler : T) : kernel_call T :=
  StartAsync id handler (site_file s) (site_line s).

(** ** Properties *)

Lemma no_nul_app a b : no_nul (a ++ b) <-> no_nul a /\ no_nul b.
Proof. apply Forall_app. Qed.

Lemma no_nul_cut n a : no_nul a -> no_nul (take n a).
Proof. apply Forall_take. Qed.

Lemma no_nul_base sep s : no_nul s -> no_nul (base_of sep s).
Proof.
  induction s as [|c s IH]; intros Hs; [done|]. cbn [base_of]. apply Forall_cons in Hs as [Hc Hs].
  repeat case_bool_decide; [by apply IH|done|by constructor].
Qed.

(** What a text is meant to be: the label, the name of the file without its
    directories, the line, the function and the message, cut to the buffer. *)
Definition text_of (label : bytes) (s : site) (message : bytes) : bytes :=
  take 4095 (lit "[" ++ label ++ lit "]: " ++ basename (site_file s) ++ lit ":" ++ fmt_d (site_line s) ++
             lit ":" ++ site_function s ++ lit " | " ++ message).

(** A trace is never longer than its buffer, and whole when it fits. *)
Lemma trace_text_fits s : no_nul (site_file s) -> 0 <= site_line s < 2 ^ 31 ->
  let t := lit "trace: " ++ site_file s ++ lit ":" ++ fmt_d (site_line s) in
  trace_text s = take 255 t /\ ((length t <= 255)%nat -> trace_text s = t).
Proof.
  intros Hf Hs t. assert (Ht : no_nul t).
  { unfold t. rewrite !no_nul_app. split_and!; try assumption; [..|apply fmt_d_no_nul; lia];
      apply (bool_decide_unpack _); vm_compute; reflexivity. }
  assert (E : trace_text s = take 255 t) by (apply cstr_id, no_nul_cut, Ht).
  split; [exact E|]. intros Hl. rewrite E. by apply take_ge.
Qed.

Lemma log_text_spec label s message : no_nul (site_file s) -> no_nul (site_function s) -> 0 <= site_line s < 2 ^ 31 ->
  no_nul label -> no_nul message -> log_text label s message = Ok (text_of label s message).
Proof.
  intros Hf Hg Hs Hl Hm. unfold log_text. rewrite getFileName_basename by done. cbn [mbind outcome_bind]. f_equal.
  apply cstr_id, no_nul_cut. rewrite !no_nul_app. split_and!; try assumption;
    try lazymatch goal with |- no_nul (lit _) => apply (bool_decide_unpack _); vm_compute; reflexivity end.
  - by apply no_nul_base.
  - apply fmt_d_no_nul. lia.
Qed.

(** The log macros against a reference: where the texts have no NUL, every
    macro ends without reading outside a file name and hands the kernel
    exactly one text, which is at most [LOG_BUFF_SIZE - 1] characters long;
    those with a level hand over nothing below the global one, and error,
    important and thread logs are never filtered. *)
Theorem log_macros g s labl lvl message : no_nul (site_file s) -> no_nul (site_function s) ->
  0 <= site_line s < 2 ^ 31 -> no_nul labl -> no_nul message ->
  DEBUG_LOG g s message = Ok (if g <=? 0 then [AsyncLog None (text_of (lit "DEBUG") s message)] else []) /\
  TRACE_LOG g s message = Ok (if g <=? 1 then [AsyncLog None (text_of (lit "TRACE") s message)] else []) /\
  LABEL_LOG g lvl labl s message = Ok (if g <=? lvl then [AsyncLog None (text_of labl s message)] else []) /\
  ERROR_LOG s message = Ok [SyncLog (text_of (lit "ERROR") s message)] /\
  IMPORTANT_LOG labl s message = Ok [SyncLog (text_of labl s message)] /\
  THREAD_LOG labl s message = Ok [ThreadLog None (text_of labl s message)] /\
  forall l, (length (text_of l s message) < Z.to_nat LOG_BUFF_SIZE)%nat.
Proof.
  intros Hf Hg Hs Hl Hm. unfold DEBUG_LOG, TRACE_LOG, LABEL_LOG, ERROR_LOG, IMPORTANT_LOG, THREAD_LOG.
  rewrite !log_text_spec by (assumption || (apply (bool_decide_unpack _); vm_compute; reflexivity)).
  cbn [mbind outcome_bind]. unfold LOG_LEVEL_DEBUG, LOG_LEVEL_TRACE. split_and!; try done; [by case_match..|].
  intros l. unfold text_of. rewrite length_take. change (Z.to_nat LOG_BUFF_SIZE) with 4096%nat. lia.
Qed.

Definition loaded : site := mkSite (lit "logic/Core/ScriptEngine/ScriptEngine.cpp") 133 (lit "ExecScriptFile").

Lemma log_macros_witness : TRACE_LOG LOG_LEVEL_TRACE loaded (spelled (lit "loaded ok")) =
  Ok [AsyncLog None (lit "[TRACE]: ScriptEngine.cpp:133:ExecScriptFile | " ++ QUOTE ++ lit "loaded ok" ++ QUOTE)].
Proof.
  destruct (log_macros LOG_LEVEL_TRACE loaded (lit "LUA") LOG_LEVEL_DEBUG (spelled (lit "loaded ok")))
    as (_ & -> & _); try (apply (bool_decide_unpack _); vm_compute; reflexivity). reflexivity.
Defined.
