(* ===== verification/KernelWin.v ===== *)
(** * The log macros on Windows (GridSeed/include/IKernel.h, WinSys.h)

    They differ from those of [KernelLog] in the size of the buffer, in the
    separator of file names, and in that a debug build also writes the text to
    the console.  [WARN_LOG] and [FILE_LOG] work only here.  The macros of
    IUnitTest.h are here too: they write to the console and so belong to
    Windows. *)
From Stdlib Require Import ZArith Lia Ascii.
From stdpp Require Import base numbers list list_numbers strings.
From S2P Require Import Prelude Kernel KernelLog.
Open Scope Z_scope.

Definition WIN_LOG_BUFF_SIZE : Z := 2048.

Definition win_getFileName (filePath : bytes) (len : Z) : outcome bytes :=
  getFileName_at "\"%char filePath (Z.to_nat (len + 1)).

(** The text between the label and the message. *)
Definition win_site (s : site) : outcome bytes :=
  name ← win_getFileName (site_file s) (strlen (site_file s));
  Ok (name ++ lit ":" ++ fmt_d (site_line s) ++ lit ":" ++ site_function s ++ lit " | ").

Definition win_log (prefix : bytes) (s : site) (message : bytes) : outcome bytes :=
  at_ ← win_site s;
  Ok (cstr (SafeSprintf WIN_LOG_BUFF_SIZE (prefix ++ at_ ++ message))).

Definition win_label (label : bytes) : bytes := lit "[" ++ label ++ lit "]: ".

Section Win.
(** [core::G_KERNEL::g_logLvl], and whether [_DEBUG] is defined. *)
Variables (g_logLvl : Z) (debug : bool).

(** The colour changes nothing that is written. *)
Definition PrintToConsel (content : bytes) : list log_call :=
  if debug then [Printed (content ++ [ascii_of_N 10])] else [].

Definition WIN_DEBUG_LOG (s : site) (message : bytes) : outcome (list log_call) :=
  if g_logLvl <=? LOG_LEVEL_DEBUG then
    log ← win_log (win_label (lit "DEBUG")) s message; Ok (PrintToConsel log ++ [AsyncLog None log])
  else Ok [].

Definition WIN_TRACE_LOG (s : site) (message : bytes) : outcome (list log_call) :=
  if g_logLvl <=? LOG_LEVEL_TRACE then
    log ← win_log (win_label (lit "TRACE")) s message; Ok (PrintToConsel log ++ [AsyncLog None log])
  else Ok [].

Definition WIN_WARN_LOG (s : site) (message : bytes) : outcome (list log_call) :=
  if g_logLvl <=? LOG_LEVEL_WARN then
    log ← win_log (win_label (lit "WARN")) s message; Ok (PrintToConsel log ++ [AsyncLog None log])
  else Ok [].

Definition WIN_ERROR_LOG (s : site) (message : bytes) : outcome (list log_call) :=
  log ← win_log (win_label (lit "ERROR")) s message; Ok (PrintToConsel log ++ [SyncLog log]).

Definition WIN_LABEL_LOG (logLvl : Z) (label : bytes) (s : site) (message : bytes) : outcome (list log_call) :=
  if g_logLvl <=? logLvl then
    log ← win_log (win_label label) s message; Ok (PrintToConsel log ++ [AsyncLog None log])
  else Ok [].

Definition FILE_LOG (logLvl : Z) (fileName : option bytes) (s : site) (message : bytes)
    : outcome (list log_call) :=
  if g_logLvl <=? logLvl then
    log ← win_log [] s message; Ok (PrintToConsel log ++ [AsyncLog fileName log])
  else Ok [].

Definition WIN_IMPORTANT_LOG (labl : bytes) (s : site) (message : bytes) : outcome (list log_call) :=
  log ← win_log (win_label labl) s message; Ok (PrintToConsel log ++ [SyncLog log]).

(** Here the text is printed in every build. *)
Definition WIN_THREAD_LOG (labl : bytes) (s : site) (message : bytes) : outcome (list log_call) :=
  log ← win_log (win_label labl) s message; Ok [Printed (log ++ [ascii_of_N 10]); ThreadLog None log].

(** IUnitTest.h. *)
Definition TEST_LOG (s : site) (message : bytes) : outcome (list log_call) :=
  log ← win_log (win_label (lit "UnitTest")) s message;
  Ok (PrintToConsel log ++ [ThreadLog (Some (lit "UnitTest")) log]).
End Win.

(** ** Properties *)

Definition win_text (prefix : bytes) (s : site) (message : bytes) : bytes :=
  take 2047 (prefix ++ base_of "\"%char (site_file s) ++ lit ":" ++ fmt_d (site_line s) ++
             lit ":" ++ site_function s ++ lit " | " ++ message).

Lemma win_log_spec prefix s message : no_nul (site_file s) -> no_nul (site_function s) ->
  0 <= site_line s < 2 ^ 31 -> no_nul prefix -> no_nul message ->
  win_log prefix s message = Ok (win_text prefix s message).
Proof.
  intros Hf Hg Hs Hl Hm. unfold win_log, win_site, win_getFileName, strlen. rewrite (cstr_id _ Hf).
  replace (Z.to_nat _) with (S (length (site_file s))) by lia. rewrite getFileName_at_base by done.
  cbn [mbind outcome_bind]. f_equal. unfold win_text, SafeSprintf. rewrite <- !app_assoc.
  apply cstr_id, no_nul_cut. rewrite !no_nul_app. split_and!; try assumption;
    try lazymatch goal with |- no_nul (lit _) => apply (bool_decide_unpack _); vm_compute; reflexivity end.
  - by apply no_nul_base.
  - apply fmt_d_no_nul. lia.
Qed.

(** What the kernel is given on Windows is what it is given on Linux, for a
    text that fits both buffers and a file name without separators. *)
Lemma win_log_linux label s message : no_nul (site_file s) -> no_nul (site_function s) ->
  0 <= site_line s < 2 ^ 31 -> no_nul label -> no_nul message ->
  "/"%char ∉ site_file s -> "\"%char ∉ site_file s ->
  (length (text_of label s message) <= 2047)%nat ->
  win_log (win_label label) s message = log_text label s message.
Proof.
  intros Hf Hg Hs Hl Hm H1 H2 Hlen. rewrite log_text_spec by done.
  rewrite win_log_spec; try assumption.
  2:{ unfold win_label. rewrite !no_nul_app. split_and!; [|assumption|];
        apply (bool_decide_unpack _); vm_compute; reflexivity. }
  f_equal. unfold text_of, basename in Hlen |- *. unfold win_text, win_label.
  rewrite !base_of_none in * by done. rewrite <- !app_assoc. rewrite length_take in Hlen.
  rewrite !take_ge by lia. done.
Qed.
