(* ===== verification/CircularBuffer.v ===== *)
(** * The receive/send ring buffer (GridSeed/include/CircularBuffer.h)

    [CircluarBuffer] (the source's spelling) is a byte ring with free-running
    32-bit read and write counters.  The record holds its five fields; every
    member function is a definition of the same name.  [contents] is the
    abstraction: the bytes written and not yet read, oldest first.  The
    theorems show that the operations implement a bounded FIFO of that
    abstraction, also when the counters wrap around, and what the constructor
    does on each size. *)
From Stdlib Require Import ZArith Lia Ascii.
From stdpp Require Import base numbers list list_numbers strings.
From S2P Require Import Prelude.
Open Scope Z_scope.

(** ** The class *)

Record CircluarBuffer : Type := {
  _buff : bytes;
  _size : Z;
  _wcount : Z;
  _rcount : Z;
  _mask : Z
}.

(** [while (!(temp & num)) temp >>= 1; return temp << 1;] *)
Fixpoint roundup_loop (fuel : nat) (temp num : Z) : outcome Z :=
  match fuel with
  | O => OutOfFuel
  | S fuel' =>
      if Z.land temp num =? 0 then roundup_loop fuel' (Z.shiftr temp 1) num
      else Ok (s32 (Z.shiftl temp 1))
  end.

(** [temp] starts at [~numeric_limits<s16>::max()]. *)
Definition RoundupPowerOf2 (num : Z) : outcome Z := roundup_loop 16 (Z.lnot 32767) num.

(** [junk n] is what [new char[n]] returns: memory with arbitrary contents.  A
    negative count makes [new] throw. *)
Definition CircluarBuffer_ctor (junk : Z -> bytes) (size : Z) : outcome CircluarBuffer :=
  size ← (if Z.land size (s32 (size - 1)) =? 0 then mret size else RoundupPowerOf2 size);
  if size <? 0 then Fault BadAlloc else
  Ok {| _buff := junk size; _size := size; _wcount := 0; _rcount := 0;
        _mask := s32 (size - 1) |}.

Definition DataSize (b : CircluarBuffer) : Z := s32 (_wcount b - _rcount b).

Definition GetUnUsed (b : CircluarBuffer) : Z := s32 (_size b - DataSize b).

Definition GetBufferSize (b : CircluarBuffer) : Z := _size b.

(** [s32 Write(const void *buffer, s32 len)]: the number of bytes taken. *)
Definition Write (b : CircluarBuffer) (buffer : bytes) (len : Z)
    : outcome (Z * CircluarBuffer) :=
  let l := GetUnUsed b in
  let len := if l <? len then l else len in
  let off := Z.land (_wcount b) (_mask b) in
  let l := Z.min len (_size b - off) in
  src1 ← of_option OutOfBounds (mem_read buffer 0 l);
  buff1 ← of_option OutOfBounds (mem_write (_buff b) off src1);
  src2 ← of_option OutOfBounds (mem_read buffer l (len - l));
  buff2 ← of_option OutOfBounds (mem_write buff1 0 src2);
  Ok (len, {| _buff := buff2; _size := _size b; _wcount := s32 (_wcount b + len);
              _rcount := _rcount b; _mask := _mask b |}).

(** [s32 Read(void *buff, s32 len)]: the count, with the bytes stored in
    [buff]. *)
Definition Read (b : CircluarBuffer) (len : Z) : outcome (Z * bytes * CircluarBuffer) :=
  let l := s32 (_wcount b - _rcount b) in
  if l =? 0 then Ok (0, [], b) else
  let len := if l <? len then l else len in
  let off := Z.land (_rcount b) (_mask b) in
  let l := Z.min len (_size b - off) in
  dst1 ← of_option OutOfBounds (mem_read (_buff b) off l);
  dst2 ← of_option OutOfBounds (mem_read (_buff b) 0 (len - l));
  Ok (len, dst1 ++ dst2,
      {| _buff := _buff b; _size := _size b; _wcount := _wcount b;
         _rcount := s32 (_rcount b + len); _mask := _mask b |}).

(** [GetCanWriteBuff]: offset in [_buff] and length of the writable region,
    [None] for [nullptr]. *)
Definition GetCanWriteBuff (b : CircluarBuffer) : option (Z * Z) :=
  if 0 =? GetUnUsed b then None else
  let realW := Z.land (_wcount b) (_mask b) in
  let realR := Z.land (_rcount b) (_mask b) in
  let len := if realR <=? realW then _size b - realW else realR - realW in
  Some (realW, len).

(** [WriteBuff]: commits bytes a caller stored through [GetCanWriteBuff]. *)
Definition WriteBuff (b : CircluarBuffer) (size : Z) : CircluarBuffer :=
  {| _buff := _buff b; _size := _size b; _wcount := s32 (_wcount b + size);
     _rcount := _rcount b; _mask := _mask b |}.

Definition GetCanReadBuff (b : CircluarBuffer) : option (Z * Z) :=
  if _rcount b =? _wcount b then None else
  let realW := Z.land (_wcount b) (_mask b) in
  let realR := Z.land (_rcount b) (_mask b) in
  let len := if realR <? realW then s32 (_wcount b - _rcount b) else _size b - realR in
  Some (realR, len).

(** What [TryReadBuff] returns: a pointer into the ring, or the caller's
    buffer after the bytes were copied into it. *)
Inductive read_ptr : Type :=
  | InRing (off : Z)
  | InCaller (copied : bytes).

Definition TryReadBuff (b : CircluarBuffer) (len : Z) : outcome (option read_ptr) :=
  if DataSize b <? len then Ok None else
  let realW := Z.land (_wcount b) (_mask b) in
  let realR := Z.land (_rcount b) (_mask b) in
  if realR <? realW then Ok (Some (InRing realR)) else
  let l := Z.min len (_size b - realR) in
  dst1 ← of_option OutOfBounds (mem_read (_buff b) realR l);
  dst2 ← of_option OutOfBounds (mem_read (_buff b) 0 (len - l));
  Ok (Some (InCaller (dst1 ++ dst2))).

(** [void Read(s32 size)]: consumes bytes seen through [GetCanReadBuff] or
    [TryReadBuff]. *)
Definition Read_size (b : CircluarBuffer) (size : Z) : CircluarBuffer :=
  {| _buff := _buff b; _size := _size b; _wcount := _wcount b;
     _rcount := s32 (_rcount b + size); _mask := _mask b |}.

(** ** Abstraction and invariant *)

(** The byte at free-running position [z]. *)
Definition cell (b : CircluarBuffer) (z : Z) : ascii :=
  nth (Z.to_nat (z mod _size b)) (_buff b) NUL.

Definition contents (b : CircluarBuffer) : bytes :=
  cell b <$> seqZ (_rcount b) (DataSize b).

Record cb_inv (b : CircluarBuffer) : Prop := {
  inv_pow2 : exists k, 0 <= k <= 30 /\ _size b = 2 ^ k;
  inv_mask : _mask b = _size b - 1;
  inv_len : Z.of_nat (length (_buff b)) = _size b;
  inv_data : 0 <= DataSize b <= _size b;
  inv_w : is_s32 (_wcount b);
  inv_r : is_s32 (_rcount b)
}.

(** Closes a field of the invariant that an operation leaves alone. *)
Ltac same_field H :=
  first [ exact (inv_pow2 _ H) | exact (inv_mask _ H) | exact (inv_len _ H)
        | exact (inv_w _ H) | exact (inv_r _ H) ].

(** ** Facts the operations share *)

Section Facts.
Context (b : CircluarBuffer) (Hinv : cb_inv b).

Lemma size_bounds : 1 <= _size b <= 2 ^ 30.
Proof.
  destruct (inv_pow2 b Hinv) as (k & Hk & ->). split.
  - pose proof (pow2_pos k). lia.
  - apply Z.pow_le_mono_r; lia.
Qed.

Lemma mask_mod x : Z.land x (_mask b) = x mod _size b.
Proof.
  rewrite (inv_mask b Hinv). destruct (inv_pow2 b Hinv) as (k & Hk & ->).
  apply land_mask. lia.
Qed.

Lemma s32_mod_size x : s32 x mod _size b = x mod _size b.
Proof.
  destruct (inv_pow2 b Hinv) as (k & Hk & ->). apply s32_mod_pow2. lia.
Qed.

Lemma GetUnUsed_eq : GetUnUsed b = _size b - DataSize b.
Proof.
  unfold GetUnUsed. apply s32_small. pose proof size_bounds.
  pose proof (inv_data b Hinv). unfold is_s32. lia.
Qed.

Lemma mod_size_range x : 0 <= x mod _size b < _size b.
Proof. apply Z.mod_pos_bound. pose proof size_bounds. lia. Qed.

(** The write counter is the read counter plus the data size, modulo the
    ring's size. *)
Lemma wcount_mod x : (x + _wcount b) mod _size b = (x + (_rcount b + DataSize b)) mod _size b.
Proof.
  rewrite <- (Zplus_mod_idemp_r (_wcount b)), <- (Zplus_mod_idemp_r (_rcount b + _)).
  do 2 f_equal. unfold DataSize.
  rewrite <- (Zplus_mod_idemp_r (s32 _)), s32_mod_size, Zplus_mod_idemp_r.
  f_equal. lia.
Qed.

Lemma wcount_mod0 : _wcount b mod _size b = (_rcount b + DataSize b) mod _size b.
Proof. exact (wcount_mod 0). Qed.

Lemma contents_length : Z.of_nat (length (contents b)) = DataSize b.
Proof.
  unfold contents. rewrite length_fmap, length_seqZ.
  pose proof (inv_data b Hinv). lia.
Qed.

Lemma cell_lookup z : _buff b !! Z.to_nat (z mod _size b) = Some (cell b z).
Proof.
  pose proof (mod_size_range z). pose proof (inv_len b Hinv).
  destruct (lookup_lt_is_Some_2 (_buff b) (Z.to_nat (z mod _size b))) as [c Hc]; [lia|].
  rewrite Hc. f_equal. symmetry. by apply nth_lookup_Some.
Qed.

(** DataSize after either counter moved by [n], when the result fits. *)
Lemma DataSize_moved n :
  0 <= DataSize b + n <= _size b -> s32 (s32 (_wcount b + n) - _rcount b) = DataSize b + n.
Proof.
  intros H. pose proof size_bounds.
  rewrite <- (s32_small (DataSize b + n)) by (unfold is_s32; lia).
  apply swrap_eq. rewrite <- Zminus_mod_idemp_l, s32_mod, Zminus_mod_idemp_l.
  unfold DataSize. rewrite <- Zplus_mod_idemp_l, s32_mod, Zplus_mod_idemp_l.
  f_equal. lia.
Qed.

Lemma DataSize_consumed n :
  0 <= DataSize b - n <= _size b -> s32 (_wcount b - s32 (_rcount b + n)) = DataSize b - n.
Proof.
  intros H. pose proof size_bounds.
  rewrite <- (s32_small (DataSize b - n)) by (unfold is_s32; lia).
  apply swrap_eq. rewrite <- Zminus_mod_idemp_r, s32_mod, Zminus_mod_idemp_r.
  unfold DataSize. rewrite <- (Zminus_mod_idemp_l (s32 _) n), s32_mod, Zminus_mod_idemp_l.
  f_equal. lia.
Qed.
End Facts.

(** The two [memcpy]s of a wrapped write, position by position. *)
Lemma ring_write_lookup (buff src buff1 buff2 : bytes) (size w l : Z) :
  Z.of_nat (length buff) = size ->
  Z.of_nat (length src) <= size ->
  0 <= w < size ->
  l = Z.min (Z.of_nat (length src)) (size - w) ->
  mem_write buff w (take (Z.to_nat l) src) = Some buff1 ->
  mem_write buff1 0 (drop (Z.to_nat l) src) = Some buff2 ->
  forall j, 0 <= j < size ->
    buff2 !! Z.to_nat j =
      (let t := (j - w) mod size in
       if bool_decide (t < Z.of_nat (length src)) then src !! Z.to_nat t
       else buff !! Z.to_nat j).
Proof.
  intros Hb Hs Hw Hl H1 H2 j Hj.
  rewrite (mem_write_lookup _ _ _ _ _ H2), (mem_write_lookup _ _ _ _ _ H1).
  rewrite length_drop, length_take, Z2Nat.id by lia.
  assert (Ht : (j - w) mod size = if bool_decide (w <= j) then j - w else j - w + size).
  { case_bool_decide.
    - apply Z.mod_small. lia.
    - apply (mod_of_eq _ (-1)); lia. }
  rewrite Ht. cbn zeta. clear Ht. rewrite lookup_drop.
  repeat case_bool_decide; try lia; try (f_equal; lia); try done.
  - rewrite lookup_take_lt by lia. f_equal. lia.
Qed.

(** A read of [n] bytes at position [r] wraps around the same way. *)
Lemma ring_read (buff dst1 dst2 : bytes) (size r n l : Z) :
  Z.of_nat (length buff) = size ->
  0 <= r < size -> 0 <= n <= size ->
  l = Z.min n (size - r) ->
  mem_read buff r l = Some dst1 ->
  mem_read buff 0 (n - l) = Some dst2 ->
  forall t, 0 <= t < n -> (dst1 ++ dst2) !! Z.to_nat t = buff !! Z.to_nat ((r + t) mod size).
Proof.
  intros Hb Hr Hn Hl H1 H2 t Ht.
  pose proof (mem_read_length _ _ _ _ H1) as L1.
  assert (Hm : (r + t) mod size = if bool_decide (r + t < size) then r + t else r + t - size).
  { case_bool_decide.
    - apply Z.mod_small. lia.
    - apply (mod_of_eq _ 1); lia. }
  rewrite Hm. destruct (decide (t < l)).
  - rewrite lookup_app_l by lia. rewrite (mem_read_lookup _ _ _ _ _ H1) by lia.
    rewrite bool_decide_eq_true_2 by lia. f_equal. lia.
  - rewrite lookup_app_r by lia. rewrite (mem_read_lookup _ _ _ _ _ H2) by lia.
    rewrite bool_decide_eq_false_2 by lia. f_equal. lia.
Qed.

(** The first [n] bytes of the contents, read from the ring. *)
Lemma contents_take b n : cb_inv b -> 0 <= n <= DataSize b ->
  take (Z.to_nat n) (contents b) = cell b <$> seqZ (_rcount b) n.
Proof.
  intros Hinv Hn. unfold contents.
  replace (DataSize b) with (n + (DataSize b - n)) by lia.
  rewrite seqZ_app, fmap_app by lia.
  rewrite take_app_le by (rewrite length_fmap, length_seqZ; lia).
  apply take_ge. rewrite length_fmap, length_seqZ. lia.
Qed.

Lemma contents_drop b n : cb_inv b -> 0 <= n <= DataSize b ->
  drop (Z.to_nat n) (contents b) = cell b <$> seqZ (_rcount b + n) (DataSize b - n).
Proof.
  intros Hinv Hn. unfold contents.
  replace (DataSize b) with (n + (DataSize b - n)) at 1 by lia.
  rewrite seqZ_app, fmap_app by lia.
  rewrite drop_app_ge by (rewrite length_fmap, length_seqZ; lia).
  rewrite length_fmap, length_seqZ.
  replace (Z.to_nat n - Z.to_nat n)%nat with 0%nat by lia. done.
Qed.

(** ** Results of the single operations *)

(** Both counters seen through the mask: their distance is the data size
    unless the ring is empty or full. *)
Lemma masked_gap b : cb_inv b ->
  let realW := _wcount b mod _size b in
  let realR := _rcount b mod _size b in
  if bool_decide (realR < realW) then DataSize b = realW - realR
  else if bool_decide (realR = realW) then DataSize b = 0 \/ DataSize b = _size b
  else DataSize b = realW - realR + _size b.
Proof.
  intros Hinv realW realR. pose proof (size_bounds b Hinv).
  pose proof (mod_size_range b Hinv (_rcount b)) as Hr.
  pose proof (inv_data b Hinv) as Hd.
  assert (Hw : realW = if bool_decide (realR + DataSize b < _size b) then realR + DataSize b
                       else if bool_decide (realR + DataSize b < 2 * _size b)
                       then realR + DataSize b - _size b else realR).
  { unfold realW. rewrite (wcount_mod0 b Hinv), <- Zplus_mod_idemp_l. fold realR.
    repeat case_bool_decide.
    - apply Z.mod_small. unfold realR in *. lia.
    - apply (mod_of_eq _ 1); unfold realR in *; lia.
    - unfold realR in *. lia. }
  fold realR in Hr. repeat case_bool_decide; lia.
Qed.

Lemma empty_counters b : cb_inv b -> DataSize b = 0 <-> _rcount b = _wcount b.
Proof.
  intros Hinv. unfold DataSize. split; intros H.
  - pose proof (inv_w b Hinv) as Hw. pose proof (inv_r b Hinv) as Hr.
    rewrite <- (s32_small _ Hw), <- (s32_small _ Hr). apply swrap_eq.
    apply (f_equal (fun x => x mod 2 ^ 32)) in H. rewrite s32_mod in H.
    replace (_wcount b) with (_rcount b + (_wcount b - _rcount b)) by lia.
    by rewrite <- Zplus_mod_idemp_r, H, Z.add_0_r.
  - rewrite H, Z.sub_diag. by apply s32_small.
Qed.

(** The two writes of a wrapped store always fit. *)
Lemma ring_write_total (buff src : bytes) (size w l : Z) :
  Z.of_nat (length buff) = size -> Z.of_nat (length src) <= size -> 0 <= w < size ->
  l = Z.min (Z.of_nat (length src)) (size - w) ->
  exists buff1 buff2, mem_write buff w (take (Z.to_nat l) src) = Some buff1 /\
    mem_write buff1 0 (drop (Z.to_nat l) src) = Some buff2 /\
    length buff2 = length buff.
Proof.
  intros Hb Hs Hw Hl.
  destruct (mem_write buff w (take (Z.to_nat l) src)) as [buff1|] eqn:E1.
  2:{ rewrite mem_write_Some in E1; [done|lia|rewrite length_take; lia]. }
  pose proof (mem_write_length _ _ _ _ E1) as L1.
  destruct (mem_write buff1 0 (drop (Z.to_nat l) src)) as [buff2|] eqn:E2.
  2:{ rewrite mem_write_Some in E2; [done|lia|rewrite length_drop; lia]. }
  pose proof (mem_write_length _ _ _ _ E2) as L2. exists buff1, buff2. auto with lia.
Qed.

(** What [Write] does to the fields and to each position of the ring. *)
Lemma Write_cells b buffer len :
  cb_inv b -> 0 <= len <= Z.of_nat (length buffer) ->
  exists b', let n := Z.min len (_size b - DataSize b) in
    Write b buffer len = Ok (n, b') /\
    length (_buff b') = length (_buff b) /\ _size b' = _size b /\ _mask b' = _mask b /\
    _wcount b' = s32 (_wcount b + n) /\ _rcount b' = _rcount b /\
    forall z, cell b' z =
      let t := (z - _wcount b) mod _size b in
      if bool_decide (t < n) then nth (Z.to_nat t) (take (Z.to_nat n) buffer) NUL
      else cell b z.
Proof.
  intros Hinv Hlen. cbn zeta.
  pose proof (inv_data b Hinv) as Hd. pose proof (size_bounds b Hinv) as Hs.
  unfold Write. rewrite GetUnUsed_eq, (mask_mod b Hinv) by done. cbn zeta.
  replace (if _ <? len then _ else len) with (Z.min len (_size b - DataSize b))
    by (destruct (Z.ltb_spec (_size b - DataSize b) len); lia).
  set (n := Z.min len (_size b - DataSize b)).
  pose proof (mod_size_range b Hinv (_wcount b)) as Hw.
  set (w := _wcount b mod _size b) in *. set (l := Z.min n (_size b - w)).
  pose proof (inv_len b Hinv) as HL. set (src := take (Z.to_nat n) buffer).
  assert (Hsrc : Z.of_nat (length src) = n) by (unfold src; rewrite length_take; lia).
  destruct (ring_write_total _ src _ w l HL ltac:(lia) Hw ltac:(lia))
    as (buff1 & buff2 & E1 & E2 & L2).
  rewrite (mem_read_Some buffer 0 l), (mem_read_Some buffer l (n - l)) by lia.
  cbn [of_option mbind outcome_bind]. change (Z.to_nat 0) with 0%nat. rewrite drop_0.
  replace (take (Z.to_nat l) buffer) with (take (Z.to_nat l) src)
    by (unfold src; rewrite take_take; f_equal; lia).
  replace (take (Z.to_nat (n - l)) (drop (Z.to_nat l) buffer)) with (drop (Z.to_nat l) src)
    by (unfold src; rewrite skipn_firstn_comm; f_equal; lia).
  rewrite E1. cbn [of_option mbind outcome_bind].
  rewrite E2. cbn [of_option mbind outcome_bind].
  eexists. repeat (split; [reflexivity || done|]).
  intros z. unfold cell. cbn [_size _buff]. pose proof (mod_size_range b Hinv z).
  rewrite !nth_lookup, (ring_write_lookup _ src _ _ (_size b) w l HL) by (done || lia).
  cbn zeta. rewrite Hsrc. unfold w. rewrite <- Zminus_mod.
  by case_bool_decide; rewrite ?nth_lookup.
Qed.

(** A ring whose positions hold [src] after the old contents. *)
Lemma contents_extend b b' src :
  cb_inv b -> _size b' = _size b -> _rcount b' = _rcount b ->
  DataSize b' = DataSize b + Z.of_nat (length src) -> DataSize b' <= _size b ->
  (forall z, cell b' z =
    let t := (z - _wcount b) mod _size b in
    if bool_decide (t < Z.of_nat (length src)) then nth (Z.to_nat t) src NUL else cell b z) ->
  contents b' = contents b ++ src.
Proof.
  intros Hinv Hs Hr HD HDs Hcell. pose proof (inv_data b Hinv) as Hd.
  assert (Hm : forall i, (_rcount b + i - _wcount b) mod _size b = (i - DataSize b) mod _size b).
  { intros i. rewrite <- Zminus_mod_idemp_r, (wcount_mod0 b Hinv), Zminus_mod_idemp_r.
    f_equal. lia. }
  unfold contents at 1. rewrite HD, Hr, seqZ_app, fmap_app by lia. f_equal.
  - unfold contents. apply list_fmap_ext. intros i z [-> Hi]%lookup_seqZ.
    rewrite Hcell, Hm. cbn zeta. rewrite (mod_of_eq (_size b + (Z.of_nat i - DataSize b)) (-1)) by lia.
    rewrite bool_decide_eq_false_2 by lia. done.
  - apply list_eq. intros i. rewrite list_lookup_fmap.
    destruct (decide (Z.of_nat i < Z.of_nat (length src))) as [Hi|Hi].
    + rewrite lookup_seqZ_lt by done. cbn. rewrite Hcell. cbn zeta.
      replace (_rcount b + DataSize b + Z.of_nat i) with (_rcount b + (DataSize b + Z.of_nat i)) by lia.
      rewrite Hm, (mod_of_eq (Z.of_nat i) 0) by lia.
      rewrite bool_decide_eq_true_2 by lia. rewrite Nat2Z.id.
      destruct (lookup_lt_is_Some_2 src i) as [c Hc]; [lia|]. rewrite Hc.
      f_equal. by apply nth_lookup_Some.
    + rewrite lookup_seqZ_ge by lia. cbn. symmetry. apply lookup_ge_None. lia.
Qed.

(** C13: [Write] appends to the FIFO as many bytes as fit: it returns the
    smaller of [len] and the free space, it keeps the class invariant, and the
    unread contents become the old ones followed by that prefix of the source,
    whatever the values of the free-running counters. *)
Theorem Write_refines b buffer len :
  cb_inv b -> 0 <= len <= Z.of_nat (length buffer) ->
  exists b', let n := Z.min len (_size b - Z.of_nat (length (contents b))) in
    Write b buffer len = Ok (n, b') /\ cb_inv b' /\ _size b' = _size b /\
    contents b' = contents b ++ take (Z.to_nat n) buffer.
Proof.
  intros Hinv Hlen. rewrite contents_length by done.
  pose proof (inv_data b Hinv) as Hd. pose proof (size_bounds b Hinv) as Hs.
  destruct (Write_cells b buffer len Hinv Hlen) as (b' & E & HL & Hsz & Hm & Hw & Hr & Hc).
  cbn zeta in *. set (n := Z.min len (_size b - DataSize b)) in *.
  assert (HD : DataSize b' = DataSize b + n)
    by (unfold DataSize at 1; rewrite Hw, Hr; apply DataSize_moved; [done|lia]).
  assert (Hl : Z.of_nat (length (take (Z.to_nat n) buffer)) = n) by (rewrite length_take; lia).
  exists b'. split; [done|]. split; [|split; [done|]].
  - constructor; rewrite ?Hsz, ?Hm, ?HL, ?Hr, ?HD, ?Hw; try apply Hinv.
    + lia.
    + apply s32_range.
  - apply contents_extend; rewrite ?Hl; done || lia || auto.
Qed.

(** Moving only the read counter drops the oldest bytes. *)
Lemma Read_size_spec b n : cb_inv b -> 0 <= n <= DataSize b ->
  cb_inv (Read_size b n) /\ contents (Read_size b n) = drop (Z.to_nat n) (contents b).
Proof.
  intros Hinv Hn. pose proof (inv_data b Hinv) as Hd.
  assert (HD : DataSize (Read_size b n) = DataSize b - n)
    by exact (DataSize_consumed b Hinv n ltac:(lia)).
  split.
  - constructor; try same_field Hinv.
    + rewrite HD. cbn [_size Read_size]. lia.
    + apply s32_range.
  - rewrite contents_drop by done. unfold contents. rewrite HD. cbn [_rcount Read_size].
    apply list_eq. intros i. rewrite !list_lookup_fmap.
    destruct (decide (Z.of_nat i < DataSize b - n)).
    + rewrite !lookup_seqZ_lt by done. cbn. f_equal. unfold cell. cbn [_size _buff Read_size].
      f_equal. f_equal. rewrite <- Zplus_mod_idemp_l, (s32_mod_size b Hinv), Zplus_mod_idemp_l.
      done.
    + by rewrite !lookup_seqZ_ge by lia.
Qed.

(** The bytes a wrapped read copies out are the oldest [n] of the contents. *)
Lemma ring_read_contents b n : cb_inv b -> 0 <= n <= DataSize b ->
  let r := _rcount b mod _size b in
  let l := Z.min n (_size b - r) in
  exists dst1 dst2, mem_read (_buff b) r l = Some dst1 /\
    mem_read (_buff b) 0 (n - l) = Some dst2 /\
    dst1 ++ dst2 = take (Z.to_nat n) (contents b).
Proof.
  intros Hinv Hn r l. pose proof (inv_data b Hinv). pose proof (inv_len b Hinv) as HL.
  pose proof (mod_size_range b Hinv (_rcount b)) as Hr. fold r in Hr.
  pose proof (mem_read_Some (_buff b) r l ltac:(lia) ltac:(lia) ltac:(lia)) as E1.
  pose proof (mem_read_Some (_buff b) 0 (n - l) ltac:(lia) ltac:(lia) ltac:(lia)) as E2.
  eexists _, _. split; [exact E1|]. split; [exact E2|].
  rewrite contents_take by done. apply list_eq. intros i. rewrite list_lookup_fmap.
  pose proof (mem_read_length _ _ _ _ E1) as L1. pose proof (mem_read_length _ _ _ _ E2) as L2.
  destruct (decide (Z.of_nat i < n)) as [Hi|Hi].
  - rewrite lookup_seqZ_lt by done. cbn [fmap option_fmap option_map].
    rewrite <- (Nat2Z.id i) at 1.
    rewrite (ring_read _ _ _ (_size b) r n l HL Hr ltac:(lia) eq_refl E1 E2) by lia.
    unfold r. rewrite Zplus_mod_idemp_l. by apply cell_lookup.
  - rewrite lookup_seqZ_ge by lia. apply lookup_ge_None. rewrite length_app. lia.
Qed.

(** C15: [Read] removes from the front of the FIFO: it returns the smaller of
    [len] and the data size, stores exactly the oldest bytes in the caller's
    buffer, keeps the invariant and leaves the remaining contents in order. *)
Theorem Read_refines b len :
  cb_inv b -> 0 <= len ->
  exists b', let n := Z.min len (Z.of_nat (length (contents b))) in
    Read b len = Ok (n, take (Z.to_nat n) (contents b), b') /\ cb_inv b' /\
    _size b' = _size b /\ contents b' = drop (Z.to_nat n) (contents b).
Proof.
  intros Hinv Hlen. rewrite contents_length by done. cbn zeta.
  pose proof (inv_data b Hinv) as Hd. unfold Read. cbn zeta.
  change (s32 (_wcount b - _rcount b)) with (DataSize b).
  destruct (Z.eqb_spec (DataSize b) 0) as [E|E].
  { exists b. rewrite E, Z.min_r by lia. done. }
  replace (if _ <? len then _ else len) with (Z.min len (DataSize b))
    by (destruct (Z.ltb_spec (DataSize b) len); lia).
  rewrite (mask_mod b Hinv).
  destruct (ring_read_contents b (Z.min len (DataSize b)) Hinv ltac:(lia))
    as (dst1 & dst2 & E1 & E2 & E3).
  rewrite E1. cbn [of_option mbind outcome_bind].
  rewrite E2. cbn [of_option mbind outcome_bind]. rewrite E3.
  destruct (Read_size_spec b (Z.min len (DataSize b)) Hinv ltac:(lia)) as [Hi Hc].
  eexists. split; [reflexivity|]. auto.
Qed.

(** [TryReadBuff] refuses exactly when fewer than [len] bytes are stored;
    otherwise the pointer it returns, into the ring or to the caller's
    buffer, shows the oldest [len] bytes, and nothing is consumed. *)
Theorem TryReadBuff_spec b len :
  cb_inv b -> 0 <= len ->
  match TryReadBuff b len with
  | Ok None => Z.of_nat (length (contents b)) < len
  | Ok (Some (InRing off)) => mem_read (_buff b) off len = Some (take (Z.to_nat len) (contents b))
  | Ok (Some (InCaller copied)) => copied = take (Z.to_nat len) (contents b) /\
      Z.of_nat (length copied) = len
  | _ => False
  end.
Proof.
  intros Hinv Hlen. pose proof (contents_length b Hinv) as HC. unfold TryReadBuff.
  destruct (Z.ltb_spec (DataSize b) len); [lia|]. rewrite !(mask_mod b Hinv).
  destruct (ring_read_contents b len Hinv ltac:(lia)) as (dst1 & dst2 & E1 & E2 & E3).
  pose proof (masked_gap b Hinv) as Hgap. cbn zeta in Hgap.
  destruct (Z.ltb_spec (_rcount b mod _size b) (_wcount b mod _size b)).
  - rewrite bool_decide_eq_true_2 in Hgap by done.
    pose proof (mod_size_range b Hinv (_wcount b)).
    rewrite Z.min_l in E1, E2 by lia. rewrite Z.sub_diag in E2.
    rewrite mem_read_Some in E2 by lia. injection E2 as <-. cbn in E3.
    rewrite app_nil_r in E3. by rewrite <- E3.
  - rewrite E1. cbn [of_option mbind outcome_bind]. rewrite E2. cbn.
    rewrite E3. split; [done|]. rewrite length_take. lia.
Qed.

(** The zero-copy reader: [GetCanReadBuff] returns [nullptr] only when the
    ring is empty, and otherwise a non-empty region inside [_buff] that holds
    the oldest bytes; consuming any part of it with [Read(size)] keeps the
    invariant and drops exactly those bytes. *)
Theorem GetCanReadBuff_spec b :
  cb_inv b ->
  match GetCanReadBuff b with
  | None => contents b = []
  | Some (off, len) =>
      0 < len <= Z.of_nat (length (contents b)) /\
      mem_read (_buff b) off len = Some (take (Z.to_nat len) (contents b)) /\
      forall n, 0 <= n <= len -> cb_inv (Read_size b n) /\
        contents (Read_size b n) = drop (Z.to_nat n) (contents b)
  end.
Proof.
  intros Hinv. pose proof (contents_length b Hinv) as HC.
  pose proof (empty_counters b Hinv) as Hemp. unfold GetCanReadBuff.
  destruct (Z.eqb_spec (_rcount b) (_wcount b)) as [E|E].
  { apply Hemp in E. apply length_zero_iff_nil. lia. }
  pose proof (inv_data b Hinv). rewrite !(mask_mod b Hinv).
  pose proof (masked_gap b Hinv) as Hgap. cbn zeta in *.
  pose proof (mod_size_range b Hinv (_wcount b)).
  pose proof (mod_size_range b Hinv (_rcount b)).
  change (s32 (_wcount b - _rcount b)) with (DataSize b).
  set (len := if _ <? _ then _ else _).
  assert (Hlen : 0 < len <= DataSize b /\ len <= _size b - _rcount b mod _size b).
  { unfold len. clear len. destruct (Z.ltb_spec (_rcount b mod _size b) (_wcount b mod _size b));
      repeat case_bool_decide; lia. }
  split; [lia|]. split.
  - destruct (ring_read_contents b len Hinv ltac:(lia)) as (dst1 & dst2 & E1 & E2 & E3).
    rewrite Z.min_l in E1, E2 by lia. rewrite Z.sub_diag in E2.
    rewrite mem_read_Some in E2 by lia. injection E2 as <-.
    cbn in E3. rewrite app_nil_r in E3. by rewrite <- E3.
  - intros n Hn. apply Read_size_spec; [done|lia].
Qed.

(** Bytes stored through [GetCanWriteBuff], then committed with [WriteBuff]. *)
Definition fill_and_commit (b : CircluarBuffer) (src : bytes) : option CircluarBuffer :=
  '(off, len) ← GetCanWriteBuff b;
  if bool_decide (Z.of_nat (length src) <= len) then
    buff ← mem_write (_buff b) off src;
    Some (WriteBuff {| _buff := buff; _size := _size b; _wcount := _wcount b;
                       _rcount := _rcount b; _mask := _mask b |} (Z.of_nat (length src)))
  else None.

(** The zero-copy writer: [GetCanWriteBuff] returns [nullptr] only when
    the ring is full, and otherwise a non-empty region of free space; bytes a
    caller stores at its start and commits with [WriteBuff] are appended to
    the contents and the invariant is kept. *)
Theorem GetCanWriteBuff_spec b :
  cb_inv b ->
  match GetCanWriteBuff b with
  | None => Z.of_nat (length (contents b)) = _size b
  | Some (off, len) =>
      0 < len <= _size b - Z.of_nat (length (contents b)) /\ 0 <= off /\ off + len <= _size b /\
      forall src, Z.of_nat (length src) <= len ->
        exists b', fill_and_commit b src = Some b' /\ cb_inv b' /\
          contents b' = contents b ++ src
  end.
Proof.
  intros Hinv. pose proof (contents_length b Hinv) as HC. rewrite HC.
  destruct (GetCanWriteBuff b) as [[off len]|] eqn:EG.
  all: pose proof EG as EG'; unfold GetCanWriteBuff in EG'.
  all: rewrite (GetUnUsed_eq b Hinv), !(mask_mod b Hinv) in EG'.
  all: destruct (Z.eqb_spec 0 (_size b - DataSize b)); [try done; lia|]; try done.
  injection EG' as <- Elen.
  pose proof (inv_data b Hinv) as Hd. pose proof (inv_len b Hinv) as HL.
  pose proof (size_bounds b Hinv) as Hs.
  pose proof (masked_gap b Hinv) as Hgap. cbn zeta in Hgap.
  pose proof (mod_size_range b Hinv (_wcount b)) as Hw.
  pose proof (mod_size_range b Hinv (_rcount b)).
  assert (Hlen : 0 < len <= _size b - DataSize b /\ len <= _size b - _wcount b mod _size b).
  { destruct (Z.leb_spec (_rcount b mod _size b) (_wcount b mod _size b));
      repeat case_bool_decide; lia. }
  split; [lia|]. split; [lia|]. split; [lia|]. intros src Hsrc.
  destruct (ring_write_total _ src _ (_wcount b mod _size b) _ HL ltac:(lia) Hw eq_refl)
    as (buff1 & buff2 & E1 & E2 & L2).
  pose proof (ring_write_lookup _ src _ _ _ _ _ HL ltac:(lia) Hw eq_refl E1 E2) as Hring.
  rewrite Z.min_l in E1, E2 by lia. rewrite Nat2Z.id in E1, E2.
  rewrite take_ge in E1 by lia. rewrite drop_ge, mem_write_Some in E2 by (cbn; lia).
  cbn in E2. injection E2 as <-.
  unfold fill_and_commit. rewrite EG. cbn [mbind option_bind].
  rewrite bool_decide_eq_true_2 by done. rewrite E1. cbn [mbind option_bind].
  eexists. split; [reflexivity|]. set (b' := WriteBuff _ _).
  assert (HD : DataSize b' = DataSize b + Z.of_nat (length src))
    by (apply (DataSize_moved b Hinv); lia).
  split.
  - constructor; try same_field Hinv.
    + cbn. rewrite <- HL. f_equal. exact L2.
    + rewrite HD. cbn. lia.
    + apply s32_range.
  - apply contents_extend; try done; [lia|].
    intros z. unfold cell. cbn [_size _buff b' WriteBuff]. pose proof (mod_size_range b Hinv z).
    rewrite !nth_lookup. rewrite drop_0 in Hring. rewrite Hring by lia. cbn zeta.
    rewrite <- Zminus_mod. repeat case_bool_decide; done || lia.
Qed.

(** ** Sequences of operations *)

Inductive cb_op : Type :=
  | OpWrite (src : bytes)
  | OpRead (len : Z).

Definition op_ok (o : cb_op) : Prop :=
  match o with OpWrite _ => True | OpRead len => 0 <= len end.

(** Runs a list of operations; collects the bytes [Write] accepted and the
    bytes [Read] delivered. *)
Fixpoint cb_run (ops : list cb_op) (b : CircluarBuffer)
    : outcome (bytes * bytes * CircluarBuffer) :=
  match ops with
  | [] => Ok ([], [], b)
  | OpWrite src :: ops' =>
      '(n, b1) ← Write b src (Z.of_nat (length src));
      '(w, r, b2) ← cb_run ops' b1;
      Ok (take (Z.to_nat n) src ++ w, r, b2)
  | OpRead len :: ops' =>
      '(_, got, b1) ← Read b len;
      '(w, r, b2) ← cb_run ops' b1;
      Ok (w, got ++ r, b2)
  end.

(** C16: Over any sequence of writes and reads no operation faults, and the
    ring is a bounded FIFO: the bytes delivered followed by the bytes still
    stored are exactly the bytes stored at the start followed by the bytes
    accepted, so nothing is lost, duplicated or reordered, and at most
    [_size] bytes are stored. *)
Theorem cb_run_fifo ops b :
  cb_inv b -> Forall op_ok ops ->
  exists accepted delivered b', cb_run ops b = Ok (accepted, delivered, b') /\ cb_inv b' /\
    delivered ++ contents b' = contents b ++ accepted /\
    Z.of_nat (length (contents b')) <= _size b.
Proof.
  intros Hinv Hok. revert b Hinv. induction Hok as [|o ops Ho Hok IH]; intros b Hinv.
  { exists [], [], b. cbn. rewrite app_nil_r, contents_length by done.
    pose proof (inv_data b Hinv). auto with lia. }
  destruct o as [src|len]; cbn [cb_run].
  - destruct (Write_refines b src (Z.of_nat (length src)) Hinv ltac:(lia))
      as (b1 & E & Hinv1 & Hs1 & Hc1). cbn zeta in *.
    destruct (IH b1 Hinv1) as (w & r & b2 & E2 & Hinv2 & Hf & Hl).
    rewrite E. cbn [mbind outcome_bind]. rewrite E2. cbn [mbind outcome_bind].
    do 3 eexists. split; [reflexivity|]. split_and!; [done| |lia].
    by rewrite Hf, Hc1, <- app_assoc.
  - destruct (Read_refines b len Hinv Ho) as (b1 & E & Hinv1 & Hs1 & Hc1). cbn zeta in *.
    destruct (IH b1 Hinv1) as (w & r & b2 & E2 & Hinv2 & Hf & Hl).
    rewrite E. cbn [mbind outcome_bind]. rewrite E2. cbn [mbind outcome_bind].
    do 3 eexists. split; [reflexivity|]. split_and!; [done| |lia].
    rewrite <- app_assoc, Hf, Hc1, app_assoc. by rewrite take_drop.
Qed.

(** ** The constructor *)

Definition junk_ok (junk : Z -> bytes) : Prop :=
  forall n, 0 <= n -> Z.of_nat (length (junk n)) = n.

(** A power of two: the test of the constructor passes and the fresh ring is
    empty. *)
Lemma ctor_pow2 junk k : junk_ok junk -> 0 <= k <= 30 ->
  exists b, CircluarBuffer_ctor junk (2 ^ k) = Ok b /\ cb_inv b /\ _size b = 2 ^ k /\
    contents b = [].
Proof.
  intros Hj Hk. pose proof (pow2_pos k ltac:(lia)) as Hp.
  assert (2 ^ k <= 2 ^ 30) by (apply Z.pow_le_mono_r; lia).
  unfold CircluarBuffer_ctor. rewrite s32_small by (unfold is_s32; lia).
  rewrite land_mask by lia. rewrite Z.mod_same by lia. cbn [Z.eqb mbind outcome_bind mret outcome_ret].
  destruct (Z.ltb_spec (2 ^ k) 0); [lia|].
  eexists. split; [reflexivity|]. rewrite s32_small by (unfold is_s32; lia).
  split_and!; [|done|done].
  constructor; cbn; try done; try lia.
  - eauto.
  - by apply Hj; lia.
Qed.

Lemma land_neg_pow2 j num : 0 <= j -> 0 <= num ->
  Z.land (- 2 ^ j) num = num / 2 ^ j * 2 ^ j.
Proof.
  intros Hj Hn. replace (- 2 ^ j) with (Z.lnot (Z.ones j)).
  - rewrite Z.land_comm, <- Z.ldiff_land, Z.ldiff_ones_r by done.
    by rewrite Z.shiftl_mul_pow2, Z.shiftr_div_pow2.
  - rewrite Z.ones_equiv. unfold Z.lnot. lia.
Qed.

(** The loop stops at the highest set bit of [num], or at once when [num] has
    a bit at or above the fifteenth. *)
Lemma roundup_loop_spec fuel j num : 0 <= j <= 15 -> 0 < num -> (Z.to_nat j < fuel)%nat ->
  roundup_loop fuel (- 2 ^ j) num = Ok (- 2 ^ (Z.min j (Z.log2 num) + 1)).
Proof.
  revert j. induction fuel as [|fuel IH]; intros j Hj Hn Hf; [lia|].
  cbn [roundup_loop]. rewrite land_neg_pow2 by lia.
  pose proof (pow2_pos j ltac:(lia)) as Hp. pose proof (Z.log2_spec num Hn) as Hlog.
  pose proof (Z.log2_nonneg num).
  destruct (Z.eqb_spec (num / 2 ^ j * 2 ^ j) 0) as [E|E].
  - assert (Hsmall : num < 2 ^ j).
    { apply Z.eq_mul_0 in E as [E|E]; [|lia]. apply Z.div_small_iff in E; lia. }
    assert (Hlt : Z.log2 num < j) by (apply Z.log2_lt_pow2; lia).
    rewrite Z.shiftr_div_pow2 by lia.
    replace (- 2 ^ j / 2 ^ 1) with (- 2 ^ (j - 1)).
    + rewrite IH by lia. do 3 f_equal. lia.
    + rewrite (pow2_half j) by lia. change (2 ^ 1) with 2.
      rewrite <- Z.mul_opp_r, Z.mul_comm, Z.div_mul; lia.
  - assert (Hbig : 2 ^ j <= num).
    { destruct (Z.lt_ge_cases num (2 ^ j)); [|done]. rewrite Z.div_small in E by lia. lia. }
    assert (j <= Z.log2 num) by (apply Z.log2_le_pow2; lia).
    rewrite Z.min_l, Z.shiftl_mul_pow2 by lia. f_equal.
    assert (2 ^ (j + 1) <= 2 ^ 16) by (apply Z.pow_le_mono_r; lia).
    pose proof (Z.pow_add_r 2 j 1 ltac:(lia) ltac:(lia)).
    rewrite s32_small; unfold is_s32; lia.
Qed.

(** What the constructor does on every positive [s32] size.  A power of
    two builds an empty ring of that size; for any other size
    [RoundupPowerOf2] terminates but returns a negative number, twice the mask
    it searched with, and the allocation throws: the rounding up its name
    promises never happens. *)
Theorem ctor_sizes junk size :
  junk_ok junk -> 0 < size < 2 ^ 31 ->
  match CircluarBuffer_ctor junk size with
  | Ok b => (exists k, size = 2 ^ k) /\ cb_inv b /\ _size b = size /\ contents b = []
  | Fault f => f = BadAlloc /\ (forall k, 0 <= k -> size <> 2 ^ k) /\
      RoundupPowerOf2 size = Ok (- 2 ^ (Z.min 15 (Z.log2 size) + 1))
  | OutOfFuel => False
  end.
Proof.
  intros Hj Hs.
  destruct (Z.eqb_spec (2 ^ Z.log2 size) size) as [E|E].
  - assert (Hk : 0 <= Z.log2 size <= 30).
    { split; [apply Z.log2_nonneg|].
      enough (Z.log2 size < 31) by lia. apply Z.log2_lt_pow2; lia. }
    destruct (ctor_pow2 junk (Z.log2 size) Hj Hk) as (b & Eb & Hb). rewrite E in *.
    rewrite Eb. destruct Hb as (? & ? & ?). eauto 6.
  - assert (Hr : RoundupPowerOf2 size = Ok (- 2 ^ (Z.min 15 (Z.log2 size) + 1))).
    { unfold RoundupPowerOf2. change (Z.lnot 32767) with (- 2 ^ 15).
      apply roundup_loop_spec; lia. }
    unfold CircluarBuffer_ctor. rewrite s32_small by (unfold is_s32; lia).
    pose proof (Z.log2_nonneg size) as Hl0. pose proof (Z.log2_spec size ltac:(lia)) as Hl.
    assert (Hbit : Z.testbit (Z.land size (size - 1)) (Z.log2 size) = true).
    { rewrite Z.land_spec, Z.bit_log2 by lia. cbn.
      rewrite <- (Z.log2_unique (size - 1) (Z.log2 size)) by lia.
      apply Z.bit_log2. pose proof (pow2_pos (Z.log2 size) Hl0). lia. }
    destruct (Z.eqb_spec (Z.land size (size - 1)) 0) as [E0|E0].
    { rewrite E0, Z.bits_0 in Hbit. done. }
    rewrite Hr. cbn [mbind outcome_bind].
    pose proof (pow2_pos (Z.min 15 (Z.log2 size) + 1) ltac:(lia)).
    destruct (Z.ltb_spec (- 2 ^ (Z.min 15 (Z.log2 size) + 1)) 0); [|lia].
    split_and!; [done| |done]. intros k Hk ->. rewrite Z.log2_pow2 in E by done. done.
Qed.

(** ** Concrete instances *)

(** An eight-byte ring that stores two bytes and whose write counter is about
    to wrap around. *)
Definition ring8 : CircluarBuffer :=
  {| _buff := lit "abcdefgh"; _size := 8; _wcount := 2 ^ 31 - 1; _rcount := 2 ^ 31 - 3;
     _mask := 7 |}.

Definition junk0 (n : Z) : bytes := replicate (Z.to_nat n) NUL.

Lemma ring8_inv : cb_inv ring8.
Proof. constructor; [by exists 3|..]; vm_compute; try split; congruence. Qed.

Lemma junk0_ok : junk_ok junk0.
Proof. intros n Hn. unfold junk0. rewrite length_replicate. lia. Qed.

Lemma Write_refines_witness : exists b', Write ring8 (lit "123456789") 9 = Ok (6, b') /\
  contents b' = contents ring8 ++ lit "123456".
Proof.
  destruct (Write_refines ring8 (lit "123456789") 9 ring8_inv) as (b' & E & _ & _ & Hc).
  - vm_compute. split; congruence.
  - exists b'. split; [exact E|exact Hc].
Defined.

Lemma Read_refines_witness : exists b', Read ring8 5 = Ok (2, lit "fg", b') /\ contents b' = [].
Proof.
  destruct (Read_refines ring8 5 ring8_inv) as (b' & E & _ & _ & Hc).
  - vm_compute. congruence.
  - exists b'. split; [exact E|exact Hc].
Defined.

Lemma TryReadBuff_spec_witness :
  TryReadBuff ring8 2 = Ok (Some (InRing 5)) /\ mem_read (_buff ring8) 5 2 = Some (lit "fg").
Proof.
  split; [reflexivity|].
  exact (TryReadBuff_spec ring8 2 ring8_inv ltac:(vm_compute; congruence)).
Defined.

Lemma GetCanReadBuff_spec_witness :
  GetCanReadBuff ring8 = Some (5, 2) /\ contents (Read_size ring8 1) = lit "g".
Proof.
  split; [reflexivity|].
  apply (GetCanReadBuff_spec ring8 ring8_inv). vm_compute. split; congruence.
Defined.

Lemma GetCanWriteBuff_spec_witness : GetCanWriteBuff ring8 = Some (7, 1) /\
  exists b', fill_and_commit ring8 (lit "!") = Some b' /\ contents b' = lit "fg!".
Proof.
  split; [reflexivity|].
  destruct (GetCanWriteBuff_spec ring8 ring8_inv) as (_ & _ & _ & H).
  destruct (H (lit "!")) as (b' & E & _ & Hc); [vm_compute; congruence|].
  exists b'. split; [exact E|exact Hc].
Defined.

Lemma cb_run_fifo_witness : exists accepted delivered b',
  cb_run [OpWrite (lit "xyz"); OpRead 4; OpWrite (lit "0123456789")] ring8
    = Ok (accepted, delivered, b') /\
  delivered ++ contents b' = contents ring8 ++ accepted.
Proof.
  destruct (cb_run_fifo [OpWrite (lit "xyz"); OpRead 4; OpWrite (lit "0123456789")] ring8
    ring8_inv) as (a & d & b' & E & _ & Hf & _).
  - repeat constructor. vm_compute. congruence.
  - exists a, d, b'. split; [exact E|exact Hf].
Defined.

Lemma ctor_sizes_witness :
  CircluarBuffer_ctor junk0 1000 = Fault BadAlloc /\ RoundupPowerOf2 1000 = Ok (-1024).
Proof.
  split; [reflexivity|].
  apply (ctor_sizes junk0 1000 junk0_ok). vm_compute. split; congruence.
Defined.
