(* ===== verification/Resp.v ===== *)
(** * The request format of the Redis protocol (specification)

    An abstract specification, not a translation: a command is a list of
    byte strings, [resp_encode] is its text as an array of bulk strings and
    [resp_decode] is a parser for that text.  RedisHelper.v proves that the
    command builder of the source produces [resp_encode]; here the decoder is
    proved to recover the arguments, binary ones included. *)
From Stdlib Require Import ZArith Lia Ascii.
From stdpp Require Import base numbers list list_numbers strings.
From S2P Require Import Prelude.
Open Scope Z_scope.

Definition CR : ascii := ascii_of_N 13.
Definition LF : ascii := ascii_of_N 10.

(** The two bytes of ["\r\n"]. *)
Definition CRLF : bytes := [CR; LF].

Definition resp_bulk (a : bytes) : bytes :=
  lit "$" ++ fmt_d (Z.of_nat (length a)) ++ CRLF ++ a ++ CRLF.

Definition resp_bulks (args : list bytes) : bytes := concat (map resp_bulk args).

Definition resp_head (n : Z) : bytes := lit "*" ++ fmt_d n ++ CRLF.

Definition resp_encode (args : list bytes) : bytes :=
  resp_head (Z.of_nat (length args)) ++ resp_bulks args.

(** Command names are not case sensitive: their upper case. *)
Definition upper (c : ascii) : ascii :=
  if (97 <=? byte_val c) && (byte_val c <=? 122) then byte_of (byte_val c - 32) else c.

(** ** Decoder *)

Fixpoint span_digits (l : bytes) : bytes * bytes :=
  match l with
  | c :: l' => if is_digit c then let '(d, r) := span_digits l' in (c :: d, r) else ([], l)
  | [] => ([], [])
  end.

Definition parse_num (l : bytes) : option (Z * bytes) :=
  let '(d, r) := span_digits l in
  n ← undec d;
  match r with
  | c1 :: c2 :: r' => if bool_decide (c1 = CR /\ c2 = LF) then Some (n, r') else None
  | _ => None
  end.

Definition parse_bulk (l : bytes) : option (bytes * bytes) :=
  match l with
  | c :: l' =>
      if bool_decide (c = "$"%char) then
        '(n, r) ← parse_num l';
        if bool_decide (take 2 (drop (Z.to_nat n) r) = CRLF)
        then Some (take (Z.to_nat n) r, drop (Z.to_nat n + 2) r) else None
      else None
  | [] => None
  end.

Fixpoint parse_bulks (k : nat) (l : bytes) : option (list bytes * bytes) :=
  match k with
  | O => Some ([], l)
  | S k' => '(a, r) ← parse_bulk l; '(args, r') ← parse_bulks k' r; Some (a :: args, r')
  end.

Definition resp_decode (l : bytes) : option (list bytes * bytes) :=
  match l with
  | c :: l' =>
      if bool_decide (c = "*"%char) then '(n, r) ← parse_num l'; parse_bulks (Z.to_nat n) r
      else None
  | [] => None
  end.

(** ** Round trip *)

Lemma span_digits_app d r :
  Forall (fun c => is_digit c = true) d -> is_digit (hd CR r) = false ->
  span_digits (d ++ r) = (d, r).
Proof.
  intros Hd Hr. induction Hd as [|c d Hc Hd IH]; cbn [app span_digits].
  - destruct r as [|c r]; [done|]. cbn in *. by rewrite Hr.
  - by rewrite Hc, IH.
Qed.

Lemma parse_num_fmt n r : 0 <= n < 2 ^ 64 -> parse_num (fmt_d n ++ CRLF ++ r) = Some (n, r).
Proof.
  intros Hn. pose proof (pow64_dec n Hn). unfold parse_num.
  rewrite fmt_d_nonneg, span_digits_app by (try apply dec_digits; done || lia).
  rewrite undec_dec by done. reflexivity.
Qed.

Lemma parse_bulk_encode a r : Z.of_nat (length a) < 2 ^ 64 ->
  parse_bulk (resp_bulk a ++ r) = Some (a, r).
Proof.
  intros Ha. unfold resp_bulk. rewrite <- !app_assoc.
  cbn [lit String.list_ascii_of_string app parse_bulk].
  rewrite bool_decide_eq_true_2 by done. rewrite parse_num_fmt by lia.
  cbn [mbind option_bind]. rewrite Nat2Z.id, drop_app_length, take_app_length.
  change (CRLF ++ r) with ([CR; LF] ++ r) at 1.
  rewrite bool_decide_eq_true_2 by done. do 2 f_equal.
  rewrite <- drop_drop, drop_app_length. done.
Qed.

Lemma parse_bulks_encode args r : Forall (fun a => Z.of_nat (length a) < 2 ^ 64) args ->
  parse_bulks (length args) (resp_bulks args ++ r) = Some (args, r).
Proof.
  intros Hargs. revert r. induction Hargs as [|a args Ha _ IH]; intros r; [done|].
  cbn [length parse_bulks]. unfold resp_bulks. cbn [map concat]. rewrite <- app_assoc.
  rewrite parse_bulk_encode by done. cbn [mbind option_bind].
  fold (resp_bulks args). rewrite IH. done.
Qed.

Lemma resp_decode_encode args rest :
  Z.of_nat (length args) < 2 ^ 64 -> Forall (fun a => Z.of_nat (length a) < 2 ^ 64) args ->
  resp_decode (resp_encode args ++ rest) = Some (args, rest).
Proof.
  intros Hn Hargs. unfold resp_encode, resp_head. rewrite <- !app_assoc.
  cbn [lit String.list_ascii_of_string app resp_decode].
  rewrite bool_decide_eq_true_2 by done. rewrite parse_num_fmt by lia.
  cbn [mbind option_bind]. rewrite Nat2Z.id. by apply parse_bulks_encode.
Qed.

Lemma resp_bulks_app xs ys : resp_bulks (xs ++ ys) = resp_bulks xs ++ resp_bulks ys.
Proof. unfold resp_bulks. by rewrite map_app, concat_app. Qed.
