(* ===== verification/Hiredis.v ===== *)
(** * hiredis as the program uses it (Thridlibrary/include/hiredis)

    The headers give the data ([redisReply], [redisContext], the error, reply
    and flag codes); the functions are in a compiled library and are the
    operations of the class [Hiredis], over an abstract [world] (sockets, the
    server, the clock) and an abstract protocol [reader].  [SendLaws]
    states the documented behaviour of [send] that theorems use.  The module
    [Scripted] is a concrete instance, for the witnesses. *)
From Stdlib Require Import ZArith Lia Ascii.
From stdpp Require Import base numbers list list_numbers strings.
From S2P Require Import Prelude.
Open Scope Z_scope.

(** ** Codes (read.h, hiredis.h) *)

Definition REDIS_ERR : Z := -1.
Definition REDIS_OK : Z := 0.

Definition REDIS_ERR_IO : Z := 1.
Definition REDIS_ERR_EOF : Z := 3.
Definition REDIS_ERR_PROTOCOL : Z := 4.
Definition REDIS_ERR_OOM : Z := 5.
Definition REDIS_ERR_TIMEOUT : Z := 6.
Definition REDIS_ERR_OTHER : Z := 2.

Definition REDIS_REPLY_STRING : Z := 1.
Definition REDIS_REPLY_ARRAY : Z := 2.
Definition REDIS_REPLY_INTEGER : Z := 3.
Definition REDIS_REPLY_NIL : Z := 4.
Definition REDIS_REPLY_STATUS : Z := 5.
Definition REDIS_REPLY_ERROR : Z := 6.
Definition REDIS_REPLY_DOUBLE : Z := 7.
Definition REDIS_REPLY_BOOL : Z := 8.
Definition REDIS_REPLY_VERB : Z := 9.
Definition REDIS_REPLY_MAP : Z := 9.
Definition REDIS_REPLY_SET : Z := 10.
Definition REDIS_REPLY_ATTR : Z := 11.
Definition REDIS_REPLY_PUSH : Z := 12.
Definition REDIS_REPLY_BIGNUM : Z := 13.

Definition REDIS_BLOCK : Z := 1.

(** POSIX codes of [errno] that the write loop tests. *)
Definition EINTR : Z := 4.
Definition EWOULDBLOCK : Z := 11.

(** ** Data *)

(** [struct redisReply]: [len] is the length of [str] and [elements] the
    number of [element]s; [dval] is the bit pattern of the double. *)
Inductive redisReply : Type := mkReply {
  r_type : Z;
  r_integer : Z;
  r_dval : Z;
  r_str : bytes;
  r_element : list redisReply
}.

Definition r_len (r : redisReply) : Z := Z.of_nat (length (r_str r)).
Definition r_elements (r : redisReply) : Z := Z.of_nat (length (r_element r)).

(** The replies hiredis builds for the common protocol answers. *)
Definition integer_reply (n : Z) : redisReply := mkReply REDIS_REPLY_INTEGER n 0 [] [].
Definition string_reply (s : bytes) : redisReply := mkReply REDIS_REPLY_STRING 0 0 s [].
Definition status_reply (s : bytes) : redisReply := mkReply REDIS_REPLY_STATUS 0 0 s [].
Definition error_reply (s : bytes) : redisReply := mkReply REDIS_REPLY_ERROR 0 0 s [].
Definition nil_reply : redisReply := mkReply REDIS_REPLY_NIL 0 0 [] [].
Definition array_reply (rs : list redisReply) : redisReply :=
  mkReply REDIS_REPLY_ARRAY 0 0 [] rs.

(** [struct redisContext], the fields the program touches.  [obuf] points
    into the block of the command builder being sent: it is the offset in
    that block. *)
Record redisContext (reader : Type) : Type := mkContext {
  err : Z;
  errstr : bytes;
  fd : Z;
  flags : Z;
  obuf : Z;
  rd : reader
}.
Arguments mkContext {reader} _ _ _ _ _ _.
Arguments err {reader} _.
Arguments errstr {reader} _.
Arguments fd {reader} _.
Arguments flags {reader} _.
Arguments obuf {reader} _.
Arguments rd {reader} _.

Definition set_obuf {R} (o : Z) (c : redisContext R) : redisContext R :=
  mkContext (err c) (errstr c) (fd c) (flags c) o (rd c).

Definition set_error {R} (e : Z) (s : bytes) (c : redisContext R) : redisContext R :=
  mkContext e s (fd c) (flags c) (obuf c) (rd c).

(** ** The library and the system calls *)

Class Hiredis : Type := {
  world : Type;
  reader : Type;
  (** [send fd data]: the count (negative for an error) and [errno]. *)
  send : Z -> bytes -> world -> Z * Z * world;
  redisBufferRead : redisContext reader -> world -> Z * redisContext reader * world;
  redisGetReplyFromReader :
    redisContext reader -> world -> Z * option redisReply * redisContext reader * world;
  (** [redisConnectWithTimeout ip port (sec, usec)]; [None] is [nullptr]. *)
  redisConnectWithTimeout :
    bytes -> Z -> Z * Z -> world -> option (redisContext reader) * world;
  (** [redisCommand ctx fmt arg] with one [%s] argument. *)
  redisCommand : redisContext reader -> bytes -> bytes -> world ->
    option redisReply * redisContext reader * world;
  redisFree : redisContext reader -> world -> world;
  freeReplyObject : redisReply -> world -> world;
  strerror_r : Z -> bytes;
  GetTimeMillisecond : world -> Z * world;
  Sleep : Z -> world -> world
}.

(** The documented contract of [send] on a stream socket: it takes a prefix
    of the data, of at least one byte when there is one, and reports its
    length, or reports an error as -1 and takes nothing.  [wire w] is the sequence of bytes the peer was handed. *)
Class SendLaws (H : Hiredis) : Type := {
  wire : world -> bytes;
  send_count : forall fd d w n e w', send fd d w = (n, e, w') ->
    n = -1 \/ 0 <= n <= Z.of_nat (length d);
  send_progress : forall fd d w n e w', send fd d w = (n, e, w') -> d <> [] -> n <> 0;
  send_wire : forall fd d w n e w', send fd d w = (n, e, w') ->
    wire w' = wire w ++ take (Z.to_nat n) d;
  free_wire : forall r w, wire (freeReplyObject r w) = wire w;
  read_wire : forall c w n c' w', redisBufferRead c w = (n, c', w') -> wire w' = wire w;
  reply_wire : forall c w n r c' w',
    redisGetReplyFromReader c w = (n, r, c', w') -> wire w' = wire w
}.

(** A clock in milliseconds: it never runs backwards, [Sleep] lasts at least
    the given time, and no call takes more than [2 ^ 40] ms (35 years), which
    keeps time differences within an [s64]. *)
Class ClockLaws (H : Hiredis) : Type := {
  clock : world -> Z;
  time_clock : forall w, fst (GetTimeMillisecond w) = clock w;
  time_step : forall w, clock w <= clock (snd (GetTimeMillisecond w)) <= clock w + 2 ^ 40;
  sleep_step : forall ms w, 0 <= ms -> clock w + ms <= clock (Sleep ms w) <= clock w + ms + 2 ^ 40;
  connect_step : forall ip port tv w,
    clock w <= clock (snd (redisConnectWithTimeout ip port tv w)) <= clock w + 2 ^ 40;
  command_step : forall c f a w, clock w <= clock (snd (redisCommand c f a w)) <= clock w + 2 ^ 40;
  redisFree_step : forall c w, clock w <= clock (redisFree c w) <= clock w + 2 ^ 40
}.

(** ** A concrete library, driven by scripts *)

Module Scripted.

(** [sends] scripts the results of [send]: a count to take, or an [errno];
    when it runs out everything is taken.  A library without [interrupts]
    reports a reset connection in place of [EINTR].  [inbox] holds what successive
    reads deliver: [Some r] a complete reply, [None] a fragment; when it
    runs out, reads fail.  [accepts] scripts the connection attempts, with
    the reply the password command gets; reading the clock advances it by
    [tick], cut to the range from 0 to a minute. *)
Record state : Type := mkState {
  sent : bytes;
  sends : list (Z + Z);
  inbox : list (option redisReply);
  accepts : list (option redisReply);
  freed : nat;
  now : Z;
  tick : Z
}.

Definition ECONNRESET : Z := 104.

Definition send (interrupts : bool) (_ : Z) (d : bytes) (w : state) : Z * Z * state :=
  let next n rest := mkState (sent w ++ take (Z.to_nat n) d) rest (inbox w) (accepts w)
                       (freed w) (now w) (tick w) in
  match sends w with
  | [] => let n := Z.of_nat (length d) in (n, 0, next n [])
  | inl k :: rest =>
      let n := Z.min (Z.max 1 k) (Z.of_nat (length d)) in (n, 0, next n rest)
  | inr e :: rest =>
      (-1, if negb interrupts && (e =? EINTR) then ECONNRESET else e, next (-1) rest)
  end.

Definition BufferRead (c : redisContext (list redisReply)) (w : state)
    : Z * redisContext (list redisReply) * state :=
  let pop rest := mkState (sent w) (sends w) rest (accepts w) (freed w) (now w) (tick w) in
  match inbox w with
  | [] => (REDIS_ERR, set_error REDIS_ERR_EOF (lit "Server closed the connection") c, w)
  | None :: rest => (REDIS_OK, c, pop rest)
  | Some r :: rest =>
      (REDIS_OK, mkContext (err c) (errstr c) (fd c) (flags c) (obuf c) (rd c ++ [r]), pop rest)
  end.

Definition GetReplyFromReader (c : redisContext (list redisReply)) (w : state)
    : Z * option redisReply * redisContext (list redisReply) * state :=
  match rd c with
  | [] => (REDIS_OK, None, c, w)
  | r :: rs =>
      (REDIS_OK, Some r, mkContext (err c) (errstr c) (fd c) (flags c) (obuf c) rs, w)
  end.

(** A new blocking context. *)
Definition fresh : redisContext (list redisReply) := mkContext 0 [] 3 REDIS_BLOCK 0 [].

Definition ConnectWithTimeout (_ : bytes) (_ : Z) (_ : Z * Z) (w : state)
    : option (redisContext (list redisReply)) * state :=
  match accepts w with [] => (None, w) | _ => (Some fresh, w) end.

Definition Command (c : redisContext (list redisReply)) (_ _ : bytes) (w : state)
    : option redisReply * redisContext (list redisReply) * state :=
  match accepts w with
  | [] => (None, c, w)
  | r :: rest => (r, c, mkState (sent w) (sends w) (inbox w) rest (freed w) (now w) (tick w))
  end.

Definition lib (interrupts : bool) : Hiredis := {|
  world := state;
  reader := list redisReply;
  Hiredis.send := send interrupts;
  redisBufferRead := BufferRead;
  redisGetReplyFromReader := GetReplyFromReader;
  redisConnectWithTimeout := ConnectWithTimeout;
  redisCommand := Command;
  redisFree := fun _ w => w;
  freeReplyObject := fun _ w =>
    mkState (sent w) (sends w) (inbox w) (accepts w) (S (freed w)) (now w) (tick w);
  strerror_r := fun _ => lit "I/O error";
  GetTimeMillisecond := fun w =>
    (now w, mkState (sent w) (sends w) (inbox w) (accepts w) (freed w)
              (now w + Z.max 0 (Z.min (tick w) 60000)) (tick w));
  Sleep := fun ms w =>
    mkState (sent w) (sends w) (inbox w) (accepts w) (freed w) (now w + ms) (tick w)
|}.

#[export] Instance laws interrupts : SendLaws (lib interrupts).
Proof.
  refine {| wire := sent : @world (lib interrupts) -> bytes |}; cbn.
  - intros fd d w n e w'. unfold send. destruct (sends w) as [|[k|k] rest]; intros [= <- _ _]; lia.
  - intros fd d w n e w'. unfold send. intros E Hd.
    assert (0 < Z.of_nat (length d)) by (destruct d; [done|cbn; lia]).
    destruct (sends w) as [|[k|k] rest]; injection E as <- _ _; lia.
  - intros fd d w n e w'. unfold send.
    by destruct (sends w) as [|[k|k] rest]; intros [= <- _ <-].
  - done.
  - intros c w n c' w'. unfold BufferRead. by destruct (inbox w) as [|[r|] rest]; intros [= _ _ <-].
  - intros c w n r c' w'. unfold GetReplyFromReader. by destruct (rd c); intros [= _ _ _ <-].
Defined.

(** Its clock, when a tick is positive and less than a minute. *)
#[export] Instance clock_laws interrupts : ClockLaws (lib interrupts).
Proof.
  refine {| clock := now : @world (lib interrupts) -> Z |}; cbn.
  - done.
  - intros w. lia.
  - intros ms w Hms. lia.
  - intros ip port tv w. unfold ConnectWithTimeout. destruct (accepts w); cbn; lia.
  - intros c f a w. unfold Command. destruct (accepts w); cbn; lia.
  - intros c w. lia.
Defined.

(** A quiet network on which reads deliver [inbox]. *)
Definition world_of (inbox : list (option redisReply)) : state :=
  mkState [] [] inbox [] 0 0 1.
End Scripted.

#[export] Existing Instances Scripted.laws Scripted.clock_laws.
