(* ===== verification/RedisHelper.v ===== *)
(** * Command builder and reply view (RedisMgr/RedisHelper.h, RedisHelper.cpp)

    [RedisCmdBuilder] accumulates arguments in one string that starts with
    twenty bytes reserved for the command head; [Commit] formats the head,
    with a 32-bit length word in front of it, into the end of that space.
    [RedisResult] is the view of a reply.  The theorems show that a committed
    builder holds exactly [resp_encode] of its arguments behind a length word
    with their size, and what each accessor of a reply returns. *)
From Stdlib Require Import ZArith Lia Ascii.
From stdpp Require Import base numbers list list_numbers strings.
From S2P Require Import Prelude Kernel Resp Hiredis.
Open Scope Z_scope.

(** ** RedisCmdBuilder *)

Definition HEAD_CONTENT_BUFF : Z := 20.

Record RedisCmdBuilder : Type := mkBuilder {
  _count : Z;
  _commit : bool;
  _cmd : bytes;
  _seek : Z
}.

(** [RedisCmdBuilder()]: [HEAD_CONTENT_BUFF] zero bytes. *)
Definition builder_new : RedisCmdBuilder :=
  mkBuilder 0 false (replicate (Z.to_nat HEAD_CONTENT_BUFF) NUL) 0.

(** [RedisCmdBuilder(s32 buffSize)]: the same string, then
    [_cmd.resize(buffSize)]; a negative size converts to a [size_t] beyond
    [max_size()] and throws. *)
Definition builder_new_sized (buffSize : Z) : outcome RedisCmdBuilder :=
  if buffSize <? 0 then Fault BadAlloc else
  let zeros := replicate (Z.to_nat HEAD_CONTENT_BUFF) NUL in
  let n := Z.to_nat buffSize in
  Ok (mkBuilder 0 false (take n zeros ++ replicate (n - length zeros) NUL) 0).

(** What all the [operator<<] do with the length they format and the bytes
    they append. *)
Definition push_bulk (b : RedisCmdBuilder) (len : Z) (val : bytes) : RedisCmdBuilder :=
  let buff := SafeSprintf 32 (lit "$" ++ fmt_d len ++ CRLF) in
  mkBuilder (s32 (_count b + 1)) (_commit b) (_cmd b ++ cstr buff ++ val ++ CRLF) (_seek b).

(** [operator<<(const std::string &)]: [%d] reads the low 32 bits of the
    [size_t] length. *)
Definition push_string (b : RedisCmdBuilder) (val : bytes) : RedisCmdBuilder :=
  push_bulk b (s32 (Z.of_nat (length val))) val.

(** [operator<<] on a [const char] pointer. *)
Definition push_cstr (b : RedisCmdBuilder) (val : bytes) : RedisCmdBuilder :=
  push_bulk b (s32 (strlen val)) (cstr val).

(** A [StrView]: the memory its pointer addresses and its length. *)
Definition StrView : Type := bytes * Z.

Definition StrView_of_string (val : bytes) : StrView := (val, Z.of_nat (length val)).
Definition StrView_of_cstr (buff : bytes) : StrView := (buff, strlen buff).

(** [operator<<(const StrView &)]: the length is cast to [s32], and a negative
    one makes [append] throw. *)
Definition push_view (b : RedisCmdBuilder) (val : StrView) : outcome RedisCmdBuilder :=
  let len := s32 (snd val) in
  if len <? 0 then Fault BadAlloc else
  data ← of_option OutOfBounds (mem_read (fst val) 0 len);
  Ok (push_bulk b len data).

(** [template<typename T> operator<<(T &)]: [std::to_string]. *)
Definition push_num (b : RedisCmdBuilder) (val : Z) : RedisCmdBuilder := push_string b (fmt_d val).

(** The overloads of [operator<<], as one call of the class: which one the
    argument's static type selects, and the argument. *)
Inductive push_call : Type :=
  | PushString (val : bytes)
  | PushCStr (val : bytes)
  | PushView (val : StrView)
  | PushNum (val : Z).

Definition push (b : RedisCmdBuilder) (p : push_call) : outcome RedisCmdBuilder :=
  match p with
  | PushString val => Ok (push_string b val)
  | PushCStr val => Ok (push_cstr b val)
  | PushView val => push_view b val
  | PushNum val => Ok (push_num b val)
  end.

(** [builder << p1 << p2 << ...]. *)
Fixpoint push_all (b : RedisCmdBuilder) (ps : list push_call) : outcome RedisCmdBuilder :=
  match ps with
  | [] => Ok b
  | p :: ps' => b' ← push b p; push_all b' ps'
  end.

(** [Commit]: [replace] throws when [_seek] is behind the end of [_cmd]. *)
Definition Commit (b : RedisCmdBuilder) : outcome RedisCmdBuilder :=
  if _commit b then Ok b else
  let cmdHead := SafeSprintf (HEAD_CONTENT_BUFF - 4) (lit "*" ++ fmt_d (_count b) ++ CRLF) in
  let headLen := strlen cmdHead + 4 in
  let seek := HEAD_CONTENT_BUFF - headLen in
  let len := s32 (Z.of_nat (length (_cmd b)) - seek - 4) in
  let buff := le32 len ++ cstr cmdHead in
  if Z.of_nat (length (_cmd b)) <? seek then Fault BadCall else
  Ok (mkBuilder (_count b) true
        (take (Z.to_nat seek) (_cmd b) ++ buff ++ drop (Z.to_nat (seek + headLen)) (_cmd b))
        (seek + 4)).

(** [GetSendBuff]: the bytes from the returned pointer to the end of the
    string. *)
Definition GetSendBuff (b : RedisCmdBuilder) : bytes := drop (Z.to_nat (_seek b)) (_cmd b).

Definition IsCommit (b : RedisCmdBuilder) : bool := _commit b.

(** ** RedisResult *)

(** [bool GetInteger(s64 &val)]: [None] is [false], which leaves [val]. *)
Definition GetInteger (r : redisReply) : option Z :=
  if r_type r =? REDIS_REPLY_INTEGER then Some (r_integer r) else None.

Definition GetFloat (r : redisReply) : option Z :=
  if r_type r =? REDIS_REPLY_DOUBLE then Some (r_dval r) else None.

(** [GetStr]: the pointer's bytes and the length cast to [s32]. *)
Definition GetStr (r : redisReply) : option (bytes * Z) :=
  if r_type r =? REDIS_REPLY_STRING then Some (r_str r, s32 (r_len r)) else None.

(** [bool GetString(std::string &strVal)]: the result and the new value of
    [strVal], which an empty string reply leaves as it was. *)
Definition GetString (r : redisReply) (strVal : bytes) : bool * bytes :=
  if r_type r =? REDIS_REPLY_STRING
  then (true, if 0 <? r_len r then r_str r else strVal)
  else (false, strVal).

Definition IsNil (r : redisReply) : bool := r_type r =? REDIS_REPLY_NIL.

(** [strcmp(_reply->str, "OK") == 0] on a status reply. *)
Definition IsOK (r : redisReply) : bool :=
  if r_type r =? REDIS_REPLY_STATUS then bool_decide (cstr (r_str r) = lit "OK") else false.

(** [ForeachArray]: the callback runs on each element, in order. *)
Definition ForeachArray {S} (r : redisReply) (eachFun : redisReply -> M S ()) : M S bool :=
  if r_type r =? REDIS_REPLY_ARRAY then
    _ ← foldr (fun e k => _ ← eachFun e; k) (mret tt) (r_element r);
    mret true
  else mret false.

(** [ParseStringArray]: pushes the string of every element, an empty one for
    an element that is not a string. *)
Definition ParseStringArray (r : redisReply) (vals : list bytes) : bool * list bytes :=
  if r_type r =? REDIS_REPLY_ARRAY
  then (true, vals ++ map (fun e => snd (GetString e [])) (r_element r))
  else (false, vals).

(** [std::map<std::string, std::string>]: key order is the byte order, and
    [emplace] keeps the value of a key that is present. *)
Fixpoint bytes_lt (x y : bytes) : bool :=
  match x, y with
  | [], [] => false
  | [], _ :: _ => true
  | _ :: _, [] => false
  | c :: x', d :: y' =>
      if byte_val c <? byte_val d then true
      else if byte_val d <? byte_val c then false else bytes_lt x' y'
  end.

Abbreviation StringMap := (list (bytes * bytes)).

Fixpoint emplace (k v : bytes) (m : StringMap) : StringMap :=
  match m with
  | [] => [(k, v)]
  | (k', v') :: m' =>
      if bytes_lt k k' then (k, v) :: m
      else if bytes_lt k' k then (k', v') :: emplace k v m' else m
  end.

(** The loop [for (i = 0; i < elements - 1; i += 2)] of [ParseStringMap]: the
    bound is a [size_t], so an empty array has bound [2^64 - 1], and reading
    an element that is not there is an out-of-bounds access. *)
Fixpoint parse_pairs (fuel : nat) (es : list redisReply) (i bound : Z) (vals : StringMap)
    : outcome StringMap :=
  match fuel with
  | O => OutOfFuel
  | S fuel' =>
      if i <? bound then
        k ← of_option OutOfBounds (es !! Z.to_nat i);
        v ← of_option OutOfBounds (es !! Z.to_nat (i + 1));
        parse_pairs fuel' es (i + 2) bound
          (emplace (snd (GetString k [])) (snd (GetString v [])) vals)
      else Ok vals
  end.

Definition ParseStringMap (r : redisReply) (vals : StringMap) : outcome (bool * StringMap) :=
  if r_type r =? REDIS_REPLY_ARRAY then
    vals' ← parse_pairs (S (length (r_element r))) (r_element r) 0 (u64 (r_elements r - 1)) vals;
    Ok (true, vals')
  else Ok (false, vals).

(** ** Text without NUL *)

(** The two formats of the builder: no NUL, and short. *)
Lemma head_text c n : c <> NUL -> 0 <= n < 2 ^ 31 ->
  no_nul (c :: fmt_d n ++ CRLF) /\ (3 <= length (c :: fmt_d n ++ CRLF) <= 13)%nat.
Proof.
  intros Hc Hn. split.
  - constructor; [done|]. apply Forall_app. split; [apply fmt_d_no_nul; lia|].
    by repeat constructor.
  - cbn [length]. rewrite length_app, fmt_d_nonneg by lia.
    pose proof (dec_length 19 9 n) as H. change (length CRLF) with 2%nat.
    enough (length (dec 19 n) <= 9 + 1)%nat by lia. apply H.
    split; [lia|]. eapply Z.lt_trans; [apply Hn|]. by vm_compute.
Qed.

(** ** The builder's invariant *)

(** The builder [b], not yet committed, holds the arguments [args] behind the
    reserved head and [pad]: nothing for the default constructor, what
    [resize] added for the sized one. *)
Record building (b : RedisCmdBuilder) (pad : bytes) (args : list bytes) : Prop := {
  bld_count : _count b = Z.of_nat (length args);
  bld_commit : _commit b = false;
  bld_cmd : _cmd b = replicate 20 NUL ++ pad ++ resp_bulks args;
  bld_seek : _seek b = 0
}.

(** Arguments whose number and encoded size an [int32_t] can count. *)
Definition args_ok (args : list bytes) : Prop :=
  Z.of_nat (length args) < 2 ^ 31 /\ Z.of_nat (length (resp_encode args)) < 2 ^ 31.

#[export] Instance args_ok_dec args : Decision (args_ok args).
Proof. unfold args_ok. apply _. Defined.

Lemma building_new : building builder_new [] [].
Proof. by constructor. Qed.

Lemma resp_bulk_length a : (length a + 6 <= length (resp_bulk a))%nat.
Proof.
  unfold resp_bulk. rewrite !length_app. cbn [lit String.list_ascii_of_string length CRLF].
  enough (length (fmt_d (Z.of_nat (length a))) <> 0)%nat by lia.
  rewrite fmt_d_nonneg by lia. intros H%nil_length_inv. by apply dec_nonempty in H.
Qed.

Lemma resp_bulks_length args a : In a args -> (length a + 6 <= length (resp_bulks args))%nat.
Proof.
  unfold resp_bulks. induction args as [|x args IH]; [done|].
  intros [->|H]; cbn [map concat]; rewrite length_app.
  - pose proof (resp_bulk_length a). lia.
  - specialize (IH H). lia.
Qed.

Lemma resp_bulks_count args : (6 * length args <= length (resp_bulks args))%nat.
Proof.
  unfold resp_bulks. induction args as [|x args IH]; [done|].
  cbn [map concat length]. rewrite length_app. pose proof (resp_bulk_length x). lia.
Qed.

Lemma args_ok_arg args a : args_ok args -> In a args -> Z.of_nat (length a) < 2 ^ 31.
Proof.
  intros [_ H] Ha%resp_bulks_length. unfold resp_encode in H. rewrite length_app in H. lia.
Qed.

Lemma push_bulk_resp b a : Z.of_nat (length a) < 2 ^ 31 ->
  push_bulk b (s32 (Z.of_nat (length a))) a =
    mkBuilder (s32 (_count b + 1)) (_commit b) (_cmd b ++ resp_bulk a) (_seek b).
Proof.
  intros Ha. unfold push_bulk, resp_bulk.
  rewrite (s32_small (Z.of_nat (length a))) by (unfold is_s32; lia).
  destruct (head_text "$"%char (Z.of_nat (length a))) as [H1 H2]; [done|lia|].
  change (lit "$" ++ fmt_d (Z.of_nat (length a)) ++ CRLF)
    with ("$"%char :: fmt_d (Z.of_nat (length a)) ++ CRLF).
  rewrite SafeSprintf_fits by (done || lia).
  f_equal. cbn [lit String.list_ascii_of_string app]. by rewrite <- !app_assoc.
Qed.

Lemma push_string_building b pad args a :
  building b pad args -> Z.of_nat (length a) < 2 ^ 31 -> Z.of_nat (length args) + 1 < 2 ^ 31 ->
  building (push_string b a) pad (args ++ [a]).
Proof.
  intros [Hc Hm Hd Hs] Ha Hn. unfold push_string. rewrite push_bulk_resp by done.
  constructor; cbn [_count _commit _cmd _seek]; try done.
  - rewrite Hc, length_app, s32_small by (unfold is_s32; lia). cbn. lia.
  - rewrite Hd, resp_bulks_app, <- !app_assoc. do 2 f_equal. unfold resp_bulks at 3.
    cbn [map concat]. by rewrite app_nil_r.
Qed.

(** A literal or a number is pushed as the string it stands for. *)
Lemma push_cstr_string b s : no_nul s -> push_cstr b s = push_string b s.
Proof. intros H. unfold push_cstr, push_string, strlen. by rewrite cstr_id. Qed.

(** A [StrView] pushes the bytes it covers. *)
Lemma push_view_string b s : Z.of_nat (length s) < 2 ^ 31 ->
  push_view b (StrView_of_string s) = Ok (push_string b s).
Proof.
  intros Hs. unfold push_view, StrView_of_string, push_string. cbn [fst snd].
  rewrite s32_small by (unfold is_s32; lia).
  destruct (Z.ltb_spec (Z.of_nat (length s)) 0); [lia|].
  rewrite mem_read_Some by lia. cbn [of_option mbind outcome_bind].
  change (Z.to_nat 0) with 0%nat. by rewrite drop_0, take_ge by lia.
Qed.

(** Pushing a list of arguments. *)
Lemma push_list_building xs b pad args :
  building b pad args -> args_ok (args ++ xs) ->
  building (foldl push_string b xs) pad (args ++ xs).
Proof.
  revert b args. induction xs as [|x xs IH]; intros b args Hb Hok; cbn [foldl].
  { by rewrite app_nil_r. }
  replace (args ++ x :: xs) with ((args ++ [x]) ++ xs) in * by (by rewrite <- app_assoc).
  apply IH; [|done]. apply push_string_building; [done| |].
  - apply (args_ok_arg _ _ Hok). rewrite <- app_assoc. apply in_or_app. right. by left.
  - destruct Hok as [H _]. rewrite !length_app in H. cbn in H. lia.
Qed.

(** ** The committed builder *)

(** [b] is committed and holds [payload] behind its length word. *)
Record committed (b : RedisCmdBuilder) (payload : bytes) : Prop := {
  com_commit : _commit b = true;
  com_seek : 4 <= _seek b;
  com_word : mem_read (_cmd b) (_seek b - 4) 4 = Some (le32 (Z.of_nat (length payload)));
  com_send : GetSendBuff b = payload;
  com_len : Z.of_nat (length (_cmd b)) = _seek b + Z.of_nat (length payload)
}.

(** What [Commit] does to a builder, whichever constructor made it. *)
Lemma Commit_frame b pad args :
  building b pad args ->
  let payload := resp_head (Z.of_nat (length args)) ++ pad ++ resp_bulks args in
  Z.of_nat (length args) < 2 ^ 31 -> Z.of_nat (length payload) < 2 ^ 31 ->
  exists b', Commit b = Ok b' /\ committed b' payload.
Proof.
  intros [Hc Hm Hd Hs] payload Hn Hok. unfold Commit. rewrite Hm, Hc, Hd.
  destruct (head_text "*"%char (Z.of_nat (length args))) as [H1 H2]; [done|lia|].
  change (lit "*" ++ fmt_d (Z.of_nat (length args)) ++ CRLF)
    with ("*"%char :: fmt_d (Z.of_nat (length args)) ++ CRLF).
  unfold strlen, HEAD_CONTENT_BUFF. rewrite SafeSprintf_fits by (done || lia).
  change ("*"%char :: fmt_d (Z.of_nat (length args)) ++ CRLF)
    with (resp_head (Z.of_nat (length args))) in *.
  set (head := resp_head (Z.of_nat (length args))) in *.
  set (rest := pad ++ resp_bulks args) in *. set (h := Z.of_nat (length head)) in *.
  unfold payload in Hok. rewrite length_app in Hok.
  rewrite (length_app (replicate 20 NUL)), length_replicate.
  destruct (Z.ltb_spec (Z.of_nat (20 + length rest)) (20 - (h + 4))); [lia|].
  replace (20 - (h + 4) + (h + 4)) with 20 by lia.
  rewrite take_app_le by (rewrite length_replicate; lia).
  rewrite drop_app_length' by done. rewrite take_replicate.
  eexists. split; [reflexivity|].
  assert (Hlz : length (replicate (Z.to_nat (20 - (h + 4)) `min` 20) NUL)
                = Z.to_nat (20 - (h + 4))) by (rewrite length_replicate; lia).
  constructor; unfold GetSendBuff; cbn [_commit _seek _cmd].
  - done.
  - lia.
  - rewrite <- (app_assoc (le32 _)). rewrite mem_read_app by (rewrite ?Hlz, ?le32_length; lia).
    do 2 f_equal. unfold payload. rewrite length_app. rewrite s32_small; unfold is_s32; lia.
  - replace (Z.to_nat (20 - (h + 4) + 4)) with (Z.to_nat (20 - (h + 4)) + 4)%nat by lia.
    rewrite <- drop_drop, drop_app_length' by lia. done.
  - unfold payload. rewrite !length_app, Hlz, le32_length. lia.
Qed.

(** The argument a call of [operator<<] means: a string's bytes, a C string's
    bytes up to its NUL, the bytes a view covers, a number's decimal text. *)
Definition push_arg (p : push_call) : bytes :=
  match p with
  | PushString val => val
  | PushCStr val => cstr val
  | PushView (mem, len) => take (Z.to_nat len) mem
  | PushNum val => fmt_d val
  end.

(** A view covers memory that is there. *)
Definition push_ok (p : push_call) : Prop :=
  match p with
  | PushView (mem, len) => 0 <= len <= Z.of_nat (length mem)
  | _ => True
  end.

(** Every overload appends the encoding of its argument. *)
Lemma push_resp b p : push_ok p -> Z.of_nat (length (push_arg p)) < 2 ^ 31 ->
  push b p = Ok (push_string b (push_arg p)).
Proof.
  destruct p as [val|val|[mem len]|val]; cbn [push push_arg push_ok]; try done.
  intros Hv Hl. unfold push_view, push_string. cbn [fst snd].
  rewrite length_take in *. rewrite s32_small by (unfold is_s32; lia).
  destruct (Z.ltb_spec len 0); [lia|]. rewrite mem_read_Some by lia.
  cbn [of_option mbind outcome_bind]. change (Z.to_nat 0) with 0%nat. rewrite drop_0.
  do 2 f_equal. rewrite s32_small by (unfold is_s32; lia). lia.
Qed.

Lemma push_all_strings ps b :
  Forall push_ok ps -> Forall (fun p => Z.of_nat (length (push_arg p)) < 2 ^ 31) ps ->
  push_all b ps = Ok (foldl push_string b (map push_arg ps)).
Proof.
  intros Hv. revert b. induction Hv as [|p ps Hp Hv IH]; intros b Hl; [done|].
  inversion Hl as [|? ? H1 H2]; subst. cbn [push_all map foldl].
  rewrite push_resp by done. cbn [mbind outcome_bind]. by apply IH.
Qed.

(** C3: Whatever is pushed on a new builder with any mixture of the overloads
    of [operator<<] (strings, C strings, views and numbers, in sizes an
    [int32_t] can count), no push fails, and [Commit] leaves in the send
    buffer exactly the RESP encoding of the pushed values, in order, preceded
    in memory by the [int32_t] that counts it (which the write loop reads); a
    RESP parser reads the values back; and a second [Commit] changes
    nothing. *)
Theorem Commit_encodes ps :
  Forall push_ok ps -> args_ok (map push_arg ps) ->
  exists b b', push_all builder_new ps = Ok b /\ Commit b = Ok b' /\
    committed b' (resp_encode (map push_arg ps)) /\ Commit b' = Ok b' /\
    resp_decode (GetSendBuff b') = Some (map push_arg ps, []).
Proof.
  intros Hv Hok. pose proof Hok as [Hn Hl].
  assert (Hs : Forall (fun a => Z.of_nat (length a) < 2 ^ 31) (map push_arg ps)).
  { apply Forall_forall. intros a Ha%list_elem_of_In. by apply (args_ok_arg _ _ Hok). }
  pose proof (push_list_building (map push_arg ps) builder_new [] [] building_new Hok) as Hb.
  destruct (Commit_frame _ [] _ Hb Hn Hl) as (b' & E & Hc).
  change (committed b' (resp_encode (map push_arg ps))) in Hc.
  eexists _, b'. split_and!; [|exact E|done| |].
  - apply push_all_strings; [done|]. by apply Forall_map in Hs.
  - unfold Commit. by rewrite (com_commit _ _ Hc).
  - rewrite (com_send _ _ Hc), <- (app_nil_r (resp_encode _)).
    apply resp_decode_encode; [lia|]. eapply Forall_impl; [exact Hs|]. intros a; cbn; lia.
Qed.

(** The sized constructor leaves [buffSize - 20] zero bytes behind the head. *)
Lemma building_sized n : 20 <= n ->
  exists b, builder_new_sized n = Ok b /\ building b (replicate (Z.to_nat (n - 20)) NUL) [].
Proof.
  intros Hn. unfold builder_new_sized. destruct (Z.ltb_spec n 0); [lia|].
  eexists. split; [reflexivity|]. constructor; cbn [_count _commit _seek _cmd]; try done.
  rewrite take_ge by (rewrite length_replicate; unfold HEAD_CONTENT_BUFF; lia).
  rewrite length_replicate. f_equal. unfold resp_bulks. cbn [map concat].
  rewrite app_nil_r. f_equal. unfold HEAD_CONTENT_BUFF. lia.
Qed.

(** A builder made with the sized constructor sends a malformed command:
    [resize] (where [reserve] was meant) puts [buffSize - 20] zero bytes
    between the command head and the first argument, and no RESP parser
    accepts the result. *)
Theorem sized_builder_malformed n args :
  20 < n < 2 ^ 30 -> args <> [] -> Z.of_nat (length (resp_encode args)) < 2 ^ 30 ->
  exists b b', builder_new_sized n = Ok b /\ Commit (foldl push_string b args) = Ok b' /\
    GetSendBuff b' = resp_head (Z.of_nat (length args)) ++
      replicate (Z.to_nat (n - 20)) NUL ++ resp_bulks args /\
    resp_decode (GetSendBuff b') = None.
Proof.
  intros Hn Hne Hl. destruct (building_sized n ltac:(lia)) as (b & E & Hb).
  assert (Hok : args_ok ([] ++ args)).
  { pose proof (resp_bulks_count args). cbn [app]. split; [|lia].
    unfold resp_encode in Hl. rewrite length_app in Hl. lia. }
  pose proof (push_list_building args b _ [] Hb Hok) as Hb'. cbn [app] in Hb'.
  destruct (Commit_frame _ _ _ Hb') as (b' & E' & Hc).
  - apply Hok.
  - unfold resp_encode in Hl. rewrite !length_app in *. rewrite length_replicate. lia.
  - exists b, b'. rewrite (com_send _ _ Hc). split_and!; [done..|].
    unfold resp_head. rewrite <- !app_assoc.
    cbn [lit String.list_ascii_of_string app resp_decode].
    rewrite bool_decide_eq_true_2 by done. destruct Hok as [Hok _]. cbn [app] in Hok.
    rewrite parse_num_fmt by lia. cbn [mbind option_bind]. rewrite Nat2Z.id.
    destruct args as [|a args]; [done|]. cbn [length parse_bulks].
    replace (Z.to_nat (n - 20)) with (S (Z.to_nat (n - 21))) by lia. done.
Qed.

(** ** String maps *)

Lemma byte_val_inj c d : byte_val c = byte_val d -> c = d.
Proof. intros H. by rewrite <- (byte_of_val c), H, byte_of_val. Qed.

Lemma bytes_lt_irrefl x : bytes_lt x x = false.
Proof. induction x as [|c x IH]; [done|]. cbn. by rewrite Z.ltb_irrefl. Qed.

Lemma bytes_lt_trans x y z : bytes_lt x y = true -> bytes_lt y z = true -> bytes_lt x z = true.
Proof.
  revert y z. induction x as [|c x IH]; intros [|d y] [|e z]; cbn; try done.
  repeat case_match; try done; try lia.
  all: try (intros; eapply IH; eassumption).
Qed.

(** Two keys that neither precedes are equal. *)
Lemma bytes_lt_total x y : bytes_lt x y = false -> bytes_lt y x = false -> x = y.
Proof.
  revert y. induction x as [|c x IH]; intros [|d y]; cbn; try done.
  destruct (Z.ltb_spec (byte_val c) (byte_val d)); [done|].
  destruct (Z.ltb_spec (byte_val d) (byte_val c)); [done|].
  intros H1 H2. f_equal; [apply byte_val_inj; lia|by apply IH].
Qed.

(** The keys of a [std::map] increase strictly. *)
Fixpoint map_sorted (m : StringMap) : Prop :=
  match m with
  | [] => True
  | (k, _) :: m' => Forall (fun p => bytes_lt k (fst p) = true) m' /\ map_sorted m'
  end.

(** [find]. *)
Fixpoint map_find (k : bytes) (m : StringMap) : option bytes :=
  match m with
  | [] => None
  | (k', v) :: m' => if bool_decide (k = k') then Some v else map_find k m'
  end.

Lemma emplace_Forall (P : bytes * bytes -> Prop) k v m :
  P (k, v) -> Forall P m -> Forall P (emplace k v m).
Proof.
  intros Hk. induction 1 as [|[k' v'] m Hp Hm IH]; cbn [emplace]; [by constructor|].
  repeat case_match; by repeat constructor.
Qed.

Lemma emplace_sorted k v m : map_sorted m -> map_sorted (emplace k v m).
Proof.
  induction m as [|[k' v'] m IH]; cbn [emplace map_sorted]; [by repeat constructor|].
  intros [Hf Hm]. destruct (bytes_lt k k') eqn:E1; [|destruct (bytes_lt k' k) eqn:E2].
  - cbn. split; [|done]. constructor; [done|].
    eapply Forall_impl; [exact Hf|]. intros p Hp. by eapply bytes_lt_trans.
  - cbn. split; [|by apply IH]. by apply emplace_Forall.
  - done.
Qed.

Lemma map_find_below k k' m : bytes_lt k k' = true ->
  Forall (fun p => bytes_lt k' (fst p) = true) m -> map_find k m = None.
Proof.
  intros Hk. induction 1 as [|[k1 v1] m Hp Hm IH]; [done|]. cbn in *.
  rewrite bool_decide_eq_false_2; [done|]. intros <-.
  pose proof (bytes_lt_trans _ _ _ Hk Hp) as H. by rewrite bytes_lt_irrefl in H.
Qed.

(** [emplace] adds a key that is absent and keeps the value of one that is
    present. *)
Lemma emplace_find k v m q : map_sorted m ->
  map_find q (emplace k v m) =
    if bool_decide (q = k) then Some (default v (map_find k m)) else map_find q m.
Proof.
  induction m as [|[k' v'] m IH]; cbn [emplace map_sorted map_find].
  { intros _. by case_bool_decide. }
  intros [Hf Hm]. destruct (bytes_lt k k') eqn:E1; [|destruct (bytes_lt k' k) eqn:E2].
  - cbn [map_find]. case_bool_decide; [|done]. rewrite bool_decide_eq_false_2.
    + by rewrite (map_find_below _ _ _ E1 Hf).
    + intros ->. by rewrite bytes_lt_irrefl in E1.
  - cbn [map_find]. rewrite IH by done.
    assert (k <> k') by (intros ->; by rewrite bytes_lt_irrefl in E2).
    repeat case_bool_decide; subst; done.
  - pose proof (bytes_lt_total _ _ E1 E2) as ->. cbn [map_find].
    rewrite (bool_decide_eq_true_2 (k' = k')) by done. by case_bool_decide.
Qed.

(** ** Parsing array replies *)

(** The key/value pairs of a flat array, in order. *)
Fixpoint pairs_of (es : list redisReply) : list (bytes * bytes) :=
  match es with
  | k :: v :: es' => (snd (GetString k []), snd (GetString v [])) :: pairs_of es'
  | _ => []
  end.

Definition emplace_all (ps : list (bytes * bytes)) (m : StringMap) : StringMap :=
  foldl (fun m p => emplace (fst p) (snd p) m) m ps.

(** From an even position on, with the bound the loop computes for a
    non-empty array. *)
Lemma parse_pairs_spec fuel pre es m :
  (length es < fuel)%nat -> pre ++ es <> [] ->
  parse_pairs fuel (pre ++ es) (Z.of_nat (length pre)) (Z.of_nat (length (pre ++ es)) - 1) m
    = Ok (emplace_all (pairs_of es) m).
Proof.
  revert pre es m. induction fuel as [|fuel IH]; intros pre es m Hf Hne; [lia|].
  cbn [parse_pairs]. rewrite length_app.
  destruct es as [|k [|v es]]; cbn [length pairs_of] in *.
  1,2: match goal with |- context [?x <? ?y] => destruct (Z.ltb_spec x y) end; [lia|done].
  destruct (Z.ltb_spec (Z.of_nat (length pre)) (Z.of_nat (length pre + S (S (length es))) - 1));
    [|lia].
  rewrite Nat2Z.id, (list_lookup_middle pre (v :: es) k (length pre)) by done. cbn [of_option mbind outcome_bind].
  replace (Z.to_nat (Z.of_nat (length pre) + 1)) with (length (pre ++ [k]))
    by (rewrite length_app; cbn; lia).
  replace (pre ++ k :: v :: es) with ((pre ++ [k]) ++ v :: es) by (by rewrite <- app_assoc).
  rewrite (list_lookup_middle (pre ++ [k]) es v (length (pre ++ [k]))) by done. cbn [of_option mbind outcome_bind].
  replace ((pre ++ [k]) ++ v :: es) with ((pre ++ [k; v]) ++ es) by (by rewrite <- !app_assoc).
  replace (Z.of_nat (length pre) + 2) with (Z.of_nat (length (pre ++ [k; v])))
    by (rewrite length_app; cbn; lia).
  replace (Z.of_nat (length pre + S (S (length es))) - 1)
    with (Z.of_nat (length ((pre ++ [k; v]) ++ es)) - 1)
    by (rewrite !length_app; cbn; lia).
  rewrite IH; [done|lia|]. by destruct pre.
Qed.

(** [ParseStringMap] on an array reply of [n] elements: for [n > 0] it
    succeeds and has emplaced, in order, each complete key/value pair (an odd
    last element is dropped), so the map stays sorted and the first value of a
    repeated key is kept; for [n = 0] the bound [elements - 1] underflows and
    the loop reads an element that does not exist; on any other reply it
    returns [false] and leaves the map. *)
Theorem ParseStringMap_spec r m :
  r_elements r < 2 ^ 64 -> map_sorted m ->
  ParseStringMap r m =
    (if r_type r =? REDIS_REPLY_ARRAY then
       if r_elements r =? 0 then Fault OutOfBounds
       else Ok (true, emplace_all (pairs_of (r_element r)) m)
     else Ok (false, m)) /\
  map_sorted (emplace_all (pairs_of (r_element r)) m) /\
  (forall q, map_find q (emplace_all (pairs_of (r_element r)) m) =
    match map_find q m with Some v => Some v | None => map_find q (pairs_of (r_element r)) end).
Proof.
  intros Hlt Hm. split; [|clear Hlt; generalize (pairs_of (r_element r)); intros ps; split].
  - unfold ParseStringMap. destruct (r_type r =? REDIS_REPLY_ARRAY); [|done].
    unfold r_elements in *. destruct (r_element r) as [|e es] eqn:E.
    { cbn [length Z.of_nat Z.eqb parse_pairs]. reflexivity. }
    destruct (Z.eqb_spec (Z.of_nat (length (e :: es))) 0) as [E0|_]; [cbn in E0; lia|].
    unfold u64. rewrite uwrap_small by (cbn in *; lia).
    rewrite (parse_pairs_spec _ [] (e :: es)) by (done || lia). done.
  - revert m Hm. induction ps as [|[k v] ps IH]; intros m Hm; [done|].
    cbn. apply IH. by apply emplace_sorted.
  - revert m Hm. induction ps as [|[k v] ps IH]; intros m Hm q.
    { cbn. by destruct (map_find q m). }
    change (emplace_all ((k, v) :: ps) m) with (emplace_all ps (emplace k v m)). cbn [map_find].
    rewrite IH by (by apply emplace_sorted). rewrite emplace_find by done.
    case_bool_decide; [subst; by destruct (map_find k m)|done].
Qed.

Lemma sized_builder_malformed_witness : exists b b', builder_new_sized 64 = Ok b /\
  Commit (foldl push_string b [lit "GET"; lit "k"]) = Ok b' /\ resp_decode (GetSendBuff b') = None.
Proof.
  destruct (sized_builder_malformed 64 [lit "GET"; lit "k"]) as (b & b' & H1 & H2 & _ & H3).
  - lia.
  - done.
  - by vm_compute.
  - by exists b, b'.
Defined.

(** One push of each overload, the view on a buffer of two bytes. *)
Definition four_pushes : list push_call :=
  [PushCStr (lit "SET"); PushString (lit "xuping"); PushView (lit "EXPIRE", 2); PushNum (-120)].

Lemma Commit_encodes_witness : exists b b',
  push_all builder_new four_pushes = Ok b /\ Commit b = Ok b' /\
  resp_decode (GetSendBuff b') = Some ([lit "SET"; lit "xuping"; lit "EX"; lit "-120"], []).
Proof.
  destruct (Commit_encodes four_pushes) as (b & b' & H1 & H2 & _ & _ & H3).
  - repeat constructor; by vm_compute.
  - split; by vm_compute.
  - exists b, b'. split_and!; [exact H1|exact H2|exact H3].
Defined.

(** A reply with two pairs, the second value not a string. *)
Definition two_pairs : redisReply :=
  array_reply [string_reply (lit "f2"); string_reply (lit "v2"); string_reply (lit "f1"); nil_reply].

Lemma ParseStringMap_spec_witness :
  ParseStringMap two_pairs [] = Ok (true, [(lit "f1", []); (lit "f2", lit "v2")]).
Proof.
  destruct (ParseStringMap_spec two_pairs []) as [E _]; [by vm_compute|done|].
  rewrite E. vm_compute. reflexivity.
Defined.

(** The bug of the empty array, on the reply to [HGETALL] of a missing key. *)
Example ParseStringMap_empty : ParseStringMap (array_reply []) [] = Fault OutOfBounds.
Proof. reflexivity. Qed.
