(* ===== verification/RedisWire.v ===== *)
(** * Sending a command and waiting for its reply (RedisMgr/RedisHelper.cpp, [RedisWraaper])

    The write loop works inside the builder's memory: [c->obuf] points at the
    command text and the [int32_t] in front of it counts the bytes left, both
    updated in place.  Here the block is the builder's [_cmd], [obuf] an offset
    in it, and the loops take fuel.  The theorems show what reaches the wire
    under every fragmentation of the writes, that the loops end, what an error
    leaves behind, and what the retry path does instead of retrying. *)
From Stdlib Require Import ZArith Lia Ascii.
From stdpp Require Import base numbers list list_numbers strings.
From S2P Require Import Prelude Kernel Resp Hiredis RedisHelper.
Open Scope Z_scope.

Section Wraaper.
Context {HR : Hiredis}.

Abbreviation context := (redisContext reader).

(** The [sizeof(c->errstr)] of hiredis.h. *)
Definition ERRSTR_SIZE : Z := 128.

(** Copies the text, cut to the size of [errstr]; without a text the system's
    message for [errno] is used, which only [REDIS_ERR_IO] may ask for. *)
Definition __redisSetErrorInner (c : context) (type : Z) (str : option bytes) (errno : Z)
    : outcome context :=
  match str with
  | Some s =>
      let len := strlen s in
      let len := if len <? ERRSTR_SIZE - 1 then len else ERRSTR_SIZE - 1 in
      Ok (set_error type (take (Z.to_nat len) s) c)
  | None =>
      if type =? REDIS_ERR_IO then Ok (set_error type (SafeSprintf ERRSTR_SIZE (strerror_r errno)) c)
      else Fault AssertFailed
  end.

(** The test that lets the loop "try again later". *)
Definition retryable (c : context) (errno : Z) : bool :=
  ((errno =? EWOULDBLOCK) && (Z.land (flags c) REDIS_BLOCK =? 0)) || (errno =? EINTR).

(** [while ( *len > 0 ) ...]; [len_at] is the address of [*len]. *)
Fixpoint write_loop (fuel : nat) (len_at : Z) (c : context) (blk : bytes) (w : world)
    : outcome (Z * context * bytes * world) :=
  match fuel with
  | O => OutOfFuel
  | S fuel' =>
      word ← of_option OutOfBounds (mem_read blk len_at 4);
      let len := unle32 word in
      if 0 <? len then
        data ← of_option OutOfBounds (mem_read blk (obuf c) len);
        let '(n, errno, w) := send (fd c) data w in
        let nwritten := s32 n in
        if (nwritten <? 0) && negb (retryable c errno) then
          c ← __redisSetErrorInner c REDIS_ERR_IO None errno;
          Ok (REDIS_ERR, c, blk, w)
        else
          blk ← of_option OutOfBounds (mem_write blk len_at (le32 (s32 (len - nwritten))));
          write_loop fuel' len_at (set_obuf (obuf c + nwritten) c) blk w
      else Ok (REDIS_OK, c, blk, w)
  end.

Definition redisBufferWriteInner (fuel : nat) (c : context) (blk : bytes) (w : world)
    : outcome (Z * context * bytes * world) :=
  if negb (err c =? 0) then Ok (REDIS_ERR, c, blk, w)
  else write_loop fuel (obuf c - 4) c blk w.

(** [do ... while (aux == NULL)]. *)
Fixpoint read_loop (fuel : nat) (c : context) (w : world)
    : outcome (Z * option redisReply * context * world) :=
  match fuel with
  | O => OutOfFuel
  | S fuel' =>
      let '(e, c, w) := redisBufferRead c w in
      if e =? REDIS_ERR then Ok (REDIS_ERR, None, c, w) else
      let '(e, aux, c, w) := redisGetReplyFromReader c w in
      if e =? REDIS_ERR then Ok (REDIS_ERR, None, c, w) else
      match aux with
      | None => read_loop fuel' c w
      | Some r => Ok (REDIS_OK, Some r, c, w)
      end
  end.

(** [redisGetReplyInner(c, reply)]; [want] says whether [reply] is not
    [NULL].  The result's reply is what [*reply] was set to. *)
Definition redisGetReplyInner (fuel : nat) (c : context) (blk : bytes) (want : bool) (w : world)
    : outcome (Z * option redisReply * context * bytes * world) :=
  '(e, c, blk, w) ← redisBufferWriteInner fuel c blk w;
  if e =? REDIS_ERR then Ok (REDIS_ERR, None, c, blk, w) else
  '(e, aux, c, w) ← read_loop fuel c w;
  match aux with
  | None => Ok (e, None, c, blk, w)
  | Some r => if want then Ok (REDIS_OK, Some r, c, blk, w)
              else Ok (REDIS_OK, None, c, blk, freeReplyObject r w)
  end.
End Wraaper.

(** ** The shape of a block being sent *)

(** [blk] is [pre], the length word [len], and the command text. *)
Definition sending (blk pre payload : bytes) (len : Z) : Prop := blk = pre ++ le32 len ++ payload.

Lemma committed_sending b payload : committed b payload ->
  exists pre, sending (_cmd b) pre payload (Z.of_nat (length payload)) /\
    _seek b = Z.of_nat (length pre) + 4.
Proof.
  intros [_ Hs Hw Hp Hl]. exists (take (Z.to_nat (_seek b - 4)) (_cmd b)).
  assert (Hlen : length (take (Z.to_nat (_seek b - 4)) (_cmd b)) = Z.to_nat (_seek b - 4))
    by (rewrite length_take; lia).
  split; [|lia]. unfold sending. rewrite mem_read_Some in Hw by lia. injection Hw as Hw.
  transitivity (take (Z.to_nat (_seek b - 4)) (_cmd b) ++ le32 (Z.of_nat (length payload)) ++ GetSendBuff b);
    [|by rewrite Hp].
  rewrite <- (take_drop (Z.to_nat (_seek b - 4)) (_cmd b)) at 1. f_equal.
  rewrite <- (take_drop 4 (drop _ (_cmd b))) at 1. f_equal; [exact Hw|].
  unfold GetSendBuff. rewrite drop_drop. f_equal. lia.
Qed.

Section Sending.
Context {HR : Hiredis} (pre payload : bytes).
Let L := Z.of_nat (length payload).
Let at_len := Z.of_nat (length pre).

Lemma sending_word blk len : sending blk pre payload len ->
  mem_read blk at_len 4 = Some (le32 len).
Proof. intros ->. by apply mem_read_app. Qed.

Lemma sending_store blk len len' : sending blk pre payload len ->
  exists blk', mem_write blk at_len (le32 len') = Some blk' /\ sending blk' pre payload len'.
Proof. intros ->. eexists. split; [by apply mem_write_app|done]. Qed.

(** Reading [len] bytes at the position [k] of the text. *)
Lemma sending_data blk len k : sending blk pre payload len -> 0 <= k <= L ->
  mem_read blk (at_len + 4 + k) (L - k) = Some (drop (Z.to_nat k) payload).
Proof.
  intros -> Hk. rewrite mem_read_Some by (rewrite ?length_app, ?le32_length; lia).
  replace (Z.to_nat (at_len + 4 + k)) with (length (pre ++ le32 len) + Z.to_nat k)%nat
    by (rewrite length_app, le32_length; lia).
  rewrite app_assoc, <- drop_drop, drop_app_length. f_equal.
  apply take_ge. rewrite length_drop. lia.
Qed.

(** One byte too far back is the last byte of the length word. *)
Lemma sending_stray blk : sending blk pre payload (L + 1) -> L + 1 < 2 ^ 24 ->
  mem_read blk (at_len + 4 + -1) (L + 1) = Some (NUL :: payload).
Proof.
  intros -> HL. unfold le32.
  assert (Hz : byte_of ((L + 1) / 2 ^ 24) = NUL) by (rewrite Z.div_small by lia; done).
  rewrite Hz.
  replace (pre ++ [byte_of (L + 1); byte_of ((L + 1) / 2 ^ 8); byte_of ((L + 1) / 2 ^ 16); NUL] ++ payload)
    with ((pre ++ [byte_of (L + 1); byte_of ((L + 1) / 2 ^ 8); byte_of ((L + 1) / 2 ^ 16)])
            ++ (NUL :: payload) ++ []) by (by rewrite app_nil_r, <- app_assoc).
  apply mem_read_app; [rewrite length_app; cbn [length]; lia|cbn [length]; lia].
Qed.

(** One iteration that sends and goes on. *)
Lemma write_loop_send f len c blk w data n e w1 :
  sending blk pre payload len -> 0 < len < 2 ^ 31 -> mem_read blk (obuf c) len = Some data ->
  send (fd c) data w = (n, e, w1) -> is_s32 n -> is_s32 (len - n) ->
  (n <? 0) && negb (retryable c e) = false ->
  exists blk1, sending blk1 pre payload (len - n) /\
    write_loop (S f) at_len c blk w = write_loop f at_len (set_obuf (obuf c + n) c) blk1 w1.
Proof.
  intros Hblk Hlen Hr Hs Hn Hd Hg.
  destruct (sending_store blk len (len - n) Hblk) as (blk1 & Ew & Hblk1).
  exists blk1. split; [done|]. cbn [write_loop].
  rewrite (sending_word _ _ Hblk). cbn [of_option mbind outcome_bind].
  rewrite unle32_le32, (s32_small len) by (unfold is_s32; lia).
  destruct (Z.ltb_spec 0 len); [|lia]. rewrite Hr. cbn [of_option mbind outcome_bind].
  rewrite Hs, (s32_small n), Hg, (s32_small (len - n)), Ew by done. done.
Qed.

(** One that fails for good. *)
Lemma write_loop_fail f len c blk w data n e w1 :
  sending blk pre payload len -> 0 < len < 2 ^ 31 -> mem_read blk (obuf c) len = Some data ->
  send (fd c) data w = (n, e, w1) -> - 2 ^ 31 <= n < 0 -> retryable c e = false ->
  write_loop (S f) at_len c blk w =
    Ok (REDIS_ERR, set_error REDIS_ERR_IO (SafeSprintf ERRSTR_SIZE (strerror_r e)) c, blk, w1).
Proof.
  intros Hblk Hlen Hr Hs Hn Hg. cbn [write_loop].
  rewrite (sending_word _ _ Hblk). cbn [of_option mbind outcome_bind].
  rewrite unle32_le32, (s32_small len) by (unfold is_s32; lia).
  destruct (Z.ltb_spec 0 len); [|lia]. rewrite Hr. cbn [of_option mbind outcome_bind].
  rewrite Hs, (s32_small n), Hg by (unfold is_s32; lia).
  by destruct (Z.ltb_spec n 0); [|lia].
Qed.

(** The iteration that finds nothing left. *)
Lemma write_loop_end f c blk w : sending blk pre payload 0 ->
  write_loop (S f) at_len c blk w = Ok (REDIS_OK, c, blk, w).
Proof. intros Hblk. cbn [write_loop]. by rewrite (sending_word _ _ Hblk). Qed.
End Sending.

(** ** Result codes *)

Section Codes.
Context {HR : Hiredis}.

(** Every function of the wrapper reports [REDIS_OK] or [REDIS_ERR]. *)
Definition ok_or_err (ret : Z) : Prop := ret = REDIS_OK \/ ret = REDIS_ERR.

Lemma write_loop_code fuel len_at c blk w ret c' blk' w' :
  write_loop fuel len_at c blk w = Ok (ret, c', blk', w') -> ok_or_err ret.
Proof.
  revert c blk w. induction fuel as [|fuel IH]; intros c blk w; [done|]. cbn [write_loop].
  destruct (of_option _ (mem_read blk len_at 4)) as [word| |]; [|done..]. cbn [mbind outcome_bind].
  destruct (0 <? unle32 word); [|intros [= <- _ _ _]; by left].
  destruct (of_option _ (mem_read blk (obuf c) _)) as [data| |]; [|done..]. cbn [mbind outcome_bind].
  destruct (send _ data w) as [[n e] w1]. destruct ((s32 n <? 0) && negb (retryable c e)).
  - destruct (__redisSetErrorInner _ _ _ _); cbn [mbind outcome_bind]; [|done..].
    intros [= <- _ _ _]. by right.
  - destruct (of_option _ (mem_write blk len_at _)); cbn [mbind outcome_bind]; [|done..]. apply IH.
Qed.

Lemma writeInner_code fuel c blk w ret c' blk' w' :
  redisBufferWriteInner fuel c blk w = Ok (ret, c', blk', w') -> ok_or_err ret.
Proof.
  unfold redisBufferWriteInner. destruct (negb (err c =? 0)); [|apply write_loop_code].
  intros [= <- _ _ _]. by right.
Qed.

Lemma read_loop_code fuel c w ret r c' w' :
  read_loop fuel c w = Ok (ret, r, c', w') ->
  ret = REDIS_OK /\ is_Some r \/ ret = REDIS_ERR /\ r = None.
Proof.
  revert c w. induction fuel as [|fuel IH]; intros c w; [done|]. cbn [read_loop].
  destruct (redisBufferRead c w) as [[e c1] w1]. destruct (e =? REDIS_ERR).
  { intros [= <- <- _ _]. by right. }
  destruct (redisGetReplyFromReader c1 w1) as [[[e2 aux] c2] w2]. destruct (e2 =? REDIS_ERR).
  { intros [= <- <- _ _]. by right. }
  destruct aux; [intros [= <- <- _ _]; left; eauto|apply IH].
Qed.

Lemma redisGetReplyInner_code fuel c blk want w ret r c' blk' w' :
  redisGetReplyInner fuel c blk want w = Ok (ret, r, c', blk', w') -> ok_or_err ret.
Proof.
  unfold redisGetReplyInner.
  destruct (redisBufferWriteInner fuel c blk w) as [[[[e c1] blk1] w1]| |]; cbn [mbind outcome_bind]; [|done..].
  destruct (e =? REDIS_ERR); [intros [= <- _ _ _ _]; by right|].
  destruct (read_loop fuel c1 w1) as [[[[e2 aux] c2] w2]| |] eqn:E; cbn [mbind outcome_bind]; [|done..].
  apply read_loop_code in E as [[-> [r' ->]]|[-> ->]].
  - destruct want; intros [= <- _ _ _ _]; by left.
  - intros [= <- _ _ _ _]. by right.
Qed.
End Codes.

(** ** Delivery *)

Section Delivery.
Context {HR : Hiredis} {HL : SendLaws HR}.

(** A failure of [send] on this context is not one the loop retries. *)
Definition no_interrupt (c : redisContext reader) : Prop :=
  forall d w n e w', send (fd c) d w = (n, e, w') -> n < 0 -> retryable c e = false.

(** What the loop, started with [k0] bytes of the text already sent, has
    done when it ends: [k] bytes are on the wire and the length word counts
    the rest. *)
Record delivered (pre payload : bytes) (k0 : Z) (c c' : redisContext reader) (blk' : bytes)
    (w w' : world) (ret k : Z) : Prop := {
  del_k : k0 <= k <= Z.of_nat (length payload);
  del_wire : wire w' = wire w ++ take (Z.to_nat (k - k0)) (drop (Z.to_nat k0) payload);
  del_blk : sending blk' pre payload (Z.of_nat (length payload) - k);
  del_same : fd c' = fd c /\ flags c' = flags c /\ rd c' = rd c;
  del_ret : ret = REDIS_OK /\ k = Z.of_nat (length payload) /\ err c' = err c \/
            ret = REDIS_ERR /\ k < Z.of_nat (length payload) /\ err c' = REDIS_ERR_IO
}.

(** Nothing sent, whatever the result. *)
Lemma delivered_stop pre payload k c c' blk w w' ret :
  0 <= k <= Z.of_nat (length payload) ->
  sending blk pre payload (Z.of_nat (length payload) - k) -> wire w' = wire w ->
  fd c' = fd c /\ flags c' = flags c /\ rd c' = rd c ->
  (ret = REDIS_OK /\ k = Z.of_nat (length payload) /\ err c' = err c \/
   ret = REDIS_ERR /\ k < Z.of_nat (length payload) /\ err c' = REDIS_ERR_IO) ->
  delivered pre payload k c c' blk w w' ret k.
Proof.
  intros ? ? Hw ? ?. constructor; [lia| |done|done|done].
  rewrite Hw, Z.sub_diag. cbn. by rewrite app_nil_r.
Qed.

(** One [send] that took [n] bytes, then the rest of the loop. *)
Lemma delivered_step pre payload k0 n o c c' blk' w w1 w' ret k : 0 <= k0 -> 0 <= n ->
  wire w1 = wire w ++ take (Z.to_nat n) (drop (Z.to_nat k0) payload) ->
  delivered pre payload (k0 + n) (set_obuf o c) c' blk' w1 w' ret k ->
  delivered pre payload k0 c c' blk' w w' ret k.
Proof.
  intros Hk Hn Hw [H1 H2 H3 H4 H5]. constructor; try done; [lia|].
  rewrite H2, Hw, <- app_assoc. f_equal.
  replace (Z.to_nat (k0 + n)) with (Z.to_nat k0 + Z.to_nat n)%nat by lia.
  rewrite <- drop_drop. set (d := drop (Z.to_nat k0) payload).
  replace (Z.to_nat (k - k0)) with (Z.to_nat n + Z.to_nat (k - (k0 + n)))%nat by lia.
  by rewrite take_take_drop.
Qed.

Lemma write_loop_delivers fuel pre payload k c blk w :
  Z.of_nat (length payload) < 2 ^ 31 -> no_interrupt c ->
  0 <= k <= Z.of_nat (length payload) -> Z.of_nat (length payload) - k < Z.of_nat fuel ->
  sending blk pre payload (Z.of_nat (length payload) - k) ->
  obuf c = Z.of_nat (length pre) + 4 + k ->
  exists ret c' blk' w' k',
    write_loop fuel (Z.of_nat (length pre)) c blk w = Ok (ret, c', blk', w') /\
    delivered pre payload k c c' blk' w w' ret k'.
Proof.
  intros HL31. revert k c blk w. set (L := Z.of_nat (length payload)) in *.
  induction fuel as [|fuel IH]; intros k c blk w Hint Hk Hf Hblk Hob; [lia|].
  destruct (decide (k = L)) as [->|Hlt].
  { rewrite Z.sub_diag in Hblk. rewrite (write_loop_end _ _ _ _ _ _ Hblk).
    exists REDIS_OK, c, blk, w, L. split; [done|].
    apply delivered_stop; try done; [by rewrite Z.sub_diag|by left]. }
  pose proof (sending_data _ _ _ _ _ Hblk Hk) as Er. fold L in Er. rewrite <- Hob in Er.
  set (d := drop (Z.to_nat k) payload) in *.
  assert (Hd : Z.of_nat (length d) = L - k) by (unfold d; rewrite length_drop; lia).
  destruct (send (fd c) d w) as [[n e] w1] eqn:Es.
  pose proof (send_count _ _ _ _ _ _ Es) as Hn. pose proof (send_wire _ _ _ _ _ _ Es) as Hw1.
  destruct (Z.ltb_spec n 0) as [Hneg|Hnn].
  { rewrite (write_loop_fail _ _ _ _ _ _ _ _ _ _ _ Hblk ltac:(lia) Er Es ltac:(lia) (Hint _ _ _ _ _ Es Hneg)).
    do 4 eexists. exists k. split; [reflexivity|]. apply delivered_stop; try done.
    - rewrite Hw1. replace (Z.to_nat n) with 0%nat by lia. apply app_nil_r.
    - right. split_and!; [done|lia|done]. }
  assert (Hn0 : n <> 0) by (eapply send_progress; [exact Es|]; intros E0; rewrite E0 in Hd; cbn in Hd; lia).
  destruct (write_loop_send pre payload fuel _ _ _ _ _ _ _ _ Hblk ltac:(lia) Er Es) as (blk1 & Hblk1 & ->);
    [unfold is_s32; lia|unfold is_s32; lia|by destruct (Z.ltb_spec n 0); [lia|]|].
  destruct (IH (k + n) (set_obuf (obuf c + n) c) blk1 w1) as (ret & c' & blk' & w' & k' & E & H);
    try done; try lia.
  { by replace (L - (k + n)) with (L - k - n) by lia. }
  { cbn [obuf set_obuf]. lia. }
  exists ret, c', blk', w', k'. split; [exact E|].
  eapply delivered_step; [| |exact Hw1|exact H]; lia.
Qed.

(** Entering the loop with a committed builder. *)
Lemma writeInner_start fuel b payload c w : committed b payload -> err c = 0 -> obuf c = _seek b ->
  exists pre, sending (_cmd b) pre payload (Z.of_nat (length payload)) /\
    obuf c = Z.of_nat (length pre) + 4 /\
    redisBufferWriteInner fuel c (_cmd b) w = write_loop fuel (Z.of_nat (length pre)) c (_cmd b) w.
Proof.
  intros Hb He Ho. destruct (committed_sending b payload Hb) as (pre & Hs & Hseek).
  exists pre. split; [done|]. split; [congruence|].
  unfold redisBufferWriteInner. rewrite He. cbn [Z.eqb negb].
  by replace (obuf c - 4) with (Z.of_nat (length pre)) by lia.
Qed.

Lemma write_loop_mono f f' len_at c blk w r :
  write_loop f len_at c blk w = Ok r -> (f <= f')%nat -> write_loop f' len_at c blk w = Ok r.
Proof.
  revert f' c blk w. induction f as [|f IH]; intros [|f'] c blk w E Hf; [done|done|lia|].
  cbn [write_loop] in E |- *. destruct (of_option _ (mem_read blk len_at 4)) as [word| |]; [|done..].
  cbn [mbind outcome_bind] in *. destruct (0 <? unle32 word); [|done].
  destruct (of_option _ (mem_read blk (obuf c) _)) as [data| |]; [|done..].
  cbn [mbind outcome_bind] in *. destruct (send _ data w) as [[n e] w1].
  destruct ((s32 n <? 0) && negb (retryable c e)); [done|].
  destruct (of_option _ (mem_write blk len_at _)) as [blk1| |]; [|done..].
  cbn [mbind outcome_bind] in *. apply IH; [done|lia].
Qed.

Lemma writeInner_mono f f' c blk w r : redisBufferWriteInner f c blk w = Ok r -> (f <= f')%nat ->
  redisBufferWriteInner f' c blk w = Ok r.
Proof.
  unfold redisBufferWriteInner. destruct (err c =? 0); [|done]. apply write_loop_mono.
Qed.

(** What the write phase needs of a connection. *)
Record writable (c : redisContext reader) (b : RedisCmdBuilder) (payload : bytes) (fuel : nat)
    : Prop := {
  wr_committed : committed b payload;
  wr_size : Z.of_nat (length payload) < 2 ^ 31;
  wr_interrupt : no_interrupt c;
  wr_err : err c = 0;
  wr_obuf : obuf c = _seek b;
  wr_fuel : Z.of_nat (length payload) < Z.of_nat fuel
}.

Lemma writeInner_delivers fuel b payload c w : writable c b payload fuel ->
  exists pre ret c' blk' w' k,
    redisBufferWriteInner fuel c (_cmd b) w = Ok (ret, c', blk', w') /\
    delivered pre payload 0 c c' blk' w w' ret k.
Proof.
  intros [Hb HL31 Hint He Ho Hf].
  destruct (writeInner_start fuel b payload c w Hb He Ho) as (pre & Hs & Hseek & ->).
  destruct (write_loop_delivers fuel pre payload 0 c (_cmd b) w) as
    (ret & c' & blk' & w' & k & E & H); try done; try lia.
  { by rewrite Z.sub_0_r. }
  by exists pre, ret, c', blk', w', k.
Qed.

(** C12: Sending a committed command: when no [send] fails with a code the
    loop retries, [redisBufferWriteInner] always ends (one unit of fuel
    per byte and one more are enough), and whatever sizes the single writes
    have the wire receives a prefix of the command: all of it exactly when
    the result is [REDIS_OK], and otherwise a proper prefix, with
    [REDIS_ERR_IO] in the context. *)
Theorem redisBufferWriteInner_delivers fuel b payload c w : writable c b payload fuel ->
  exists ret c' blk' w' k,
    redisBufferWriteInner fuel c (_cmd b) w = Ok (ret, c', blk', w') /\
    wire w' = wire w ++ take k payload /\
    (ret = REDIS_OK /\ k = length payload /\ err c' = 0 \/
     ret = REDIS_ERR /\ (k < length payload)%nat /\ err c' = REDIS_ERR_IO).
Proof.
  intros Hw. destruct (writeInner_delivers fuel b payload c w Hw)
    as (pre & ret & c' & blk' & w' & k & E & [Hk Hwire _ _ Hret]).
  exists ret, c', blk', w', (Z.to_nat k). split; [done|]. split; [by rewrite Z.sub_0_r in Hwire|].
  rewrite (wr_err _ _ _ _ Hw) in Hret.
  destruct Hret as [(? & ? & ?)|(? & ? & ?)]; [left|right]; split_and!; done || lia.
Qed.

(** Once a command has been sent, its builder is used up: the length
    word in front of the text is zero, so sending the same builder again, on
    any healthy connection, reports [REDIS_OK] without writing a byte.  The
    resend after a reconnection does exactly this. *)
Theorem resend_sends_nothing fuel fuel2 b payload c w c' blk' w' c2 w2 :
  writable c b payload fuel ->
  redisBufferWriteInner fuel c (_cmd b) w = Ok (REDIS_OK, c', blk', w') ->
  err c2 = 0 -> obuf c2 = _seek b -> (0 < fuel2)%nat ->
  redisBufferWriteInner fuel2 c2 blk' w2 = Ok (REDIS_OK, c2, blk', w2).
Proof.
  intros [Hb HL31 Hint He Ho Hf] E He2 Ho2 Hf2.
  destruct (writeInner_start fuel b payload c w Hb He Ho) as (pre & Hs & Hseek & Es).
  rewrite Es in E. destruct (write_loop_delivers fuel pre payload 0 c (_cmd b) w) as
    (ret & c1 & blk1 & w1 & k & E1 & H); try done; try lia.
  { by rewrite Z.sub_0_r. }
  rewrite E1 in E. injection E as -> -> -> ->.
  destruct (del_ret _ _ _ _ _ _ _ _ _ _ H) as [(_ & Hk & _)|(? & _)]; [|done].
  pose proof (del_blk _ _ _ _ _ _ _ _ _ _ H) as Hblk. rewrite Hk, Z.sub_diag in Hblk.
  unfold redisBufferWriteInner. rewrite He2. cbn [Z.eqb negb].
  replace (obuf c2 - 4) with (Z.of_nat (length pre)) by (rewrite Ho2, <- Ho; lia).
  destruct fuel2 as [|fuel2]; [lia|]. by apply (write_loop_end pre payload).
Qed.

(** The retry of an interrupted write does not resume it.  When the first
    [send] fails with [EINTR], the loop subtracts the [-1] from the length
    and adds it to the position: the next [send] is offered one byte more,
    starting with the last byte of the length word, and if it takes all of
    it the server receives a NUL byte before the command. *)
Theorem interrupted_write_sends_stray_byte fuel b payload c w w1 w2 e :
  committed b payload -> Z.of_nat (length payload) + 1 < 2 ^ 24 ->
  err c = 0 -> obuf c = _seek b -> (2 < fuel)%nat ->
  send (fd c) payload w = (-1, EINTR, w1) ->
  send (fd c) (NUL :: payload) w1 = (Z.of_nat (length payload) + 1, e, w2) -> payload <> [] ->
  exists c' blk', redisBufferWriteInner fuel c (_cmd b) w = Ok (REDIS_OK, c', blk', w2) /\
    wire w2 = wire w ++ NUL :: payload /\ resp_decode (NUL :: payload) = None.
Proof.
  intros Hb HL24 He Ho Hf E1 E2 Hne.
  destruct (writeInner_start fuel b payload c w Hb He Ho) as (pre & Hs & Hseek & ->).
  assert (HL0 : (0 < length payload)%nat) by (destruct payload; [done|cbn; lia]).
  set (L := Z.of_nat (length payload)) in *. destruct fuel as [|[|[|fuel]]]; [lia..|].
  assert (H31 : L + 1 < 2 ^ 31) by lia.
  pose proof (sending_data pre payload _ L 0 Hs ltac:(lia)) as Er.
  rewrite Z.sub_0_r, Z.add_0_r, <- Hseek in Er. cbn [Z.to_nat drop] in Er.
  destruct (write_loop_send pre payload (S (S fuel)) L c _ w payload _ _ _ Hs ltac:(lia) Er E1)
    as (blk1 & Hblk1 & ->); [unfold is_s32; lia..|by unfold retryable; rewrite orb_true_r|].
  replace (L - -1) with (L + 1) in Hblk1 by lia.
  assert (Er1 : mem_read blk1 (obuf c + -1) (L + 1) = Some (NUL :: payload)).
  { rewrite Hseek. by apply sending_stray. }
  destruct (write_loop_send pre payload (S fuel) (L + 1) (set_obuf (obuf c + -1) c) _ w1
    (NUL :: payload) _ _ _ Hblk1 ltac:(lia) Er1 E2) as (blk2 & Hblk2 & ->); [unfold is_s32; lia..| |].
  { by destruct (Z.ltb_spec (L + 1) 0); [lia|]. }
  rewrite Z.sub_diag in Hblk2. rewrite (write_loop_end pre payload _ _ _ _ Hblk2).
  do 2 eexists. split; [reflexivity|]. split; [|done].
  rewrite (send_wire _ _ _ _ _ _ E2), (send_wire _ _ _ _ _ _ E1). cbn [Z.to_nat take].
  rewrite app_nil_r. f_equal. apply take_ge. cbn [length]. lia.
Qed.

(** ** Waiting for the reply *)

(** What a sequence of reads leads to: the first complete reply, or the
    first error of a read or of the protocol reader. *)
Inductive reads_to : redisContext reader -> world ->
    Z -> option redisReply -> redisContext reader -> world -> Prop :=
  | reads_error c w c1 w1 :
      redisBufferRead c w = (REDIS_ERR, c1, w1) -> reads_to c w REDIS_ERR None c1 w1
  | reads_protocol c w e c1 w1 r c2 w2 :
      redisBufferRead c w = (e, c1, w1) -> e <> REDIS_ERR ->
      redisGetReplyFromReader c1 w1 = (REDIS_ERR, r, c2, w2) ->
      reads_to c w REDIS_ERR None c2 w2
  | reads_reply c w e c1 w1 e2 r c2 w2 :
      redisBufferRead c w = (e, c1, w1) -> e <> REDIS_ERR ->
      redisGetReplyFromReader c1 w1 = (e2, Some r, c2, w2) -> e2 <> REDIS_ERR ->
      reads_to c w REDIS_OK (Some r) c2 w2
  | reads_more c w e c1 w1 e2 c2 w2 e3 r c3 w3 :
      redisBufferRead c w = (e, c1, w1) -> e <> REDIS_ERR ->
      redisGetReplyFromReader c1 w1 = (e2, None, c2, w2) -> e2 <> REDIS_ERR ->
      reads_to c2 w2 e3 r c3 w3 -> reads_to c w e3 r c3 w3.

Lemma read_loop_complete c w e r c' w' : reads_to c w e r c' w' ->
  exists n, forall fuel, (n <= fuel)%nat -> read_loop fuel c w = Ok (e, r, c', w').
Proof.
  induction 1 as [c w c1 w1 E1|c w e c1 w1 r c2 w2 E1 H1 E2|c w e c1 w1 e2 r c2 w2 E1 H1 E2 H2|
    c w e c1 w1 e2 c2 w2 e3 r c3 w3 E1 H1 E2 H2 _ [n IH]]; [exists 1%nat..|exists (S n)];
    intros [|fuel] Hf; [lia| |lia| |lia| |lia|]; cbn [read_loop]; rewrite E1; [done|..];
    rewrite (proj2 (Z.eqb_neq e REDIS_ERR) H1), E2; [done|..];
    rewrite (proj2 (Z.eqb_neq e2 REDIS_ERR) H2); [done|]. apply IH. lia.
Qed.

Lemma read_loop_sound fuel c w e r c' w' :
  read_loop fuel c w = Ok (e, r, c', w') -> reads_to c w e r c' w'.
Proof.
  revert c w. induction fuel as [|fuel IH]; intros c w; [done|]. cbn [read_loop].
  destruct (redisBufferRead c w) as [[e1 c1] w1] eqn:E1. destruct (Z.eqb_spec e1 REDIS_ERR) as [->|H1].
  { intros [= <- <- <- <-]. by constructor. }
  destruct (redisGetReplyFromReader c1 w1) as [[[e2 [r2|]] c2] w2] eqn:E2;
    destruct (Z.eqb_spec e2 REDIS_ERR) as [->|H2].
  - intros [= <- <- <- <-]. by eapply reads_protocol.
  - intros [= <- <- <- <-]. by eapply reads_reply.
  - intros [= <- <- <- <-]. by eapply reads_protocol.
  - intros H%IH. by eapply reads_more.
Qed.

(** Reading writes nothing, and a reply comes exactly with [REDIS_OK]. *)
Lemma reads_to_result c w e r c' w' : reads_to c w e r c' w' ->
  wire w' = wire w /\ (e = REDIS_OK /\ is_Some r \/ e = REDIS_ERR /\ r = None).
Proof.
  induction 1 as [c w c1 w1 E1|c w e c1 w1 r c2 w2 E1 H1 E2|c w e c1 w1 e2 r c2 w2 E1 H1 E2 H2|
    c w e c1 w1 e2 c2 w2 e3 r c3 w3 E1 H1 E2 H2 _ [IHw IH]];
    apply read_wire in E1; try apply reply_wire in E2; split; try congruence; eauto.
Qed.

(** One exchange.  The command is sent; if that fails the result is
    [REDIS_ERR] without a reply, after a proper prefix of the command.
    Otherwise the whole command is on the wire, and if reading leads to a
    reply or to an error, enough fuel makes the call return it: a reply
    exactly with [REDIS_OK], handed to a caller that wants it and freed for
    one that does not. *)
Lemma redisGetReplyInner_exchange b payload c w : writable c b payload (S (length payload)) ->
  (exists c1 blk1 w1 k, (k < length payload)%nat /\ wire w1 = wire w ++ take k payload /\
    err c1 = REDIS_ERR_IO /\
    forall fuel want, (length payload < fuel)%nat ->
      redisGetReplyInner fuel c (_cmd b) want w = Ok (REDIS_ERR, None, c1, blk1, w1)) \/
  (exists c1 blk1 w1, wire w1 = wire w ++ payload /\ rd c1 = rd c /\ err c1 = 0 /\
    forall e r c2 w2, reads_to c1 w1 e r c2 w2 ->
    (e = REDIS_OK <-> is_Some r) /\ wire w2 = wire w ++ payload /\
    exists n, forall fuel want, (n <= fuel)%nat ->
      redisGetReplyInner fuel c (_cmd b) want w =
        Ok (e, if want then r else None, c2, blk1,
            match r with Some a => if want then w2 else freeReplyObject a w2 | None => w2 end)).
Proof.
  intros Hw. destruct (writeInner_delivers _ b payload c w Hw)
    as (pre & ret & c1 & blk1 & w1 & k & E & [Hk Hwire _ (_ & _ & Hrd) Hret]).
  rewrite Z.sub_0_r in Hwire. change (Z.to_nat 0) with 0%nat in Hwire. rewrite drop_0 in Hwire.
  rewrite (wr_err _ _ _ _ Hw) in Hret.
  destruct Hret as [(-> & -> & Herr)|(-> & Hlt & Herr)]; [right|left].
  - exists c1, blk1, w1. rewrite Nat2Z.id, firstn_all in Hwire. split_and!; [done..|].
    intros e r c2 w2 Hr. destruct (reads_to_result _ _ _ _ _ _ Hr) as [Hw2 He].
    split. { unfold REDIS_OK, REDIS_ERR in *. destruct He as [[-> ?]|[-> ->]]; [done|].
             split; [done|by intros [? ?]]. }
    split; [congruence|].
    destruct (read_loop_complete _ _ _ _ _ _ Hr) as [n Hn].
    exists (n + S (length payload))%nat. intros fuel want Hf. unfold redisGetReplyInner.
    rewrite (writeInner_mono _ fuel _ _ _ _ E) by lia. cbn [mbind outcome_bind Z.eqb REDIS_ERR REDIS_OK].
    rewrite Hn by lia. cbn [mbind outcome_bind].
    destruct He as [[-> [a ->]]|[-> ->]], want; reflexivity.
  - exists c1, blk1, w1, (Z.to_nat k). split_and!; [lia|done..|].
    intros fuel want Hf. unfold redisGetReplyInner.
    by rewrite (writeInner_mono _ fuel _ _ _ _ E) by lia.
Qed.
End Delivery.

(** ** Witnesses *)

Module WireExample.
Definition cmd : RedisCmdBuilder := foldl push_string builder_new [lit "GET"; lit "xuping"].
Definition get_xuping : bytes := resp_encode [lit "GET"; lit "xuping"].

(** The committed command. *)
Definition sent_cmd : RedisCmdBuilder :=
  match Commit cmd with Ok b => b | _ => cmd end.

Lemma sent_cmd_committed : committed sent_cmd get_xuping.
Proof. constructor; by vm_compute. Qed.

(** A context about to send [sent_cmd]. *)
Definition ctx : redisContext (list redisReply) := set_obuf (_seek sent_cmd) Scripted.fresh.

Lemma ctx_writable fuel : (25 < fuel)%nat -> @writable (Scripted.lib false) ctx sent_cmd get_xuping fuel.
Proof.
  intros Hf. assert (Hl : length get_xuping = 25%nat) by reflexivity.
  constructor; [exact sent_cmd_committed|rewrite Hl; lia| |done|done|rewrite Hl; lia].
  intros d w n e w'. cbn. unfold Scripted.send, retryable.
  destruct (Scripted.sends w) as [|[k|k] rest]; intros [= <- <- _] Hn; try lia. clear Hn.
  cbn [ctx set_obuf Scripted.fresh flags]. destruct (Z.eqb_spec k EINTR) as [->|Hk]; [done|].
  cbn [negb andb]. rewrite (proj2 (Z.eqb_neq k EINTR) Hk), orb_false_r.
  by rewrite andb_false_r.
Qed.

(** Writes of 5 and 3 bytes, then the rest; the reply comes in two parts. *)
Definition network : Scripted.state :=
  Scripted.mkState [] [inl 5; inl 3] [None; Some (string_reply (lit "v"))] [] 0 0 1.

(** The first write is interrupted. *)
Definition interrupted : Scripted.state := Scripted.mkState [] [inr EINTR] [] [] 0 0 1.
End WireExample.
Import WireExample.

Lemma redisBufferWriteInner_delivers_witness : exists ret c' blk' w' k,
  @redisBufferWriteInner (Scripted.lib false) 60 ctx (_cmd sent_cmd) network = Ok (ret, c', blk', w') /\
  wire w' = take k get_xuping.
Proof.
  destruct (@redisBufferWriteInner_delivers (Scripted.lib false) _ 60 sent_cmd get_xuping ctx network
    (ctx_writable 60 ltac:(lia))) as (ret & c' & blk' & w' & k & E & Hw & _).
  exists ret, c', blk', w', k. by split.
Defined.

Lemma resend_sends_nothing_witness : exists c' blk' w',
  @redisBufferWriteInner (Scripted.lib false) 60 ctx (_cmd sent_cmd) network = Ok (REDIS_OK, c', blk', w') /\
  @redisBufferWriteInner (Scripted.lib false) 1 ctx blk' network = Ok (REDIS_OK, ctx, blk', network).
Proof.
  destruct (@redisBufferWriteInner (Scripted.lib false) 60 ctx (_cmd sent_cmd) network)
    as [[[[ret c'] blk'] w']| |] eqn:E; [|by vm_compute in E..].
  assert (ret = REDIS_OK) as -> by (vm_compute in E; by injection E as <- _ _ _).
  exists c', blk', w'. split; [done|].
  apply (@resend_sends_nothing (Scripted.lib false) _ 60 1 sent_cmd get_xuping ctx network c' blk' w');
    [apply ctx_writable; lia|done|done|done|lia].
Defined.

Lemma interrupted_write_sends_stray_byte_witness : exists c' blk' w',
  @redisBufferWriteInner (Scripted.lib true) 60 ctx (_cmd sent_cmd) interrupted =
    Ok (REDIS_OK, c', blk', w') /\
  wire w' = NUL :: get_xuping.
Proof.
  destruct (@interrupted_write_sends_stray_byte (Scripted.lib true) _ 60 sent_cmd get_xuping ctx
    interrupted (Scripted.mkState [] [] [] [] 0 0 1) (Scripted.mkState (NUL :: get_xuping) [] [] [] 0 0 1) 0)
    as (c' & blk' & E & Hw & _);
    [exact sent_cmd_committed|vm_compute; reflexivity|reflexivity|reflexivity|lia
    |vm_compute; reflexivity|vm_compute; reflexivity|unfold get_xuping; discriminate|].
  exists c', blk', (Scripted.mkState (NUL :: get_xuping) [] [] [] 0 0 1). split; [exact E|exact Hw].
Defined.
