(* ===== verification/RedisProfile.v ===== *)
(** * Key usage statistics (RedisMgr/RedisMgr.cpp, [KeyProfileNode], [GetProfileAndReset])

    The report lists the most used keys: the counters of an unordered map are
    put into an ordered set and its first twenty nodes are printed.  A map is
    here the list of its entries in iteration order; the theorem says that the
    report does not depend on that order and lists the right keys. *)
From Stdlib Require Import ZArith Lia Ascii.
From stdpp Require Import base numbers list list_numbers strings sorting.
From S2P Require Import Prelude Kernel Resp RedisHelper.
Open Scope Z_scope.

Definition REDIS_KEY_TOP_COUNT : Z := 20.

Record KeyProfileNode : Type := mkNode { iCount : Z; strKey : bytes }.

(** [operator<]: larger counts first, then larger keys. *)
Definition node_lt (x y : KeyProfileNode) : bool :=
  if iCount x =? iCount y then bytes_lt (strKey y) (strKey x) else iCount y <? iCount x.

(** [std::set::insert]. *)
Fixpoint set_insert (x : KeyProfileNode) (l : list KeyProfileNode) : list KeyProfileNode :=
  match l with
  | [] => [x]
  | y :: l' => if node_lt x y then x :: l else if node_lt y x then y :: set_insert x l' else l
  end.

(** [std::unordered_map<std::string, int32_t>], in iteration order. *)
Abbreviation KeyProfileMap := (list (bytes * Z)).

Definition profile_set (m : KeyProfileMap) : list KeyProfileNode :=
  foldl (fun l p => set_insert (mkNode (snd p) (fst p)) l) [] m.

Definition profile_total (m : KeyProfileMap) : Z := foldl (fun n p => s64 (n + snd p)) 0 m.

(** The loop over the first [REDIS_KEY_TOP_COUNT] nodes. *)
Fixpoint profile_lines (i : nat) (l : list KeyProfileNode) (strProfile : bytes) : bytes :=
  match i, l with
  | S i', n :: l' =>
      profile_lines i' l'
        (strProfile ++ LF :: lit " Key:" ++ strKey n ++ lit " Use Count:" ++ fmt_d (iCount n))
  | _, _ => strProfile
  end.

Definition GetProfileAndReset (m : KeyProfileMap) : bytes :=
  profile_lines (Z.to_nat REDIS_KEY_TOP_COUNT) (profile_set m) []
    ++ LF :: lit "Total Key Count:" ++ fmt_d (profile_total m).

(** ** The order of the nodes *)

Definition node_before (x y : KeyProfileNode) : Prop := node_lt x y = true.

Lemma node_lt_irrefl x : node_lt x x = false.
Proof. unfold node_lt. by rewrite Z.eqb_refl, bytes_lt_irrefl. Qed.

Lemma node_before_trans x y z : node_before x y -> node_before y z -> node_before x z.
Proof.
  unfold node_before, node_lt.
  destruct (Z.eqb_spec (iCount x) (iCount y)) as [E1|]; destruct (Z.eqb_spec (iCount y) (iCount z)) as [E2|];
    destruct (Z.eqb_spec (iCount x) (iCount z)); try lia.
  intros. by eapply bytes_lt_trans.
Qed.

Lemma node_total x y : node_lt x y = false -> node_lt y x = false -> x = y.
Proof.
  unfold node_lt. rewrite (Z.eqb_sym (iCount y)). destruct (Z.eqb_spec (iCount x) (iCount y)) as [E|]; [|lia].
  intros H1 H2. pose proof (bytes_lt_total _ _ H2 H1). destruct x, y. simpl in *. congruence.
Qed.

Lemma set_insert_In x l y : y ∈ set_insert x l <-> y = x \/ y ∈ l.
Proof.
  induction l as [|z l IH]; cbn [set_insert]; [by rewrite list_elem_of_singleton, elem_of_nil; tauto|].
  destruct (node_lt x z) eqn:E1; [by rewrite elem_of_cons|].
  destruct (node_lt z x) eqn:E2; [rewrite !elem_of_cons, IH; tauto|].
  pose proof (node_total _ _ E1 E2) as ->. rewrite elem_of_cons. tauto.
Qed.

Lemma set_insert_sorted x l : StronglySorted node_before l -> StronglySorted node_before (set_insert x l).
Proof.
  induction 1 as [|z l Hs IH Hz]; cbn [set_insert]; [by repeat constructor|].
  destruct (node_lt x z) eqn:E1; [|destruct (node_lt z x) eqn:E2].
  - constructor; [by constructor|]. constructor; [done|].
    eapply Forall_impl; [exact Hz|]. intros y. by apply node_before_trans.
  - constructor; [done|]. apply Forall_forall. intros y [->|Hy]%set_insert_In; [done|].
    by eapply Forall_forall in Hz.
  - by constructor.
Qed.

Lemma profile_set_spec m l : StronglySorted node_before l ->
  let r := foldl (fun l p => set_insert (mkNode (snd p) (fst p)) l) l m in
  StronglySorted node_before r /\
  forall n, n ∈ r <-> n ∈ l \/ (strKey n, iCount n) ∈ m.
Proof.
  revert l. induction m as [|[k c] m IH]; intros l Hl; cbn [foldl fst snd]; [by split; [|intros n; rewrite elem_of_nil; tauto]|].
  destruct (IH _ (set_insert_sorted (mkNode c k) l Hl)) as [H1 H2]. split; [done|].
  intros n. rewrite H2, set_insert_In. destruct n as [c' k']. cbn [strKey iCount].
  rewrite elem_of_cons. split; intros H; decompose [or] H; simplify_eq; eauto.
Qed.

Lemma sorted_NoDup l : StronglySorted node_before l -> NoDup l.
Proof.
  induction 1 as [|x l Hs IH Hx]; constructor; [|done]. intros Hin.
  eapply Forall_forall in Hx; [|exact Hin]. unfold node_before in Hx. by rewrite node_lt_irrefl in Hx.
Qed.

Lemma node_before_asym x y : node_before x y -> node_before y x -> x = y.
Proof.
  intros Hxy Hyx. pose proof (node_before_trans _ _ _ Hxy Hyx) as H.
  unfold node_before in H. by rewrite node_lt_irrefl in H.
Qed.

(** The set holds one node per entry, in an order that only depends on the
    entries. *)
Lemma profile_set_perm m : NoDup m ->
  profile_set m ≡ₚ map (fun p => mkNode (snd p) (fst p)) m /\
  forall m', m ≡ₚ m' -> profile_set m' = profile_set m.
Proof.
  intros Hnd. destruct (profile_set_spec m [] (SSorted_nil _)) as [Hs Hi].
  fold (profile_set m) in *. split.
  - apply NoDup_Permutation; [by apply sorted_NoDup| |].
    + apply NoDup_fmap_2; [|done]. by intros [k c] [k' c'] [= -> ->].
    + intros [c k]. rewrite Hi. change (map ?f m) with (f <$> m). rewrite list_elem_of_fmap.
      cbn [strKey iCount]. split.
      * intros [H%not_elem_of_nil|H]; [done|]. by exists (k, c).
      * intros ([k' c'] & [= -> ->] & H). by right.
  - intros m' Hp. destruct (profile_set_spec m' [] (SSorted_nil _)) as [Hs' Hi'].
    fold (profile_set m') in *.
    eapply (StronglySorted_unique_strong node_before); [|done|done|].
    { intros x y _ _. apply node_before_asym. }
    apply NoDup_Permutation; [by apply sorted_NoDup..|]. intros n. by rewrite Hi, Hi', Hp.
Qed.

Lemma s64_add_l a b : s64 (s64 a + b) = s64 (a + b).
Proof.
  apply swrap_eq. change (s64 a) with (swrap 64 a). rewrite Zplus_mod, (swrap_mod 64 a), <- Zplus_mod by lia. done.
Qed.

Lemma profile_total_sum m : profile_total m = s64 (foldr (fun p n => snd p + n) 0 m).
Proof.
  unfold profile_total. enough (H : forall a, foldl (fun n p => s64 (n + snd p)) (s64 a) m =
    s64 (a + foldr (fun p n => snd p + n) 0 m)) by (specialize (H 0); exact H).
  induction m as [|p m IH]; intros a; cbn [foldl foldr]; [f_equal; lia|].
  rewrite s64_add_l, IH. f_equal. lia.
Qed.

Lemma profile_lines_app i l s : profile_lines i l s = s ++ profile_lines i l [].
Proof.
  revert l s. induction i as [|i IH]; intros [|n l] s; cbn [profile_lines]; try (by rewrite app_nil_r).
  rewrite IH, (IH l (_ ++ _)). by rewrite <- app_assoc.
Qed.

(** The text of one node. *)
Definition profile_line (n : KeyProfileNode) : bytes :=
  LF :: lit " Key:" ++ strKey n ++ lit " Use Count:" ++ fmt_d (iCount n).

Lemma profile_lines_concat i l : profile_lines i l [] = concat (map profile_line (take i l)).
Proof.
  revert l. induction i as [|i IH]; intros [|n l]; cbn [profile_lines take map concat]; try done.
  rewrite profile_lines_app, IH. done.
Qed.

Lemma StronglySorted_app {A} (R : A -> A -> Prop) l1 l2 x y :
  StronglySorted R (l1 ++ l2) -> x ∈ l1 -> y ∈ l2 -> R x y.
Proof.
  induction l1 as [|z l1 IH]; cbn [app]; [by intros _ ?%not_elem_of_nil|].
  intros H Hx Hy. apply StronglySorted_inv in H as [Hs Hz].
  apply elem_of_cons in Hx as [->|Hx]; [|by apply IH].
  eapply Forall_forall in Hz; [exact Hz|]. apply elem_of_app. by right.
Qed.

(** C35: The report of a map of counters: there is a list [top] of at most
    twenty nodes, strictly descending by count and then by key, that holds
    entries of the map, and all of them when there are at most twenty; every
    entry left out comes after every one listed.  The text is that of [top]
    and of the 64-bit sum of all counters, and the iteration order of the
    unordered map has no influence on it. *)
Theorem GetProfileAndReset_top m : NoDup m ->
  (exists top, GetProfileAndReset m =
      concat (map profile_line top) ++ LF :: lit "Total Key Count:"
        ++ fmt_d (s64 (foldr (fun p n => snd p + n) 0 m)) /\
    StronglySorted node_before top /\ length top = Nat.min 20 (length m) /\
    (forall n, n ∈ top -> (strKey n, iCount n) ∈ m) /\
    (forall n x, (strKey n, iCount n) ∈ m -> n ∉ top -> x ∈ top -> node_before x n)) /\
  (forall m', m ≡ₚ m' -> GetProfileAndReset m' = GetProfileAndReset m).
Proof.
  intros Hnd. destruct (profile_set_spec m [] (SSorted_nil _)) as [Hs Hi]. fold (profile_set m) in *.
  destruct (profile_set_perm m Hnd) as [Hp Hord].
  unfold GetProfileAndReset. change (Z.to_nat REDIS_KEY_TOP_COUNT) with 20%nat.
  rewrite profile_lines_concat, profile_total_sum. split.
  - exists (take 20 (profile_set m)). rewrite <- (take_drop 20 (profile_set m)) in Hs.
    split_and!; [done|by eapply StronglySorted_app_1_l| | |].
    + rewrite length_take. f_equal. rewrite Hp. apply length_map.
    + intros n Hn. destruct (proj1 (Hi n)) as [?%not_elem_of_nil|?]; [|done..].
      rewrite <- (take_drop 20 (profile_set m)). apply elem_of_app. by left.
    + intros n x Hn Hout Hx. eapply StronglySorted_app; [exact Hs|exact Hx|].
      assert (Hin : n ∈ profile_set m) by (apply Hi; by right).
      rewrite <- (take_drop 20 (profile_set m)) in Hin. by apply elem_of_app in Hin as [?|?].
  - intros m' Hm. rewrite profile_lines_concat, profile_total_sum, (Hord m' Hm).
    enough (foldr (fun p n => snd p + n) 0 m = foldr (fun p n => snd p + n) 0 m') as -> by done.
    clear -Hm. induction Hm; cbn [foldr]; lia.
Qed.

(** Two keys with equal counts, and a smaller count. *)
Lemma GetProfileAndReset_top_witness :
  GetProfileAndReset [(lit "c", 1); (lit "b", 2); (lit "a", 2)] =
  GetProfileAndReset [(lit "a", 2); (lit "b", 2); (lit "c", 1)].
Proof.
  destruct (GetProfileAndReset_top [(lit "a", 2); (lit "b", 2); (lit "c", 1)]) as [_ H].
  - apply (bool_decide_unpack _). by vm_compute.
  - apply H. apply (bool_decide_unpack _). by vm_compute.
Defined.
