(* ===== verification/RedisMgr.v ===== *)
(** * The Redis connection manager (RedisMgr/RedisMgr.h, RedisMgr.cpp)

    Connection 0 serves the main thread, connections 1..connectNum the others.
    The static members of [RedisMgr] are the record [RedisMgr], the operations
    run in the state monad over it.  Code outside the repository (the XML
    reader, the kernel's asynchronous queue, the intrusive list of pending
    commands, the stop watch) is the class [RedisEnv].  The code compiles only
    with [_DEBUG] (the profile functions use fields that exist only there), so
    that build is modelled: [ASSERT] aborts and uncommitted builders are
    checked. *)
From Stdlib Require Import ZArith Lia Ascii.
From stdpp Require Import base numbers list list_numbers strings.
From S2P Require Import Prelude Kernel Resp Hiredis RedisHelper RedisWire RedisProfile.
Open Scope Z_scope.

Definition REATTEMPT_SLEEP_TIME : Z := 1000.
Definition CONNECTION_TIMER_TIME : Z := 60 * 1000.
Definition REDIS_ASYNC_BATCH_CMD_COUNT : Z := 16.

(** ** What the manager uses from outside *)

Class RedisEnv : Type := {
  RedisEnv_xml :: Xml;
  (** [AtomicIntrusiveLinkedList]: the contents of a list is the sequence in
      which [hook_.next] links its nodes. *)
  insertHead : list RedisCmdBuilder -> RedisCmdBuilder -> list RedisCmdBuilder;
  cutList : list RedisCmdBuilder -> list RedisCmdBuilder;
  (** [PerformanceWatch<tools::StopWatch<>>] *)
  watch : Type;
  new_watch : watch;
  CreatePerformanceInfo : watch -> bytes;
  (** The thread ids [IAsyncQueue::GetQueueInfo] reports, ascending (a
      [std::set]). *)
  queue_threads : list Z
}.

(** The documented meaning of the list: [insertHead] adds a node, [cutList]
    takes all of them. *)
Class RedisEnvLaws (E : RedisEnv) : Prop := {
  insertHead_perm l b : insertHead l b ≡ₚ b :: l;
  cutList_perm l : cutList l ≡ₚ l
}.

Section RedisMgr.
Context {HR : Hiredis} {HE : RedisEnv}.

Abbreviation context := (redisContext reader).

Record RedisConnectionConfig : Type := mkConfig {
  ip : bytes;
  port : Z;
  connectNum : Z;
  connectTV : Z * Z;
  passWord : bytes;
  reattemptTime : Z
}.

(** The handlers the manager hands to the queue. *)
Inductive IAsyncHandler : Type :=
  | FlushConnectionHandler (threadIdx : Z)
  | RedisTaskHandler (connection : nat).

Record RedisConnection : Type := mkConnection {
  ctx : context;
  _threadCmdList : list RedisCmdBuilder;
  _threadIdx : Z;
  _redisTaskHandler : option IAsyncHandler;
  _postTask : bool;
  _mainWatch : watch;
  _threadWatch : watch;
  _mainKeyProfileMap : KeyProfileMap;
  _threadKeyProfileMap : KeyProfileMap
}.

(** The static members; [started] and [timers] are the calls made to
    [s_asyncQueue->StartAsync] and to the kernel's [StartTimer]
    (delay, count, interval), in order; [net] is the world of hiredis. *)
Record RedisMgr : Type := mkMgr {
  s_connectionConfig : RedisConnectionConfig;
  s_vecRedisContext : list RedisConnection;
  s_connectNum : Z;
  s_asyncQueue : bool;
  started : list (Z * IAsyncHandler);
  timers : list (Z * Z * Z);
  net : world
}.

Definition set_config c m := mkMgr c (s_vecRedisContext m) (s_connectNum m) (s_asyncQueue m)
  (started m) (timers m) (net m).
Definition set_vec v m := mkMgr (s_connectionConfig m) v (s_connectNum m) (s_asyncQueue m)
  (started m) (timers m) (net m).
Definition set_num n m := mkMgr (s_connectionConfig m) (s_vecRedisContext m) n (s_asyncQueue m)
  (started m) (timers m) (net m).
Definition set_queue q m := mkMgr (s_connectionConfig m) (s_vecRedisContext m) (s_connectNum m) q
  (started m) (timers m) (net m).
Definition set_started l m := mkMgr (s_connectionConfig m) (s_vecRedisContext m) (s_connectNum m)
  (s_asyncQueue m) l (timers m) (net m).
Definition set_timers l m := mkMgr (s_connectionConfig m) (s_vecRedisContext m) (s_connectNum m)
  (s_asyncQueue m) (started m) l (net m).
Definition set_net w m := mkMgr (s_connectionConfig m) (s_vecRedisContext m) (s_connectNum m)
  (s_asyncQueue m) (started m) (timers m) w.

Definition set_ctx c k := mkConnection c (_threadCmdList k) (_threadIdx k) (_redisTaskHandler k)
  (_postTask k) (_mainWatch k) (_threadWatch k) (_mainKeyProfileMap k) (_threadKeyProfileMap k).
Definition set_cmds l k := mkConnection (ctx k) l (_threadIdx k) (_redisTaskHandler k)
  (_postTask k) (_mainWatch k) (_threadWatch k) (_mainKeyProfileMap k) (_threadKeyProfileMap k).
Definition set_handler h k := mkConnection (ctx k) (_threadCmdList k) (_threadIdx k) h
  (_postTask k) (_mainWatch k) (_threadWatch k) (_mainKeyProfileMap k) (_threadKeyProfileMap k).
Definition set_post p k := mkConnection (ctx k) (_threadCmdList k) (_threadIdx k)
  (_redisTaskHandler k) p (_mainWatch k) (_threadWatch k) (_mainKeyProfileMap k)
  (_threadKeyProfileMap k).
Definition set_main w p k := mkConnection (ctx k) (_threadCmdList k) (_threadIdx k)
  (_redisTaskHandler k) (_postTask k) w (_threadWatch k) p (_threadKeyProfileMap k).

(** A reference to the element [i] of [s_vecRedisContext]. *)
Definition get_conn (i : nat) : M RedisMgr RedisConnection :=
  m ← mget; mlift (of_option OutOfBounds (s_vecRedisContext m !! i)).
Definition upd_conn (i : nat) (f : RedisConnection -> RedisConnection) : M RedisMgr () :=
  mmodify (fun m => set_vec (alter f i (s_vecRedisContext m)) m).

(** A call of the library or the system. *)
Definition on_net {A} (f : world -> A * world) : M RedisMgr A :=
  m ← mget; let '(a, w) := f (net m) in mput (set_net w m);; mret a.

(** *** Which connection serves a thread *)

(** [s_vecRedisContext[idx]] with the index converted to [size_t]. *)
Definition vec_at (idx : Z) (m : RedisMgr) : outcome nat :=
  if u64 idx <? Z.of_nat (length (s_vecRedisContext m)) then Ok (Z.to_nat (u64 idx))
  else Fault OutOfBounds.

(** The [%] of a [u32] and the [s32] connection number is done in [u32]. *)
Definition GetRedisConnection (threadIdx : Z) : M RedisMgr nat :=
  m ← mget;
  if threadIdx =? MAIN_THREAD_IDX then mlift (vec_at 0 m)
  else if u32 (s_connectNum m) =? 0 then mfault DivByZero
  else mlift (vec_at (s32 (u32 (u32 threadIdx mod u32 (s_connectNum m) + 1))) m).

Definition GetRedisConnectionInAsync (taskId : Z) : M RedisMgr nat :=
  m ← mget;
  if u64 (s_connectNum m) =? 0 then mfault DivByZero
  else mlift (vec_at (s64 (u64 (u64 taskId mod u64 (s_connectNum m) + 1))) m).

Definition GetThreadIdx (taskId : Z) : Z :=
  if s32 taskId =? MAIN_THREAD_IDX then 1 else s32 taskId.

(** *** Connecting *)

(** [redisCommand(ctx, "AUTH %s", passWord)]; the reply is never freed. *)
Definition CreateRedisContext (tv : Z * Z) : M RedisMgr (option context) :=
  m ← mget;
  let cfg := s_connectionConfig m in
  c ← on_net (redisConnectWithTimeout (cstr (ip cfg)) (port cfg) tv);
  match c with
  | None => mret None
  | Some c =>
      if negb (err c =? 0) then mret None
      else if bool_decide (passWord cfg = []) then mret (Some c)
      else
        '(reply, c) ← on_net (fun w => redisCommand c (lit "AUTH %s") (cstr (passWord cfg)) w);
        let failed := match reply with
                      | None => true
                      | Some r => negb (r_type r =? REDIS_REPLY_ERROR)
                      end in
        if failed then on_net (fun w => (tt, redisFree c w));; mret None
        else mret (Some c)
  end.

Definition LoadConfigFile : M RedisMgr bool :=
  match LoadFile with
  | None => mfault AssertFailed
  | Some root =>
      match GetFirstChrild root (lit "redis") with
      | None => mfault AssertFailed
      | Some redisObj =>
          let sec := GetAttribute_S32 redisObj (lit "connecttime") in
          mmodify (fun m => set_config
            (mkConfig (GetAttribute_Str redisObj (lit "ip"))
               (GetAttribute_S32 redisObj (lit "port"))
               (GetAttribute_S32 redisObj (lit "connectnum"))
               (if sec <? 0 then 5 else sec, 0)
               (GetAttribute_Str redisObj (lit "password"))
               (reattemptTime (s_connectionConfig m))) m);;
          mret true
      end
  end.

(** The members [RedisConnection] starts with. *)
Definition new_connection (c : context) : RedisConnection :=
  mkConnection c [] 1 None false new_watch new_watch [] [].

(** [for (i = 0; i < connectNum + 1; i++)]: [n] iterations are left. *)
Fixpoint connect_all (n : nat) : M RedisMgr bool :=
  match n with
  | O => mret true
  | S n' =>
      m ← mget;
      c ← CreateRedisContext (connectTV (s_connectionConfig m));
      match c with
      | None => mret false
      | Some c =>
          mmodify (fun m => set_vec (s_vecRedisContext m ++ [new_connection c]) m);;
          connect_all n'
      end
  end.

Definition Initialize : M RedisMgr bool :=
  loaded ← LoadConfigFile;
  if negb loaded then mret false else
  m ← mget;
  let n := connectNum (s_connectionConfig m) in
  ok ← connect_all (Z.to_nat (s32 (n + 1)));
  if negb ok then mret false else
  mmodify (set_num n);; mmodify (set_queue true);; mret true.

(** [ADD_TIMER(profileTimer, CONNECTION_TIMER_TIME, FOREVER, CONNECTION_TIMER_TIME)]. *)
Definition Launched : M RedisMgr bool :=
  mmodify (fun m => set_timers (timers m ++ [(CONNECTION_TIMER_TIME, FOREVER, CONNECTION_TIMER_TIME)]) m);;
  mret true.

(** *** Commands *)

(** The builder with its memory changed. *)
Definition set_cmd (blk : bytes) (b : RedisCmdBuilder) : RedisCmdBuilder :=
  mkBuilder (_count b) (_commit b) blk (_seek b).

(** [sendAndGetReply(ct, cmdBuilder, reply)]: [want] tells whether [reply]
    is not null; sending changes the builder's memory. *)
Definition sendAndGetReply (fuel : nat) (ct : context) (cmdBuilder : RedisCmdBuilder) (want : bool)
    (w : world) : outcome (Z * option redisReply * context * RedisCmdBuilder * world) :=
  if negb (IsCommit cmdBuilder) then Fault AssertFailed else
  let ct := set_obuf (_seek cmdBuilder) ct in
  '(ret, reply, ct, blk, w) ← redisGetReplyInner fuel ct (_cmd cmdBuilder) want w;
  Ok (ret, reply, ct, set_cmd blk cmdBuilder, w).

(** [sendAndGetReply(connection.ctx, cmdBuilder, reply)] for the connection [i]. *)
Definition send_on (fuel : nat) (i : nat) (cmdBuilder : RedisCmdBuilder) (want : bool)
    : M RedisMgr (Z * option redisReply * RedisCmdBuilder) :=
  k ← get_conn i;
  m ← mget;
  '(ret, reply, ct, b, w) ← mlift (sendAndGetReply fuel (ctx k) cmdBuilder want (net m));
  upd_conn i (set_ctx ct);;
  mmodify (set_net w);;
  mret (ret, reply, b).

(** The [do ... while (true)] of [execTaskByTimeOut]; [l] is what the
    callback has captured by reference. *)
Fixpoint reattempt_loop {L} (fuel : nat) (i : nat) (callFunc : L -> M RedisMgr (bool * L))
    (enterTime : Z) (l : L) : M RedisMgr L :=
  match fuel with
  | O => mfuel
  | S fuel' =>
      m ← mget;
      c ← CreateRedisContext (connectTV (s_connectionConfig m));
      r ← match c return M RedisMgr (bool * L) with
          | Some c =>
              k ← get_conn i;
              on_net (fun w => (tt, redisFree (ctx k) w));;
              upd_conn i (set_ctx c);;
              callFunc l
          | None => mret (false, l)
          end;
      let '(stop, l) := r in
      if (stop : bool) then mret l else
      now ← on_net GetTimeMillisecond;
      m ← mget;
      if reattemptTime (s_connectionConfig m) <? s64 (now - enterTime) then mret l else
      on_net (fun w => (tt, Sleep REATTEMPT_SLEEP_TIME w));;
      reattempt_loop fuel' i callFunc enterTime l
  end.

Definition execTaskByTimeOut {L} (fuel : nat) (i : nat) (callFunc : L -> M RedisMgr (bool * L))
    (l : L) : M RedisMgr L :=
  enterTime ← on_net GetTimeMillisecond;
  reattempt_loop fuel i callFunc enterTime l.

(** The [callFunc] of [execCmd]; it has captured [reply] and the builder. *)
Definition resend_cmd (fuel i : nat) (want : bool) (l : option redisReply * RedisCmdBuilder)
    : M RedisMgr (bool * (option redisReply * RedisCmdBuilder)) :=
  '(tmpRet, reply', b) ← send_on fuel i (snd l) want;
  mret (negb (tmpRet =? REDIS_ERR_IO), (match reply' with Some r => Some r | None => fst l end, b)).

(** [execCmd]: the returned code, what [*reply] holds and the builder. *)
Definition execCmd (fuel : nat) (threadIdx : Z) (cmdBuilder : RedisCmdBuilder) (want reSend : bool)
    : M RedisMgr (Z * option redisReply * RedisCmdBuilder) :=
  i ← GetRedisConnection threadIdx;
  '(ret, reply, b) ← send_on fuel i cmdBuilder want;
  '(reply, b) ← (if reSend && (ret =? REDIS_ERR_IO) then
    execTaskByTimeOut fuel i (resend_cmd fuel i want) (reply, b)
    else mret (reply, b));
  mret (0, reply, b).

(** *** Pipelines *)

(** The loop that writes every builder; the first component is [false] when
    a write fails. *)
Fixpoint pipeline_write (fuel : nat) (ct : context) (vecBuilder : list RedisCmdBuilder) (w : world)
    : outcome (bool * context * list RedisCmdBuilder * world) :=
  match vecBuilder with
  | [] => Ok (true, ct, [], w)
  | b :: rest =>
      if negb (IsCommit b) then Fault AssertFailed else
      let ct := set_obuf (_seek b) ct in
      '(e, ct, blk, w) ← redisBufferWriteInner fuel ct (_cmd b) w;
      if e =? REDIS_ERR then Ok (false, ct, set_cmd blk b :: rest, w)
      else
        '(ok, ct, rest, w) ← pipeline_write fuel ct rest w;
        Ok (ok, ct, set_cmd blk b :: rest, w)
  end.

(** The loop that collects [n] replies. *)
Fixpoint pipeline_read (fuel n : nat) (ct : context) (vecReply : list redisReply) (w : world)
    : outcome (Z * list redisReply * context * world) :=
  match n with
  | O => Ok (REDIS_OK, vecReply, ct, w)
  | S n' =>
      let '(e, aux, ct, w) := redisGetReplyFromReader ct w in
      if e =? REDIS_ERR then Ok (REDIS_ERR, vecReply, ct, w) else
      match aux with
      | Some r => pipeline_read fuel n' ct (vecReply ++ [r]) w
      | None =>
          '(e, aux, ct, w) ← read_loop fuel ct w;
          if e =? REDIS_ERR then Ok (REDIS_ERR, vecReply, ct, w) else
          match aux with
          | Some r => pipeline_read fuel n' ct (vecReply ++ [r]) w
          | None => Fault NullPointer
          end
      end
  end.

Definition pipelineSendAndGetReply (fuel : nat) (ct : context) (vecBuilder : list RedisCmdBuilder)
    (vecReply : list redisReply) (w : world)
    : outcome (Z * list redisReply * context * list RedisCmdBuilder * world) :=
  let iSize := s32 (Z.of_nat (length vecBuilder)) in
  '(ok, ct, bs, w) ← pipeline_write fuel ct vecBuilder w;
  if negb ok then Ok (REDIS_ERR, vecReply, ct, bs, w) else
  '(ret, vecReply, ct, w) ← pipeline_read fuel (Z.to_nat iSize) ct vecReply w;
  Ok (ret, vecReply, ct, bs, w).

Definition pipeline_on (fuel i : nat) (vecBuilder : list RedisCmdBuilder) (vecReply : list redisReply)
    : M RedisMgr (Z * list redisReply * list RedisCmdBuilder) :=
  k ← get_conn i;
  m ← mget;
  '(ret, rs, ct, bs, w) ← mlift (pipelineSendAndGetReply fuel (ctx k) vecBuilder vecReply (net m));
  upd_conn i (set_ctx ct);;
  mmodify (set_net w);;
  mret (ret, rs, bs).

(** The [callFunc] of [batchExecCmd]. *)
Definition resend_batch (fuel i : nat) (l : list redisReply * list RedisCmdBuilder)
    : M RedisMgr (bool * (list redisReply * list RedisCmdBuilder)) :=
  '(tmpRet, rs, bs) ← pipeline_on fuel i (snd l) (fst l);
  mret (negb (tmpRet =? REDIS_ERR_IO), (rs, bs)).

Definition batchExecCmd (fuel : nat) (threadIdx : Z) (vecBuilder : list RedisCmdBuilder)
    (vecReply : list redisReply) (reSend : bool)
    : M RedisMgr (Z * list redisReply * list RedisCmdBuilder) :=
  i ← GetRedisConnection threadIdx;
  '(ret, rs, bs) ← pipeline_on fuel i vecBuilder vecReply;
  '(rs, bs) ← (if reSend && (ret =? REDIS_ERR_IO) then
    execTaskByTimeOut fuel i (resend_batch fuel i) (rs, bs)
    else mret (rs, bs));
  mret (REDIS_OK, rs, bs).

(** *** Asynchronous commands *)

(** [connection._postTask = false] in the condition is an assignment. *)
Definition addAsyncTask (taskId : Z) (cmdBuilderPtr : RedisCmdBuilder) : M RedisMgr () :=
  i ← GetRedisConnectionInAsync taskId;
  upd_conn i (fun k => set_cmds (insertHead (_threadCmdList k) cmdBuilderPtr) k);;
  upd_conn i (fun k => match _redisTaskHandler k with
                       | None => set_handler (Some (RedisTaskHandler i)) k
                       | Some _ => k
                       end);;
  upd_conn i (set_post false);;
  if false then
    k ← get_conn i;
    m ← mget;
    match _redisTaskHandler k with
    | None => mfault NullPointer
    | Some h => mmodify (set_started (started m ++ [(_threadIdx k, h)]))
    end;;
    upd_conn i (set_post true)
  else mret tt.

(** The [while (head)] loop: a batch is sent when it has
    [REDIS_ASYNC_BATCH_CMD_COUNT] commands or the list has ended; the replies
    are freed, the builders deleted. *)
Fixpoint exec_batches (fuel : nat) (threadIdx : Z) (head vecRedisBuilder : list RedisCmdBuilder)
    : M RedisMgr () :=
  match head with
  | [] => mret tt
  | tmp :: head' =>
      let vec := vecRedisBuilder ++ [tmp] in
      if (Z.of_nat (length vec) =? REDIS_ASYNC_BATCH_CMD_COUNT) || bool_decide (head' = [])
      then
        '(_, vecReply, _) ← batchExecCmd fuel threadIdx vec [] true;
        on_net (fun w => (tt, foldl (fun w r => freeReplyObject r w) w vecReply));;
        exec_batches fuel threadIdx head' []
      else exec_batches fuel threadIdx head' vec
  end.

Definition OnExecRedisTask (fuel i : nat) : M RedisMgr () :=
  k ← get_conn i;
  let head := cutList (_threadCmdList k) in
  upd_conn i (set_cmds []);;
  exec_batches fuel (_threadIdx k) head [];;
  upd_conn i (set_post false).

(** *** Profiling *)

Definition OnFlushConnectionTimer : M RedisMgr () :=
  m ← mget;
  if s_asyncQueue m then
    mmodify (set_started (started m ++ map (fun t => (t, FlushConnectionHandler t)) queue_threads))
  else mfault NullPointer.

Definition OnFlushConnection (threadIdx : Z) : M RedisMgr () :=
  i ← GetRedisConnection threadIdx;
  upd_conn i (fun k => set_main (_threadWatch k) (_threadKeyProfileMap k) k).

(** The text [ProfileInfo] streams for the connection [i]. *)
Definition connection_info (i : nat) (k : RedisConnection) : bytes :=
  lit "connection " ++ fmt_d (Z.of_nat i) ++ lit " info:" ++
  LF :: lit "expends:" ++ LF :: CreatePerformanceInfo (_mainWatch k) ++
  LF :: lit "key profile:" ++ LF :: GetProfileAndReset (_mainKeyProfileMap k) ++ [LF].

Definition ProfileInfo (m : RedisMgr) : bytes :=
  concat (imap connection_info (s_vecRedisContext m)).

(** A no-op in every build. *)
Definition RecordExecKey (threadIdx : Z) (key : bytes) : M RedisMgr () := mret tt.

Definition GetAsyncConnectNum (m : RedisMgr) : Z := s_connectNum m.

(** The pointer, null or not. *)
Definition SetAsyncQueue (asyncQueue : bool) : M RedisMgr () := mmodify (set_queue asyncQueue).

(** [OnExecute] of the two handlers; the queue calls it on the thread
    [threadIdx]. *)
Definition OnExecute (fuel : nat) (h : IAsyncHandler) (threadIdx : Z) : M RedisMgr bool :=
  match h with
  | FlushConnectionHandler t =>
      if t =? threadIdx then OnFlushConnection threadIdx;; mret true else mfault AssertFailed
  | RedisTaskHandler connection => OnExecRedisTask fuel connection;; mret true
  end.

(** [TestPipeline]: the result tells whether "pipeline ok" is printed. *)
Definition TestPipeline (fuel : nat) : M RedisMgr bool :=
  b1 ← mlift (Commit (push_cstr (push_cstr builder_new (lit "GET")) (lit "xuping")));
  b2 ← mlift (Commit (push_cstr (push_cstr (push_cstr builder_new (lit "SET")) (lit "xuping1"))
                        (lit "this is test")));
  b3 ← mlift (Commit (push_cstr (push_cstr builder_new (lit "GET")) (lit "xuping1")));
  i ← GetRedisConnection 0;
  '(ret, _, _) ← pipeline_on fuel i [b1; b2; b3] [];
  mret (ret =? REDIS_OK).
End RedisMgr.

Arguments mkMgr {HR HE}.
Arguments mkConnection {HR HE}.

(** ** A concrete environment *)

Module ScriptedEnv.
(** A configuration with [n] connections and a password; the list of pending
    commands is last-in first-out, as its [insertHead] suggests. *)
Definition config (n : Z) (password : bytes) : Xml := {|
  xml := ();
  LoadFile := Some tt;
  GetFirstChrild := fun _ name => if bool_decide (name = lit "redis") then Some tt else None;
  GetNextSibling := fun _ => None;
  GetAttribute_Str := fun _ name =>
    if bool_decide (name = lit "password") then password else lit "127.0.0.1";
  GetAttribute_S32 := fun _ name =>
    if bool_decide (name = lit "connectnum") then n
    else if bool_decide (name = lit "port") then 6379 else 3
|}.

Definition env (n : Z) (password : bytes) : RedisEnv := {|
  RedisEnv_xml := config n password;
  insertHead := fun l b => b :: l;
  cutList := fun l => l;
  watch := ();
  new_watch := tt;
  CreatePerformanceInfo := fun _ => [];
  queue_threads := [1; 2]
|}.

#[export] Instance laws n pw : RedisEnvLaws (env n pw).
Proof. by split. Qed.

(** A server that accepts connections without a password. *)
Definition accepting (inbox : list (option redisReply)) : Scripted.state :=
  Scripted.mkState [] [] inbox [None] 0 0 1.
End ScriptedEnv.

#[export] Existing Instance ScriptedEnv.laws.
