(* ===== verification/RedisMgrProps.v ===== *)
(** * Properties of the Redis connection manager

    What every operation leaves unchanged, which connection serves which
    thread, connecting and reconnecting with the callbacks of [execCmd] and
    [batchExecCmd], pipelines and the batches of the asynchronous task. *)
From Stdlib Require Import ZArith Lia Ascii.
From stdpp Require Import base numbers list list_numbers strings.
From S2P Require Import Prelude Kernel Resp Hiredis RedisHelper RedisWire RedisProfile RedisMgr.
Open Scope Z_scope.

Section Frame.
Context {HR : Hiredis} {HE : RedisEnv}.

Definition is_flush (p : Z * IAsyncHandler) : Prop :=
  match snd p with FlushConnectionHandler _ => True | RedisTaskHandler _ => False end.

(** What no operation after [Initialize] changes: the configuration, the
    number of connections and the thread each one names; no task is marked
    as posted, and only flush handlers are given to the queue. *)
Record frame (s s' : RedisMgr) : Prop := {
  fr_idx : map _threadIdx (s_vecRedisContext s') = map _threadIdx (s_vecRedisContext s);
  fr_num : s_connectNum s' = s_connectNum s;
  fr_cfg : s_connectionConfig s' = s_connectionConfig s;
  fr_queue : s_asyncQueue s' = s_asyncQueue s;
  fr_post : Forall (fun k => _postTask k = false) (s_vecRedisContext s) ->
            Forall (fun k => _postTask k = false) (s_vecRedisContext s');
  fr_started : Forall is_flush (started s) -> Forall is_flush (started s')
}.

#[export] Instance frame_preorder : PreOrder frame.
Proof.
  split; [by constructor|]. intros s1 s2 s3 [] []. constructor; try congruence; eauto.
Qed.

Lemma frame_len s s' : frame s s' -> length (s_vecRedisContext s') = length (s_vecRedisContext s).
Proof. intros H%fr_idx%(f_equal length). by rewrite !length_map in H. Qed.

(** Changing a connection in place. *)
Lemma frame_upd i f s : (forall k, _threadIdx (f k) = _threadIdx k) ->
  (forall k, _postTask k = false -> _postTask (f k) = false) ->
  frame s (set_vec (alter f i (s_vecRedisContext s)) s).
Proof.
  intros H1 H2. constructor; cbn; try done.
  - apply list_eq. intros j. change (map _threadIdx) with (fmap (M := list) _threadIdx).
    rewrite !list_lookup_fmap. destruct (decide (i = j)) as [->|Hne].
    + rewrite list_lookup_alter_eq. destruct (s_vecRedisContext s !! j) as [k|]; [|done].
      apply (f_equal Some), H1.
    + by rewrite list_lookup_alter_ne.
  - intros Hp. apply Forall_lookup. intros j k. destruct (decide (i = j)) as [->|Hne].
    + rewrite list_lookup_alter_eq. destruct (_ !! j) as [k'|] eqn:E; [|done]. intros [= <-].
      apply H2. by apply (Forall_lookup_1 _ _ _ _ Hp E).
    + rewrite list_lookup_alter_ne by done. intros Hk. by apply (Forall_lookup_1 _ _ _ _ Hp Hk).
Qed.

Lemma frame_net w s : frame s (set_net w s).
Proof. by constructor. Qed.

Lemma preserves_upd i f : (forall k, _threadIdx (f k) = _threadIdx k) ->
  (forall k, _postTask k = false -> _postTask (f k) = false) -> preserves frame (upd_conn i f).
Proof. intros H1 H2. apply preserves_modify. intros s. by apply frame_upd. Qed.

Lemma preserves_on_net {A} (f : world -> A * world) : preserves frame (on_net f).
Proof.
  intros s a s'. unfold on_net, mget, mput, mbind, M_bind. destruct (f (net s)) as [a' w].
  intros [= <- <-]. apply frame_net.
Qed.

Lemma preserves_get_conn i : preserves frame (get_conn i).
Proof. unfold get_conn. preserve_tac. Qed.

Lemma preserves_set_net w : preserves frame (mmodify (set_net w)).
Proof. apply preserves_modify. intros s. apply frame_net. Qed.

Hint Resolve preserves_on_net preserves_get_conn preserves_set_net frame_net : preserve.

Lemma preserves_GetRedisConnection t : preserves frame (GetRedisConnection t).
Proof. unfold GetRedisConnection. preserve_tac. Qed.

Lemma preserves_GetRedisConnectionInAsync t : preserves frame (GetRedisConnectionInAsync t).
Proof. unfold GetRedisConnectionInAsync. preserve_tac. Qed.

Lemma preserves_CreateRedisContext tv : preserves frame (CreateRedisContext tv).
Proof. unfold CreateRedisContext. preserve_tac. Qed.

Lemma preserves_send_on fuel i b want : preserves frame (send_on fuel i b want).
Proof. unfold send_on. preserve_tac. by apply preserves_upd. Qed.

Lemma preserves_pipeline_on fuel i bs rs : preserves frame (pipeline_on fuel i bs rs).
Proof. unfold pipeline_on. preserve_tac. by apply preserves_upd. Qed.

Hint Resolve preserves_GetRedisConnection preserves_GetRedisConnectionInAsync
  preserves_CreateRedisContext preserves_send_on preserves_pipeline_on : preserve.

Lemma preserves_execTaskByTimeOut {L} fuel i (callFunc : L -> M RedisMgr (bool * L)) l :
  (forall l, preserves frame (callFunc l)) -> preserves frame (execTaskByTimeOut fuel i callFunc l).
Proof.
  intros Hc. unfold execTaskByTimeOut. apply preserves_bind; [apply _|eauto with preserve|].
  intros t. revert l. induction fuel as [|fuel IH]; intros l; cbn [reattempt_loop]; preserve_tac.
  by apply preserves_upd.
Qed.

Lemma preserves_execCmd fuel t b want reSend : preserves frame (execCmd fuel t b want reSend).
Proof.
  unfold execCmd. preserve_tac; apply preserves_execTaskByTimeOut; unfold resend_cmd; preserve_tac.
Qed.

Lemma preserves_batchExecCmd fuel t bs rs reSend : preserves frame (batchExecCmd fuel t bs rs reSend).
Proof.
  unfold batchExecCmd. preserve_tac; apply preserves_execTaskByTimeOut; unfold resend_batch; preserve_tac.
Qed.

Hint Resolve preserves_execCmd preserves_batchExecCmd : preserve.

Lemma preserves_exec_batches fuel t head vec : preserves frame (exec_batches fuel t head vec).
Proof.
  revert vec. induction head as [|b head IH]; intros vec; cbn [exec_batches]; preserve_tac.
Qed.

Hint Resolve preserves_exec_batches : preserve.

Lemma preserves_addAsyncTask t b : preserves frame (addAsyncTask t b).
Proof.
  unfold addAsyncTask. preserve_tac; try by apply preserves_upd.
  apply preserves_upd; intros k; by destruct (_redisTaskHandler k).
Qed.

Lemma preserves_OnExecRedisTask fuel i : preserves frame (OnExecRedisTask fuel i).
Proof. unfold OnExecRedisTask. preserve_tac; by apply preserves_upd. Qed.

Lemma preserves_OnFlushConnectionTimer : preserves frame OnFlushConnectionTimer.
Proof.
  intros m a m'. unfold OnFlushConnectionTimer, mget, mbind, M_bind, mmodify.
  destruct (s_asyncQueue m); [|done]. intros [= <- <-]. constructor; cbn; try done.
  intros H. apply Forall_app. split; [done|]. apply List.Forall_map, Forall_true. done.
Qed.

Lemma preserves_OnFlushConnection t : preserves frame (OnFlushConnection t).
Proof. unfold OnFlushConnection. preserve_tac. by apply preserves_upd. Qed.

Lemma preserves_TestPipeline fuel : preserves frame (TestPipeline fuel).
Proof. unfold TestPipeline. preserve_tac. Qed.
End Frame.

(** ** Start-up *)

Section StartUp.
Context {HR : Hiredis} {HE : RedisEnv}.

(** The statics before [Initialize]. *)
Definition mgr_start (w : world) : RedisMgr :=
  mkMgr (mkConfig [] 0 0 (0, 0) [] 0) [] 0 false [] [] w.

(** The <redis> element of the configuration file. *)
Definition redis_xml : option xml := root ← LoadFile; GetFirstChrild root (lit "redis").

(** What [connect_all] adds. *)
Lemma connect_all_spec n m m' : connect_all n m = Ok (true, m') ->
  exists cs, s_vecRedisContext m' = s_vecRedisContext m ++ map new_connection cs /\
    length cs = n /\ s_connectionConfig m' = s_connectionConfig m /\
    s_asyncQueue m' = s_asyncQueue m /\ started m' = started m /\ timers m' = timers m.
Proof.
  revert m. induction n as [|n IH]; intros m; cbn [connect_all].
  { intros [= <-]. exists []. by rewrite app_nil_r. }
  intros (a & m1 & [= <- <-] & (c & m2 & H2 & H)%M_bind_inv)%M_bind_inv.
  assert (Hf : s_vecRedisContext m2 = s_vecRedisContext m /\
    s_connectionConfig m2 = s_connectionConfig m /\ s_asyncQueue m2 = s_asyncQueue m /\
    started m2 = started m /\ timers m2 = timers m).
  { revert H2. generalize (connectTV (s_connectionConfig m)). intros tv.
    assert (Hp : preserves (fun s s' => exists w, s' = set_net w s) (CreateRedisContext tv)).
    { assert (PreOrder (fun s s' => exists w, s' = set_net w s)).
      { split; [intros []; eexists; reflexivity|intros ? ? ? [w ->] [w' ->]; by exists w']. }
      assert (Hn : forall A (f : world -> A * world),
        preserves (fun s s' => exists w, s' = set_net w s) (on_net f)).
      { intros A f s a s'. unfold on_net, mget, mput, mbind, M_bind. destruct (f (net s)) as [a' w].
        intros [= <- <-]. by exists w. }
      unfold CreateRedisContext. preserve_tac; apply Hn. }
    intros [w ->]%Hp. by destruct m. }
  destruct Hf as (Hv & Hc & Hq & Hs & Ht). destruct c as [c|]; [|done].
  destruct (IH _ H) as (cs & E1 & E2 & E3 & E4 & E5 & E6). exists (c :: cs).
  cbn in *. rewrite E1, Hv, <- app_assoc, E2. split_and!; try congruence. done.
Qed.

(** What a successful [Initialize] leaves: [connectnum + 1] connections that
    all name thread 1, nothing posted, and no resend time limit, since the
    configuration file's value is never read. *)
Record initialized (x : xml) (m : RedisMgr) : Prop := {
  in_len : length (s_vecRedisContext m) = Z.to_nat (s32 (GetAttribute_S32 x (lit "connectnum") + 1));
  in_num : s_connectNum m = GetAttribute_S32 x (lit "connectnum");
  in_thread : Forall (eq 1) (map _threadIdx (s_vecRedisContext m));
  in_post : Forall (fun k => _postTask k = false) (s_vecRedisContext m);
  in_started : Forall is_flush (started m);
  in_reattempt : reattemptTime (s_connectionConfig m) = 0
}.

Lemma Initialize_initialized w m x : redis_xml = Some x -> Initialize (mgr_start w) = Ok (true, m) ->
  initialized x m.
Proof.
  intros Hx Hi. revert Hi. unfold redis_xml in Hx. unfold Initialize, LoadConfigFile.
  destruct LoadFile as [root|]; [|done]. cbn [mbind option_bind] in Hx. rewrite Hx.
  unfold mmodify, mret, M_ret, mget, mbind, M_bind. cbn [negb connectNum s_connectionConfig set_config].
  match goal with |- context [connect_all ?k ?s] => destruct (connect_all k s) as [[[] m1]| |] eqn:E end;
    [|done..].
  cbn [negb]. intros [= <-]. apply connect_all_spec in E as (cs & E1 & E2 & E3 & E4 & E5 & E6).
  cbn in E1, E3, E5 |- *. constructor; cbn; rewrite ?E1, ?E5, ?length_map, ?E2, ?map_map, ?E3; try done.
  - apply List.Forall_map, Forall_true. done.
  - apply List.Forall_map, Forall_true. done.
Qed.
End StartUp.

(** ** Which connection serves a thread *)

Section Connections.
Context {HR : Hiredis} {HE : RedisEnv}.

(** A manager with [n] thread connections behind the main one. *)
Definition mgr_ok (m : RedisMgr) : Prop :=
  0 < s_connectNum m < 2 ^ 31 - 1 /\
  Z.of_nat (length (s_vecRedisContext m)) = s_connectNum m + 1.

Lemma vec_at_ok idx m : 0 <= idx < 2 ^ 63 -> idx < Z.of_nat (length (s_vecRedisContext m)) ->
  vec_at idx m = Ok (Z.to_nat idx).
Proof.
  intros Hi Hl. unfold vec_at, u64. rewrite uwrap_small by lia. by destruct (Z.ltb_spec idx (Z.of_nat (length (s_vecRedisContext m)))); [|lia].
Qed.

(** The connection a synchronous call of thread [t] uses, 0 being the main
    thread ... *)
Definition sync_connection (n t : Z) : Z := if t =? 0 then 0 else u32 t mod n + 1.

Lemma GetRedisConnection_spec t m : mgr_ok m ->
  GetRedisConnection t m = Ok (Z.to_nat (sync_connection (s_connectNum m) t), m) /\
  0 <= sync_connection (s_connectNum m) t <= s_connectNum m.
Proof.
  intros [Hn Hl]. unfold sync_connection, GetRedisConnection, MAIN_THREAD_IDX.
  unfold mget, mbind, M_bind. set (n := s_connectNum m) in *.
  destruct (Z.eqb_spec t 0) as [->|Ht].
  { unfold mlift. rewrite vec_at_ok by lia. split; [done|lia]. }
  pose proof (Z.mod_pos_bound (u32 t) n ltac:(lia)).
  rewrite (u32_small n) by lia. destruct (Z.eqb_spec n 0) as [?|_]; [lia|].
  rewrite u32_small, s32_small by (unfold is_s32; lia).
  unfold mlift. rewrite vec_at_ok by lia. split; [done|lia].
Qed.

(** ... and the one of an asynchronous task. *)
Lemma GetRedisConnectionInAsync_spec k m : mgr_ok m ->
  GetRedisConnectionInAsync k m = Ok (Z.to_nat ((k mod 2 ^ 64) mod s_connectNum m + 1), m) /\
  0 <= (k mod 2 ^ 64) mod s_connectNum m < s_connectNum m.
Proof.
  intros [Hn Hl]. set (n := s_connectNum m) in *.
  pose proof (Z.mod_pos_bound (k mod 2 ^ 64) n ltac:(lia)) as Hb. split; [|done].
  unfold GetRedisConnectionInAsync, mget, mbind, M_bind. fold n.
  unfold u64 at 1. rewrite (uwrap_small 64 n) by lia. destruct (Z.eqb_spec n 0) as [?|_]; [lia|].
  unfold u64. rewrite (uwrap_small 64 n) by lia.
  rewrite (uwrap_small 64 (uwrap 64 k mod n + 1)) by (unfold uwrap; lia).
  rewrite s64_small by (unfold is_s64, uwrap; lia).
  unfold mlift. rewrite vec_at_ok by (unfold uwrap; lia). done.
Qed.

(** C34: On a manager with [n > 0] connections every thread index and every
    task id (of the whole [s32] and [s64] range, negative ones included)
    selects an existing connection: the main thread, and only it, the first
    one, thread [t] the one after [(u32)t mod n], task [k] the one after
    [(u64)k mod n].  With [n = 0], every other request divides by zero. *)
Theorem connection_in_bounds t k m :
  (mgr_ok m -> is_s32 t -> is_s64 k ->
    (exists i, GetRedisConnection t m = Ok (i, m) /\ (i < length (s_vecRedisContext m))%nat /\
      Z.of_nat i = (if t =? 0 then 0 else (t mod 2 ^ 32) mod s_connectNum m + 1)) /\
    (exists i, GetRedisConnectionInAsync k m = Ok (i, m) /\
      (0 < i < length (s_vecRedisContext m))%nat /\
      Z.of_nat i = (k mod 2 ^ 64) mod s_connectNum m + 1)) /\
  (s_connectNum m = 0 -> (t <> 0 -> GetRedisConnection t m = Fault DivByZero) /\
    GetRedisConnectionInAsync k m = Fault DivByZero).
Proof.
  split.
  - intros Hm Ht Hk. split.
    + destruct (GetRedisConnection_spec t m Hm) as [E Hb]. eexists. split; [exact E|].
      unfold sync_connection, u32, uwrap in *. destruct Hm. destruct (t =? 0); lia.
    + destruct (GetRedisConnectionInAsync_spec k m Hm) as [E Hb]. eexists. split; [exact E|].
      destruct Hm. lia.
  - intros Hn. unfold GetRedisConnection, GetRedisConnectionInAsync, mget, mbind, M_bind, MAIN_THREAD_IDX.
    rewrite Hn. split; [|done]. intros Ht. by destruct (Z.eqb_spec t 0); [lia|].
Qed.

(** C32: With a password configured, a connection is accepted exactly when the
    server answers [AUTH] with an error: a server that accepts the password
    (any reply but an error), or that does not answer, makes
    [CreateRedisContext] free the context and report failure. *)
Theorem CreateRedisContext_auth_inverted tv m c w1 reply c2 w2 :
  passWord (s_connectionConfig m) <> [] ->
  redisConnectWithTimeout (cstr (ip (s_connectionConfig m))) (port (s_connectionConfig m)) tv (net m)
    = (Some c, w1) -> err c = 0 ->
  redisCommand c (lit "AUTH %s") (cstr (passWord (s_connectionConfig m))) w1 = (reply, c2, w2) ->
  (exists r, reply = Some r /\ r_type r = REDIS_REPLY_ERROR) /\
    CreateRedisContext tv m = Ok (Some c2, set_net w2 m) \/
  (forall r, reply = Some r -> r_type r <> REDIS_REPLY_ERROR) /\
    CreateRedisContext tv m = Ok (None, set_net (redisFree c2 w2) m).
Proof.
  intros Hp Hc He Ha. unfold CreateRedisContext, on_net, mget, mput, mbind, M_bind. rewrite Hc.
  cbn [mret M_ret]. unfold mret, M_ret. rewrite He. cbn [negb Z.eqb].
  rewrite bool_decide_eq_false_2 by done. cbn [net set_net s_connectionConfig]. rewrite Ha.
  destruct reply as [r|].
  - destruct (Z.eqb_spec (r_type r) REDIS_REPLY_ERROR) as [E|E]; [left|right]; (split; [|by destruct m]).
    + by exists r.
    + by intros ? [= <-].
  - right. split; [done|by destruct m].
Qed.
End Connections.

(** ** Resending and reconnecting *)

Section Resend.
Context {HR : Hiredis} {HE : RedisEnv}.

Lemma sendAndGetReply_code fuel c b want w ret r c' b' w' :
  sendAndGetReply fuel c b want w = Ok (ret, r, c', b', w') -> ok_or_err ret.
Proof.
  unfold sendAndGetReply. destruct (negb (IsCommit b)); [done|].
  destruct (redisGetReplyInner _ _ _ _ _) as [[[[[ret' r'] c1] blk1] w1]| |] eqn:E;
    cbn [mbind outcome_bind]; [|done..].
  intros [= <- _ _ _ _]. by eapply redisGetReplyInner_code.
Qed.

(** [send_on] in one step. *)
Lemma send_on_unfold fuel i b want m :
  send_on fuel i b want m =
    match s_vecRedisContext m !! i with
    | None => Fault OutOfBounds
    | Some k =>
        '(ret, reply, ct, b, w) ← sendAndGetReply fuel (ctx k) b want (net m);
        Ok (ret, reply, b, set_net w (set_vec (alter (set_ctx ct) i (s_vecRedisContext m)) m))
    end.
Proof.
  unfold send_on, get_conn, upd_conn, mmodify, mlift, mget, mret, M_ret, mbind, M_bind, outcome_bind.
  destruct (s_vecRedisContext m !! i) as [k|]; [|done]. cbn [of_option].
  by destruct (sendAndGetReply _ _ _ _ _) as [[[[[ret r] c'] b'] w']| |].
Qed.

Lemma pipeline_read_code fuel n c rs w e rs' c' w' :
  pipeline_read fuel n c rs w = Ok (e, rs', c', w') ->
  e = REDIS_OK /\ length rs' = (length rs + n)%nat \/ e = REDIS_ERR.
Proof.
  revert c rs w. induction n as [|n IH]; intros c rs w; cbn [pipeline_read].
  { intros [= <- <- _ _]. left. split; [done|lia]. }
  destruct (redisGetReplyFromReader c w) as [[[e1 aux] c1] w1].
  destruct (e1 =? REDIS_ERR); [intros [= <- _ _ _]; by right|].
  destruct aux as [r|].
  - intros [[-> H]| ->]%IH; [left|by right]. rewrite length_app in H. cbn in H. split; [done|lia].
  - destruct (read_loop fuel c1 w1) as [[[[e2 aux] c2] w2]| |] eqn:E; cbn [mbind outcome_bind]; [|done..].
    apply read_loop_code in E as [[-> [r ->]]|[-> ->]]; [|intros [= <- _ _ _]; by right].
    cbn. intros [[-> H]| ->]%IH; [left|by right]. rewrite length_app in H. cbn in H. split; [done|lia].
Qed.

Lemma pipelineSendAndGetReply_code fuel c bs rs w e rs' c' bs' w' :
  pipelineSendAndGetReply fuel c bs rs w = Ok (e, rs', c', bs', w') -> ok_or_err e.
Proof.
  unfold pipelineSendAndGetReply.
  destruct (pipeline_write fuel c bs w) as [[[[ok c1] bs1] w1]| |]; cbn [mbind outcome_bind]; [|done..].
  destruct ok; cbn [negb]; [|intros [= <- _ _ _ _]; by right].
  destruct (pipeline_read _ _ _ _ _) as [[[[ret rs1] c2] w2]| |] eqn:E; cbn [mbind outcome_bind]; [|done..].
  apply pipeline_read_code in E as [[-> _]| ->]; intros [= <- _ _ _ _]; [by left|by right].
Qed.

Lemma pipeline_on_unfold fuel i bs rs m :
  pipeline_on fuel i bs rs m =
    match s_vecRedisContext m !! i with
    | None => Fault OutOfBounds
    | Some k =>
        '(ret, rs, ct, bs, w) ← pipelineSendAndGetReply fuel (ctx k) bs rs (net m);
        Ok (ret, rs, bs, set_net w (set_vec (alter (set_ctx ct) i (s_vecRedisContext m)) m))
    end.
Proof.
  unfold pipeline_on, get_conn, upd_conn, mmodify, mlift, mget, mret, M_ret, mbind, M_bind, outcome_bind.
  destruct (s_vecRedisContext m !! i) as [k|]; [|done]. cbn [of_option].
  by destruct (pipelineSendAndGetReply _ _ _ _ _) as [[[[[ret r] c'] b'] w']| |].
Qed.

(** [ok_or_err] is never the code the resend waits for. *)
Lemma ok_or_err_io ret : ok_or_err ret -> (ret =? REDIS_ERR_IO) = false.
Proof. by intros [-> | ->]. Qed.

(** What [execCmd] does: one exchange on the thread's connection. *)
Lemma execCmd_unfold fuel t b want reSend m :
  execCmd fuel t b want reSend m =
    match GetRedisConnection t m with
    | Ok (i, m) =>
        match send_on fuel i b want m with
        | Ok ((_, reply, b'), m') => Ok ((0, reply, b'), m')
        | Fault f => Fault f
        | OutOfFuel => OutOfFuel
        end
    | Fault f => Fault f
    | OutOfFuel => OutOfFuel
    end.
Proof.
  unfold execCmd, mbind, M_bind. destruct (GetRedisConnection t m) as [[i m1]| |]; [|done..].
  destruct (send_on fuel i b want m1) as [[[[ret r] b'] m2]| |] eqn:E; [|done..].
  rewrite send_on_unfold in E. destruct (s_vecRedisContext m1 !! i) as [k|]; [|done].
  destruct (sendAndGetReply _ _ _ _ _) as [[[[[ret' r'] c1] b1] w1]| |] eqn:E1;
    cbn [mbind outcome_bind] in E; [|done..].
  injection E as <- <- <- <-. apply sendAndGetReply_code in E1.
  by rewrite (ok_or_err_io _ E1), andb_false_r.
Qed.

Lemma batchExecCmd_unfold fuel t bs rs reSend m :
  batchExecCmd fuel t bs rs reSend m =
    match GetRedisConnection t m with
    | Ok (i, m) =>
        match pipeline_on fuel i bs rs m with
        | Ok ((_, rs', bs'), m') => Ok ((REDIS_OK, rs', bs'), m')
        | Fault f => Fault f
        | OutOfFuel => OutOfFuel
        end
    | Fault f => Fault f
    | OutOfFuel => OutOfFuel
    end.
Proof.
  unfold batchExecCmd, mbind, M_bind. destruct (GetRedisConnection t m) as [[i m1]| |]; [|done..].
  destruct (pipeline_on fuel i bs rs m1) as [[[[ret r] b'] m2]| |] eqn:E; [|done..].
  rewrite pipeline_on_unfold in E. destruct (s_vecRedisContext m1 !! i) as [k|]; [|done].
  destruct (pipelineSendAndGetReply _ _ _ _ _) as [[[[[ret' r'] c1] b1] w1]| |] eqn:E1;
    cbn [mbind outcome_bind] in E; [|done..].
  injection E as <- <- <- <-. apply pipelineSendAndGetReply_code in E1.
  by rewrite (ok_or_err_io _ E1), andb_false_r.
Qed.

(** The automatic resend never happens: the exchange reports [REDIS_OK]
    or [REDIS_ERR] (-1) but the condition compares with [REDIS_ERR_IO] (1),
    so [execCmd] and [batchExecCmd] behave the same with and without
    [reSend]: they leave every other connection and, on failure, the broken
    one in place.  And both report success whatever happened. *)
Theorem resend_never_happens fuel t b want bs rs m :
  execCmd fuel t b want true m = execCmd fuel t b want false m /\
  batchExecCmd fuel t bs rs true m = batchExecCmd fuel t bs rs false m /\
  (forall reSend code r b' m', execCmd fuel t b want reSend m = Ok ((code, r, b'), m') -> code = 0) /\
  (forall reSend code r b' m', batchExecCmd fuel t bs rs reSend m = Ok ((code, r, b'), m') ->
     code = REDIS_OK).
Proof.
  split_and!.
  - by rewrite !execCmd_unfold.
  - by rewrite !batchExecCmd_unfold.
  - intros reSend code r b' m'. rewrite execCmd_unfold.
    destruct (GetRedisConnection t m) as [[i m1]| |]; [|done..].
    destruct (send_on fuel i b want m1) as [[[[? ?] ?] ?]| |]; [|done..]. by intros [= <- _ _ _].
  - intros reSend code r b' m'. rewrite batchExecCmd_unfold.
    destruct (GetRedisConnection t m) as [[i m1]| |]; [|done..].
    destruct (pipeline_on fuel i bs rs m1) as [[[[? ?] ?] ?]| |]; [|done..]. by intros [= <- _ _ _].
Qed.
End Resend.

(** ** The reconnection loop ends *)

Section Reconnect.
Context {HR : Hiredis} {HE : RedisEnv} {HC : ClockLaws HR}.

(** From [m] to [m'] at most [n] calls of the system were made: the
    configuration and the number of connections are the same and the clock
    has advanced by at most [n * 2 ^ 40] ms. *)
Record ticks (n : Z) (m m' : RedisMgr) : Prop := {
  tk_clock : clock (net m) <= clock (net m') <= clock (net m) + n * 2 ^ 40;
  tk_cfg : s_connectionConfig m' = s_connectionConfig m;
  tk_len : length (s_vecRedisContext m') = length (s_vecRedisContext m)
}.

Lemma ticks_refl n m : 0 <= n -> ticks n m m.
Proof. intros. constructor; [nia|done|done]. Qed.

Lemma ticks_trans n1 n2 m1 m2 m3 : ticks n1 m1 m2 -> ticks n2 m2 m3 -> ticks (n1 + n2) m1 m3.
Proof. intros [? ? ?] [? ? ?]. constructor; [lia|congruence|congruence]. Qed.

Lemma on_net_ticks {A} (f : world -> A * world) m :
  clock (net m) <= clock (snd (f (net m))) <= clock (net m) + 2 ^ 40 ->
  exists a m', on_net f m = Ok (a, m') /\ a = fst (f (net m)) /\ ticks 1 m m'.
Proof.
  intros Hf. unfold on_net, mget, mput, mret, M_ret, mbind, M_bind.
  destruct (f (net m)) as [a w] eqn:E. exists a, (set_net w m). split_and!; [done|done|].
  constructor; cbn in *; [lia|done|done].
Qed.

Lemma CreateRedisContext_ticks tv m : exists c m', CreateRedisContext tv m = Ok (c, m') /\ ticks 3 m m'.
Proof.
  unfold CreateRedisContext. rewrite (M_bind_Ok _ _ m m m) by done.
  destruct (on_net_ticks (redisConnectWithTimeout (cstr (ip (s_connectionConfig m)))
    (port (s_connectionConfig m)) tv) m (connect_step _ _ _ _)) as (c & m1 & E1 & _ & T1).
  rewrite (M_bind_Ok _ _ _ _ _ E1).
  assert (T13 : ticks 3 m m1) by (apply (ticks_trans 1 2 _ m1); [done|by apply ticks_refl]).
  destruct c as [c|]; [|by exists None, m1].
  destruct (negb (err c =? 0)); [by exists None, m1|]. case_bool_decide; [by exists (Some c), m1|].
  set (f := fun w : world => _).
  assert (Hf : clock (net m1) <= clock (snd (f (net m1))) <= clock (net m1) + 2 ^ 40).
  { pose proof (command_step c (lit "AUTH %s") (cstr (passWord (s_connectionConfig m))) (net m1)) as H1.
    unfold f. destruct (redisCommand _ _ _ _) as [[r c2] w2]. exact H1. }
  destruct (on_net_ticks f m1 Hf) as ([reply c2] & m2 & E2 & _ & T2).
  rewrite (M_bind_Ok _ _ _ _ _ E2). destruct reply as [r|]; [destruct (negb _)|].
  2:{ exists (Some c2), m2. split; [done|]. apply (ticks_trans 1 2 _ m1); [done|].
      apply (ticks_trans 1 1 _ m2); [done|by apply ticks_refl]. }
  all: destruct (on_net_ticks (fun w => (tt, redisFree c2 w)) m2 (redisFree_step _ _))
    as ([] & m3 & E3 & _ & T3); rewrite (M_bind_Ok _ _ _ _ _ E3); exists None, m3;
    (split; [done|]); apply (ticks_trans 1 2 _ m1); [done|]; by apply (ticks_trans 1 1 _ m2).
Qed.

(** What a successful attempt does before the callback: the old context of
    the connection is freed and the new one put in its place. *)
Definition installed (i : nat) (c : redisContext reader) (k : RedisConnection) (m : RedisMgr) : RedisMgr :=
  set_vec (alter (set_ctx c) i (s_vecRedisContext m)) (set_net (redisFree (ctx k) (net m)) m).

(** What happens when the loop is entered at [m] having started at
    [enterTime], in terms of the connection attempts: the first context the
    server gives is installed, and the callback, which stops the loop, is run
    once on it ([called]: what it does there); or no attempt succeeds until
    the time is over.  [n] attempts are made. *)
Inductive reattempted {L} (called : RedisMgr -> L -> RedisMgr -> Prop) (i : nat) (enterTime : Z) (l : L)
    : nat -> RedisMgr -> L -> RedisMgr -> Prop :=
  | ra_connected m c m1 k l' m' :
      CreateRedisContext (connectTV (s_connectionConfig m)) m = Ok (Some c, m1) ->
      s_vecRedisContext m1 !! i = Some k -> called (installed i c k m1) l' m' ->
      reattempted called i enterTime l 1 m l' m'
  | ra_gave_up m m1 :
      CreateRedisContext (connectTV (s_connectionConfig m)) m = Ok (None, m1) ->
      reattemptTime (s_connectionConfig m1) < s64 (fst (GetTimeMillisecond (net m1)) - enterTime) ->
      reattempted called i enterTime l 1 m l (set_net (snd (GetTimeMillisecond (net m1))) m1)
  | ra_again n m m1 l' m' :
      CreateRedisContext (connectTV (s_connectionConfig m)) m = Ok (None, m1) ->
      s64 (fst (GetTimeMillisecond (net m1)) - enterTime) <= reattemptTime (s_connectionConfig m1) ->
      reattempted called i enterTime l n
        (set_net (Sleep REATTEMPT_SLEEP_TIME (snd (GetTimeMillisecond (net m1)))) m1) l' m' ->
      reattempted called i enterTime l (S n) m l' m'.

Lemma on_net_eq {A} (f : world -> A * world) m :
  on_net f m = Ok (fst (f (net m)), set_net (snd (f (net m))) m).
Proof. unfold on_net, mget, mput, mret, M_ret, mbind, M_bind. by destruct (f (net m)). Qed.

(** The loop does what the relation says. *)
Lemma reattempt_loop_complete {L} (callFunc : nat -> L -> M RedisMgr (bool * L)) i enterTime l n m l' m' :
  reattempted (fun m l' m' => exists N, forall fuel, (N <= fuel)%nat -> callFunc fuel l m = Ok ((true, l'), m'))
    i enterTime l n m l' m' ->
  exists N, forall fuel fuel', (n <= fuel)%nat -> (N <= fuel')%nat ->
    reattempt_loop fuel i (callFunc fuel') enterTime l m = Ok (l', m').
Proof.
  induction 1 as [m c m1 k l' m' E1 Hk [N HN]|m m1 E1 Hl|n m m1 l' m' E1 Hl _ [N HN]].
  - exists N. intros [|fuel] fuel' Hf Hf'; [lia|]. cbn [reattempt_loop].
    rewrite (M_bind_Ok _ _ m m m), (M_bind_Ok _ _ _ _ _ E1) by done.
    rewrite (M_bind_Ok _ _ m1 (true, l') m'); [done|].
    rewrite (M_bind_Ok _ _ m1 k m1).
    2:{ unfold get_conn, mget, mlift, mbind, M_bind. by rewrite Hk. }
    rewrite (M_bind_Ok _ _ _ _ _ (on_net_eq _ _)). cbn [fst snd].
    unfold upd_conn, mmodify, mbind at 1, M_bind at 1. by apply HN.
  - exists 0%nat. intros [|fuel] fuel' Hf _; [lia|]. cbn [reattempt_loop].
    rewrite (M_bind_Ok _ _ m m m), (M_bind_Ok _ _ _ _ _ E1), (M_bind_Ok _ _ m1 (false, l) m1) by done.
    rewrite (M_bind_Ok _ _ _ _ _ (on_net_eq _ _)). cbn [fst snd].
    rewrite (M_bind_Ok _ _ (set_net _ m1) (set_net (snd (GetTimeMillisecond (net m1))) m1)
      (set_net (snd (GetTimeMillisecond (net m1))) m1)) by done. cbn [s_connectionConfig set_net].
    by rewrite (proj2 (Z.ltb_lt _ _) Hl).
  - exists N. intros [|fuel] fuel' Hf Hf'; [lia|]. cbn [reattempt_loop].
    rewrite (M_bind_Ok _ _ m m m), (M_bind_Ok _ _ _ _ _ E1), (M_bind_Ok _ _ m1 (false, l) m1) by done.
    rewrite (M_bind_Ok _ _ _ _ _ (on_net_eq _ _)). cbn [fst snd].
    rewrite (M_bind_Ok _ _ (set_net _ m1) (set_net (snd (GetTimeMillisecond (net m1))) m1)
      (set_net (snd (GetTimeMillisecond (net m1))) m1)) by done. cbn [s_connectionConfig set_net].
    rewrite (proj2 (Z.ltb_ge _ _) Hl), (M_bind_Ok _ _ _ _ _ (on_net_eq _ _)). cbn [fst snd net set_net].
    apply HN; lia.
Qed.

(** Connecting leaves the connections as they are. *)
Lemma CreateRedisContext_vec tv m c m1 : CreateRedisContext tv m = Ok (c, m1) ->
  s_vecRedisContext m1 = s_vecRedisContext m.
Proof.
  assert (Hp : preserves (fun s s' => s_vecRedisContext s' = s_vecRedisContext s) (CreateRedisContext tv)).
  { assert (PreOrder (fun s s' => s_vecRedisContext s' = s_vecRedisContext s)) by (split; congruence).
    assert (Hn : forall A (f : world -> A * world),
      preserves (fun s s' => s_vecRedisContext s' = s_vecRedisContext s) (on_net f)).
    { intros A f s a s'. rewrite on_net_eq. by intros [= _ <-]. }
    unfold CreateRedisContext. preserve_tac; apply Hn. }
  apply Hp.
Qed.

Lemma s64_le z : 0 <= z -> s64 z <= z.
Proof.
  intros Hz. unfold s64, swrap. pose proof (Z.mod_le (z + 2 ^ (64 - 1)) (2 ^ 64) ltac:(lia) ltac:(lia)). lia.
Qed.

(** The attempts end: one per second of the time limit and two more. *)
Lemma reattempted_exists {L} called i enterTime (l : L) n m :
  let R := reattemptTime (s_connectionConfig m) in
  (forall tv m0 c m1 k, CreateRedisContext tv m0 = Ok (Some c, m1) ->
     (i < length (s_vecRedisContext m1))%nat -> exists l' m', called (installed i c k m1) l' m') ->
  (i < length (s_vecRedisContext m))%nat -> R < 2 ^ 31 ->
  0 <= clock (net m) - enterTime <= 2 ^ 61 ->
  R - (clock (net m) - enterTime) < 1000 * (Z.of_nat n - 1) -> (0 < n)%nat ->
  exists n' l' m', (n' <= n)%nat /\ reattempted called i enterTime l n' m l' m'.
Proof.
  revert m. induction n as [|n IH]; intros m R Hc Hi HR31 Hclk Hn Hpos; [lia|].
  destruct (CreateRedisContext_ticks (connectTV (s_connectionConfig m)) m) as (c & m1 & E1 & [T1 F1 L1]).
  destruct c as [c|].
  { destruct (lookup_lt_is_Some_2 (s_vecRedisContext m1) i ltac:(lia)) as [k Hk].
    destruct (Hc _ _ _ _ k E1 ltac:(lia)) as (l' & m' & H). exists 1%nat, l', m'. split; [lia|].
    by eapply ra_connected. }
  pose proof (time_step (net m1)) as T2. pose proof (time_clock (net m1)) as V2.
  assert (Hs : s64 (fst (GetTimeMillisecond (net m1)) - enterTime) = clock (net m1) - enterTime).
  { rewrite V2. apply s64_small. unfold is_s64. lia. }
  destruct (Z.ltb_spec R (clock (net m1) - enterTime)) as [Hstop|Hgo].
  { exists 1%nat, l. eexists. split; [lia|]. eapply ra_gave_up; [exact E1|]. rewrite Hs, F1. exact Hstop. }
  pose proof (sleep_step REATTEMPT_SLEEP_TIME (snd (GetTimeMillisecond (net m1))) ltac:(done)) as T3.
  unfold REATTEMPT_SLEEP_TIME in T3. set (m2 := set_net (Sleep 1000 (snd (GetTimeMillisecond (net m1)))) m1).
  assert (Hcl : clock (net m2) = clock (Sleep 1000 (snd (GetTimeMillisecond (net m1))))) by done.
  destruct (IH m2) as (n' & l' & m' & Hle & H).
  - exact Hc.
  - cbn. lia.
  - unfold m2. cbn. rewrite F1. exact HR31.
  - rewrite Hcl. lia.
  - rewrite Hcl. unfold m2. cbn [s_connectionConfig set_net]. rewrite F1. fold R. lia.
  - lia.
  - exists (S n'), l', m'. split; [lia|]. eapply ra_again; [exact E1|by rewrite Hs, F1|exact H].
Qed.

(** *** One exchange ends, whatever an earlier one did to the builder *)

(** A builder that has been committed and perhaps sent: its length word counts
    at most the bytes of its command. *)
Definition sendable (b : RedisCmdBuilder) : Prop :=
  _commit b = true /\ exists pre payload len, sending (_cmd b) pre payload len /\
    0 <= len <= Z.of_nat (length payload) /\ Z.of_nat (length payload) < 2 ^ 31 /\
    _seek b = Z.of_nat (length pre) + 4.

Lemma sendable_committed b payload : committed b payload -> Z.of_nat (length payload) < 2 ^ 31 -> sendable b.
Proof.
  intros Hb Hl. split; [by apply (com_commit _ _ Hb)|].
  destruct (committed_sending b payload Hb) as (pre & Hs & Hk).
  exists pre, payload, (Z.of_nat (length payload)). split_and!; done || lia.
Qed.

Context {HL : SendLaws HR}.

Lemma write_loop_ends fuel pre payload len k c blk w :
  Z.of_nat (length payload) < 2 ^ 31 -> no_interrupt c -> 0 <= k -> 0 <= len ->
  k + len <= Z.of_nat (length payload) -> len < Z.of_nat fuel ->
  sending blk pre payload len -> obuf c = Z.of_nat (length pre) + 4 + k ->
  exists ret c' blk' w' len', write_loop fuel (Z.of_nat (length pre)) c blk w = Ok (ret, c', blk', w') /\
    sending blk' pre payload len' /\ 0 <= len' <= Z.of_nat (length payload).
Proof.
  intros HL31. revert len k c blk w. induction fuel as [|fuel IH]; intros len k c blk w Hint Hk Hl Hkl Hf Hblk Hob; [lia|].
  destruct (decide (len = 0)) as [->|Hne]; [|].
  { rewrite (write_loop_end _ _ _ _ _ _ Hblk). do 4 eexists. exists 0. split_and!; done || lia. }
  set (d := take (Z.to_nat len) (drop (Z.to_nat k) payload)).
  assert (Er : mem_read blk (obuf c) len = Some d).
  { unfold d. rewrite Hblk, Hob, mem_read_Some by (rewrite ?length_app, ?le32_length; lia).
    replace (Z.to_nat (Z.of_nat (length pre) + 4 + k)) with (length (pre ++ le32 len) + Z.to_nat k)%nat
      by (rewrite length_app, le32_length; lia).
    by rewrite app_assoc, <- drop_drop, drop_app_length. }
  assert (Hd : Z.of_nat (length d) = len) by (unfold d; rewrite length_take, length_drop; lia).
  destruct (send (fd c) d w) as [[n e] w1] eqn:Es.
  pose proof (send_count _ _ _ _ _ _ Es) as Hn.
  destruct (Z.ltb_spec n 0) as [Hneg|Hnn].
  { rewrite (write_loop_fail _ _ _ _ _ _ _ _ _ _ _ Hblk ltac:(lia) Er Es ltac:(lia) (Hint _ _ _ _ _ Es Hneg)).
    do 4 eexists. exists len. split_and!; done || lia. }
  assert (Hn0 : n <> 0) by (eapply send_progress; [exact Es|]; intros E0; rewrite E0 in Hd; cbn in Hd; lia).
  destruct (write_loop_send pre payload fuel _ _ _ _ _ _ _ _ Hblk ltac:(lia) Er Es) as (blk1 & Hblk1 & ->);
    [unfold is_s32; lia|unfold is_s32; lia|by destruct (Z.ltb_spec n 0); [lia|]|].
  apply (IH (len - n) (k + n)); try done; try lia. cbn [obuf set_obuf]. lia.
Qed.

Lemma redisGetReplyInner_reads N c blk want w e c1 blk1 w1 :
  redisBufferWriteInner N c blk w = Ok (e, c1, blk1, w1) ->
  (forall c w, exists e r c' w', reads_to c w e r c' w') ->
  exists N' ret r c2 w2, forall fuel, (N' <= fuel)%nat ->
    redisGetReplyInner fuel c blk want w = Ok (ret, r, c2, blk1, w2).
Proof.
  intros Ew Hreads. destruct (Z.eqb_spec e REDIS_ERR) as [->|He].
  { exists N. do 4 eexists. intros fuel Hf. unfold redisGetReplyInner. rewrite (writeInner_mono _ _ _ _ _ _ Ew Hf). reflexivity. }
  destruct (Hreads c1 w1) as (e2 & r & c2 & w2 & Hr). destruct (read_loop_complete _ _ _ _ _ _ Hr) as [N2 HN2].
  exists (N + N2)%nat. destruct r as [r|]; [destruct want|]; do 4 eexists; intros fuel Hf; unfold redisGetReplyInner;
    rewrite (writeInner_mono _ fuel _ _ _ _ Ew) by lia; cbn [mbind outcome_bind];
    rewrite (proj2 (Z.eqb_neq _ _) He), HN2 by lia; reflexivity.
Qed.

Lemma exchange_ends c b want w : sendable b -> no_interrupt c ->
  (forall c w, exists e r c' w', reads_to c w e r c' w') ->
  exists N ret r c' b' w', sendable b' /\
    forall fuel, (N <= fuel)%nat -> sendAndGetReply fuel c b want w = Ok (ret, r, c', b', w').
Proof.
  intros (Hc & pre & payload & len & Hs & Hl & HL31 & Hk) Hint Hreads.
  assert (Hw : exists N e c1 blk1 w1, redisBufferWriteInner N (set_obuf (_seek b) c) (_cmd b) w = Ok (e, c1, blk1, w1) /\
    sendable (set_cmd blk1 b)).
  { exists (S (length payload)). unfold redisBufferWriteInner. cbn [err set_obuf].
    destruct (err c =? 0); cbn [negb].
    2:{ do 4 eexists. split; [reflexivity|]. split; [done|]. by exists pre, payload, len. }
    cbn [obuf set_obuf].
    replace (_seek b - 4) with (Z.of_nat (length pre)) by lia.
    destruct (write_loop_ends (S (length payload)) pre payload len 0 (set_obuf (_seek b) c) (_cmd b) w)
      as (e & c1 & blk1 & w1 & len' & E & Hs' & Hl'); try done; try lia.
    { cbn [obuf set_obuf]. lia. }
    exists e, c1, blk1, w1. split; [exact E|]. split; [done|]. by exists pre, payload, len'. }
  destruct Hw as (N & e & c1 & blk1 & w1 & Ew & Hb1).
  destruct (redisGetReplyInner_reads N _ _ want _ _ _ _ _ Ew Hreads) as (N' & ret & r & c2 & w2 & H).
  exists N', ret, r, c2, (set_cmd blk1 b), w2. split; [exact Hb1|]. intros fuel Hf. unfold sendAndGetReply, IsCommit. rewrite Hc. cbn [negb].
  rewrite H by done. reflexivity.
Qed.

(** What the resend's callback does on a connection: one exchange, after which
    the loop stops, also when it failed. *)
Definition resent (i : nat) (want : bool) (l : option redisReply * RedisCmdBuilder)
    (m : RedisMgr) (l' : option redisReply * RedisCmdBuilder) (m' : RedisMgr) : Prop :=
  exists N ret r b', (forall fuel, (N <= fuel)%nat -> send_on fuel i (snd l) want m = Ok ((ret, r, b'), m')) /\
    sendable b' /\ l' = (match r with Some r => Some r | None => fst l end, b').

Lemma resend_cmd_stops i want l m l' m' : resent i want l m l' m' ->
  exists N, forall fuel, (N <= fuel)%nat -> resend_cmd fuel i want l m = Ok ((true, l'), m').
Proof.
  intros (N & ret & r & b' & H & _ & ->). exists N. intros fuel Hf. unfold resend_cmd.
  rewrite (M_bind_Ok _ _ _ _ _ (H fuel Hf)). specialize (H N (le_n N)).
  rewrite send_on_unfold in H. destruct (s_vecRedisContext m !! i) as [k|]; [|done].
  destruct (sendAndGetReply N (ctx k) _ _ _) as [[[[[ret' r'] c'] b''] w']| |] eqn:E;
    cbn [mbind outcome_bind] in H; [|done..]. injection H as -> -> -> _.
  apply sendAndGetReply_code in E. by rewrite (ok_or_err_io _ E).
Qed.

Lemma reattempted_impl {L} (P Q : RedisMgr -> L -> RedisMgr -> Prop) i enterTime l n m l' m' :
  (forall m l' m', P m l' m' -> Q m l' m') ->
  reattempted P i enterTime l n m l' m' -> reattempted Q i enterTime l n m l' m'.
Proof.
  intros HPQ. induction 1; [eapply ra_connected|eapply ra_gave_up|eapply ra_again]; eauto.
Qed.

(** The connections at the end of the attempts. *)
Lemma reattempted_result {L} called i enterTime (l : L) n m l' m' :
  reattempted called i enterTime l n m l' m' ->
  (l' = l /\ s_vecRedisContext m' = s_vecRedisContext m /\
   exists m1, s_connectionConfig m1 = s_connectionConfig m /\
     reattemptTime (s_connectionConfig m1) < s64 (clock (net m1) - enterTime) /\
     clock (net m) <= clock (net m1) <= clock (net m')) \/
  (exists tv m0 c m1 k, CreateRedisContext tv m0 = Ok (Some c, m1) /\
     s_vecRedisContext m1 = s_vecRedisContext m /\ s_vecRedisContext m !! i = Some k /\
     called (installed i c k m1) l' m').
Proof.
  induction 1 as [m c m1 k l' m' E1 Hk H|m m1 E1 Hl|n m m1 l' m' E1 Hl _ IH];
    pose proof (CreateRedisContext_vec _ _ _ _ E1) as V1.
  - right. exists (connectTV (s_connectionConfig m)), m, c, m1, k. rewrite <- V1. by split_and!.
  - left. destruct (CreateRedisContext_ticks (connectTV (s_connectionConfig m)) m) as (c & m2 & E2 & [C2 F2 _]).
    rewrite E1 in E2. injection E2 as _ <-. rewrite time_clock in Hl. split_and!; [done|done|].
    exists m1. pose proof (time_step (net m1)). split_and!; [done|done|lia|cbn; lia].
  - destruct (CreateRedisContext_ticks (connectTV (s_connectionConfig m)) m) as (c & m2 & E2 & [C2 F2 _]).
    rewrite E1 in E2. injection E2 as _ <-. cbn [s_vecRedisContext set_net s_connectionConfig] in IH.
    rewrite V1, F2 in IH. destruct IH as [(-> & Hv & mx & Fx & Rx & Cx)|IH]; [left|by right].
    split_and!; [done|done|]. exists mx. split_and!; [done|done| |lia].
    pose proof (time_step (net m1)) as T1.
    pose proof (sleep_step REATTEMPT_SLEEP_TIME (snd (GetTimeMillisecond (net m1))) ltac:(done)) as T2.
    unfold REATTEMPT_SLEEP_TIME in *. cbn [net set_net] in Cx. lia.
Qed.

End Reconnect.

(** ** Pipelines *)

Section Pipeline.
Context {HR : Hiredis} {HL : SendLaws HR} {HE : RedisEnv}.

Lemma no_interrupt_same c c' : fd c' = fd c -> flags c' = flags c -> no_interrupt c -> no_interrupt c'.
Proof. unfold no_interrupt, retryable. intros -> ->. done. Qed.

Definition fits (fuel : nat) (payload : bytes) : Prop :=
  Z.of_nat (length payload) < 2 ^ 31 /\ (length payload < fuel)%nat.

Lemma writable_obuf c b payload fuel : committed b payload -> fits fuel payload ->
  no_interrupt c -> err c = 0 -> writable (set_obuf (_seek b) c) b payload fuel.
Proof. intros Hb [? ?] Hn He. constructor; try done. lia. Qed.

Lemma fits_mono fuel fuel' p : fits fuel p -> (fuel <= fuel')%nat -> fits fuel' p.
Proof. intros [? ?] ?. split; [done|lia]. Qed.

(** Writing a pipeline: a prefix of the commands, in order. *)
Lemma pipeline_write_delivers fuel bs ps c w :
  Forall2 committed bs ps -> Forall (fits fuel) ps -> no_interrupt c -> err c = 0 ->
  exists ok c' bs' w' k,
    (forall fuel', (fuel <= fuel')%nat -> pipeline_write fuel' c bs w = Ok (ok, c', bs', w')) /\
    wire w' = wire w ++ take k (concat ps) /\ rd c' = rd c /\
    (ok = true /\ k = length (concat ps) /\ err c' = 0 \/
     ok = false /\ (k < length (concat ps))%nat /\ err c' = REDIS_ERR_IO).
Proof.
  intros Hb. revert c w. induction Hb as [|b p bs ps Hb Hbs IH]; intros c w Hps Hn He.
  { exists true, c, [], w, 0%nat. split_and!; [done|by rewrite app_nil_r|done|by left]. }
  apply Forall_cons in Hps as [Hp Hps].
  destruct (writeInner_delivers fuel b p (set_obuf (_seek b) c) w) as
    (pre & ret & c1 & blk1 & w1 & k & E & [Hk Hwire _ (Hfd & Hfl & Hrd) Hret]);
    [by apply writable_obuf|].
  rewrite Z.sub_0_r in Hwire. change (Z.to_nat 0) with 0%nat in Hwire. rewrite drop_0 in Hwire.
  cbn [fd flags rd err set_obuf] in *.
  assert (Ew : forall fuel', (fuel <= fuel')%nat ->
    redisBufferWriteInner fuel' (set_obuf (_seek b) c) (_cmd b) w = Ok (ret, c1, blk1, w1)).
  { intros fuel' Hf. by eapply writeInner_mono. }
  cbn [pipeline_write concat]. unfold IsCommit. rewrite (com_commit _ _ Hb). cbn [negb].
  destruct Hret as [(-> & -> & He1)|(-> & Hlt & He1)].
  - rewrite Nat2Z.id, firstn_all in Hwire. rewrite He in He1.
    destruct (IH c1 w1 Hps ltac:(by eapply no_interrupt_same) He1) as
      (ok & c2 & bs2 & w2 & k2 & E2 & Hw2 & Hrd2 & Hres).
    exists ok, c2, (set_cmd blk1 b :: bs2), w2, (length p + k2)%nat. split.
    { intros fuel' Hf. rewrite Ew by done. cbn [mbind outcome_bind Z.eqb REDIS_OK REDIS_ERR].
      by rewrite E2. }
    split; [by rewrite Hw2, Hwire, <- app_assoc, take_app_add|].
    split; [congruence|]. rewrite length_app.
    destruct Hres as [(-> & -> & ?)|(-> & ? & ?)]; [left|right]; split_and!; done || lia.
  - exists false, c1, (set_cmd blk1 b :: bs), w1, (Z.to_nat k). split.
    { intros fuel' Hf. rewrite Ew by done. done. }
    rewrite length_app, take_app_le by lia. split; [done|]. split; [done|].
    right. split_and!; [done|lia|done].
Qed.

(** What collecting [n] replies leads to: replies still buffered by the
    reader are taken without a read. *)
Inductive collects : nat -> redisContext reader -> world ->
    list redisReply -> Z -> redisContext reader -> world -> Prop :=
  | col_done c w : collects 0 c w [] REDIS_OK c w
  | col_error n c w r c1 w1 :
      redisGetReplyFromReader c w = (REDIS_ERR, r, c1, w1) -> collects (S n) c w [] REDIS_ERR c1 w1
  | col_buffered n c w e r c1 w1 rs e' c' w' :
      redisGetReplyFromReader c w = (e, Some r, c1, w1) -> e <> REDIS_ERR ->
      collects n c1 w1 rs e' c' w' -> collects (S n) c w (r :: rs) e' c' w'
  | col_read n c w e c1 w1 r c2 w2 rs e' c' w' :
      redisGetReplyFromReader c w = (e, None, c1, w1) -> e <> REDIS_ERR ->
      reads_to c1 w1 REDIS_OK (Some r) c2 w2 ->
      collects n c2 w2 rs e' c' w' -> collects (S n) c w (r :: rs) e' c' w'
  | col_read_error n c w e c1 w1 c2 w2 :
      redisGetReplyFromReader c w = (e, None, c1, w1) -> e <> REDIS_ERR ->
      reads_to c1 w1 REDIS_ERR None c2 w2 -> collects (S n) c w [] REDIS_ERR c2 w2.

Lemma pipeline_read_complete n c w rs e c' w' : collects n c w rs e c' w' ->
  exists N, forall fuel acc, (N <= fuel)%nat ->
    pipeline_read fuel n c acc w = Ok (e, acc ++ rs, c', w').
Proof.
  induction 1 as [c w|n c w r c1 w1 E|n c w e r c1 w1 rs e' c' w' E He _ [N IH]|
    n c w e c1 w1 r c2 w2 rs e' c' w' E He Hr _ [N IH]|n c w e c1 w1 c2 w2 E He Hr].
  - exists 0%nat. intros fuel acc _. cbn. by rewrite app_nil_r.
  - exists 0%nat. intros fuel acc _. cbn [pipeline_read]. rewrite E. cbn. by rewrite app_nil_r.
  - exists N. intros fuel acc HN. cbn [pipeline_read]. rewrite E, (proj2 (Z.eqb_neq e REDIS_ERR) He).
    rewrite IH by done. by rewrite <- app_assoc.
  - destruct (read_loop_complete _ _ _ _ _ _ Hr) as [N' HN']. exists (N + N')%nat.
    intros fuel acc HN. cbn [pipeline_read]. rewrite E, (proj2 (Z.eqb_neq e REDIS_ERR) He).
    rewrite HN' by lia. cbn [mbind outcome_bind REDIS_OK REDIS_ERR Z.eqb].
    rewrite IH by lia. by rewrite <- app_assoc.
  - destruct (read_loop_complete _ _ _ _ _ _ Hr) as [N' HN']. exists N'.
    intros fuel acc HN. cbn [pipeline_read]. rewrite E, (proj2 (Z.eqb_neq e REDIS_ERR) He).
    rewrite HN' by lia. cbn. by rewrite app_nil_r.
Qed.

Lemma collects_result n c w rs e c' w' : collects n c w rs e c' w' ->
  wire w' = wire w /\ (e = REDIS_OK /\ length rs = n \/ e = REDIS_ERR /\ (length rs < n)%nat).
Proof.
  induction 1 as [c w|n c w r c1 w1 E|n c w e r c1 w1 rs e' c' w' E He _ [Hw IH]|
    n c w e c1 w1 r c2 w2 rs e' c' w' E He [Hw2 _]%reads_to_result _ [Hw IH]|
    n c w e c1 w1 c2 w2 E He [Hw2 _]%reads_to_result];
    try apply reply_wire in E; cbn [length].
  - split; [done|by left].
  - split; [done|right; split; [done|lia]].
  - split; [congruence|]. destruct IH as [[-> ?]|[-> ?]]; [left|right]; split; done || lia.
  - split; [congruence|]. destruct IH as [[-> ?]|[-> ?]]; [left|right]; split; done || lia.
  - split; [congruence|]. right; split; [done|lia].
Qed.

(** C24: A pipeline of committed commands: either a write fails, a proper
    prefix of the concatenated commands is on the wire and no reply is read;
    or all commands are on the wire in order, and if collecting leads to a
    result then enough fuel gives it: [REDIS_OK] exactly with one reply per
    command, in order, after those the caller had. *)
Theorem pipeline_exchange fuel bs ps c acc w :
  Forall2 committed bs ps -> Forall (fits fuel) ps -> no_interrupt c -> err c = 0 ->
  Z.of_nat (length bs) < 2 ^ 31 ->
  (exists c1 bs1 w1 k, (k < length (concat ps))%nat /\ wire w1 = wire w ++ take k (concat ps) /\
    forall fuel', (fuel <= fuel')%nat ->
      pipelineSendAndGetReply fuel' c bs acc w = Ok (REDIS_ERR, acc, c1, bs1, w1)) \/
  (exists c1 bs1 w1, wire w1 = wire w ++ concat ps /\
    forall rs e c2 w2, collects (length bs) c1 w1 rs e c2 w2 ->
    (e = REDIS_OK <-> length rs = length bs) /\ wire w2 = wire w ++ concat ps /\
    exists N, forall fuel', (N <= fuel')%nat ->
      pipelineSendAndGetReply fuel' c bs acc w = Ok (e, acc ++ rs, c2, bs1, w2)).
Proof.
  intros Hb Hps Hn He Hlen.
  destruct (pipeline_write_delivers fuel bs ps c w Hb Hps Hn He) as
    (ok & c1 & bs1 & w1 & k & E & Hw & _ & [(-> & -> & _)|(-> & Hk & _)]); [right|left].
  - exists c1, bs1, w1. rewrite firstn_all in Hw. split; [done|]. intros rs e c2 w2 Hc.
    destruct (collects_result _ _ _ _ _ _ _ Hc) as [Hw2 Hres]. split.
    { unfold REDIS_OK, REDIS_ERR in *. destruct Hres as [[-> ?]|[-> ?]]; [done|].
      split; [done|lia]. }
    split; [congruence|]. destruct (pipeline_read_complete _ _ _ _ _ _ _ Hc) as [N HN].
    exists (N + fuel)%nat. intros fuel' Hf. unfold pipelineSendAndGetReply.
    rewrite s32_small by (unfold is_s32; lia). rewrite E by lia. cbn [mbind outcome_bind negb].
    rewrite Nat2Z.id, HN by lia. done.
  - exists c1, bs1, w1, k. split_and!; [done|done|]. intros fuel' Hf.
    unfold pipelineSendAndGetReply. by rewrite E.
Qed.
End Pipeline.

(** ** Asynchronous tasks *)

Section Async.
Context {HR : Hiredis} {HE : RedisEnv}.

(** Executing one batch and freeing its replies. *)
Definition run_batch (fuel : nat) (t : Z) (bs : list RedisCmdBuilder) : M RedisMgr () :=
  '(_, vecReply, _) ← batchExecCmd fuel t bs [] true;
  on_net (fun w => (tt, foldl (fun w r => freeReplyObject r w) w vecReply)).

Fixpoint run_batches (fuel : nat) (t : Z) (css : list (list RedisCmdBuilder)) : M RedisMgr () :=
  match css with
  | [] => mret tt
  | bs :: css' => run_batch fuel t bs;; run_batches fuel t css'
  end.

Lemma exec_batches_chunks t head vec : (length vec < 16)%nat -> (head = [] -> vec = []) ->
  exists css, concat css = vec ++ head /\
    Forall (fun bs => (0 < length bs <= 16)%nat) css /\
    (16 * length css < length (vec ++ head) + 16)%nat /\
    forall fuel m, exec_batches fuel t head vec m = run_batches fuel t css m.
Proof.
  revert vec. induction head as [|b head IH]; intros vec Hv Hnil.
  { exists []. rewrite Hnil by done. split_and!; [done|constructor|cbn; lia|done]. }
  assert (Hlen : length (vec ++ [b]) = S (length vec)) by (rewrite length_app; cbn; lia).
  destruct ((Z.of_nat (length (vec ++ [b])) =? REDIS_ASYNC_BATCH_CMD_COUNT) || bool_decide (head = [])) eqn:Ec.
  - assert (Hc : length (vec ++ [b]) = 16%nat \/ head = []).
    { apply orb_true_iff in Ec as [Ec|Ec%bool_decide_eq_true]; [left|by right].
      apply Z.eqb_eq in Ec. unfold REDIS_ASYNC_BATCH_CMD_COUNT in Ec. lia. }
    destruct (IH [] ltac:(cbn; lia) ltac:(done)) as (css & E1 & E2 & E3 & E4).
    exists ((vec ++ [b]) :: css). cbn [concat run_batches length]. rewrite E1. cbn [app].
    split; [by rewrite <- app_assoc|]. split; [constructor; [lia|done]|]. split.
    + cbn [app] in E3. rewrite length_app. cbn [length]. destruct Hc as [Hc| ->]; [lia|cbn in *; lia].
    + intros fuel m. cbn [exec_batches]. rewrite Ec. unfold run_batch, mbind, M_bind. destruct (batchExecCmd _ _ _ _ _ m) as [[[[? rs] ?] m1]| |]; [|done..].
      destruct (on_net _ m1) as [[? m2]| |]; [|done..]. apply E4.
  - apply orb_false_iff in Ec as [Ec Ene%bool_decide_eq_false].
    apply Z.eqb_neq in Ec. pose proof Ec as Ec'. unfold REDIS_ASYNC_BATCH_CMD_COUNT in Ec.
    destruct (IH (vec ++ [b]) ltac:(lia) ltac:(done)) as (css & E1 & E2 & E3 & E4).
    rewrite <- app_assoc in E1, E3. exists css. split_and!; [done..|].
    intros fuel m. cbn [exec_batches]. rewrite (proj2 (orb_false_iff _ _) (conj (proj2 (Z.eqb_neq _ _) Ec') (bool_decide_eq_false_2 _ Ene))). apply E4.
Qed.

(** C25: Running the queued task of connection [i] takes all its pending
    commands and executes them in the order [cutList] gives, cut into
    pipelines of at most sixteen, as few as possible; then the task counts
    as not posted.  The pipelines are executed on the connection of the
    thread [_threadIdx] names, which is not connection [i] in general. *)
Theorem OnExecRedisTask_batches fuel i k m : s_vecRedisContext m !! i = Some k ->
  exists css, concat css = cutList (_threadCmdList k) /\
    Forall (fun bs => (0 < length bs <= 16)%nat) css /\
    (16 * length css < length (cutList (_threadCmdList k)) + 16)%nat /\
    OnExecRedisTask fuel i m =
      (upd_conn i (set_cmds []);; run_batches fuel (_threadIdx k) css;; upd_conn i (set_post false)) m.
Proof.
  intros Hk. destruct (exec_batches_chunks (_threadIdx k) (cutList (_threadCmdList k)) [])
    as (css & E1 & E2 & E3 & E4); [cbn; lia|done|]. exists css. split_and!; [done..|].
  unfold OnExecRedisTask. rewrite (M_bind_Ok _ _ m k m).
  2:{ unfold get_conn, mget, mlift, mbind, M_bind. by rewrite Hk. }
  apply M_bind_ext. intros [] m1. unfold mbind at 1 2, M_bind at 1 2. by rewrite E4.
Qed.

(** What adding a task changes. *)
Lemma addAsyncTask_effect taskId b m : mgr_ok m ->
  exists k m', let i := Z.to_nat ((taskId mod 2 ^ 64) mod s_connectNum m + 1) in
    s_vecRedisContext m !! i = Some k /\ addAsyncTask taskId b m = Ok (tt, m') /\
    s_vecRedisContext m' = <[i := set_post false
      (set_handler (Some (default (RedisTaskHandler i) (_redisTaskHandler k)))
         (set_cmds (insertHead (_threadCmdList k) b) k))]> (s_vecRedisContext m) /\
    started m' = started m /\ net m' = net m.
Proof.
  intros Hm. destruct (GetRedisConnectionInAsync_spec taskId m Hm) as [Ei Hb].
  set (i := Z.to_nat ((taskId mod 2 ^ 64) mod s_connectNum m + 1)) in *.
  destruct (lookup_lt_is_Some_2 (s_vecRedisContext m) i ltac:(destruct Hm; lia)) as [k Hk].
  exists k. eexists. split; [exact Hk|]. unfold addAsyncTask. rewrite (M_bind_Ok _ _ _ _ _ Ei).
  unfold upd_conn, mmodify, mret, M_ret, mbind, M_bind. split; [reflexivity|].
  cbn [s_vecRedisContext set_vec started net]. split; [|done].
  apply list_eq. intros j. destruct (decide (i = j)) as [<-|Hj].
  - rewrite !list_lookup_alter_eq, list_lookup_insert_eq by (by eapply lookup_lt_Some). rewrite Hk. cbn.
    destruct k as [? ? ? h ? ? ? ? ?]. by destruct h.
  - by rewrite !list_lookup_alter_ne, list_lookup_insert_ne.
Qed.

End Async.

(** ** Witnesses *)

Module MgrExample.
Definition lib := Scripted.lib false.
Definition env3 := ScriptedEnv.env 3 [].
#[local] Existing Instances lib env3.

(** A manager with three thread connections. *)
Definition mgr3 : RedisMgr :=
  state_of (mgr_start (ScriptedEnv.accepting []))
    (Initialize (mgr_start (ScriptedEnv.accepting []))).

Lemma init3_ok : Initialize (mgr_start (ScriptedEnv.accepting [])) = Ok (true, mgr3).
Proof. apply is_true_result_state. vm_compute. reflexivity. Qed.

Lemma mgr3_ok : mgr_ok mgr3.
Proof. split; [split; by vm_compute|by vm_compute]. Qed.

(** With a password, and a server that accepts it. *)
Definition mgr_pw : RedisMgr :=
  mkMgr (mkConfig (lit "127.0.0.1") 6379 3 (3, 0) (lit "secret") 0) [] 0 false [] []
    (Scripted.mkState [] [] [] [Some (status_reply (lit "OK"))] 0 0 1).

(** Managers with a time limit, on a server that accepts connections and
    answers once, and on one that refuses every connection. *)
Definition mgr_slow : RedisMgr :=
  set_net (ScriptedEnv.accepting [None; Some (string_reply (lit "v"))])
    (set_config (mkConfig (lit "127.0.0.1") 6379 3 (3, 0) [] 2500) mgr3).
Definition mgr_refused : RedisMgr := set_net (Scripted.world_of []) mgr_slow.

(** The library gives blocking contexts only, and its reads end. *)
Lemma fresh_only tv m0 c m1 : CreateRedisContext tv m0 = Ok (Some c, m1) -> c = Scripted.fresh.
Proof.
  unfold CreateRedisContext. intros (m & ? & [= <- <-] & (oc & m2 & E1 & H)%M_bind_inv)%M_bind_inv.
  rewrite on_net_eq in E1. injection E1 as E1 E2. cbn in E1. unfold Scripted.ConnectWithTimeout in E1.
  destruct oc as [c1|]; [|done].
  assert (c1 = Scripted.fresh) as -> by (destruct (Scripted.accepts (net m0)); cbn in E1; congruence).
  cbn [negb err Scripted.fresh Z.eqb] in H. case_bool_decide; [unfold mret, M_ret in H; congruence|].
  apply M_bind_inv in H as ([reply c2] & m3 & E3 & H). rewrite on_net_eq in E3. injection E3 as E3 _.
  assert (c2 = Scripted.fresh) as ->.
  { cbn in E3. unfold Scripted.Command in E3. destruct (Scripted.accepts (net m2)); cbn in E3; congruence. }
  destruct reply as [r|]; [destruct (negb _)|]; try (unfold mret, M_ret in H; congruence).
  all: apply M_bind_inv in H as ([] & m4 & _ & H); unfold mret, M_ret in H; congruence.
Qed.

Lemma scripted_reads_end (c : redisContext (@reader lib)) (w : @world lib) :
  exists e r c' w', reads_to c w e r c' w'.
Proof.
  remember (Scripted.inbox w) as l eqn:E. symmetry in E. revert c w E.
  induction l as [|[r|] l IH]; intros c w E.
  - exists REDIS_ERR, None. do 2 eexists. apply reads_error. cbn. unfold Scripted.BufferRead.
    rewrite E. reflexivity.
  - assert (Hg : exists r0 rs, (rd c : list redisReply) ++ [r] = r0 :: rs).
    { destruct (rd c : list redisReply) as [|r0 rs]; cbn; eauto. }
    destruct Hg as (r0 & rs & Er). exists REDIS_OK, (Some r0). do 2 eexists. eapply reads_reply.
    + cbn. unfold Scripted.BufferRead. rewrite E. reflexivity.
    + done.
    + cbn. unfold Scripted.GetReplyFromReader. cbn [rd]. change (@rd (@reader lib) c) with (@rd (list redisReply) c) in *.
      rewrite Er. reflexivity.
    + done.
  - set (w1 := Scripted.mkState (Scripted.sent w) (Scripted.sends w) l (Scripted.accepts w)
      (Scripted.freed w) (Scripted.now w) (Scripted.tick w)).
    assert (E1 : @redisBufferRead lib c w = (REDIS_OK, c, w1)).
    { cbn. unfold Scripted.BufferRead. by rewrite E. }
    destruct (rd c : list redisReply) as [|r0 rs] eqn:Er.
    + assert (E2 : @redisGetReplyFromReader lib c w1 = (REDIS_OK, None, c, w1)).
      { cbn. unfold Scripted.GetReplyFromReader.
        change (@rd (@reader lib) c) with (@rd (list redisReply) c) in *. by rewrite Er. }
      destruct (IH c w1 eq_refl) as (e & r & c' & w' & H). exists e, r, c', w'.
      by eapply reads_more; [exact E1| |exact E2| |exact H].
    + set (c2 := mkContext (err c) (errstr c) (fd c) (flags c) (obuf c) rs : redisContext (@reader lib)).
      assert (E2 : @redisGetReplyFromReader lib c w1 = (REDIS_OK, Some r0, c2, w1)).
      { cbn. unfold Scripted.GetReplyFromReader.
        change (@rd (@reader lib) c) with (@rd (list redisReply) c) in *. by rewrite Er. }
      exists REDIS_OK, (Some r0), c2, w1. by eapply reads_reply; [exact E1| |exact E2|].
Qed.
End MgrExample.
Import MgrExample.

Lemma connection_in_bounds_witness :
  @GetRedisConnection lib env3 (-7) mgr3 = Ok (1%nat, mgr3) /\
  @GetRedisConnectionInAsync lib env3 (-1) mgr3 = Ok (1%nat, mgr3).
Proof.
  destruct (@connection_in_bounds lib env3 (-7) (-1) mgr3) as [H _].
  destruct (H mgr3_ok) as [(i & E1 & _ & V1) (j & E2 & _ & V2)]; [split; done|split; done|].
  assert (i = 1%nat) as -> by (apply Nat2Z.inj; rewrite V1; vm_compute; reflexivity).
  assert (j = 1%nat) as -> by (apply Nat2Z.inj; rewrite V2; vm_compute; reflexivity).
  by split.
Defined.

Lemma CreateRedisContext_auth_inverted_witness : exists m,
  @CreateRedisContext lib env3 (3, 0) mgr_pw = Ok (None, m).
Proof.
  destruct (@CreateRedisContext_auth_inverted lib env3 (3, 0) mgr_pw Scripted.fresh
    (net mgr_pw) (Some (status_reply (lit "OK"))) Scripted.fresh
    (Scripted.mkState [] [] [] [] 0 0 1)) as [[(r & [= <-] & E) _]|[_ E]].
  - discriminate.
  - reflexivity.
  - reflexivity.
  - reflexivity.
  - discriminate E.
  - by eexists.
Defined.


(** What the two managers come to: the reply of the new connection, and
    nothing after four attempts. *)
Example reconnected :
  match @execTaskByTimeOut lib env3 _ 4 1 (resend_cmd 60 1 true) (None, WireExample.sent_cmd) mgr_slow with
  | Ok ((r, _), m) => r = Some (string_reply (lit "v")) /\
      Scripted.sent (net m) = WireExample.get_xuping
  | _ => False
  end /\
  match @execTaskByTimeOut lib env3 _ 4 1 (resend_cmd 60 1 true) (None, WireExample.sent_cmd) mgr_refused with
  | Ok ((r, b), m) => r = None /\ b = WireExample.sent_cmd /\ Scripted.now (net m) = 3005
  | _ => False
  end.
Proof. vm_compute. by split_and!. Qed.

Lemma resend_never_happens_witness : exists r b m,
  @execCmd lib env3 60 0 WireExample.sent_cmd true true mgr3 = Ok ((0, r, b), m).
Proof.
  destruct (@resend_never_happens lib env3 60 0 WireExample.sent_cmd true [] [] mgr3) as (_ & _ & H & _).
  destruct (is_ok_ex (@execCmd lib env3 60 0 WireExample.sent_cmd true true mgr3)) as [[[[code r] b] m] E];
    [vm_compute; reflexivity|].
  pose proof (H true code r b m E) as ->. exists r, b, m. exact E.
Defined.

(** Two commands, the first answered and the second not. *)
Definition two_commands : list RedisCmdBuilder := [WireExample.sent_cmd; WireExample.sent_cmd].

Lemma no_interrupt_fresh : @no_interrupt lib Scripted.fresh.
Proof. exact (@wr_interrupt lib _ _ _ _ (WireExample.ctx_writable 60 ltac:(lia))). Qed.

Lemma pipeline_exchange_witness :
  exists c1 bs1 w1, @wire lib _ w1 = WireExample.get_xuping ++ WireExample.get_xuping /\
  (forall rs e c2 w2, @collects lib 2 c1 w1 rs e c2 w2 -> exists N, forall fuel, (N <= fuel)%nat ->
     @pipelineSendAndGetReply lib fuel Scripted.fresh two_commands [] (Scripted.world_of []) =
       Ok (e, rs, c2, bs1, w2)).
Proof.
  destruct (@pipeline_exchange lib _ 60 two_commands [WireExample.get_xuping; WireExample.get_xuping]
    Scripted.fresh [] (Scripted.world_of [])) as [(c1 & bs1 & w1 & k & Hk & Hw & E)|(c1 & bs1 & w1 & Hw & H)].
  - repeat constructor; apply WireExample.sent_cmd_committed.
  - repeat constructor.
  - exact no_interrupt_fresh.
  - reflexivity.
  - reflexivity.
  - exfalso. specialize (E 60%nat (le_n _)).
    assert (Hs : match @pipelineSendAndGetReply lib 60 Scripted.fresh two_commands [] (Scripted.world_of []) with
                 | Ok r => length (Scripted.sent (snd r)) = 50%nat
                 | _ => False
                 end) by (vm_compute; reflexivity).
    rewrite E in Hs. cbn [snd] in Hs. cbn in Hw. rewrite Hw, length_take in Hs.
    assert (Hlen : length (concat [WireExample.get_xuping; WireExample.get_xuping]) = 50%nat) by reflexivity.
    rewrite Hlen in Hk. cbn [length app] in Hs. lia.
  - exists c1, bs1, w1. split; [exact Hw|]. intros rs e c2 w2 Hc. apply (H rs e c2 w2 Hc).
Defined.

(** Seventeen commands on connection 1: two pipelines. *)
Definition mgr_busy : @RedisMgr lib env3 :=
  set_vec (alter (set_cmds (replicate 17 WireExample.sent_cmd)) 1%nat (s_vecRedisContext mgr3)) mgr3.

Lemma OnExecRedisTask_batches_witness : exists k css, s_vecRedisContext mgr_busy !! 1%nat = Some k /\
  concat css = replicate 17 WireExample.sent_cmd /\ (length css <= 2)%nat /\
  @OnExecRedisTask lib env3 60 1 mgr_busy =
    (upd_conn 1 (set_cmds []);; run_batches 60 (_threadIdx k) css;; upd_conn 1 (set_post false)) mgr_busy.
Proof.
  destruct (lookup_lt_is_Some_2 (s_vecRedisContext mgr3) 1%nat) as [k0 Hk0];
    [vm_compute; repeat constructor|].
  set (k := set_cmds (replicate 17 WireExample.sent_cmd) k0).
  assert (Hk : s_vecRedisContext mgr_busy !! 1%nat = Some k).
  { unfold mgr_busy. cbn [s_vecRedisContext set_vec]. by rewrite list_lookup_alter_eq, Hk0. }
  destruct (@OnExecRedisTask_batches lib env3 60 1 k mgr_busy Hk) as (css & E1 & _ & E3 & E4).
  assert (Hc : _threadCmdList k = replicate 17 WireExample.sent_cmd) by reflexivity.
  change (cutList (_threadCmdList k)) with (_threadCmdList k) in E1, E3. rewrite Hc in E1, E3.
  rewrite length_replicate in E3. exists k, css. split_and!; [done|exact E1|lia|exact E4].
Defined.
