(* ===== verification/RedisSync.v ===== *)
(** * The synchronous Redis commands (RedisMgr/RedisSyncCall.h, RedisSyncCall.cpp)

    Every method builds a command, sends it on the connection of the calling
    thread and reads its results out of the reply.  A method is a definition of
    the same name; a C++ reference parameter that the method sets is an
    argument (its value before) and a component of the result (its value
    after), next to the returned code.  Overloads on a vector have the suffix
    [_vec]. *)
From Stdlib Require Import ZArith Lia Ascii.
From stdpp Require Import base numbers list list_numbers strings.
From S2P Require Import Prelude Kernel Resp Hiredis RedisHelper RedisWire RedisProfile RedisMgr.
Open Scope Z_scope.

(** [enum REDIS_RESULT_CODE] and [enum SetCmdOptionType] (Interface/IRedisMgr.h). *)
Definition REDIS_RESULT_NODATA : Z := -999.
Definition REDIS_RESULT_TIMEOUT : Z := -1.
Definition REDIS_RESULT_OK : Z := 0.

Inductive SetCmdOptionType : Type :=
  | SetCmdOptionType_None
  | SetCmdOptionType_XX
  | SetCmdOptionType_NX.

#[export] Instance SetCmdOptionType_eq_dec : EqDecision SetCmdOptionType.
Proof. solve_decision. Defined.

(** The builder's stream operators: a literal, a string, a number. *)
Notation "b <<c s" := (push_cstr b (lit s)) (at level 50, left associativity) : seed_scope.
Notation "b <<s s" := (push_string b s) (at level 50, left associativity) : seed_scope.
Notation "b <<n z" := (push_num b z) (at level 50, left associativity) : seed_scope.
Notation "b <<* l" := (foldl push_string b l) (at level 50, left associativity) : seed_scope.
#[local] Open Scope seed_scope.

(** [for (const auto &iter : m) cmdBuilder << iter.first << iter.second]. *)
Definition push_map (b : RedisCmdBuilder) (m : StringMap) : RedisCmdBuilder :=
  foldl (fun b p => b <<s fst p <<s snd p) b m.

Section Sync.
Context {HR : Hiredis} {HE : RedisEnv}.
Variable fuel : nat.

(** [RedisResult result(reply)] with the code [f] that uses it: the
    destructor frees the reply when the scope is left. *)
Definition with_result {A} (reply : option redisReply) (f : redisReply -> outcome A) (none : A)
    : M RedisMgr A :=
  match reply with
  | Some r => a ← mlift (f r); on_net (fun w => (tt, freeReplyObject r w));; mret a
  | None => mret none
  end.

(** What a method does with its builder: commit it and execute it. *)
Definition exec (cmdBuilder : RedisCmdBuilder) (threadIdx : Z) (want reSend : bool)
    : M RedisMgr (Z * option redisReply) :=
  cmdBuilder ← mlift (Commit cmdBuilder);
  '(ret, reply, _) ← execCmd fuel threadIdx cmdBuilder want reSend;
  mret (ret, reply).

(** ** Keys *)

Definition Del (strKey : bytes) (threadIdx : Z) : M RedisMgr (Z * bool) :=
  RecordExecKey threadIdx strKey;;
  '(ret, reply) ← exec (builder_new <<c "DEL" <<s strKey) threadIdx true true;
  with_result reply (fun result =>
    Ok (ret, match GetInteger result with Some val => negb (val =? 0) | None => false end))
    (ret, false).

Definition GetTTL (strKey : bytes) (seconds : Z) (threadIdx : Z) : M RedisMgr (Z * Z) :=
  RecordExecKey threadIdx strKey;;
  '(ret, reply) ← exec (builder_new <<c "TTL" <<s strKey) threadIdx true true;
  with_result reply (fun result =>
    Ok (REDIS_RESULT_OK, match GetInteger result with Some val => s32 val | None => seconds end))
    (REDIS_RESULT_OK, seconds).

Definition SetExpire (strKey : bytes) (seconds : Z) (threadIdx : Z) : M RedisMgr Z :=
  RecordExecKey threadIdx strKey;;
  '(ret, _) ← exec (builder_new <<c "EXPIRE" <<s strKey) threadIdx false true;
  mret ret.

Definition Exists (strKey : bytes) (threadIdx : Z) : M RedisMgr (Z * bool) :=
  RecordExecKey threadIdx strKey;;
  '(ret, reply) ← exec (builder_new <<c "EXISTS" <<s strKey) threadIdx true true;
  with_result reply (fun result =>
    Ok (ret, match GetInteger result with Some val => negb (val =? 0) | None => false end))
    (ret, false).

(** ** Strings *)

Definition Set_ (strKey strVal : bytes) (threadIdx : Z) : M RedisMgr Z :=
  RecordExecKey threadIdx strKey;;
  '(ret, _) ← exec (builder_new <<c "SET" <<s strKey <<s strVal) threadIdx false true;
  mret ret.

Definition SetStringWithOption (strKey strValue : bytes) (iOption : SetCmdOptionType)
    (iExpireMS : Z) (threadIdx : Z) : M RedisMgr (Z * bool) :=
  RecordExecKey threadIdx strKey;;
  let cmdBuilder := builder_new <<c "SET" <<s strKey <<s strValue in
  let cmdBuilder := if negb (iExpireMS =? 0) then cmdBuilder <<c "PX" <<n iExpireMS
                    else cmdBuilder in
  let cmdBuilder := if bool_decide (iOption = SetCmdOptionType_NX) then cmdBuilder <<c "NX"
                    else cmdBuilder in
  let cmdBuilder := if bool_decide (iOption = SetCmdOptionType_XX) then cmdBuilder <<c "XX"
                    else cmdBuilder in
  '(ret, reply) ← exec cmdBuilder threadIdx true true;
  with_result reply (fun result => Ok (ret, IsOK result)) (ret, false).

Definition Get (strKey strVal : bytes) (threadIdx : Z) : M RedisMgr (Z * bytes) :=
  RecordExecKey threadIdx strKey;;
  '(ret, reply) ← exec (builder_new <<c "GET" <<s strKey) threadIdx true true;
  with_result reply (fun result =>
    let '(ok, v) := GetString result strVal in
    Ok (if ok then REDIS_OK else REDIS_RESULT_NODATA, v)) (ret, strVal).

Definition GetSet (strKey strVal strOutVal : bytes) (threadIdx : Z) : M RedisMgr (Z * bytes) :=
  RecordExecKey threadIdx strKey;;
  '(ret, reply) ← exec (builder_new <<c "GETSET" <<s strKey) threadIdx true true;
  with_result reply (fun result =>
    let '(ok, v) := GetString result strOutVal in
    Ok (if ok then REDIS_OK else REDIS_RESULT_NODATA, v)) (ret, strOutVal).

Definition Incr (strKey : bytes) (iOutVal : Z) (threadIdx : Z) : M RedisMgr (Z * Z) :=
  RecordExecKey threadIdx strKey;;
  '(ret, reply) ← exec (builder_new <<c "INCR" <<s strKey) threadIdx true false;
  with_result reply (fun result =>
    Ok match GetInteger result with
       | Some val => (REDIS_OK, val)
       | None => (REDIS_ERR_OTHER, iOutVal)
       end) (ret, iOutVal).

Definition Incrby (strKey : bytes) (iVal iOutVal : Z) (threadIdx : Z) : M RedisMgr (Z * Z) :=
  RecordExecKey threadIdx strKey;;
  '(ret, reply) ← exec (builder_new <<c "INCRBY" <<s strKey <<n iVal) threadIdx true false;
  with_result reply (fun result =>
    Ok match GetInteger result with
       | Some val => (REDIS_OK, val)
       | None => (REDIS_ERR_OTHER, iOutVal)
       end) (ret, iOutVal).

Definition Decr (strKey : bytes) (iOutVal : Z) (threadIdx : Z) : M RedisMgr (Z * Z) :=
  RecordExecKey threadIdx strKey;;
  '(ret, reply) ← exec (builder_new <<c "DECR" <<s strKey) threadIdx true false;
  with_result reply (fun result =>
    Ok match GetInteger result with
       | Some val => (REDIS_OK, val)
       | None => (REDIS_ERR_OTHER, iOutVal)
       end) (ret, iOutVal).

Definition Decrby (strKey : bytes) (iVal iOutVal : Z) (threadIdx : Z) : M RedisMgr (Z * Z) :=
  RecordExecKey threadIdx strKey;;
  '(ret, reply) ← exec (builder_new <<c "DECRBy" <<s strKey <<n iVal) threadIdx true false;
  with_result reply (fun result =>
    Ok match GetInteger result with
       | Some val => (REDIS_OK, val)
       | None => (REDIS_ERR_OTHER, iOutVal)
       end) (ret, iOutVal).

Definition Append (strKey strVal : bytes) (iOutVal : Z) (threadIdx : Z) : M RedisMgr (Z * Z) :=
  RecordExecKey threadIdx strKey;;
  '(ret, reply) ← exec (builder_new <<c "APPEND" <<s strKey <<s strVal) threadIdx true false;
  with_result reply (fun result =>
    Ok match GetInteger result with
       | Some val => (REDIS_OK, val)
       | None => (REDIS_ERR_OTHER, iOutVal)
       end) (ret, iOutVal).

(** [for (const auto &iter : vec) RecordExecKey(threadIdx, iter)]. *)
Fixpoint record_all (threadIdx : Z) (keys : list bytes) : M RedisMgr () :=
  match keys with
  | [] => mret tt
  | k :: keys' => RecordExecKey threadIdx k;; record_all threadIdx keys'
  end.

Definition MGet (vecFileds : list bytes) (threadIdx : Z) : M RedisMgr (Z * list bytes) :=
  record_all threadIdx vecFileds;;
  '(ret, reply) ← exec (builder_new <<c "MGET" <<* vecFileds) threadIdx true true;
  with_result reply (fun result =>
    let '(ok, l) := ParseStringArray result [] in
    Ok (if ok then REDIS_OK else REDIS_ERR_OTHER, l)) (ret, []).

Definition MSet (mapFileds : StringMap) (threadIdx : Z) : M RedisMgr Z :=
  record_all threadIdx (map fst mapFileds);;
  '(ret, reply) ← exec (push_map (builder_new <<c "MSET") mapFileds) threadIdx true true;
  with_result reply (fun result =>
    Ok (if IsOK result then REDIS_OK else REDIS_ERR_OTHER)) ret.

(** ** Hashes *)

Definition HSet (strKey strFiled strVal : bytes) (threadIdx : Z) : M RedisMgr Z :=
  RecordExecKey threadIdx strKey;;
  '(ret, reply) ← exec (builder_new <<c "HSET" <<s strKey <<s strFiled <<s strVal) threadIdx true true;
  with_result reply (fun result =>
    Ok match GetInteger result with Some _ => REDIS_OK | None => REDIS_ERR_OTHER end) ret.

Definition HSetNx (strKey strFiled strVal : bytes) (threadIdx : Z) : M RedisMgr Z :=
  RecordExecKey threadIdx strKey;;
  '(ret, reply) ← exec (builder_new <<c "HSETNX" <<s strKey <<s strFiled <<s strVal) threadIdx true true;
  with_result reply (fun result =>
    Ok (if default 0 (GetInteger result) =? 1 then REDIS_OK else REDIS_ERR_OTHER)) ret.

Definition HMSet (strKey : bytes) (mapFiledVals : StringMap) (threadIdx : Z) : M RedisMgr Z :=
  RecordExecKey threadIdx strKey;;
  '(ret, reply) ← exec (push_map (builder_new <<c "HMSET" <<s strKey) mapFiledVals) threadIdx true true;
  with_result reply (fun result =>
    Ok (if IsOK result then REDIS_OK else REDIS_ERR_OTHER)) ret.

Definition HGet (strKey strFiled strOutVal : bytes) (threadIdx : Z) : M RedisMgr (Z * bytes) :=
  RecordExecKey threadIdx strKey;;
  '(ret, reply) ← exec (builder_new <<c "HGET" <<s strKey <<s strFiled) threadIdx true true;
  with_result reply (fun result =>
    Ok (if IsNil result then (REDIS_RESULT_NODATA, strOutVal)
        else (REDIS_OK, snd (GetString result strOutVal)))) (ret, strOutVal).

Definition HMGet (strKey : bytes) (vecFileds : list bytes) (threadIdx : Z) : M RedisMgr (Z * list bytes) :=
  RecordExecKey threadIdx strKey;;
  '(ret, reply) ← exec (builder_new <<c "HMGET" <<s strKey <<* vecFileds) threadIdx true true;
  with_result reply (fun result =>
    let '(ok, l) := ParseStringArray result [] in
    Ok (if ok then REDIS_OK else REDIS_ERR_OTHER, l)) (ret, []).

Definition HGetAll (strKey : bytes) (threadIdx : Z) : M RedisMgr (Z * StringMap) :=
  RecordExecKey threadIdx strKey;;
  '(ret, reply) ← exec (builder_new <<c "HGETALL" <<s strKey) threadIdx true true;
  with_result reply (fun result =>
    if IsNil result then Ok (REDIS_RESULT_NODATA, [])
    else '(ok, m) ← ParseStringMap result []; Ok (if (ok : bool) then REDIS_OK else REDIS_ERR_OTHER, m))
    (ret, []).

Definition HDel (strKey strFiled : bytes) (threadIdx : Z) : M RedisMgr Z :=
  RecordExecKey threadIdx strKey;;
  '(ret, reply) ← exec (builder_new <<c "HDEL" <<s strKey <<s strFiled) threadIdx true true;
  with_result reply (fun result =>
    Ok (if default 0 (GetInteger result) =? 1 then REDIS_OK else REDIS_ERR_OTHER)) ret.

Definition HDel_vec (strKey : bytes) (strFileds : list bytes) (threadIdx : Z) : M RedisMgr Z :=
  RecordExecKey threadIdx strKey;;
  '(ret, reply) ← exec (builder_new <<c "HDEL" <<s strKey <<* strFileds) threadIdx true true;
  with_result reply (fun result =>
    Ok (if 0 <? default 0 (GetInteger result) then REDIS_OK else REDIS_ERR_OTHER)) ret.

Definition HLen (strKey : bytes) (iOutVal : Z) (threadIdx : Z) : M RedisMgr (Z * Z) :=
  RecordExecKey threadIdx strKey;;
  '(ret, reply) ← exec (builder_new <<c "HLEN" <<s strKey) threadIdx true true;
  with_result reply (fun result =>
    Ok match GetInteger result with
       | Some val => (REDIS_OK, val)
       | None => (REDIS_ERR_OTHER, iOutVal)
       end) (ret, iOutVal).

Definition HExists (strKey strFiled : bytes) (exists_ : bool) (threadIdx : Z) : M RedisMgr (Z * bool) :=
  RecordExecKey threadIdx strKey;;
  '(ret, reply) ← exec (builder_new <<c "HEXISTS" <<s strKey <<s strFiled) threadIdx true true;
  with_result reply (fun result =>
    Ok match GetInteger result with
       | Some val => (REDIS_OK, val =? 1)
       | None => (REDIS_ERR_OTHER, exists_)
       end) (ret, exists_).

Definition HIncrby (strKey strFiled : bytes) (iVal iOutVal : Z) (threadIdx : Z) : M RedisMgr (Z * Z) :=
  RecordExecKey threadIdx strKey;;
  '(ret, reply) ← exec (builder_new <<c "HINCRBY" <<s strKey <<s strFiled <<n iVal) threadIdx true true;
  with_result reply (fun result =>
    Ok match GetInteger result with
       | Some val => (REDIS_OK, val)
       | None => (REDIS_ERR_OTHER, iOutVal)
       end) (ret, iOutVal).

Definition HKeys (strKey : bytes) (threadIdx : Z) : M RedisMgr (Z * list bytes) :=
  RecordExecKey threadIdx strKey;;
  '(ret, reply) ← exec (builder_new <<c "HKEYS" <<s strKey) threadIdx true true;
  with_result reply (fun result =>
    let '(ok, l) := ParseStringArray result [] in
    Ok (if ok then REDIS_OK else REDIS_ERR_OTHER, l)) (ret, []).

Definition HVals (strKey : bytes) (vecOutVals : list bytes) (threadIdx : Z) : M RedisMgr (Z * list bytes) :=
  RecordExecKey threadIdx strKey;;
  '(ret, reply) ← exec (builder_new <<c "HVALS" <<s strKey) threadIdx true true;
  with_result reply (fun result =>
    let '(ok, l) := ParseStringArray result vecOutVals in
    Ok (if ok then REDIS_OK else REDIS_ERR_OTHER, l)) (ret, vecOutVals).

(** ** Lists *)

Definition GetListByRange (strKey : bytes) (iStartIndex iStopIndex : Z) (threadIdx : Z) : M RedisMgr (Z * list bytes) :=
  RecordExecKey threadIdx strKey;;
  '(ret, reply) ← exec (builder_new <<c "LRANGE" <<s strKey <<n iStartIndex <<n iStopIndex) threadIdx true true;
  with_result reply (fun result =>
    let '(ok, l) := ParseStringArray result [] in
    Ok (if ok then REDIS_OK else REDIS_ERR_OTHER, l)) (REDIS_RESULT_OK, []).

Definition TrimList (strKey : bytes) (iStartIndex iStopIndex : Z) (threadIdx : Z) : M RedisMgr Z :=
  RecordExecKey threadIdx strKey;;
  '(ret, reply) ← exec (builder_new <<c "LTRIM" <<s strKey <<n iStartIndex <<n iStopIndex) threadIdx true true;
  with_result reply (fun result =>
    Ok (if IsOK result then REDIS_OK else REDIS_ERR_OTHER)) ret.

Definition LPush (strKey strValue : bytes) (iLen : Z) (threadIdx : Z) : M RedisMgr (Z * Z) :=
  RecordExecKey threadIdx strKey;;
  '(ret, reply) ← exec (builder_new <<c "LPUSH" <<s strKey <<s strValue) threadIdx true true;
  with_result reply (fun result =>
    Ok match GetInteger result with
       | Some count => (REDIS_OK, u32 count)
       | None => (REDIS_ERR_OTHER, iLen)
       end) (ret, iLen).

Definition LPush_vec (strKey : bytes) (vecValue : list bytes) (iLen : Z) (threadIdx : Z) : M RedisMgr (Z * Z) :=
  RecordExecKey threadIdx strKey;;
  '(ret, reply) ← exec (builder_new <<c "LPUSH" <<s strKey <<* vecValue) threadIdx true true;
  with_result reply (fun result =>
    Ok match GetInteger result with
       | Some count => (REDIS_OK, u32 count)
       | None => (REDIS_ERR_OTHER, iLen)
       end) (ret, iLen).

Definition LPushX (strKey strValue : bytes) (iLen : Z) (threadIdx : Z) : M RedisMgr (Z * Z) :=
  RecordExecKey threadIdx strKey;;
  '(ret, reply) ← exec (builder_new <<c "LPUSHX" <<s strKey <<s strValue) threadIdx true true;
  with_result reply (fun result =>
    Ok match GetInteger result with
       | Some count => (REDIS_OK, u32 count)
       | None => (REDIS_ERR_OTHER, iLen)
       end) (ret, iLen).

Definition LPushX_vec (strKey : bytes) (vecValue : list bytes) (iLen : Z) (threadIdx : Z) : M RedisMgr (Z * Z) :=
  RecordExecKey threadIdx strKey;;
  '(ret, reply) ← exec (builder_new <<c "LPUSHX" <<s strKey <<* vecValue) threadIdx true true;
  with_result reply (fun result =>
    Ok match GetInteger result with
       | Some count => (REDIS_OK, u32 count)
       | None => (REDIS_ERR_OTHER, iLen)
       end) (ret, iLen).

Definition RPush (strKey strValue : bytes) (iLen : Z) (threadIdx : Z) : M RedisMgr (Z * Z) :=
  RecordExecKey threadIdx strKey;;
  '(ret, reply) ← exec (builder_new <<c "RPUSH" <<s strKey <<s strValue) threadIdx true true;
  with_result reply (fun result =>
    Ok match GetInteger result with
       | Some count => (REDIS_OK, u32 count)
       | None => (REDIS_ERR_OTHER, iLen)
       end) (ret, iLen).

Definition RPush_vec (strKey : bytes) (vecValue : list bytes) (iLen : Z) (threadIdx : Z) : M RedisMgr (Z * Z) :=
  RecordExecKey threadIdx strKey;;
  '(ret, reply) ← exec (builder_new <<c "RPUSH" <<s strKey <<* vecValue) threadIdx true true;
  with_result reply (fun result =>
    Ok match GetInteger result with
       | Some count => (REDIS_OK, u32 count)
       | None => (REDIS_ERR_OTHER, iLen)
       end) (ret, iLen).

Definition RPushX (strKey strValue : bytes) (iLen : Z) (threadIdx : Z) : M RedisMgr (Z * Z) :=
  RecordExecKey threadIdx strKey;;
  '(ret, reply) ← exec (builder_new <<c "RPUSHX" <<s strKey <<s strValue) threadIdx true true;
  with_result reply (fun result =>
    Ok match GetInteger result with
       | Some count => (REDIS_OK, u32 count)
       | None => (REDIS_ERR_OTHER, iLen)
       end) (ret, iLen).

Definition RPushX_vec (strKey : bytes) (vecValue : list bytes) (iLen : Z) (threadIdx : Z) : M RedisMgr (Z * Z) :=
  RecordExecKey threadIdx strKey;;
  '(ret, reply) ← exec (builder_new <<c "LPUSHX" <<s strKey <<* vecValue) threadIdx true true;
  with_result reply (fun result =>
    Ok match GetInteger result with
       | Some count => (REDIS_OK, u32 count)
       | None => (REDIS_ERR_OTHER, iLen)
       end) (ret, iLen).

Definition PushListTail (strKey strValue : bytes) (iLen : Z) (threadIdx : Z) : M RedisMgr (Z * Z) :=
  RPush strKey strValue iLen threadIdx.

Definition PushListTailBatch (strKey : bytes) (vecValue : list bytes) (iLen : Z) (threadIdx : Z)
    : M RedisMgr (Z * Z) :=
  RPush_vec strKey vecValue iLen threadIdx.

(** ** Sets *)

Definition SAdd (strKey member : bytes) (threadIdx : Z) : M RedisMgr Z :=
  RecordExecKey threadIdx strKey;;
  '(ret, reply) ← exec (builder_new <<c "SADD" <<s strKey <<s member) threadIdx true true;
  with_result reply (fun result =>
    Ok match GetInteger result with
       | Some count => if count =? 0 then REDIS_ERR_OTHER else REDIS_OK
       | None => REDIS_ERR_OTHER
       end) ret.

Definition SAdd_vec (strKey : bytes) (vecMembers : list bytes) (threadIdx : Z) : M RedisMgr Z :=
  RecordExecKey threadIdx strKey;;
  '(ret, reply) ← exec (builder_new <<c "SADD" <<s strKey <<* vecMembers) threadIdx true true;
  with_result reply (fun result =>
    Ok match GetInteger result with
       | Some count => if count =? 0 then REDIS_ERR_OTHER else REDIS_OK
       | None => REDIS_ERR_OTHER
       end) ret.

Definition SMembers (strKey : bytes) (threadIdx : Z) : M RedisMgr (Z * list bytes) :=
  RecordExecKey threadIdx strKey;;
  '(ret, reply) ← exec (builder_new <<c "SMEMBERS" <<s strKey) threadIdx true true;
  with_result reply (fun result =>
    let '(ok, l) := ParseStringArray result [] in
    Ok (if ok then REDIS_OK else REDIS_ERR_OTHER, l)) (ret, []).

Definition SRem (strKey strMember : bytes) (threadIdx : Z) : M RedisMgr Z :=
  RecordExecKey threadIdx strKey;;
  '(ret, reply) ← exec (builder_new <<c "SREM" <<s strKey <<s strMember) threadIdx true true;
  with_result reply (fun result =>
    Ok match GetInteger result with
       | Some count => if count =? 0 then REDIS_RESULT_NODATA else REDIS_OK
       | None => REDIS_ERR_OTHER
       end) ret.

Definition SRem_vec (strKey : bytes) (strMembers : list bytes) (threadIdx : Z) : M RedisMgr Z :=
  RecordExecKey threadIdx strKey;;
  '(ret, reply) ← exec (builder_new <<c "SREM" <<s strKey <<* strMembers) threadIdx true true;
  with_result reply (fun result =>
    Ok match GetInteger result with Some _ => REDIS_OK | None => REDIS_ERR_OTHER end) ret.
End Sync.
