(* ===== verification/RedisSyncProps.v ===== *)
(** * Properties of the synchronous Redis commands

    [sync_call] enumerates the methods with their arguments; [sync_args] is the
    command a call puts on the wire and [sync_reply], [sync_lost] what it
    returns for a reply and without one.  Every call is proved to be one
    exchange of that command on the thread's connection, followed by that
    reading of the reply.  [redis_doc] is the command that the Redis
    documentation gives for the method's purpose: a specification, against
    which what the calls send is compared. *)
From Stdlib Require Import ZArith Lia Ascii.
From stdpp Require Import base numbers list list_numbers strings.
From S2P Require Import Prelude Kernel Resp Hiredis RedisHelper RedisWire RedisProfile RedisMgr.
From S2P Require Import RedisMgrProps RedisSync.
Open Scope Z_scope.
#[local] Open Scope seed_scope.

(** ** The calls *)

Inductive sync_call : Type :=
  | CDel (k : bytes)
  | CGetTTL (k : bytes) (seconds : Z)
  | CSetExpire (k : bytes) (seconds : Z)
  | CExists (k : bytes)
  | CSet (k v : bytes)
  | CSetStringWithOption (k v : bytes) (o : SetCmdOptionType) (ms : Z)
  | CGet (k out : bytes)
  | CGetSet (k v out : bytes)
  | CIncr (k : bytes) (out : Z)
  | CIncrby (k : bytes) (v out : Z)
  | CDecr (k : bytes) (out : Z)
  | CDecrby (k : bytes) (v out : Z)
  | CAppend (k v : bytes) (out : Z)
  | CMGet (ks : list bytes)
  | CMSet (m : StringMap)
  | CHSet (k f v : bytes)
  | CHSetNx (k f v : bytes)
  | CHMSet (k : bytes) (m : StringMap)
  | CHGet (k f out : bytes)
  | CHMGet (k : bytes) (fs : list bytes)
  | CHGetAll (k : bytes)
  | CHDel (k f : bytes)
  | CHDel_vec (k : bytes) (fs : list bytes)
  | CHLen (k : bytes) (out : Z)
  | CHExists (k f : bytes) (out : bool)
  | CHIncrby (k f : bytes) (v out : Z)
  | CHKeys (k : bytes)
  | CHVals (k : bytes) (out : list bytes)
  | CPushListTail (k v : bytes) (out : Z)
  | CPushListTailBatch (k : bytes) (vs : list bytes) (out : Z)
  | CGetListByRange (k : bytes) (start stop : Z)
  | CTrimList (k : bytes) (start stop : Z)
  | CLPush (k v : bytes) (out : Z)
  | CLPush_vec (k : bytes) (vs : list bytes) (out : Z)
  | CLPushX (k v : bytes) (out : Z)
  | CLPushX_vec (k : bytes) (vs : list bytes) (out : Z)
  | CRPush (k v : bytes) (out : Z)
  | CRPush_vec (k : bytes) (vs : list bytes) (out : Z)
  | CRPushX (k v : bytes) (out : Z)
  | CRPushX_vec (k : bytes) (vs : list bytes) (out : Z)
  | CSAdd (k v : bytes)
  | CSAdd_vec (k : bytes) (vs : list bytes)
  | CSMembers (k : bytes)
  | CSRem (k v : bytes)
  | CSRem_vec (k : bytes) (vs : list bytes).

(** The value of the reference parameters after the call. *)
Inductive sync_out : Type :=
  | ONone
  | OBool (b : bool)
  | OInt (z : Z)
  | OStr (s : bytes)
  | OList (l : list bytes)
  | OMap (m : StringMap).

(** The key/value arguments of a map, in its order. *)
Fixpoint flat (m : StringMap) : list bytes :=
  match m with
  | [] => []
  | (k, v) :: m' => k :: v :: flat m'
  end.

Definition option_args (o : SetCmdOptionType) (ms : Z) : list bytes :=
  (if ms =? 0 then [] else [lit "PX"; fmt_d ms]) ++
  match o with
  | SetCmdOptionType_None => []
  | SetCmdOptionType_NX => [lit "NX"]
  | SetCmdOptionType_XX => [lit "XX"]
  end.

(** The command each call sends. *)
Definition sync_args (c : sync_call) : list bytes :=
  match c with
  | CDel k => [lit "DEL"; k]
  | CGetTTL k _ => [lit "TTL"; k]
  | CSetExpire k _ => [lit "EXPIRE"; k]
  | CExists k => [lit "EXISTS"; k]
  | CSet k v => [lit "SET"; k; v]
  | CSetStringWithOption k v o ms => [lit "SET"; k; v] ++ option_args o ms
  | CGet k _ => [lit "GET"; k]
  | CGetSet k _ _ => [lit "GETSET"; k]
  | CIncr k _ => [lit "INCR"; k]
  | CIncrby k v _ => [lit "INCRBY"; k; fmt_d v]
  | CDecr k _ => [lit "DECR"; k]
  | CDecrby k v _ => [lit "DECRBy"; k; fmt_d v]
  | CAppend k v _ => [lit "APPEND"; k; v]
  | CMGet ks => lit "MGET" :: ks
  | CMSet m => lit "MSET" :: flat m
  | CHSet k f v => [lit "HSET"; k; f; v]
  | CHSetNx k f v => [lit "HSETNX"; k; f; v]
  | CHMSet k m => lit "HMSET" :: k :: flat m
  | CHGet k f _ => [lit "HGET"; k; f]
  | CHMGet k fs => lit "HMGET" :: k :: fs
  | CHGetAll k => [lit "HGETALL"; k]
  | CHDel k f => [lit "HDEL"; k; f]
  | CHDel_vec k fs => lit "HDEL" :: k :: fs
  | CHLen k _ => [lit "HLEN"; k]
  | CHExists k f _ => [lit "HEXISTS"; k; f]
  | CHIncrby k f v _ => [lit "HINCRBY"; k; f; fmt_d v]
  | CHKeys k => [lit "HKEYS"; k]
  | CHVals k _ => [lit "HVALS"; k]
  | CPushListTail k v _ | CRPush k v _ => [lit "RPUSH"; k; v]
  | CPushListTailBatch k vs _ | CRPush_vec k vs _ => lit "RPUSH" :: k :: vs
  | CGetListByRange k a b => [lit "LRANGE"; k; fmt_d a; fmt_d b]
  | CTrimList k a b => [lit "LTRIM"; k; fmt_d a; fmt_d b]
  | CLPush k v _ => [lit "LPUSH"; k; v]
  | CLPush_vec k vs _ => lit "LPUSH" :: k :: vs
  | CLPushX k v _ => [lit "LPUSHX"; k; v]
  | CLPushX_vec k vs _ | CRPushX_vec k vs _ => lit "LPUSHX" :: k :: vs
  | CRPushX k v _ => [lit "RPUSHX"; k; v]
  | CSAdd k v => [lit "SADD"; k; v]
  | CSAdd_vec k vs => lit "SADD" :: k :: vs
  | CSMembers k => [lit "SMEMBERS"; k]
  | CSRem k v => [lit "SREM"; k; v]
  | CSRem_vec k vs => lit "SREM" :: k :: vs
  end.

(** Whether the call asks for the reply at all. *)
Definition sync_wants (c : sync_call) : bool :=
  match c with CSetExpire _ _ | CSet _ _ => false | _ => true end.

(** The result without a reply: the code is always [REDIS_RESULT_OK]. *)
Definition sync_lost (c : sync_call) : sync_out :=
  match c with
  | CDel _ | CExists _ | CSetStringWithOption _ _ _ _ => OBool false
  | CGetTTL _ out | CIncr _ out | CIncrby _ _ out | CDecr _ out | CDecrby _ _ out
  | CAppend _ _ out | CHLen _ out | CHIncrby _ _ _ out | CPushListTail _ _ out
  | CPushListTailBatch _ _ out | CLPush _ _ out | CLPush_vec _ _ out | CLPushX _ _ out
  | CLPushX_vec _ _ out | CRPush _ _ out | CRPush_vec _ _ out | CRPushX _ _ out
  | CRPushX_vec _ _ out => OInt out
  | CGet _ out | CGetSet _ _ out | CHGet _ _ out => OStr out
  | CHExists _ _ out => OBool out
  | CMGet _ | CHMGet _ _ | CHKeys _ | CGetListByRange _ _ _ | CSMembers _ => OList []
  | CHVals _ out => OList out
  | CHGetAll _ => OMap []
  | CSetExpire _ _ | CSet _ _ | CMSet _ | CHSet _ _ _ | CHSetNx _ _ _ | CHMSet _ _ | CHDel _ _
  | CHDel_vec _ _ | CTrimList _ _ _ | CSAdd _ _ | CSAdd_vec _ _ | CSRem _ _ | CSRem_vec _ _ => ONone
  end.

(** *** The readings of a reply *)

Definition other_unless (b : bool) : Z := if b then REDIS_OK else REDIS_ERR_OTHER.

Definition read_int (out : Z) (r : redisReply) : Z * sync_out :=
  match GetInteger r with Some v => (REDIS_OK, OInt v) | None => (REDIS_ERR_OTHER, OInt out) end.
Definition read_u32 (out : Z) (r : redisReply) : Z * sync_out :=
  match GetInteger r with Some v => (REDIS_OK, OInt (u32 v)) | None => (REDIS_ERR_OTHER, OInt out) end.
Definition read_nonzero (r : redisReply) : Z * sync_out :=
  (REDIS_RESULT_OK, OBool match GetInteger r with Some v => negb (v =? 0) | None => false end).
Definition read_list (init : list bytes) (r : redisReply) : Z * sync_out :=
  (other_unless (fst (ParseStringArray r init)), OList (snd (ParseStringArray r init))).
Definition read_str (out : bytes) (r : redisReply) : Z * sync_out :=
  (if fst (GetString r out) then REDIS_OK else REDIS_RESULT_NODATA, OStr (snd (GetString r out))).
Definition read_status (r : redisReply) : Z * sync_out := (other_unless (IsOK r), ONone).
Definition read_count (test : Z -> bool) (r : redisReply) : Z * sync_out :=
  (other_unless match GetInteger r with Some v => test v | None => false end, ONone).

(** The result for a reply. *)
Definition sync_reply (c : sync_call) (r : redisReply) : outcome (Z * sync_out) :=
  match c with
  | CDel _ | CExists _ => Ok (read_nonzero r)
  | CGetTTL _ out => Ok (REDIS_RESULT_OK, OInt match GetInteger r with Some v => s32 v | None => out end)
  | CSetStringWithOption _ _ _ _ => Ok (REDIS_RESULT_OK, OBool (IsOK r))
  | CGet _ out | CGetSet _ _ out => Ok (read_str out r)
  | CIncr _ out | CIncrby _ _ out | CDecr _ out | CDecrby _ _ out | CAppend _ _ out | CHLen _ out
  | CHIncrby _ _ _ out => Ok (read_int out r)
  | CMGet _ | CHMGet _ _ | CHKeys _ | CGetListByRange _ _ _ | CSMembers _ => Ok (read_list [] r)
  | CHVals _ out => Ok (read_list out r)
  | CMSet _ | CHMSet _ _ | CTrimList _ _ _ => Ok (read_status r)
  | CHSet _ _ _ | CSRem_vec _ _ => Ok (read_count (fun _ => true) r)
  | CHSetNx _ _ _ | CHDel _ _ => Ok (read_count (fun v => v =? 1) r)
  | CHDel_vec _ _ => Ok (read_count (fun v => 0 <? v) r)
  | CSAdd _ _ | CSAdd_vec _ _ => Ok (read_count (fun v => negb (v =? 0)) r)
  | CSRem _ _ => Ok (match GetInteger r with
                     | Some v => if v =? 0 then REDIS_RESULT_NODATA else REDIS_OK
                     | None => REDIS_ERR_OTHER
                     end, ONone)
  | CHGet _ _ out => Ok (if IsNil r then (REDIS_RESULT_NODATA, OStr out)
                         else (REDIS_OK, OStr (snd (GetString r out))))
  | CHGetAll _ => if IsNil r then Ok (REDIS_RESULT_NODATA, OMap [])
                  else '(ok, m) ← ParseStringMap r []; Ok (other_unless ok, OMap m)
  | CHExists _ _ out => Ok match GetInteger r with
                           | Some v => (REDIS_OK, OBool (v =? 1))
                           | None => (REDIS_ERR_OTHER, OBool out)
                           end
  | CPushListTail _ _ out | CPushListTailBatch _ _ out | CLPush _ _ out | CLPush_vec _ _ out
  | CLPushX _ _ out | CLPushX_vec _ _ out | CRPush _ _ out | CRPush_vec _ _ out | CRPushX _ _ out
  | CRPushX_vec _ _ out => Ok (read_u32 out r)
  | CSetExpire _ _ | CSet _ _ => Ok (REDIS_RESULT_OK, ONone)
  end.

(** A result without, and with, a reference parameter. *)
Definition ret0 {S} (m : M S Z) : M S (Z * sync_out) := z ← m; mret (z, ONone).
Definition ret1 {S A} (o : A -> sync_out) (m : M S (Z * A)) : M S (Z * sync_out) :=
  p ← m; mret (fst p, o (snd p)).

Section SyncProps.
Context {HR : Hiredis} {HE : RedisEnv}.

Definition run_sync (fuel : nat) (c : sync_call) (t : Z) : M RedisMgr (Z * sync_out) :=
  match c with
  | CDel k => ret1 OBool (Del fuel k t)
  | CGetTTL k s => ret1 OInt (GetTTL fuel k s t)
  | CSetExpire k s => ret0 (SetExpire fuel k s t)
  | CExists k => ret1 OBool (Exists fuel k t)
  | CSet k v => ret0 (Set_ fuel k v t)
  | CSetStringWithOption k v o ms => ret1 OBool (SetStringWithOption fuel k v o ms t)
  | CGet k out => ret1 OStr (Get fuel k out t)
  | CGetSet k v out => ret1 OStr (GetSet fuel k v out t)
  | CIncr k out => ret1 OInt (Incr fuel k out t)
  | CIncrby k v out => ret1 OInt (Incrby fuel k v out t)
  | CDecr k out => ret1 OInt (Decr fuel k out t)
  | CDecrby k v out => ret1 OInt (Decrby fuel k v out t)
  | CAppend k v out => ret1 OInt (Append fuel k v out t)
  | CMGet ks => ret1 OList (MGet fuel ks t)
  | CMSet m => ret0 (MSet fuel m t)
  | CHSet k f v => ret0 (HSet fuel k f v t)
  | CHSetNx k f v => ret0 (HSetNx fuel k f v t)
  | CHMSet k m => ret0 (HMSet fuel k m t)
  | CHGet k f out => ret1 OStr (HGet fuel k f out t)
  | CHMGet k fs => ret1 OList (HMGet fuel k fs t)
  | CHGetAll k => ret1 OMap (HGetAll fuel k t)
  | CHDel k f => ret0 (HDel fuel k f t)
  | CHDel_vec k fs => ret0 (HDel_vec fuel k fs t)
  | CHLen k out => ret1 OInt (HLen fuel k out t)
  | CHExists k f out => ret1 OBool (HExists fuel k f out t)
  | CHIncrby k f v out => ret1 OInt (HIncrby fuel k f v out t)
  | CHKeys k => ret1 OList (HKeys fuel k t)
  | CHVals k out => ret1 OList (HVals fuel k out t)
  | CPushListTail k v out => ret1 OInt (PushListTail fuel k v out t)
  | CPushListTailBatch k vs out => ret1 OInt (PushListTailBatch fuel k vs out t)
  | CGetListByRange k a b => ret1 OList (GetListByRange fuel k a b t)
  | CTrimList k a b => ret0 (TrimList fuel k a b t)
  | CLPush k v out => ret1 OInt (LPush fuel k v out t)
  | CLPush_vec k vs out => ret1 OInt (LPush_vec fuel k vs out t)
  | CLPushX k v out => ret1 OInt (LPushX fuel k v out t)
  | CLPushX_vec k vs out => ret1 OInt (LPushX_vec fuel k vs out t)
  | CRPush k v out => ret1 OInt (RPush fuel k v out t)
  | CRPush_vec k vs out => ret1 OInt (RPush_vec fuel k vs out t)
  | CRPushX k v out => ret1 OInt (RPushX fuel k v out t)
  | CRPushX_vec k vs out => ret1 OInt (RPushX_vec fuel k vs out t)
  | CSAdd k v => ret0 (SAdd fuel k v t)
  | CSAdd_vec k vs => ret0 (SAdd_vec fuel k vs t)
  | CSMembers k => ret1 OList (SMembers fuel k t)
  | CSRem k v => ret0 (SRem fuel k v t)
  | CSRem_vec k vs => ret0 (SRem_vec fuel k vs t)
  end.

(** The abstract call: one exchange of the command, then the reading. *)
Definition spec_sync (fuel : nat) (c : sync_call) (t : Z) : M RedisMgr (Z * sync_out) :=
  '(_, reply) ← exec fuel (builder_new <<* sync_args c) t (sync_wants c) true;
  with_result reply (sync_reply c) (REDIS_RESULT_OK, sync_lost c).

Lemma push_map_flat b m : push_map b m = b <<* flat m.
Proof.
  unfold push_map. revert b. induction m as [|[k v] m IH]; intros b; [done|]. cbn. by rewrite IH.
Qed.

Lemma exec_ret fuel b t want reSend m ret reply m' :
  exec fuel b t want reSend m = Ok ((ret, reply), m') -> ret = 0.
Proof.
  unfold exec, mlift, mbind, M_bind. destruct (outcome_bind _ _ _ _) as [[b' m1]| |]; [|done..].
  rewrite execCmd_unfold. destruct (GetRedisConnection t m1) as [[i m2]| |]; [|done..].
  destruct (send_on fuel i b' want m2) as [[[[? ?] ?] ?]| |]; [|done..]. by intros [= <- _ _].
Qed.

(** Whether a resend is allowed makes no difference. *)
Lemma exec_reSend fuel b t want reSend m :
  exec fuel b t want reSend m = exec fuel b t want true m.
Proof.
  unfold exec. apply M_bind_ext. intros b' m'. unfold mbind, M_bind. by rewrite !execCmd_unfold.
Qed.

(** The calls that read their reply. *)
Lemma sync_generic {A} fuel c t b reSend (o : A -> Z * sync_out)
    (f : Z -> redisReply -> outcome A) (none : Z -> A) (rec : M RedisMgr ()) m :
  (forall m, rec m = Ok (tt, m)) -> b = builder_new <<* sync_args c -> sync_wants c = true ->
  (forall r, (a ← f 0 r; Ok (o a)) = sync_reply c r) -> o (none 0) = (REDIS_RESULT_OK, sync_lost c) ->
  (p ← (rec;; '(ret, reply) ← exec fuel b t true reSend; with_result reply (f ret) (none ret));
   mret (o p)) m = spec_sync fuel c t m.
Proof.
  intros Hrec -> Hw Hf Hn. unfold spec_sync, mbind, M_bind. rewrite Hrec, Hw, exec_reSend.
  destruct (exec fuel _ t true true m) as [[[ret reply] m1]| |] eqn:E; [|done..].
  apply exec_ret in E as ->. unfold with_result. destruct reply as [r|].
  - unfold mlift, mbind, M_bind. rewrite <- Hf. unfold mbind, outcome_bind.
    destruct (f 0 r) as [a| |]; [|done..]. reflexivity.
  - unfold mret, M_ret. by rewrite Hn.
Qed.

(** Without a place for the reply there is none. *)
Lemma exec_blind fuel b t reSend m ret reply m' :
  exec fuel b t false reSend m = Ok ((ret, reply), m') -> reply = None.
Proof.
  unfold exec, mlift, mbind, M_bind. destruct (outcome_bind _ _ _ _) as [[b' m1]| |]; [|done..].
  rewrite execCmd_unfold. destruct (GetRedisConnection t m1) as [[i m2]| |]; [|done..].
  rewrite send_on_unfold. destruct (s_vecRedisContext m2 !! i) as [k|]; [|done].
  unfold sendAndGetReply, redisGetReplyInner. destruct (negb _); [done|].
  destruct (redisBufferWriteInner _ _ _ _) as [[[[e c1] blk1] w1]| |]; cbn [mbind outcome_bind]; [|done..].
  destruct (e =? REDIS_ERR); [by intros [= _ <- _]|].
  destruct (read_loop fuel c1 w1) as [[[[e2 [a|]] c2] w2]| |]; cbn [mbind outcome_bind];
    [by intros [= _ <- _]..|done|done].
Qed.

(** The two that do not. *)
Lemma sync_generic_blind fuel c t b rec m :
  (forall m, rec m = Ok (tt, m)) -> b = builder_new <<* sync_args c -> sync_wants c = false ->
  sync_lost c = ONone ->
  (z ← (rec;; '(ret, _) ← exec fuel b t false true; mret ret); mret (z, ONone)) m =
    spec_sync fuel c t m.
Proof.
  intros Hrec -> Hw Hl. unfold spec_sync, mbind, M_bind. rewrite Hrec, Hw, Hl.
  destruct (exec fuel _ t false true m) as [[[ret reply] m1]| |] eqn:E; [|done..].
  by rewrite (exec_ret _ _ _ _ _ _ _ _ _ E), (exec_blind _ _ _ _ _ _ _ _ E).
Qed.

Lemma record_all_ok t ks m : record_all t ks m = Ok (tt, m).
Proof. induction ks as [|k ks IH]; [done|]. cbn [record_all]. exact IH. Qed.

Ltac builder_tac :=
  cbn [sync_args foldl app]; unfold push_num; rewrite ?push_map_flat;
  rewrite ?push_cstr_string by (repeat constructor; discriminate); reflexivity.

Ltac reading_tac :=
  cbn [sync_reply];
  unfold read_nonzero, read_int, read_u32, read_list, read_str, read_status, read_count, other_unless;
  cbn [mbind outcome_bind];
  repeat match goal with
         | |- context [GetInteger ?r] => destruct (GetInteger r); cbn
         | |- context [GetString ?r ?o] => destruct (GetString r o); cbn
         | |- context [ParseStringArray ?r ?o] => destruct (ParseStringArray r o); cbn
         | |- context [ParseStringMap ?r ?o] => destruct (ParseStringMap r o) as [[]| |]; cbn
         | |- context [IsOK ?r] => destruct (IsOK r); cbn
         | |- context [IsNil ?r] => destruct (IsNil r); cbn
         | |- context [if ?b then _ else _] => destruct b; cbn
         end; reflexivity.

(** The command of [SetStringWithOption]. *)
Lemma options_builder b o ms :
  (let cmdBuilder := if negb (ms =? 0) then b <<c "PX" <<n ms else b in
   let cmdBuilder := if bool_decide (o = SetCmdOptionType_NX) then cmdBuilder <<c "NX" else cmdBuilder in
   if bool_decide (o = SetCmdOptionType_XX) then cmdBuilder <<c "XX" else cmdBuilder)
  = b <<* option_args o ms.
Proof.
  unfold option_args. destruct (ms =? 0), o; cbn [negb app foldl]; rewrite ?bool_decide_eq_true_2 by done;
    rewrite ?bool_decide_eq_false_2 by done; builder_tac.
Qed.

(** Every call is one exchange of its command and the reading of the reply. *)
Lemma run_sync_spec fuel c t m : run_sync fuel c t m = spec_sync fuel c t m.
Proof.
  destruct c; cbn [run_sync]; unfold ret0, ret1.
  all: lazymatch goal with
       | |- context [spec_sync _ (CSetExpire _ _)] => apply (sync_generic_blind fuel _ t)
       | |- context [spec_sync _ (CSet _ _)] => apply (sync_generic_blind fuel _ t)
       | _ => idtac
       end; try solve [done|builder_tac].
  all: try (eapply (sync_generic fuel _ t);
    [first [apply record_all_ok|done]|builder_tac|done|intros r; reading_tac|reflexivity]).
  (* only [SetStringWithOption] is left *)
  unfold SetStringWithOption. rewrite options_builder.
  eapply (sync_generic fuel _ t); [done| |done|intros r; reading_tac|reflexivity].
  cbn [sync_args]. rewrite foldl_app. builder_tac.
Qed.
End SyncProps.

(** ** On the wire *)

Section SyncWire.
Context {HR : Hiredis} {HL : SendLaws HR} {HE : RedisEnv}.

Lemma commit_args args : args_ok args ->
  exists b, Commit (builder_new <<* args) = Ok b /\ committed b (resp_encode args).
Proof.
  intros Hok. pose proof (push_list_building args builder_new [] [] building_new Hok) as Hb.
  destruct Hok as [Hn Hl]. by apply (Commit_frame _ _ _ Hb).
Qed.

(** Thread [t] has the connection [i], whose context is healthy. *)
Record serves (m : RedisMgr) (t : Z) (i : nat) (k : RedisConnection) : Prop := {
  sv_conn : GetRedisConnection t m = Ok (i, m);
  sv_at : s_vecRedisContext m !! i = Some k;
  sv_int : no_interrupt (ctx k);
  sv_err : err (ctx k) = 0
}.

(** The manager after the exchange on connection [i]. *)
Definition after (i : nat) (c : redisContext reader) (w : world) (m : RedisMgr) : RedisMgr :=
  set_net w (set_vec (alter (set_ctx c) i (s_vecRedisContext m)) m).

Lemma exec_exchange args t want m i k : args_ok args -> serves m t i k ->
  (exists c1 w1 n, (n < length (resp_encode args))%nat /\
    wire w1 = wire (net m) ++ take n (resp_encode args) /\
    forall fuel, (length (resp_encode args) < fuel)%nat ->
      exec fuel (builder_new <<* args) t want true m = Ok ((0, None), after i c1 w1 m)) \/
  (exists c1 w1, wire w1 = wire (net m) ++ resp_encode args /\ rd c1 = rd (ctx k) /\ err c1 = 0 /\
    forall e r c2 w2, reads_to c1 w1 e r c2 w2 -> wire w2 = wire (net m) ++ resp_encode args /\
    exists N, forall fuel, (N <= fuel)%nat ->
      exec fuel (builder_new <<* args) t want true m =
        Ok ((0, if want then r else None),
            after i c2 match r with Some a => if want then w2 else freeReplyObject a w2
                                  | None => w2 end m)).
Proof.
  intros Hok [Hi Hk Hn He]. destruct (commit_args args Hok) as (b & Eb & Hb).
  assert (Hexec : forall fuel ret r c' blk' w',
    redisGetReplyInner fuel (set_obuf (_seek b) (ctx k)) (_cmd b) want (net m) = Ok (ret, r, c', blk', w') ->
    exec fuel (builder_new <<* args) t want true m = Ok ((0, r), after i c' w' m)).
  { intros fuel ret r c' blk' w' E. unfold exec. rewrite Eb, (M_bind_Ok _ _ m b m) by done.
    unfold mbind, M_bind. rewrite execCmd_unfold, Hi, send_on_unfold, Hk. unfold sendAndGetReply, IsCommit.
    rewrite (com_commit _ _ Hb). cbn [negb]. rewrite E. done. }
  destruct (redisGetReplyInner_exchange b (resp_encode args) (set_obuf (_seek b) (ctx k)) (net m))
    as [(c1 & blk1 & w1 & n & Hlt & Hw & _ & E)|(c1 & blk1 & w1 & Hw & Hrd & He1 & H)].
  - destruct Hok. constructor; try done. lia.
  - left. exists c1, w1, n. split_and!; [done|done|]. intros fuel Hf.
    by eapply Hexec, E.
  - right. exists c1, w1. split_and!; [done|done|done|]. intros e r c2 w2 Hr.
    destruct (H e r c2 w2 Hr) as (_ & Hw2 & N & E). split; [done|]. exists N. intros fuel Hf.
    by eapply Hexec, E.
Qed.

(** C11: A synchronous call on a healthy connection, for every method and all
    arguments whose encoding an [int32_t] can count.  Either sending fails:
    a proper prefix of the command is on the wire, and the caller gets
    [REDIS_RESULT_OK] with its reference parameters unchanged or reset, as
    if nothing had happened.  Or exactly the Redis encoding of the call's
    command is on the wire and, when reading leads to a reply or an error,
    enough fuel makes the call return what [sync_reply] reads from the reply
    (freed once), or again [REDIS_RESULT_OK] for the error. *)
Theorem sync_call_exchange c t m i k : args_ok (sync_args c) -> serves m t i k ->
  let cmd := resp_encode (sync_args c) in
  (exists c1 w1 n, (n < length cmd)%nat /\ wire w1 = wire (net m) ++ take n cmd /\
    forall fuel, (length cmd < fuel)%nat ->
      run_sync fuel c t m = Ok ((REDIS_RESULT_OK, sync_lost c), after i c1 w1 m)) \/
  (exists c1 w1, wire w1 = wire (net m) ++ cmd /\ rd c1 = rd (ctx k) /\
    forall e r c2 w2, reads_to c1 w1 e r c2 w2 -> wire w2 = wire (net m) ++ cmd /\
    exists N, forall fuel, (N <= fuel)%nat ->
      run_sync fuel c t m =
        match r with
        | Some a => res ← sync_reply c a; Ok (res, after i c2 (freeReplyObject a w2) m)
        | None => Ok ((REDIS_RESULT_OK, sync_lost c), after i c2 w2 m)
        end).
Proof.
  intros Hok Hs cmd. destruct (exec_exchange _ t (sync_wants c) m i k Hok Hs)
    as [(c1 & w1 & n & Hlt & Hw & E)|(c1 & w1 & Hw & Hrd & _ & H)]; [left|right].
  - exists c1, w1, n. split_and!; [done|done|]. intros fuel Hf. rewrite run_sync_spec.
    unfold spec_sync. by rewrite (M_bind_Ok _ _ _ _ _ (E fuel Hf)).
  - exists c1, w1. split_and!; [done|done|]. intros e r c2 w2 Hr.
    destruct (H e r c2 w2 Hr) as (Hw2 & N & E). split; [done|]. exists N. intros fuel Hf.
    rewrite run_sync_spec. unfold spec_sync. rewrite (M_bind_Ok _ _ _ _ _ (E fuel Hf)).
    destruct r as [a|]; [|by destruct (sync_wants c)]. destruct (sync_wants c) eqn:Ew.
    + unfold with_result, mlift, on_net, mget, mput, mret, M_ret, mbind, M_bind, outcome_bind.
      by destruct (sync_reply c a).
    + destruct c; done.
Qed.
End SyncWire.

(** ** Against the Redis documentation *)

(** The specification: the command that the Redis documentation gives for what
    each method is named after (names in upper case, in the documented argument
    order).  It is not taken from the program. *)
Definition redis_doc (c : sync_call) : list bytes :=
  match c with
  | CDel k => [lit "DEL"; k]
  | CGetTTL k _ => [lit "TTL"; k]
  | CSetExpire k seconds => [lit "EXPIRE"; k; fmt_d seconds]
  | CExists k => [lit "EXISTS"; k]
  | CSet k v => [lit "SET"; k; v]
  | CSetStringWithOption k v o ms =>
      [lit "SET"; k; v] ++ (if ms =? 0 then [] else [lit "PX"; fmt_d ms]) ++
      match o with
      | SetCmdOptionType_None => []
      | SetCmdOptionType_NX => [lit "NX"]
      | SetCmdOptionType_XX => [lit "XX"]
      end
  | CGet k _ => [lit "GET"; k]
  | CGetSet k v _ => [lit "GETSET"; k; v]
  | CIncr k _ => [lit "INCR"; k]
  | CIncrby k v _ => [lit "INCRBY"; k; fmt_d v]
  | CDecr k _ => [lit "DECR"; k]
  | CDecrby k v _ => [lit "DECRBY"; k; fmt_d v]
  | CAppend k v _ => [lit "APPEND"; k; v]
  | CMGet ks => lit "MGET" :: ks
  | CMSet m => lit "MSET" :: flat m
  | CHSet k f v => [lit "HSET"; k; f; v]
  | CHSetNx k f v => [lit "HSETNX"; k; f; v]
  | CHMSet k m => lit "HMSET" :: k :: flat m
  | CHGet k f _ => [lit "HGET"; k; f]
  | CHMGet k fs => lit "HMGET" :: k :: fs
  | CHGetAll k => [lit "HGETALL"; k]
  | CHDel k f => [lit "HDEL"; k; f]
  | CHDel_vec k fs => lit "HDEL" :: k :: fs
  | CHLen k _ => [lit "HLEN"; k]
  | CHExists k f _ => [lit "HEXISTS"; k; f]
  | CHIncrby k f v _ => [lit "HINCRBY"; k; f; fmt_d v]
  | CHKeys k => [lit "HKEYS"; k]
  | CHVals k _ => [lit "HVALS"; k]
  | CPushListTail k v _ | CRPush k v _ => [lit "RPUSH"; k; v]
  | CPushListTailBatch k vs _ | CRPush_vec k vs _ => lit "RPUSH" :: k :: vs
  | CGetListByRange k a b => [lit "LRANGE"; k; fmt_d a; fmt_d b]
  | CTrimList k a b => [lit "LTRIM"; k; fmt_d a; fmt_d b]
  | CLPush k v _ => [lit "LPUSH"; k; v]
  | CLPush_vec k vs _ => lit "LPUSH" :: k :: vs
  | CLPushX k v _ => [lit "LPUSHX"; k; v]
  | CLPushX_vec k vs _ => lit "LPUSHX" :: k :: vs
  | CRPushX k v _ => [lit "RPUSHX"; k; v]
  | CRPushX_vec k vs _ => lit "RPUSHX" :: k :: vs
  | CSAdd k v => [lit "SADD"; k; v]
  | CSAdd_vec k vs => lit "SADD" :: k :: vs
  | CSMembers k => [lit "SMEMBERS"; k]
  | CSRem k v => [lit "SREM"; k; v]
  | CSRem_vec k vs => lit "SREM" :: k :: vs
  end.

Definition upper_name (args : list bytes) : list bytes :=
  match args with
  | name :: rest => map upper name :: rest
  | [] => []
  end.

(** The calls that send something else. *)
Definition deviates (c : sync_call) : bool :=
  match c with CSetExpire _ _ | CGetSet _ _ _ | CRPushX_vec _ _ _ => true | _ => false end.

Lemma sync_args_doc c : upper_name (sync_args c) = redis_doc c <-> deviates c = false.
Proof.
  split.
  - destruct c; cbn [deviates]; try done; intros H; discriminate H.
  - destruct c; cbn [deviates]; try done; intros _; reflexivity.
Qed.

Section AgainstDocs.
Context {HR : Hiredis} {HL : SendLaws HR} {HE : RedisEnv}.

Lemma resp_decode_args args : args_ok args -> resp_decode (resp_encode args) = Some (args, []).
Proof.
  intros Hok. pose proof Hok as [Hn _]. rewrite <- (app_nil_r (resp_encode args)).
  apply resp_decode_encode; [lia|]. apply Forall_forall. intros a Ha%list_elem_of_In.
  pose proof (args_ok_arg _ _ Hok Ha). lia.
Qed.

(** What an exchange that returns has put on the wire. *)
Lemma redisGetReplyInner_sent fuel b payload c want w ret r c' blk' w' : writable c b payload (S (length payload)) ->
  redisGetReplyInner fuel c (_cmd b) want w = Ok (ret, r, c', blk', w') ->
  wire w' = wire w ++ payload \/
  exists n, (n < length payload)%nat /\ wire w' = wire w ++ take n payload /\ err c' = REDIS_ERR_IO.
Proof.
  intros Hw E. destruct (writeInner_delivers _ b payload c w Hw)
    as (pre & ret1 & c1 & blk1 & w1 & k & E1 & [Hk Hwire _ _ Hres]). unfold redisGetReplyInner in E.
  rewrite Z.sub_0_r in Hwire. change (Z.to_nat 0) with 0%nat in Hwire. rewrite drop_0 in Hwire.
  destruct (redisBufferWriteInner fuel c (_cmd b) w) as [[[[e2 c2] blk2] w2]| |] eqn:E2;
    cbn [mbind outcome_bind] in E; [|done..].
  assert (HE2 : (e2, c2, blk2, w2) = (ret1, c1, blk1, w1)).
  { pose proof (writeInner_mono _ (fuel + S (length payload)) _ _ _ _ E1 ltac:(lia)) as F1.
    pose proof (writeInner_mono _ (fuel + S (length payload)) _ _ _ _ E2 ltac:(lia)) as F2. congruence. }
  injection HE2 as -> -> -> ->. destruct Hres as [(-> & -> & _)|(-> & Hlt & He)].
  - left. rewrite Nat2Z.id, firstn_all in Hwire. cbn [Z.eqb REDIS_OK REDIS_ERR] in E.
    destruct (read_loop fuel c1 w1) as [[[[e3 aux] c3] w3]| |] eqn:E3; cbn [mbind outcome_bind] in E; [|done..].
    apply read_loop_sound, reads_to_result in E3 as [Hw3 _].
    destruct aux as [a|]; [destruct want|]; injection E as _ _ _ _ <-; rewrite ?free_wire; congruence.
  - right. cbn [Z.eqb REDIS_ERR] in E. injection E as _ _ <- _ <-. exists (Z.to_nat k). split_and!; [lia|done|done].
Qed.

(** C26: What a synchronous call on a healthy connection has sent when it
    returns: the server can read from the wire, after what was there, the
    command that the Redis documentation gives for the method (but for the
    case of its name), exactly when the method is not one of three:
    [SetExpire] leaves out the seconds, [GetSet] the new value, and [RPushX]
    on a vector sends the command of [LPushX].  Otherwise the connection has
    failed, with a proper prefix of the command on the wire. *)
Theorem sync_sends_documented fuel c t m i k r m' : args_ok (sync_args c) -> serves m t i k ->
  run_sync fuel c t m = Ok (r, m') ->
  (exists sent args, wire (net m') = wire (net m) ++ sent /\ resp_decode sent = Some (args, []) /\
     (upper_name args = redis_doc c <-> deviates c = false)) \/
  (exists n k', (n < length (resp_encode (sync_args c)))%nat /\
     wire (net m') = wire (net m) ++ take n (resp_encode (sync_args c)) /\
     s_vecRedisContext m' !! i = Some k' /\ err (ctx k') = REDIS_ERR_IO).
Proof.
  intros Hok [Hi Hk Hn He] E. destruct (commit_args _ Hok) as (b & Eb & Hb).
  rewrite run_sync_spec in E. unfold spec_sync, exec in E.
  apply M_bind_inv in E as ([ret reply] & m1 & E & Er).
  rewrite Eb, (M_bind_Ok _ _ m b m) in E by done.
  apply M_bind_inv in E as ([[code reply'] b'] & m2 & E & Ex). injection Ex as _ -> ->.
  rewrite execCmd_unfold, Hi, send_on_unfold, Hk in E. unfold sendAndGetReply, IsCommit in E.
  rewrite (com_commit _ _ Hb) in E. cbn [negb] in E.
  destruct (redisGetReplyInner fuel (set_obuf (_seek b) (ctx k)) (_cmd b) (sync_wants c) (net m))
    as [[[[[e2 r2] c2] blk2] w2]| |] eqn:Eg; cbn [mbind outcome_bind] in E; [|done..].
  injection E as _ _ _ <-.
  assert (Hsame : wire (net m') = wire w2 /\ s_vecRedisContext m' = alter (set_ctx c2) i (s_vecRedisContext m)).
  { unfold with_result in Er. destruct reply as [a|]; [|by injection Er as _ <-].
    unfold mlift, mbind at 1, M_bind at 1 in Er. destruct (sync_reply c a); cbn [mbind outcome_bind] in Er; [|done..].
    rewrite (M_bind_Ok _ _ _ _ _ (on_net_eq _ _)) in Er. injection Er as _ <-. cbn. by rewrite free_wire. }
  assert (Hw : writable (set_obuf (_seek b) (ctx k)) b (resp_encode (sync_args c))
    (S (length (resp_encode (sync_args c))))) by (destruct Hok; constructor; try done; lia).
  destruct Hsame as [-> ->]. destruct (redisGetReplyInner_sent _ _ _ _ _ _ _ _ _ _ _ Hw Eg) as [Hsent|(n & Hlt & Hsent & Hc)]; [left|right].
  - exists (resp_encode (sync_args c)), (sync_args c). split_and!; [done|by apply resp_decode_args|].
    apply sync_args_doc.
  - exists n. eexists. split_and!; [done|done|by rewrite list_lookup_alter_eq, Hk|done].
Qed.
End AgainstDocs.

(** The calls that do not look at the type of the reply. *)
Definition hides_errors (c : sync_call) : bool :=
  match c with
  | CDel _ | CExists _ | CGetTTL _ _ | CSet _ _ | CSetExpire _ _ | CSetStringWithOption _ _ _ _
  | CHGet _ _ _ => true
  | _ => false
  end.

Lemma sync_reply_error c r : r_type r = REDIS_REPLY_ERROR ->
  exists code, sync_reply c r = Ok (code, sync_lost c) /\
    (code = REDIS_RESULT_OK <-> hides_errors c = true).
Proof.
  intros Ht.
  assert (Hi : GetInteger r = None) by (unfold GetInteger; by rewrite Ht).
  assert (Hs : forall o, GetString r o = (false, o)) by (intros o; unfold GetString; by rewrite Ht).
  assert (Ha : forall o, ParseStringArray r o = (false, o)) by (intros o; unfold ParseStringArray; by rewrite Ht).
  assert (Hm : forall o, ParseStringMap r o = Ok (false, o)) by (intros o; unfold ParseStringMap; by rewrite Ht).
  assert (Ho : IsOK r = false) by (unfold IsOK; by rewrite Ht).
  assert (Hn : IsNil r = false) by (unfold IsNil; by rewrite Ht).
  destruct c; cbn [sync_reply sync_lost hides_errors];
    unfold read_nonzero, read_int, read_u32, read_list, read_str, read_status, read_count;
    rewrite ?Hi, ?Hs, ?Ha, ?Hm, ?Ho, ?Hn; cbn [fst snd other_unless mbind outcome_bind];
    (eexists; split; [reflexivity|split; [discriminate || done|discriminate || done]]).
Qed.

Section ErrorReply.
Context {HR : Hiredis} {HE : RedisEnv}.

(** C27: When the command of a synchronous call has been written and what is
    read for it is an error reply, the call returns, whichever method it is:
    its reference parameters are what they are without a reply, the reply is
    freed, and the error shows in the code except for [Del], [Exists],
    [GetTTL], [Set], [SetExpire], [SetStringWithOption] and [HGet], which
    report success. *)
Theorem sync_error_reply fuel c t m i k b c1 blk1 w1 r c2 w2 :
  GetRedisConnection t m = Ok (i, m) -> s_vecRedisContext m !! i = Some k ->
  Commit (builder_new <<* sync_args c) = Ok b -> IsCommit b = true ->
  redisBufferWriteInner fuel (set_obuf (_seek b) (ctx k)) (_cmd b) (net m) = Ok (REDIS_OK, c1, blk1, w1) ->
  reads_to c1 w1 REDIS_OK (Some r) c2 w2 -> r_type r = REDIS_REPLY_ERROR ->
  exists N code, (code = REDIS_RESULT_OK <-> hides_errors c = true) /\
    forall fuel', (N <= fuel')%nat ->
      run_sync fuel' c t m = Ok ((code, sync_lost c), after i c2 (freeReplyObject r w2) m).
Proof.
  intros Hi Hk Eb Hb Ew Hr Ht. destruct (read_loop_complete _ _ _ _ _ _ Hr) as [n Hn].
  destruct (sync_reply_error c r Ht) as (code & Er & Hcode). exists (fuel + n)%nat, code. split; [done|].
  intros fuel' Hf. rewrite run_sync_spec. unfold spec_sync.
  assert (Ex : exec fuel' (builder_new <<* sync_args c) t (sync_wants c) true m =
    Ok ((0, if sync_wants c then Some r else None),
        after i c2 (if sync_wants c then w2 else freeReplyObject r w2) m)).
  { unfold exec. rewrite Eb, (M_bind_Ok _ _ m b m) by done. unfold mbind, M_bind.
    rewrite execCmd_unfold, Hi, send_on_unfold, Hk. unfold sendAndGetReply. rewrite Hb. cbn [negb].
    unfold redisGetReplyInner. rewrite (writeInner_mono _ fuel' _ _ _ _ Ew) by lia.
    cbn [mbind outcome_bind Z.eqb REDIS_OK REDIS_ERR]. rewrite Hn by lia. cbn [mbind outcome_bind].
    by destruct (sync_wants c). }
  rewrite (M_bind_Ok _ _ _ _ _ Ex). destruct (sync_wants c) eqn:Ewants.
  - unfold with_result, mlift, on_net, mget, mput, mret, M_ret, mbind, M_bind, outcome_bind. by rewrite Er.
  - destruct c; try discriminate Ewants; injection Er as <-; done.
Qed.
End ErrorReply.

(** ** Witnesses *)

Import MgrExample.
#[local] Existing Instances lib env3.

(** A manager whose main connection will deliver the inbox. *)
Definition mgr_get : RedisMgr := set_net (Scripted.world_of [Some (string_reply (lit "v"))]) mgr3.

Lemma mgr_get_serves : exists k, serves mgr_get 0 0 k.
Proof.
  destruct (lookup_lt_is_Some_2 (s_vecRedisContext mgr_get) 0%nat) as [k Hk]; [vm_compute; repeat constructor|].
  assert (Hc : match s_vecRedisContext mgr_get !! 0%nat with
               | Some k => err (ctx k) = 0 /\ fd (ctx k) = 3 /\ flags (ctx k) = REDIS_BLOCK
               | None => False
               end) by (vm_compute; repeat split).
  rewrite Hk in Hc. destruct Hc as (He & Hfd & Hfl). exists k. constructor.
  - exact (proj1 (GetRedisConnection_spec 0 mgr_get mgr3_ok)).
  - exact Hk.
  - exact (no_interrupt_same Scripted.fresh (ctx k) Hfd Hfl no_interrupt_fresh).
  - exact He.
Qed.

Lemma sync_call_exchange_witness : exists c1 w1,
  @wire lib _ w1 = resp_encode [lit "GET"; lit "xuping"] /\
  forall e r c2 w2, @reads_to lib c1 w1 e r c2 w2 -> exists N, forall fuel, (N <= fuel)%nat ->
    is_ok (run_sync fuel (CGet (lit "xuping") []) 0 mgr_get) = true.
Proof.
  destruct mgr_get_serves as [k Hs].
  destruct (sync_call_exchange (CGet (lit "xuping") []) 0 mgr_get 0 k) as
    [(c1 & w1 & n & _ & _ & E)|(c1 & w1 & Hw & _ & H)]; [split; by vm_compute|exact Hs| |].
  - exfalso. specialize (E 60%nat).
    assert (Hr : match run_sync 60 (CGet (lit "xuping") []) 0 mgr_get with
                 | Ok ((_, OStr v), _) => v = lit "v"
                 | _ => False
                 end) by (vm_compute; reflexivity).
    rewrite E in Hr; [discriminate Hr|vm_compute; lia].
  - exists c1, w1. split; [exact Hw|]. intros e r c2 w2 Hr. destruct (H e r c2 w2 Hr) as (_ & N & E).
    exists N. intros fuel Hf. rewrite (E fuel Hf). by destruct r.
Defined.

(** [GetSet] leaves out the new value. *)
Definition getset_call : sync_call := CGetSet (lit "xuping") (lit "new") [].

Lemma getset_run : args_ok (sync_args getset_call) /\ is_ok (run_sync 60 getset_call 0 mgr_get) = true.
Proof. split; [split; by vm_compute|by vm_compute]. Qed.

Lemma sync_sends_documented_witness : exists m', is_ok (run_sync 60 getset_call 0 mgr_get) = true /\
  ((exists sent args, @wire lib _ (net m') = @wire lib _ (net mgr_get) ++ sent /\
      resp_decode sent = Some (args, []) /\ upper_name args <> redis_doc getset_call) \/
   (exists k', s_vecRedisContext m' !! 0%nat = Some k' /\ err (ctx k') = REDIS_ERR_IO)).
Proof.
  destruct mgr_get_serves as [k Hs]. destruct getset_run as [Hok Hrun].
  destruct (is_ok_ex _ Hrun) as [[r m'] E]. exists m'. split; [exact Hrun|].
  refine (match sync_sends_documented 60 getset_call 0 mgr_get 0 k r m' Hok Hs E with
    | or_introl (ex_intro _ sent (ex_intro _ args (conj Hw (conj Hd H)))) =>
        or_introl (ex_intro _ sent (ex_intro _ args (conj Hw (conj Hd _))))
    | or_intror (ex_intro _ n (ex_intro _ k' (conj _ (conj _ Hk)))) => or_intror (ex_intro _ k' Hk)
    end).
  intros Hdoc. discriminate (proj1 H Hdoc).
Defined.

(** A server that answers [INCR] with an error. *)
Definition refused : redisReply := error_reply (lit "ERR value is not an integer").
Definition mgr_error : RedisMgr := set_net (Scripted.world_of [Some refused]) mgr3.

Definition incr_cmd : RedisCmdBuilder :=
  match Commit (builder_new <<* sync_args (CIncr (lit "n") 7)) with Ok b => b | _ => builder_new end.

(** The command is written and the reply read. *)
Lemma error_exchange : exists k c1 blk1 w1 c2 w2, s_vecRedisContext mgr_error !! 0%nat = Some k /\
  redisBufferWriteInner 60 (set_obuf (_seek incr_cmd) (ctx k)) (_cmd incr_cmd) (net mgr_error) =
    Ok (REDIS_OK, c1, blk1, w1) /\ reads_to c1 w1 REDIS_OK (Some refused) c2 w2.
Proof.
  assert (H : match s_vecRedisContext mgr_error !! 0%nat with
    | Some k =>
        match redisBufferWriteInner 60 (set_obuf (_seek incr_cmd) (ctx k)) (_cmd incr_cmd) (net mgr_error) with
        | Ok (e, c1, _, w1) => e = REDIS_OK /\ Scripted.inbox w1 = [Some refused] /\ rd c1 = []
        | _ => False
        end
    | None => False
    end) by (vm_compute; by split_and!).
  destruct (_ !! 0%nat) as [k|]; [|done].
  destruct (redisBufferWriteInner _ _ _ _) as [[[[e c1] blk1] w1]| |] eqn:E; [|done..].
  destruct H as (-> & Hin & Hrd). exists k, c1, blk1, w1. do 2 eexists. split; [done|]. split; [done|].
  eapply reads_reply.
  - cbn. unfold Scripted.BufferRead. rewrite Hin. reflexivity.
  - done.
  - cbn. unfold Scripted.GetReplyFromReader. cbn [rd].
    change (@rd (@reader lib) c1) with (@rd (list redisReply) c1) in *. rewrite Hrd. reflexivity.
  - done.
Qed.

Lemma sync_error_reply_witness : exists N code m',
  code <> REDIS_RESULT_OK /\
  forall fuel, (N <= fuel)%nat -> run_sync fuel (CIncr (lit "n") 7) 0 mgr_error = Ok ((code, OInt 7), m').
Proof.
  destruct error_exchange as (k & c1 & blk1 & w1 & c2 & w2 & Hk & Ew & Hr).
  destruct (sync_error_reply 60 (CIncr (lit "n") 7) 0 mgr_error 0 k incr_cmd c1 blk1 w1 refused c2 w2)
    as (N & code & H & E).
  - exact (proj1 (GetRedisConnection_spec 0 mgr_error mgr3_ok)).
  - exact Hk.
  - vm_compute. reflexivity.
  - vm_compute. reflexivity.
  - exact Ew.
  - exact Hr.
  - reflexivity.
  - exists N, code. eexists. split; [|exact E]. intros Hc. discriminate (proj1 H Hc).
Defined.
