(* ===== verification/RedisTyping.v ===== *)
(** * The types of the synchronous interface (Interface/IRedisMgr.h)

    The model holds integers of every width in [Z].  Here are the types the
    methods of [IRedisSyncCall] declare for their reference parameters, and
    that every call leaves a value of that type in them. *)
From Stdlib Require Import ZArith Lia Ascii.
From stdpp Require Import base numbers list list_numbers strings.
From S2P Require Import Prelude Kernel Resp Hiredis RedisHelper RedisWire RedisMgr RedisMgrProps.
From S2P Require Import RedisSync RedisSyncProps.
Open Scope Z_scope.

(** ** Types *)

Inductive out_type : Type := TNone | TBool | TS32 | TU32 | TS64 | TString | TStringVector | TStringMap.

(** The declared type of the reference parameter. *)
Definition sync_type (c : sync_call) : out_type :=
  match c with
  | CDel _ | CExists _ | CSetStringWithOption _ _ _ _ | CHExists _ _ _ => TBool
  | CGetTTL _ _ => TS32
  | CIncr _ _ | CIncrby _ _ _ | CDecr _ _ | CDecrby _ _ _ | CAppend _ _ _ | CHLen _ _
  | CHIncrby _ _ _ _ => TS64
  | CPushListTail _ _ _ | CPushListTailBatch _ _ _ | CLPush _ _ _ | CLPush_vec _ _ _ | CLPushX _ _ _
  | CLPushX_vec _ _ _ | CRPush _ _ _ | CRPush_vec _ _ _ | CRPushX _ _ _ | CRPushX_vec _ _ _ => TU32
  | CGet _ _ | CGetSet _ _ _ | CHGet _ _ _ => TString
  | CMGet _ | CHMGet _ _ | CHKeys _ | CHVals _ _ | CGetListByRange _ _ _ | CSMembers _ => TStringVector
  | CHGetAll _ => TStringMap
  | _ => TNone
  end.

Inductive has_type : sync_out -> out_type -> Prop :=
  | ty_none : has_type ONone TNone
  | ty_bool b : has_type (OBool b) TBool
  | ty_s32 z : is_s32 z -> has_type (OInt z) TS32
  | ty_u32 z : 0 <= z < 2 ^ 32 -> has_type (OInt z) TU32
  | ty_s64 z : is_s64 z -> has_type (OInt z) TS64
  | ty_string s : has_type (OStr s) TString
  | ty_vector l : has_type (OList l) TStringVector
  | ty_map m : map_sorted m -> has_type (OMap m) TStringMap.

Create HintDb typing.
#[export] Hint Constructors has_type : typing.

(** The values of the reference parameters before the call, which
    [sync_lost] leaves. *)
Definition call_ok (c : sync_call) : Prop := has_type (sync_lost c) (sync_type c).

(** [long long integer]. *)
Definition reply_ok (r : redisReply) : Prop := is_s64 (r_integer r).

(** Every code a call returns. *)
Definition sync_codes : list Z := [REDIS_RESULT_OK; REDIS_RESULT_NODATA; REDIS_ERR_OTHER].

Lemma code_ok : REDIS_OK ∈ sync_codes. Proof. by constructor. Qed.
Lemma code_nodata : REDIS_RESULT_NODATA ∈ sync_codes. Proof. by right; left. Qed.
Lemma code_other : REDIS_ERR_OTHER ∈ sync_codes. Proof. by do 2 right; left. Qed.
Lemma code_unless b : other_unless b ∈ sync_codes.
Proof. destruct b; [exact code_ok|exact code_other]. Qed.
#[export] Hint Resolve code_ok code_nodata code_other code_unless : typing.

Lemma sync_codes_cases z : z ∈ sync_codes ->
  z = REDIS_RESULT_OK \/ z = REDIS_RESULT_NODATA \/ z = REDIS_ERR_OTHER.
Proof. unfold sync_codes. rewrite !elem_of_cons, elem_of_nil. tauto. Qed.

(** ** The readings *)

Definition result_ok (τ : out_type) (res : Z * sync_out) : Prop :=
  fst res ∈ sync_codes /\ has_type (snd res) τ.

Lemma GetInteger_s64 r v : reply_ok r -> GetInteger r = Some v -> is_s64 v.
Proof. unfold GetInteger. destruct (_ =? _); [|done]. by intros H [= <-]. Qed.

Lemma parse_pairs_sorted fuel es i bound m m' :
  parse_pairs fuel es i bound m = Ok m' -> map_sorted m -> map_sorted m'.
Proof.
  revert i m. induction fuel as [|fuel IH]; intros i m; cbn [parse_pairs]; [done|].
  destruct (i <? bound); [|by intros [= <-]].
  destruct (es !! Z.to_nat i) as [k|]; cbn [of_option mbind outcome_bind]; [|done].
  destruct (es !! Z.to_nat (i + 1)) as [v|]; cbn [of_option mbind outcome_bind]; [|done].
  intros E Hm. apply (IH _ _ E). by apply emplace_sorted.
Qed.

Lemma ParseStringMap_sorted r m b m' : ParseStringMap r m = Ok (b, m') -> map_sorted m -> map_sorted m'.
Proof.
  unfold ParseStringMap. destruct (_ =? _); [|by intros [= <- <-]].
  destruct (parse_pairs _ _ _ _ _) as [m1| |] eqn:E; cbn [mbind outcome_bind]; [|done..].
  intros [= <- <-]. by eapply parse_pairs_sorted.
Qed.

Lemma u32_range z : 0 <= u32 z < 2 ^ 32.
Proof. unfold u32, uwrap. apply Z.mod_pos_bound. done. Qed.
#[export] Hint Resolve u32_range s32_range GetInteger_s64 : typing.

(** What a call reads in a reply has the declared type. *)
Lemma sync_reply_typed c r res : call_ok c -> reply_ok r -> sync_reply c r = Ok res ->
  result_ok (sync_type c) res.
Proof.
  intros Hc Hr. unfold call_ok in Hc.
  destruct c; cbn [sync_reply sync_lost sync_type] in *;
    unfold read_nonzero, read_int, read_u32, read_list, read_str, read_status, read_count.
  all: try (destruct (GetInteger r) as [v|] eqn:Ev).
  all: try (destruct (IsNil r)).
  all: try (destruct (ParseStringMap r []) as [[b m]| |] eqn:Em; cbn [mbind outcome_bind]; [|done..]).
  all: intros [= <-]; split; cbn [fst snd]; eauto with typing.
  all: try (by constructor; eapply ParseStringMap_sorted).
  all: repeat case_match; eauto with typing.
Qed.

(** ** The calls *)

(** hiredis stores the integer of a reply in a [long long]. *)
Class TypedReplies (H : Hiredis) : Prop :=
  typed_reply : forall c w e r c' w', redisGetReplyFromReader c w = (e, Some r, c', w') -> reply_ok r.

Section Typing.
Context {HR : Hiredis} {HT : TypedReplies HR} {HE : RedisEnv}.

Lemma read_loop_typed fuel c w e r c' w' : read_loop fuel c w = Ok (e, Some r, c', w') -> reply_ok r.
Proof.
  revert c w. induction fuel as [|fuel IH]; intros c w; cbn [read_loop]; [done|].
  destruct (redisBufferRead c w) as [[e1 c1] w1]. destruct (e1 =? REDIS_ERR); [done|].
  destruct (redisGetReplyFromReader c1 w1) as [[[e2 aux] c2] w2] eqn:E. destruct (e2 =? REDIS_ERR); [done|].
  destruct aux as [r2|]; [|apply IH]. intros [= _ <- _ _]. by eapply typed_reply.
Qed.

Lemma redisGetReplyInner_typed fuel c blk want w e r c' blk' w' :
  redisGetReplyInner fuel c blk want w = Ok (e, Some r, c', blk', w') -> reply_ok r.
Proof.
  unfold redisGetReplyInner.
  destruct (redisBufferWriteInner fuel c blk w) as [[[[e1 c1] blk1] w1]| |]; cbn [mbind outcome_bind]; [|done..].
  destruct (e1 =? REDIS_ERR); [done|].
  destruct (read_loop fuel c1 w1) as [[[[e2 aux] c2] w2]| |] eqn:E; cbn [mbind outcome_bind]; [|done..].
  destruct aux as [r2|]; [|done]. destruct want; [|done]. intros [= _ <- _ _ _]. by eapply read_loop_typed.
Qed.

Lemma exec_typed fuel b t want reSend m ret r m' :
  exec fuel b t want reSend m = Ok ((ret, Some r), m') -> reply_ok r.
Proof.
  unfold exec, mlift, mbind, M_bind. destruct (outcome_bind _ _ _ _) as [[b' m1]| |]; [|done..].
  rewrite execCmd_unfold. destruct (GetRedisConnection t m1) as [[i m2]| |]; [|done..].
  rewrite send_on_unfold. destruct (s_vecRedisContext m2 !! i) as [k|]; [|done]. unfold sendAndGetReply.
  destruct (negb _); [done|].
  destruct (redisGetReplyInner _ _ _ _ _) as [[[[[e1 r1] c1] blk1] w1]| |] eqn:E; cbn [mbind outcome_bind];
    [|done..].
  intros [= _ -> _]. by eapply redisGetReplyInner_typed.
Qed.

(** C9: Every synchronous call that returns leaves in its reference parameter
    a value of the type the interface declares for it (an integer within the
    width of its C++ type, a map with sorted keys), provided the caller's
    value was one; and the code it returns is [REDIS_RESULT_OK],
    [REDIS_RESULT_NODATA] or [REDIS_ERR_OTHER], never [REDIS_RESULT_TIMEOUT]
    and never an I/O error of the connection. *)
Theorem run_sync_typed fuel c t m code out m' : call_ok c ->
  run_sync fuel c t m = Ok ((code, out), m') ->
  has_type out (sync_type c) /\ code ∈ sync_codes /\ code <> REDIS_RESULT_TIMEOUT /\ code <> REDIS_ERR_IO.
Proof.
  intros Hc. rewrite run_sync_spec. unfold spec_sync, mbind, M_bind.
  destruct (exec _ _ _ _ _ m) as [[[ret [r|]] m1]| |] eqn:E; [| |done..].
  - unfold with_result, mlift, on_net, mget, mput, mret, M_ret, mbind, M_bind, outcome_bind.
    destruct (sync_reply c r) as [res| |] eqn:Es; [|done..]. intros [= -> _].
    destruct (sync_reply_typed c r _ Hc (exec_typed _ _ _ _ _ _ _ _ _ E) Es) as [H1 H2].
    split; [exact H2|]. split; [exact H1|]. cbn [fst] in H1. by apply sync_codes_cases in H1 as [-> | [-> | ->]].
  - intros [= <- <- _]. split; [exact Hc|]. split; [exact code_ok|done].
Qed.
End Typing.

(** ** A library with such replies *)

Module TypedExample.
(** A library whose reader keeps the low 64 bits of an integer. *)
Definition narrow (r : redisReply) : redisReply :=
  mkReply (r_type r) (s64 (r_integer r)) (r_dval r) (r_str r) (r_element r).

Definition typed (H : Hiredis) : Hiredis := {|
  world := world;
  reader := reader;
  send := send;
  redisBufferRead := redisBufferRead;
  redisGetReplyFromReader := fun c w =>
    let '(e, r, c, w) := redisGetReplyFromReader c w in (e, narrow <$> r, c, w);
  redisConnectWithTimeout := redisConnectWithTimeout;
  redisCommand := redisCommand;
  redisFree := redisFree;
  freeReplyObject := freeReplyObject;
  strerror_r := strerror_r;
  GetTimeMillisecond := GetTimeMillisecond;
  Sleep := Sleep
|}.

#[export] Instance typed_laws H : TypedReplies (typed H).
Proof.
  intros c w e r c' w'. cbn. destruct (@redisGetReplyFromReader H c w) as [[[e0 [r0|]] c0] w0]; [|done].
  intros [= _ <- _ _]. apply (swrap_range 64). done.
Qed.

Definition lib : Hiredis := typed (Scripted.lib false).
Definition env : RedisEnv := ScriptedEnv.env 3 [].

(** A manager whose main connection will deliver a list length. *)
Definition mgr0 : @RedisMgr lib env := @mgr_start lib env (ScriptedEnv.accepting []).

Definition mgr : @RedisMgr lib env :=
  @set_net lib env (Scripted.world_of [Some (integer_reply (2 ^ 32 + 5))]) (state_of mgr0 (@Initialize lib env mgr0)).
End TypedExample.
Import TypedExample.

Definition pushed : outcome ((Z * sync_out) * @RedisMgr lib env) :=
  @run_sync lib env 60 (CRPush (lit "l") (lit "v") 0) 0 mgr.

Lemma pushed_five : exists m, pushed = Ok ((REDIS_RESULT_OK, OInt 5), m).
Proof.
  assert (H : match pushed with
              | Ok (res, _) => res = (REDIS_RESULT_OK, OInt 5)
              | _ => False
              end) by (vm_compute; reflexivity).
  destruct pushed as [[res m]| |]; [|done..]. subst res. by exists m.
Qed.

Lemma run_sync_typed_witness :
  exists m, pushed = Ok ((REDIS_RESULT_OK, OInt 5), m) /\ has_type (OInt 5) TU32.
Proof.
  destruct pushed_five as [m E]. exists m. split; [exact E|].
  unfold pushed in E. assert (Hc : call_ok (CRPush (lit "l") (lit "v") 0)) by (apply ty_u32; lia).
  exact (proj1 (@run_sync_typed lib (typed_laws (Scripted.lib false)) env 60 (CRPush (lit "l") (lit "v") 0) 0
    mgr REDIS_RESULT_OK (OInt 5) m Hc E)).
Defined.
