(* ===== verification/RedisAsync.v ===== *)
(** * The asynchronous Redis commands (RedisMgr/RedisAsyncCall.h, RedisAsyncCall.cpp)

    Every method builds and commits a command and queues it for the connection
    of its task id.  The out parameters some methods take are never written. *)
From Stdlib Require Import ZArith Lia Ascii.
From stdpp Require Import base numbers list list_numbers strings.
From S2P Require Import Prelude Kernel Resp Hiredis RedisHelper RedisWire RedisProfile RedisMgr.
From S2P Require Import RedisMgrProps RedisSync RedisSyncProps.
Open Scope Z_scope.
#[local] Open Scope seed_scope.

Section Async.
Context {HR : Hiredis} {HE : RedisEnv}.

Definition AsyncDel (taskId : Z) (strKey : bytes) : M RedisMgr Z :=
  cmdBuilder ← mlift (Commit (builder_new <<c "DEL" <<s strKey));
  addAsyncTask taskId cmdBuilder;;
  mret REDIS_RESULT_OK.

Definition AsyncSet (taskId : Z) (strKey strVal : bytes) : M RedisMgr Z :=
  cmdBuilder ← mlift (Commit (builder_new <<c "SET" <<s strKey <<s strVal));
  addAsyncTask taskId cmdBuilder;;
  mret REDIS_RESULT_OK.

Definition AsyncSetStringWithOption (taskId : Z) (strKey strValue : bytes)
    (iOption : SetCmdOptionType) (iExpireMS : Z) : M RedisMgr Z :=
  let cmdBuilder := builder_new <<c "SET" <<s strKey in
  let cmdBuilder := if negb (iExpireMS =? 0) then cmdBuilder <<c "PX" <<n iExpireMS
                    else cmdBuilder in
  let cmdBuilder := if bool_decide (iOption = SetCmdOptionType_NX) then cmdBuilder <<c "NX"
                    else cmdBuilder in
  let cmdBuilder := if bool_decide (iOption = SetCmdOptionType_XX) then cmdBuilder <<c "EX"
                    else cmdBuilder in
  cmdBuilder ← mlift (Commit cmdBuilder);
  addAsyncTask taskId cmdBuilder;;
  mret REDIS_RESULT_OK.

Definition AsyncIncr (taskId : Z) (strKey : bytes) : M RedisMgr Z :=
  cmdBuilder ← mlift (Commit (builder_new <<c "INCR" <<s strKey));
  addAsyncTask taskId cmdBuilder;;
  mret REDIS_RESULT_OK.

Definition AsyncIncrby (taskId : Z) (strKey : bytes) (iVal : Z) : M RedisMgr Z :=
  cmdBuilder ← mlift (Commit (builder_new <<c "INCRBY" <<s strKey <<n iVal));
  addAsyncTask taskId cmdBuilder;;
  mret REDIS_RESULT_OK.

Definition AsyncDecr (taskId : Z) (strKey : bytes) : M RedisMgr Z :=
  cmdBuilder ← mlift (Commit (builder_new <<c "DECR" <<s strKey));
  addAsyncTask taskId cmdBuilder;;
  mret REDIS_RESULT_OK.

Definition AsyncDecrby (taskId : Z) (strKey : bytes) (iVal : Z) : M RedisMgr Z :=
  cmdBuilder ← mlift (Commit (builder_new <<c "DECRBy" <<s strKey <<n iVal));
  addAsyncTask taskId cmdBuilder;;
  mret REDIS_RESULT_OK.

Definition AsyncHSet (taskId : Z) (strKey strFiled strVal : bytes) : M RedisMgr Z :=
  cmdBuilder ← mlift (Commit (builder_new <<c "HSET" <<s strKey <<s strFiled <<s strVal));
  addAsyncTask taskId cmdBuilder;;
  mret REDIS_RESULT_OK.

Definition AsyncHSetNx (taskId : Z) (strKey strFiled strVal : bytes) : M RedisMgr Z :=
  cmdBuilder ← mlift (Commit (builder_new <<c "HSETNX" <<s strKey <<s strFiled <<s strVal));
  addAsyncTask taskId cmdBuilder;;
  mret REDIS_RESULT_OK.

Definition AsyncHMSet (taskId : Z) (strKey : bytes) (mapFiledVals : StringMap) : M RedisMgr Z :=
  cmdBuilder ← mlift (Commit (push_map (builder_new <<c "HMSET" <<s strKey) mapFiledVals));
  addAsyncTask taskId cmdBuilder;;
  mret REDIS_RESULT_OK.

Definition AsyncPushListBack (taskId : Z) (strKey strValue : bytes) : M RedisMgr Z :=
  cmdBuilder ← mlift (Commit (builder_new <<c "RPUSH" <<s strKey <<s strValue));
  addAsyncTask taskId cmdBuilder;;
  mret REDIS_RESULT_OK.

Definition AsyncPushListBackBatch (taskId : Z) (strKey : bytes) (vecValue : list bytes) : M RedisMgr Z :=
  cmdBuilder ← mlift (Commit (builder_new <<c "RPUSH" <<s strKey <<* vecValue));
  addAsyncTask taskId cmdBuilder;;
  mret REDIS_RESULT_OK.

Definition AsyncTrimList (taskId : Z) (strKey : bytes) (iStartIndex iStopIndex : Z) : M RedisMgr Z :=
  cmdBuilder ← mlift (Commit (builder_new <<c "LPUSH" <<s strKey <<n iStartIndex <<n iStopIndex));
  addAsyncTask taskId cmdBuilder;;
  mret REDIS_RESULT_OK.

Definition AsyncSAdd (taskId : Z) (strKey member : bytes) : M RedisMgr Z :=
  cmdBuilder ← mlift (Commit (builder_new <<c "SADD" <<s strKey <<s member));
  addAsyncTask taskId cmdBuilder;;
  mret REDIS_RESULT_OK.

Definition AsyncSAdd_vec (taskId : Z) (strKey : bytes) (vecMembers : list bytes) : M RedisMgr Z :=
  cmdBuilder ← mlift (Commit (builder_new <<c "SADD" <<s strKey <<* vecMembers));
  addAsyncTask taskId cmdBuilder;;
  mret REDIS_RESULT_OK.

Definition AsyncSRem (taskId : Z) (strKey strMember : bytes) : M RedisMgr Z :=
  cmdBuilder ← mlift (Commit (builder_new <<c "SREM" <<s strKey <<s strMember));
  addAsyncTask taskId cmdBuilder;;
  mret REDIS_RESULT_OK.
End Async.

(** ** The calls *)

Inductive async_call : Type :=
  | ADel (k : bytes)
  | ASet (k v : bytes)
  | ASetStringWithOption (k v : bytes) (o : SetCmdOptionType) (ms : Z)
  | AIncr (k : bytes)
  | AIncrby (k : bytes) (v : Z)
  | ADecr (k : bytes)
  | ADecrby (k : bytes) (v : Z)
  | AHSet (k f v : bytes)
  | AHSetNx (k f v : bytes)
  | AHMSet (k : bytes) (m : StringMap)
  | APushListBack (k v : bytes)
  | APushListBackBatch (k : bytes) (vs : list bytes)
  | ATrimList (k : bytes) (start stop : Z)
  | ASAdd (k v : bytes)
  | ASAdd_vec (k : bytes) (vs : list bytes)
  | ASRem (k v : bytes).

(** The synchronous method of the same purpose. *)
Definition sync_of (c : async_call) : sync_call :=
  match c with
  | ADel k => CDel k
  | ASet k v => CSet k v
  | ASetStringWithOption k v o ms => CSetStringWithOption k v o ms
  | AIncr k => CIncr k 0
  | AIncrby k v => CIncrby k v 0
  | ADecr k => CDecr k 0
  | ADecrby k v => CDecrby k v 0
  | AHSet k f v => CHSet k f v
  | AHSetNx k f v => CHSetNx k f v
  | AHMSet k m => CHMSet k m
  | APushListBack k v => CPushListTail k v 0
  | APushListBackBatch k vs => CPushListTailBatch k vs 0
  | ATrimList k a b => CTrimList k a b
  | ASAdd k v => CSAdd k v
  | ASAdd_vec k vs => CSAdd_vec k vs
  | ASRem k v => CSRem k v
  end.

(** The command each call queues. *)
Definition async_args (c : async_call) : list bytes :=
  match c with
  | ASetStringWithOption k v o ms =>
      [lit "SET"; k] ++ (if ms =? 0 then [] else [lit "PX"; fmt_d ms]) ++
      match o with
      | SetCmdOptionType_None => []
      | SetCmdOptionType_NX => [lit "NX"]
      | SetCmdOptionType_XX => [lit "EX"]
      end
  | ATrimList k a b => [lit "LPUSH"; k; fmt_d a; fmt_d b]
  | _ => sync_args (sync_of c)
  end.

Section AsyncProps.
Context {HR : Hiredis} {HE : RedisEnv}.

Definition run_async (c : async_call) (taskId : Z) : M RedisMgr Z :=
  match c with
  | ADel k => AsyncDel taskId k
  | ASet k v => AsyncSet taskId k v
  | ASetStringWithOption k v o ms => AsyncSetStringWithOption taskId k v o ms
  | AIncr k => AsyncIncr taskId k
  | AIncrby k v => AsyncIncrby taskId k v
  | ADecr k => AsyncDecr taskId k
  | ADecrby k v => AsyncDecrby taskId k v
  | AHSet k f v => AsyncHSet taskId k f v
  | AHSetNx k f v => AsyncHSetNx taskId k f v
  | AHMSet k m => AsyncHMSet taskId k m
  | APushListBack k v => AsyncPushListBack taskId k v
  | APushListBackBatch k vs => AsyncPushListBackBatch taskId k vs
  | ATrimList k a b => AsyncTrimList taskId k a b
  | ASAdd k v => AsyncSAdd taskId k v
  | ASAdd_vec k vs => AsyncSAdd_vec taskId k vs
  | ASRem k v => AsyncSRem taskId k v
  end.

Lemma async_options b o ms :
  (let cmdBuilder := if negb (ms =? 0) then b <<c "PX" <<n ms else b in
   let cmdBuilder := if bool_decide (o = SetCmdOptionType_NX) then cmdBuilder <<c "NX" else cmdBuilder in
   if bool_decide (o = SetCmdOptionType_XX) then cmdBuilder <<c "EX" else cmdBuilder)
  = b <<* ((if ms =? 0 then [] else [lit "PX"; fmt_d ms]) ++
           match o with
           | SetCmdOptionType_None => []
           | SetCmdOptionType_NX => [lit "NX"]
           | SetCmdOptionType_XX => [lit "EX"]
           end).
Proof.
  destruct (ms =? 0), o; cbn [negb app foldl]; rewrite ?bool_decide_eq_true_2 by done;
    rewrite ?bool_decide_eq_false_2 by done; unfold push_num;
    rewrite ?push_cstr_string by (repeat constructor; discriminate); reflexivity.
Qed.

(** Every call queues its committed command. *)
Lemma run_async_spec c taskId m :
  run_async c taskId m =
    (b ← mlift (Commit (builder_new <<* async_args c)); addAsyncTask taskId b;; mret REDIS_RESULT_OK) m.
Proof.
  destruct c; cbn [run_async async_args sync_of sync_args];
    unfold AsyncDel, AsyncSet, AsyncIncr, AsyncIncrby, AsyncDecr, AsyncDecrby, AsyncHSet, AsyncHSetNx,
      AsyncHMSet, AsyncPushListBack, AsyncPushListBackBatch, AsyncTrimList, AsyncSAdd, AsyncSAdd_vec,
      AsyncSRem, push_num; rewrite ?push_map_flat; cbn [foldl app].
  all: rewrite ?push_cstr_string by (repeat constructor; discriminate); try reflexivity.
  unfold AsyncSetStringWithOption. rewrite async_options.
  by rewrite push_cstr_string by (repeat constructor; discriminate).
Qed.

(** C28: An asynchronous call on a manager with connections: it returns
    [REDIS_RESULT_OK] at once, nothing goes to the wire, and the connection
    of the task id has one more pending command: a committed builder that
    holds the encoding of the call's command.  No task is handed to the
    queue: the condition that would do it assigns [false].  That command is the one of
    the synchronous method, except for [AsyncSetStringWithOption] (the value
    is missing) and [AsyncTrimList] (it pushes the two indexes). *)
Theorem async_call_queues c taskId m : mgr_ok m -> args_ok (async_args c) ->
  (exists b k m', let i := Z.to_nat ((taskId mod 2 ^ 64) mod s_connectNum m + 1) in
    run_async c taskId m = Ok (REDIS_RESULT_OK, m') /\ committed b (resp_encode (async_args c)) /\
    s_vecRedisContext m !! i = Some k /\
    (exists k', s_vecRedisContext m' !! i = Some k' /\
       _threadCmdList k' = insertHead (_threadCmdList k) b) /\
    started m' = started m /\ net m' = net m) /\
  (async_args c = sync_args (sync_of c) <->
   match c with ASetStringWithOption _ _ _ _ | ATrimList _ _ _ => False | _ => True end).
Proof.
  intros Hm Hok. split.
  2:{ destruct c; try done; split; try done; cbn [async_args sync_of sync_args].
      unfold option_args. intros H. apply (f_equal length) in H. rewrite !length_app in H. cbn in H.
      destruct o; cbn in H; lia. }
  destruct (commit_args _ Hok) as (b & Eb & Hb).
  destruct (addAsyncTask_effect taskId b m Hm) as (k & m' & Hk & E & Hv & Hs & Hn).
  exists b, k, m'. split.
  { rewrite run_async_spec, Eb. unfold mlift, mbind, M_bind, outcome_bind. by rewrite E. }
  split_and!; [done|done| |done|done]. eexists. split.
  - rewrite Hv. apply list_lookup_insert_eq. by eapply lookup_lt_Some.
  - done.
Qed.
End AsyncProps.

Import MgrExample.
#[local] Existing Instances lib env3.

Lemma async_call_queues_witness : exists b m,
  run_async (AHSet (lit "h") (lit "f") (lit "v")) 1 mgr3 = Ok (REDIS_RESULT_OK, m) /\
  committed b (resp_encode [lit "HSET"; lit "h"; lit "f"; lit "v"]) /\ started m = started mgr3.
Proof.
  destruct (async_call_queues (AHSet (lit "h") (lit "f") (lit "v")) 1 mgr3 mgr3_ok)
    as [(b & k & m & E & Hb & _ & _ & Hs & _) _]; [split; by vm_compute|].
  exists b, m. split; [exact E|split; [exact Hb|exact Hs]].
Defined.
