(* ===== verification/RedisStore.v ===== *)
(** * What a Redis server does with a command

    The server is not in the repository.  [redis_effect] is what its command
    reference documents of the commands the interface sends: the reply and the
    stored data afterwards, for values of the right type.  What it leaves open
    or what is not needed is not described.  Time passes only between commands
    ([elapse]). *)
From Stdlib Require Import ZArith Lia Ascii.
From stdpp Require Import base numbers list list_numbers strings gmap sorting.
From S2P Require Import Prelude Kernel Resp Hiredis RedisHelper RedisWire.
Open Scope Z_scope.

(** ** Values and replies *)

(** [RTemp]: a string with the milliseconds it has left. *)
Inductive rvalue : Type :=
  | RStr (s : bytes)
  | RTemp (s : bytes) (ms : Z)
  | RHash (h : gmap bytes bytes)
  | RList (l : list bytes)
  | RSet (s : gset bytes).

Definition store : Type := gmap bytes rvalue.

(** The reply: a given one, an array in an order the server chooses, or an
    error whatever its text. *)
Inductive reply_spec : Type :=
  | Exactly (r : redisReply)
  | AnyOrder (l : list bytes)
  | AnyError.

Definition strings (l : list bytes) : redisReply := array_reply (map string_reply l).

Inductive matches : reply_spec -> redisReply -> Prop :=
  | match_exactly r : matches (Exactly r) r
  | match_order l l' : l ≡ₚ l' -> matches (AnyOrder l) (strings l')
  | match_error msg : matches AnyError (error_reply msg).

Definition OK_reply : redisReply := status_reply (lit "OK").

(** [nil], or a string. *)
Definition bulk (o : option bytes) : redisReply := from_option string_reply nil_reply o.

(** ** Commands *)

Inductive command : Type :=
  | DEL | EXISTS | TTL | EXPIRE | SET | GET | GETSET | APPEND | INCRBY | HSET | HSETNX | HGET | HMSET | HMGET
  | HGETALL | HDEL | HLEN | HEXISTS | HINCRBY | HKEYS | HVALS | LPUSH | LPUSHX | RPUSH | RPUSHX | LRANGE
  | LTRIM | SADD | SREM | SMEMBERS.

Definition command_names : list (bytes * command) :=
  [(lit "DEL", DEL); (lit "EXISTS", EXISTS); (lit "TTL", TTL); (lit "EXPIRE", EXPIRE);
   (lit "SET", SET); (lit "GET", GET); (lit "GETSET", GETSET); (lit "APPEND", APPEND);
   (lit "INCRBY", INCRBY); (lit "HSET", HSET); (lit "HSETNX", HSETNX); (lit "HGET", HGET);
   (lit "HMSET", HMSET); (lit "HMGET", HMGET); (lit "HGETALL", HGETALL); (lit "HDEL", HDEL); (lit "HLEN", HLEN);
   (lit "HEXISTS", HEXISTS); (lit "HINCRBY", HINCRBY); (lit "HKEYS", HKEYS); (lit "HVALS", HVALS);
   (lit "LPUSH", LPUSH); (lit "LPUSHX", LPUSHX); (lit "RPUSH", RPUSH); (lit "RPUSHX", RPUSHX);
   (lit "LRANGE", LRANGE); (lit "LTRIM", LTRIM); (lit "SADD", SADD); (lit "SREM", SREM);
   (lit "SMEMBERS", SMEMBERS)].

Fixpoint find_command (name : bytes) (l : list (bytes * command)) : option command :=
  match l with
  | [] => None
  | (n, c) :: l' => if bool_decide (n = name) then Some c else find_command name l'
  end.

(** The value of a key as a hash, a list or a set; a missing key is an empty
    one, another type is an error. *)
Definition as_hash (v : option rvalue) : option (gmap bytes bytes) :=
  match v with None => Some ∅ | Some (RHash h) => Some h | _ => None end.
Definition as_list (v : option rvalue) : option (list bytes) :=
  match v with None => Some [] | Some (RList l) => Some l | _ => None end.
Definition as_set (v : option rvalue) : option (gset bytes) :=
  match v with None => Some ∅ | Some (RSet s) => Some s | _ => None end.

(** A hash, a list or a set that gets empty is removed. *)
Definition of_hash (h : gmap bytes bytes) : option rvalue := if bool_decide (h = ∅) then None else Some (RHash h).
Definition of_list (l : list bytes) : option rvalue := if bool_decide (l = []) then None else Some (RList l).
Definition of_set (s : gset bytes) : option rvalue := if bool_decide (s = ∅) then None else Some (RSet s).

Definition flag (b : bool) : redisReply := integer_reply (if b then 1 else 0).
Definition count {A} (l : list A) : redisReply := integer_reply (Z.of_nat (length l)).

(** Field and value in turn. *)
Fixpoint put_fields (l : list bytes) (h : gmap bytes bytes) : option (gmap bytes bytes) :=
  match l with
  | [] => Some h
  | f :: v :: l' => put_fields l' (<[f := v]> h)
  | [_] => None
  end.

(** A 64-bit integer held as text.  Its decimal form alone is accepted: 007,
    +7 and -0 are no integers to Redis. *)
Definition number (b : bytes) : option Z :=
  n ← parse_d b; if bool_decide (is_s64 n /\ fmt_d n = b) then Some n else None.

Lemma number_fmt_d z : is_s64 z -> number (fmt_d z) = Some z.
Proof.
  intros Hz. unfold number. rewrite parse_fmt_d by (unfold is_s64 in Hz; lia). cbn [mbind option_bind].
  by rewrite bool_decide_eq_true_2.
Qed.

Example number_canonical : map number [lit "42"; lit "-7"; lit "007"; lit "+7"; lit "-0"; lit ""] =
  [Some 42; Some (-7); None; None; None; None].
Proof. reflexivity. Qed.

(** The elements from [start] to [stop], both included and negative ones
    counted from the end. *)
Definition index_of (n i : Z) : Z := if i <? 0 then n + i else i.
Definition range {A} (start stop : Z) (l : list A) : list A :=
  let n := Z.of_nat (length l) in
  let a := Z.max 0 (index_of n start) in
  let b := Z.min (n - 1) (index_of n stop) in
  take (Z.to_nat (b - a + 1)) (drop (Z.to_nat a) l).

(** A counter after an increment. *)
Definition incremented (cur : option bytes) (by_ : bytes) : option Z :=
  n ← number (default (lit "0") cur); k ← number by_;
  if bool_decide (is_s64 (n + k)) then Some (n + k) else None.

(** Whether SET applies: NX and XX. *)
Definition set_applies (opts : list bytes) (present : bool) : option bool :=
  match opts with
  | [] => Some true
  | [o] => if bool_decide (o = lit "NX") then Some (negb present)
           else if bool_decide (o = lit "XX") then Some present else None
  | _ => None
  end.

(** The options of SET behind the value: an expiry, which must be positive,
    and the others. *)
Definition set_options (opts : list bytes) : option (option Z * list bytes) :=
  match opts with
  | o :: ms :: opts' =>
      if bool_decide (o = lit "PX") then
        n ← number ms; if 0 <? n then Some (Some n, opts') else None
      else None
  | _ => Some (None, opts)
  end.

Definition set_value (ttl : option Z) (s : bytes) : rvalue := from_option (RTemp s) (RStr s) ttl.

(** Adding to a list, at its head or its tail; the variants with X only to one
    that exists. *)
Definition push_effect (head only : bool) (args : list bytes) (v : option rvalue)
    : option (reply_spec * option rvalue) :=
  l ← as_list v;
  if only && bool_decide (v = None) then Some (Exactly (integer_reply 0), v)
  else let l := if head then rev args ++ l else l ++ args in Some (Exactly (count l), Some (RList l)).

(** Seconds left, rounded; -1 without an expiry, -2 without the key. *)
Definition ttl_reply (v : option rvalue) : redisReply :=
  integer_reply match v with None => -2 | Some (RTemp _ ms) => (ms + 500) / 1000 | Some _ => -1 end.

(** The command with its arguments behind the key, on the key's value.  A
    command that lacks its argument is an error. *)
Definition effect (c : command) (args : list bytes) (v : option rvalue) : option (reply_spec * option rvalue) :=
  match c, args with
  | DEL, [] => Some (Exactly (flag (bool_decide (is_Some v))), None)
  | EXISTS, [] => Some (Exactly (flag (bool_decide (is_Some v))), v)
  | SET, s :: opts =>
      '(ttl, opts) ← set_options opts;
      applies ← set_applies opts (bool_decide (is_Some v));
      Some (if applies : bool then (Exactly OK_reply, Some (set_value ttl s)) else (Exactly nil_reply, v))
  | GET, [] =>
      match v with
      | None => Some (Exactly nil_reply, v)
      | Some (RStr s) | Some (RTemp s _) => Some (Exactly (string_reply s), v)
      | _ => None
      end
  | TTL, [] => Some (Exactly (ttl_reply v), v)
  | EXPIRE, [] | GETSET, [] => Some (AnyError, v)
  | EXPIRE, [seconds] =>
      n ← number seconds;
      match v with
      | None => Some (Exactly (flag false), v)
      | Some (RStr s) | Some (RTemp s _) =>
          if 0 <? n then Some (Exactly (flag true), Some (RTemp s (1000 * n))) else None
      | _ => None
      end
  | GETSET, [s] =>
      match v with
      | None => Some (Exactly nil_reply, Some (RStr s))
      | Some (RStr s0) | Some (RTemp s0 _) => Some (Exactly (string_reply s0), Some (RStr s))
      | _ => None
      end
  | APPEND, [s] =>
      match v with
      | None => Some (Exactly (count s), Some (RStr s))
      | Some (RStr s0) => Some (Exactly (count (s0 ++ s)), Some (RStr (s0 ++ s)))
      | _ => None
      end
  | INCRBY, [by_] =>
      match v with
      | None => n ← incremented None by_; Some (Exactly (integer_reply n), Some (RStr (fmt_d n)))
      | Some (RStr s) =>
          match number s with
          | Some _ => n ← incremented (Some s) by_; Some (Exactly (integer_reply n), Some (RStr (fmt_d n)))
          | None => Some (AnyError, v)
          end
      | _ => None
      end
  | HSET, [f; s] =>
      h ← as_hash v; Some (Exactly (flag (bool_decide (h !! f = None))), Some (RHash (<[f := s]> h)))
  | HSETNX, [f; s] =>
      h ← as_hash v;
      Some (if bool_decide (h !! f = None) then (Exactly (flag true), Some (RHash (<[f := s]> h)))
            else (Exactly (flag false), v))
  | HGET, [f] => h ← as_hash v; Some (Exactly (bulk (h !! f)), v)
  | HMSET, _ :: _ => h ← as_hash v; h' ← put_fields args h; Some (Exactly OK_reply, Some (RHash h'))
  | HMGET, _ :: _ => h ← as_hash v; Some (Exactly (array_reply (map (fun f => bulk (h !! f)) args)), v)
  | HGETALL, [] =>
      h ← as_hash v;
      match map_to_list h with
      | [] => Some (Exactly (strings []), v)
      | [(f, s)] => Some (Exactly (strings [f; s]), v)
      | _ => None
      end
  | HDEL, _ :: _ =>
      h ← as_hash v; let h' := foldr delete h args in
      Some (Exactly (integer_reply (Z.of_nat (size h) - Z.of_nat (size h'))), of_hash h')
  | HVALS, [] => h ← as_hash v; Some (AnyOrder (map snd (map_to_list h)), v)
  | HLEN, [] => h ← as_hash v; Some (Exactly (integer_reply (Z.of_nat (size h))), v)
  | HEXISTS, [f] => h ← as_hash v; Some (Exactly (flag (bool_decide (is_Some (h !! f)))), v)
  | HINCRBY, [f; by_] =>
      h ← as_hash v; n ← incremented (h !! f) by_;
      Some (Exactly (integer_reply n), Some (RHash (<[f := fmt_d n]> h)))
  | HKEYS, [] => h ← as_hash v; Some (AnyOrder (elements (dom h)), v)
  | LPUSH, _ :: _ => push_effect true false args v
  | LPUSHX, _ :: _ => push_effect true true args v
  | RPUSH, _ :: _ => push_effect false false args v
  | RPUSHX, _ :: _ => push_effect false true args v
  | LRANGE, [a; b] =>
      l ← as_list v; i ← number a; j ← number b; Some (Exactly (strings (range i j l)), v)
  | LTRIM, [a; b] =>
      l ← as_list v; i ← number a; j ← number b; Some (Exactly OK_reply, of_list (range i j l))
  | SADD, _ :: _ =>
      s ← as_set v; let new := list_to_set args ∖ s in
      Some (Exactly (integer_reply (Z.of_nat (size new))), Some (RSet (s ∪ new)))
  | SREM, _ :: _ =>
      s ← as_set v; let old := s ∩ list_to_set args in
      Some (Exactly (integer_reply (Z.of_nat (size old))), of_set (s ∖ old))
  | SMEMBERS, [] => s ← as_set v; Some (AnyOrder (elements s), v)
  | _, _ => None
  end.

(** INCR, DECR and DECRBY are INCRBY; command names are not case sensitive. *)
Definition negated (by_ : bytes) : bytes := match number by_ with Some n => fmt_d (- n) | None => by_ end.

Definition decode_command (name : bytes) (args : list bytes) : option (command * list bytes) :=
  let name := map upper name in
  if bool_decide (name = lit "INCR") then (if bool_decide (args = []) then Some (INCRBY, [lit "1"]) else None)
  else if bool_decide (name = lit "DECR") then (if bool_decide (args = []) then Some (INCRBY, [lit "-1"]) else None)
  else if bool_decide (name = lit "DECRBY") then
    match args with [by_] => Some (INCRBY, [negated by_]) | _ => None end
  else c ← find_command name command_names; Some (c, args).

(** A command on the value of its key. *)
Definition key_effect (cmd : list bytes) (v : option rvalue) : option (reply_spec * option rvalue) :=
  match cmd with
  | name :: _ :: args => '(c, args) ← decode_command name args; effect c args v
  | _ => None
  end.

(** Commands on several keys: MGET has a nil for what is not a string, MSET
    takes keys and values in turn. *)
Definition string_of (v : option rvalue) : option bytes :=
  match v with Some (RStr s) | Some (RTemp s _) => Some s | _ => None end.

Fixpoint put_keys (l : list bytes) (st : store) : option store :=
  match l with
  | [] => Some st
  | k :: v :: l' => put_keys l' (<[k := RStr v]> st)
  | [_] => None
  end.

Definition multi_effect (name : bytes) (args : list bytes) (st : store) : option (reply_spec * store) :=
  if bool_decide (map upper name = lit "MGET") then
    Some (Exactly (array_reply (map (fun k => bulk (string_of (st !! k))) args)), st)
  else if bool_decide (map upper name = lit "MSET") then
    st' ← put_keys args st; Some (Exactly OK_reply, st')
  else None.

(** The effect on the whole store; [None] is what is not described. *)
Definition redis_effect (cmd : list bytes) (st : store) : option (reply_spec * store) :=
  match cmd with
  | name :: k :: rest =>
      match key_effect cmd (st !! k) with
      | Some (sp, v) => Some (sp, partial_alter (fun _ => v) k st)
      | None => multi_effect name (k :: rest) st
      end
  | _ => None
  end.

(** ** Time *)

(** A value after [ms] milliseconds. *)
Definition elapse_value (ms : Z) (v : rvalue) : option rvalue :=
  match v with
  | RTemp s ttl => if ms <? ttl then Some (RTemp s (ttl - ms)) else None
  | _ => Some v
  end.

Definition elapse (ms : Z) (st : store) : store := omap (elapse_value ms) st.

Lemma lookup_elapse ms st k : elapse ms st !! k = (v ← st !! k; elapse_value ms v).
Proof. apply lookup_omap. Qed.
