(* ===== verification/RedisPeer.v ===== *)
(** * A connection with a Redis server at its other end

    [RedisPeer] is the assumption: bytes handed to [send] on the connection
    reach the server, and when they are whole commands, reading delivers the
    server's replies to them in order.  Under it one exchange of the wrapper
    and one pipeline always succeed.  [SharedRedis] is the assumption for
    several connections with one server.  [StoreServer] is a concrete library
    with such a server. *)
From Stdlib Require Import ZArith Lia Ascii.
From stdpp Require Import base numbers list list_numbers strings gmap.
From S2P Require Import Prelude Kernel Resp Hiredis RedisHelper RedisWire RedisMgr.
From S2P Require Import RedisMgrProps RedisStore.
Open Scope Z_scope.

(** [talking c w st buf]: on the connection [c], in the world [w], is a server
    that stores [st] and has received [buf], of which nothing is answered.
    [answering c w st buf] is the same while replies are collected: those to
    [buf] may already be in the reader.  The store is the one the next reply
    finds. *)
Class RedisPeer (H : Hiredis) : Type := {
  talking : redisContext reader -> world -> store -> bytes -> Prop;
  talking_ready : forall c w st buf, talking c w st buf -> no_interrupt c /\ err c = 0;
  talking_obuf : forall o c w st buf, talking c w st buf -> talking (set_obuf o c) w st buf;
  talking_send : forall c w st buf data n e w', talking c w st buf -> data <> [] ->
    send (fd c) data w = (n, e, w') ->
    0 < n <= Z.of_nat (length data) /\ talking c w' st (buf ++ take (Z.to_nat n) data);
  talking_reply : forall c w st cmd sp st', talking c w st (resp_encode cmd) -> args_ok cmd ->
    redis_effect cmd st = Some (sp, st') ->
    exists r c' w', reads_to c w REDIS_OK (Some r) c' w' /\ matches sp r /\ talking c' w' st' [];
  answering : redisContext reader -> world -> store -> bytes -> Prop;
  answering_start : forall c w st buf, talking c w st buf -> answering c w st buf;
  answering_reply : forall c w st cmd rest sp st', answering c w st (resp_encode cmd ++ rest) ->
    args_ok cmd -> redis_effect cmd st = Some (sp, st') ->
    exists r c' w', matches sp r /\ answering c' w' st' rest /\
      (redisGetReplyFromReader c w = (REDIS_OK, Some r, c', w') \/
       exists c1 w1, redisGetReplyFromReader c w = (REDIS_OK, None, c1, w1) /\
         reads_to c1 w1 REDIS_OK (Some r) c' w');
  answering_end : forall c w st, answering c w st [] -> talking c w st [];
  talking_free : forall c w st r, talking c w st [] -> talking c (freeReplyObject r w) st [];
  talking_sleep : forall c w st ms, talking c w st [] -> talking c (Sleep ms w) (elapse ms st) []
}.

Section Peer.
Context {HR : Hiredis} {HP : RedisPeer HR}.

(** Sending: nothing fails, and in the end the server has all of it. *)
Lemma write_loop_peer fuel pre payload k c blk w st buf :
  Z.of_nat (length payload) < 2 ^ 31 -> 0 <= k <= Z.of_nat (length payload) ->
  Z.of_nat (length payload) - k < Z.of_nat fuel ->
  sending blk pre payload (Z.of_nat (length payload) - k) ->
  obuf c = Z.of_nat (length pre) + 4 + k -> talking c w st (buf ++ take (Z.to_nat k) payload) ->
  exists c' blk' w', write_loop fuel (Z.of_nat (length pre)) c blk w = Ok (REDIS_OK, c', blk', w') /\
    talking c' w' st (buf ++ payload).
Proof.
  intros HL. revert k c blk w. set (L := Z.of_nat (length payload)) in *.
  induction fuel as [|fuel IH]; intros k c blk w Hk Hf Hblk Hob Ht; [lia|].
  destruct (decide (k = L)) as [->|Hlt].
  { rewrite Z.sub_diag in Hblk. rewrite (write_loop_end _ _ _ _ _ _ Hblk).
    exists c, blk, w. split; [done|]. unfold L in Ht. by rewrite Nat2Z.id, firstn_all in Ht. }
  pose proof (sending_data _ _ _ _ _ Hblk Hk) as Er. fold L in Er. rewrite <- Hob in Er.
  set (d := drop (Z.to_nat k) payload) in *.
  assert (Hd : Z.of_nat (length d) = L - k) by (unfold d; rewrite length_drop; lia).
  destruct (send (fd c) d w) as [[n e] w1] eqn:Es.
  destruct (talking_send _ _ _ _ _ _ _ _ Ht ltac:(intros E; rewrite E in Hd; cbn in Hd; lia) Es) as [Hn Ht1].
  destruct (write_loop_send pre payload fuel _ _ _ _ _ _ _ _ Hblk ltac:(lia) Er Es) as (blk1 & Hblk1 & ->);
    [unfold is_s32; lia|unfold is_s32; lia|by destruct (Z.ltb_spec n 0); [lia|]|].
  apply (IH (k + n)); [lia|lia| | |].
  - by replace (L - (k + n)) with (L - k - n) by lia.
  - cbn [obuf set_obuf]. lia.
  - apply talking_obuf. replace (Z.to_nat (k + n)) with (Z.to_nat k + Z.to_nat n)%nat by lia.
    unfold d in Ht1. by rewrite <- app_assoc, take_take_drop in Ht1.
Qed.

(** One exchange with the server: the command takes effect, its reply is
    handed to a caller that wants it and freed for one that does not. *)
Lemma exchange_peer b cmd c w st sp st' : committed b (resp_encode cmd) -> args_ok cmd ->
  obuf c = _seek b -> talking c w st [] -> redis_effect cmd st = Some (sp, st') ->
  exists r c2 blk1 w2, matches sp r /\ talking c2 w2 st' [] /\
    exists N, forall fuel want, (N <= fuel)%nat ->
      redisGetReplyInner fuel c (_cmd b) want w =
        Ok (REDIS_OK, if want then Some r else None, c2, blk1, if want then w2 else freeReplyObject r w2).
Proof.
  intros Hb Hok Ho Ht He. destruct (talking_ready _ _ _ _ Ht) as [_ Herr].
  destruct (writeInner_start (S (length (resp_encode cmd))) b _ c w Hb Herr Ho) as (pre & Hs & Hseek & Es).
  destruct (write_loop_peer (S (length (resp_encode cmd))) pre (resp_encode cmd) 0 c (_cmd b) w st [])
    as (c1 & blk1 & w1 & E1 & Ht1); try lia; [apply Hok|by rewrite Z.sub_0_r|done|].
  destruct (talking_reply _ _ _ _ _ _ Ht1 Hok He) as (r & c2 & w2 & Hr & Hm & Ht2).
  destruct (read_loop_complete _ _ _ _ _ _ Hr) as [n Hn].
  exists r, c2, blk1, w2. split_and!; [done|done|].
  exists (n + S (length (resp_encode cmd)))%nat. intros fuel want Hf. unfold redisGetReplyInner.
  rewrite <- Es in E1. rewrite (writeInner_mono _ fuel _ _ _ _ E1) by lia.
  cbn [mbind outcome_bind Z.eqb REDIS_ERR REDIS_OK]. rewrite Hn by lia. cbn [mbind outcome_bind].
  by destruct want.
Qed.

(** Writing a pipeline: the server has all the commands, in order. *)
Lemma pipeline_write_peer bs cmds c w st buf : Forall2 (fun b cmd => committed b (resp_encode cmd)) bs cmds ->
  Forall args_ok cmds -> talking c w st buf ->
  exists c' bs' w', talking c' w' st (buf ++ concat (map resp_encode cmds)) /\
    exists N, forall fuel, (N <= fuel)%nat -> pipeline_write fuel c bs w = Ok (true, c', bs', w').
Proof.
  intros Hb. revert c w buf. induction Hb as [|b cmd bs cmds Hb _ IH]; intros c w buf Hok Ht.
  { exists c, [], w. rewrite app_nil_r. split; [done|]. by exists 0%nat. }
  apply Forall_cons in Hok as [Hcmd Hok]. destruct (talking_ready _ _ _ _ Ht) as [_ Herr].
  set (n := S (length (resp_encode cmd))).
  destruct (writeInner_start n b _ (set_obuf (_seek b) c) w Hb Herr eq_refl) as (pre & Hs & Hseek & Es).
  destruct (write_loop_peer n pre (resp_encode cmd) 0 (set_obuf (_seek b) c) (_cmd b) w st buf)
    as (c1 & blk1 & w1 & E1 & Ht1);
    [apply Hcmd|lia|lia|by rewrite Z.sub_0_r|lia|rewrite app_nil_r; by apply talking_obuf|].
  destruct (IH _ _ _ Hok Ht1) as (c2 & bs2 & w2 & Ht2 & N & E2).
  exists c2, (set_cmd blk1 b :: bs2), w2. cbn [map concat]. rewrite app_assoc. split; [done|].
  exists (n + N)%nat. intros fuel Hf. cbn [pipeline_write]. unfold IsCommit. rewrite (com_commit _ _ Hb).
  rewrite <- Es in E1. cbn [negb]. rewrite (writeInner_mono _ fuel _ _ _ _ E1) by lia.
  cbn [mbind outcome_bind Z.eqb REDIS_ERR REDIS_OK]. by rewrite E2 by lia.
Qed.

(** The effect of several commands, one after the other, and the replies. *)
Fixpoint effects (cmds : list (list bytes)) (st : store) : option (list reply_spec * store) :=
  match cmds with
  | [] => Some ([], st)
  | cmd :: cmds' =>
      '(sp, st) ← redis_effect cmd st;
      '(sps, st) ← effects cmds' st;
      Some (sp :: sps, st)
  end.

Lemma effects_cons cmd cmds st sps st' : effects (cmd :: cmds) st = Some (sps, st') ->
  exists sp st1 sps', redis_effect cmd st = Some (sp, st1) /\ effects cmds st1 = Some (sps', st') /\
    sps = sp :: sps'.
Proof.
  cbn [effects]. destruct (redis_effect cmd st) as [[sp st1]|]; [|done]. cbn [mbind option_bind].
  destruct (effects cmds st1) as [[sps1 st2]|] eqn:E; [|done]. intros [= <- <-]. by exists sp, st1, sps1.
Qed.

Lemma effects_app l1 l2 st sps st' : effects (l1 ++ l2) st = Some (sps, st') ->
  exists sps1 st1 sps2, effects l1 st = Some (sps1, st1) /\ effects l2 st1 = Some (sps2, st').
Proof.
  revert st sps. induction l1 as [|cmd l1 IH]; intros st sps; cbn [app].
  { intros E. by exists [], st, sps. }
  intros (sp & st1 & sps1 & E1 & (sps2 & st2 & sps3 & E2 & E3)%IH & _)%effects_cons.
  exists (sp :: sps2), st2, sps3. split; [|done]. cbn [effects]. rewrite E1. cbn [mbind option_bind].
  by rewrite E2.
Qed.

Lemma effects_snoc cmds cmd st sps st1 sp st2 : effects cmds st = Some (sps, st1) ->
  redis_effect cmd st1 = Some (sp, st2) -> effects (cmds ++ [cmd]) st = Some (sps ++ [sp], st2).
Proof.
  revert st sps. induction cmds as [|c cmds IH]; intros st sps E1 E2.
  { injection E1 as <- <-. cbn [app effects]. by rewrite E2. }
  apply effects_cons in E1 as (sp1 & st' & sps' & E3 & E4 & ->). cbn [app effects]. rewrite E3. cbn [mbind option_bind].
  by rewrite (IH st' sps' E4 E2).
Qed.

(** The replies to a pipeline are collected. *)
Lemma collects_peer cmds c w st sps st' : answering c w st (concat (map resp_encode cmds)) ->
  Forall args_ok cmds -> effects cmds st = Some (sps, st') ->
  exists rs c' w', collects (length cmds) c w rs REDIS_OK c' w' /\ Forall2 matches sps rs /\
    answering c' w' st' [].
Proof.
  intros Ha Hok. revert c w st sps Ha. induction Hok as [|cmd cmds Hcmd _ IH]; intros c w st sps Ha He.
  { injection He as <- <-. exists [], c, w. split_and!; [constructor|done|done]. }
  apply effects_cons in He as (sp & st1 & sps1 & E1 & E2 & ->). cbn [map concat] in Ha.
  destruct (answering_reply _ _ _ _ _ _ _ Ha Hcmd E1) as (r & c1 & w1 & Hm & Ha1 & Hr).
  destruct (IH _ _ _ _ Ha1 E2) as (rs & c2 & w2 & Hc & Hms & Ha2).
  exists (r :: rs), c2, w2. split_and!; [|by constructor|done]. cbn [length].
  destruct Hr as [Hr|(c0 & w0 & E0 & Hr)]; [by eapply col_buffered|by eapply col_read].
Qed.

(** One pipeline: the commands take effect in order, one reply to each. *)
Lemma pipeline_peer bs cmds c w st sps st' :
  Forall2 (fun b cmd => committed b (resp_encode cmd)) bs cmds -> Forall args_ok cmds ->
  Z.of_nat (length bs) < 2 ^ 31 -> talking c w st [] -> effects cmds st = Some (sps, st') ->
  exists rs c' bs' w', Forall2 matches sps rs /\ talking c' w' st' [] /\
    exists N, forall fuel, (N <= fuel)%nat ->
      pipelineSendAndGetReply fuel c bs [] w = Ok (REDIS_OK, rs, c', bs', w').
Proof.
  intros Hb Hok Hlen Ht He. destruct (pipeline_write_peer bs cmds c w st [] Hb Hok Ht)
    as (c1 & bs1 & w1 & Ht1 & N1 & E1).
  destruct (collects_peer cmds c1 w1 st sps st' (answering_start _ _ _ _ Ht1) Hok He)
    as (rs & c2 & w2 & Hc & Hm & Ha). destruct (pipeline_read_complete _ _ _ _ _ _ _ Hc) as [N2 E2].
  exists rs, c2, bs1, w2. split_and!; [done|by apply answering_end|].
  exists (N1 + N2)%nat. intros fuel Hf. unfold pipelineSendAndGetReply.
  rewrite E1 by lia. cbn [mbind outcome_bind negb].
  rewrite s32_small by (unfold is_s32; lia). rewrite Nat2Z.id, (Forall2_length _ _ _ Hb).
  by rewrite E2 by lia.
Qed.

Lemma talking_free_all c w st rs : talking c w st [] ->
  talking c (foldl (fun w r => freeReplyObject r w) w rs) st [].
Proof. revert w. induction rs as [|r rs IH]; intros w Ht; [done|]. by apply IH, talking_free. Qed.
End Peer.

(** ** Several connections with one server *)

(** [shared_peer others]: a connection with the server while the connections
    [others] are idle; what the one does leaves the others idle, and each of
    them can be the next to talk. *)
Class SharedRedis (H : Hiredis) : Type := {
  shared_peer : list (redisContext reader) -> RedisPeer H;
  shared_swap : forall others others' c c' w st, c :: others ≡ₚ c' :: others' ->
    @talking H (shared_peer others) c w st [] -> @talking H (shared_peer others') c' w st []
}.

(** ** A concrete server *)

Module StoreServer.
(** The server takes at most [chunk] bytes of a [send]; a command it has
    received is executed when its reply is read.  [received] is by connection,
    [opened] the number of the next one. *)
Record state : Type := mkState {
  data : store;
  received : gmap Z bytes;
  freed : nat;
  opened : Z
}.

Definition chunk : Z := 7.

Definition pick (sp : reply_spec) : redisReply :=
  match sp with Exactly r => r | AnyOrder l => strings l | AnyError => error_reply (lit "ERR") end.

Definition inbox (fd : Z) (w : state) : bytes := default [] (received w !! fd).

Definition send (fd : Z) (d : bytes) (w : state) : Z * Z * state :=
  let n := Z.min chunk (Z.of_nat (length d)) in
  (n, 0, mkState (data w) (<[fd := inbox fd w ++ take (Z.to_nat n) d]> (received w)) (freed w) (opened w)).

Definition BufferRead (c : redisContext (list redisReply)) (w : state)
    : Z * redisContext (list redisReply) * state :=
  let answer r st rest :=
    (REDIS_OK, mkContext (err c) (errstr c) (fd c) (flags c) (obuf c) (rd c ++ [r]),
     mkState st (<[fd c := rest]> (received w)) (freed w) (opened w)) in
  match resp_decode (inbox (fd c) w) with
  | Some (cmd, rest) =>
      match redis_effect cmd (data w) with
      | Some (sp, st) => answer (pick sp) st rest
      | None => answer (error_reply (lit "ERR unknown command")) (data w) rest
      end
  | None => (REDIS_ERR, set_error REDIS_ERR_EOF (lit "Server closed the connection") c, w)
  end.

Definition GetReplyFromReader (c : redisContext (list redisReply)) (w : state)
    : Z * option redisReply * redisContext (list redisReply) * state :=
  match rd c with
  | [] => (REDIS_OK, None, c, w)
  | r :: rs => (REDIS_OK, Some r, mkContext (err c) (errstr c) (fd c) (flags c) (obuf c) rs, w)
  end.

(** A new connection. *)
Definition connection (fd : Z) : redisContext (list redisReply) := mkContext 0 [] fd REDIS_BLOCK 0 [].

Definition lib : Hiredis := {|
  world := state;
  reader := list redisReply;
  Hiredis.send := send;
  redisBufferRead := BufferRead;
  redisGetReplyFromReader := GetReplyFromReader;
  redisConnectWithTimeout := fun _ _ _ w =>
    (Some (connection (opened w)), mkState (data w) (received w) (freed w) (opened w + 1));
  redisCommand := fun c _ _ w => (None, c, w);
  redisFree := fun _ w => w;
  freeReplyObject := fun _ w => mkState (data w) (received w) (S (freed w)) (opened w);
  strerror_r := fun _ => [];
  GetTimeMillisecond := fun w => (0, w);
  Sleep := fun ms w => mkState (elapse ms (data w)) (received w) (freed w) (opened w)
|}.

Lemma pick_matches sp : matches sp (pick sp).
Proof. destruct sp; by constructor. Qed.

(** A connection without an error and with nothing to read, from which the
    server has [buf]. *)
Definition sound (w : @world lib) (buf : bytes) (c : redisContext (@reader lib)) : Prop :=
  err c = 0 /\ (rd c : list redisReply) = [] /\ inbox (fd c) w = buf.

Definition at_server (others : list (redisContext (@reader lib))) (c : redisContext (@reader lib))
    (w : @world lib) (st : store) (buf : bytes) : Prop :=
  sound w buf c /\ data w = st /\ Forall (sound w []) others /\ Forall (fun c' => fd c' <> fd c) others /\
  NoDup (map fd others).

(** The other connections do not notice. *)
Lemma sound_other (w w' : @world lib) fd0 b l : received w' = <[fd0 := b]> (received w) ->
  Forall (fun c : redisContext (@reader lib) => fd c <> fd0) l -> Forall (sound w []) l -> Forall (sound w' []) l.
Proof.
  intros Hw Hne Hl. apply Forall_forall. intros c Hc. rewrite Forall_forall in Hne, Hl.
  destruct (Hl c Hc) as (He & Hr & Hi). split_and!; [done|done|]. unfold inbox.
  by rewrite Hw, lookup_insert_ne by (intros E; by apply (Hne c Hc)).
Qed.

Lemma inbox_insert (w' : @world lib) fd b m : received w' = <[fd := b]> m -> inbox fd w' = b.
Proof. unfold inbox. intros ->. by rewrite lookup_insert_eq. Qed.

(** A command that has been received is answered by one read. *)
Lemma answers others (c : redisContext (@reader lib)) (w : @world lib) st cmd rest sp st' :
  at_server others c w st (resp_encode cmd ++ rest) -> args_ok cmd -> redis_effect cmd st = Some (sp, st') ->
  exists (c' : redisContext (@reader lib)) (w' : @world lib), at_server others c' w' st' rest /\
    reads_to c w REDIS_OK (Some (pick sp)) c' w'.
Proof.
  intros ((He & Hr & Hb) & Hd & Ho & Hne & Hn) [H1 H2] E.
  set (w' := mkState st' (<[fd c := rest]> (received w)) (freed w) (opened w)).
  exists (mkContext (err c) (errstr c) (fd c) (flags c) (obuf c) []), w'. split.
  { split_and!; [|done| |done|done].
    - split_and!; [done|done|]. by eapply inbox_insert.
    - by eapply sound_other. }
  eapply (@reads_reply lib _ _ REDIS_OK
    (mkContext (err c) (errstr c) (fd c) (flags c) (obuf c) [pick sp]) w' REDIS_OK); [|done|reflexivity|done].
  change (BufferRead c w = (REDIS_OK, mkContext (err c) (errstr c) (fd c) (flags c) (obuf c) [pick sp], w')).
  assert (Hb' : inbox (@fd (list redisReply) c) w = resp_encode cmd ++ rest) by exact Hb.
  unfold BufferRead. rewrite Hb', resp_decode_encode; [|lia|].
  { rewrite Hd, E. destruct c as [? ? ? ? ? rd0]. cbn in Hr |- *. by rewrite Hr. }
  apply Forall_forall. intros a Ha. pose proof (args_ok_arg cmd a (conj H1 H2) ltac:(by apply list_elem_of_In)). lia.
Qed.

Definition peer_of (others : list (redisContext (@reader lib))) : RedisPeer lib.
Proof.
  refine {| talking := at_server others; answering := at_server others |}.
  - intros c w st buf ((He & _) & _). split; [|done]. intros d w' n e w'' [= <- _ _] Hn. unfold chunk in Hn. lia.
  - done.
  - intros c w st buf d n e w' ((He & Hr & <-) & <- & Ho & Hne & Hn) Hd [= <- _ <-].
    assert (0 < Z.of_nat (length d)) by (destruct d; [done|cbn; lia]). unfold chunk. split; [lia|].
    split_and!; [|done| |done|done].
    + split_and!; [done|done|]. by eapply inbox_insert.
    + by eapply sound_other.
  - intros c w st cmd sp st' Ht Hok E. rewrite <- (app_nil_r (resp_encode cmd)) in Ht.
    destruct (answers others c w st cmd [] sp st' Ht Hok E) as (c' & w' & Ha & Hr).
    exists (pick sp), c', w'. split_and!; [exact Hr|apply pick_matches|exact Ha].
  - done.
  - intros c w st cmd rest sp st' Ht Hok E.
    destruct (answers others c w st cmd rest sp st' Ht Hok E) as (c' & w' & Ha & Hr).
    exists (pick sp), c', w'. split_and!; [apply pick_matches|exact Ha|]. right. exists c, w. split; [|exact Hr].
    destruct Ht as ((_ & Hrd & _) & _). change (GetReplyFromReader c w = (REDIS_OK, None, c, w)).
    unfold GetReplyFromReader. destruct c as [? ? ? ? ? rd0]. cbn in Hrd |- *. by rewrite Hrd.
  - done.
  - done.
  - intros c w st ms (Hs & <- & Ho). done.
Defined.

#[export] Instance peer : RedisPeer lib := peer_of [].

Lemma at_server_all others c w st : at_server others c w st [] <->
  Forall (sound w []) (c :: others) /\ data w = st /\ NoDup (map fd (c :: others)).
Proof.
  unfold at_server. cbn [map]. rewrite Forall_cons, NoDup_cons. split.
  - intros (H1 & H2 & H3 & H4 & H5). split_and!; try done. intros Hin.
    change (map fd others) with (fd <$> others) in Hin. apply list_elem_of_fmap in Hin as (c' & E & Hc).
    rewrite Forall_forall in H4. by apply (H4 c' Hc).
  - intros ([H1 H3] & H2 & H4 & H5). split_and!; try done. apply Forall_forall. intros c' Hc E. apply H4.
    change (map fd others) with (fd <$> others). rewrite <- E. by apply list_elem_of_fmap_2.
Qed.

#[export] Instance shared : SharedRedis lib.
Proof.
  refine {| shared_peer := peer_of |}. intros o o' c c' w st Hp (H1 & H2 & H3)%at_server_all.
  apply at_server_all. change (map fd (c' :: o')) with (fd <$> c' :: o'). rewrite <- Hp. by split_and!.
Defined.

Definition empty : state := mkState ∅ ∅ 0 3.
End StoreServer.
