(* ===== verification/MysqlApi.v ===== *)
(** * The MySQL client library and tools as the program uses them

    libmysql and the [tools] helpers are not part of the repository: they are
    the operations of the class [Mysql] over an abstract [sqlworld].  The laws
    state documented behaviour that theorems use, and [SqlClock] an assumption
    on the machine: pings take time; [ScriptedSql] is a concrete
    instance for the witnesses. *)
From Stdlib Require Import ZArith Lia Ascii.
From stdpp Require Import base numbers list list_numbers strings.
From S2P Require Import Prelude.
Open Scope Z_scope.

(** A fetched row: the column values, [None] for SQL NULL. *)
Abbreviation MYSQL_ROW := (list (option bytes)).

Class Mysql : Type := {
  sqlworld : Type;
  (** [MYSQL], the connection handle. *)
  MYSQL : Type;
  mysql_init : MYSQL;
  (** [mysql_options(h, MYSQL_OPT_RECONNECT, &1)] *)
  mysql_opt_reconnect : MYSQL -> MYSQL;
  (** host, user, password, database, port, unix socket, flags *)
  mysql_real_connect : MYSQL -> option bytes -> bytes -> bytes -> bytes -> Z -> option bytes -> Z ->
    sqlworld -> bool * MYSQL * sqlworld;
  mysql_close : MYSQL -> sqlworld -> sqlworld;
  mysql_set_character_set : MYSQL -> bytes -> sqlworld -> Z * MYSQL * sqlworld;
  mysql_real_query : MYSQL -> bytes -> sqlworld -> Z * MYSQL * sqlworld;
  mysql_ping : MYSQL -> sqlworld -> Z * MYSQL * sqlworld;
  mysql_errno : MYSQL -> Z;
  mysql_error : MYSQL -> bytes;
  (** The size and what is written to [pszDest]. *)
  mysql_real_escape_string : MYSQL -> bytes -> Z * bytes;
  mysql_affected_rows : MYSQL -> Z;
  (** [MYSQL_RES], a stored result with its cursor; [lengths_at] is the
      content of the array [mysql_fetch_lengths] returns a pointer to. *)
  MYSQL_RES : Type;
  mysql_store_result : MYSQL -> sqlworld -> option MYSQL_RES * MYSQL * sqlworld;
  mysql_num_fields : MYSQL_RES -> Z;
  mysql_num_rows : MYSQL_RES -> Z;
  mysql_fetch_row : MYSQL_RES -> option MYSQL_ROW * MYSQL_RES;
  mysql_fetch_lengths : MYSQL_RES -> bool * MYSQL_RES;
  lengths_at : MYSQL_RES -> list Z;
  (** [tools] (Tools_time.h). *)
  MINUTE : Z;
  GetTimeMillisecond : sqlworld -> Z * sqlworld;
  StopWatch : Type;
  StopWatch_new : sqlworld -> StopWatch * sqlworld;
  Interval : StopWatch -> sqlworld -> Z * sqlworld
}.

(** The rows still to be fetched. *)
Class ResultLaws (L : Mysql) : Type := {
  pending : MYSQL_RES -> list MYSQL_ROW;
  fetch_row_nil : forall r, pending r = [] ->
    fst (mysql_fetch_row r) = None /\ lengths_at (snd (mysql_fetch_row r)) = lengths_at r;
  fetch_row_cons : forall r row rows, pending r = row :: rows ->
    fst (mysql_fetch_row r) = Some row /\ pending (snd (mysql_fetch_row r)) = rows;
  (** After a row has been fetched the array holds that row's lengths, and
      fetching them leaves the cursor. *)
  fetch_lengths : forall r row rows, pending r = row :: rows ->
    let r1 := snd (mysql_fetch_row r) in
    fst (mysql_fetch_lengths r1) = true /\ pending (snd (mysql_fetch_lengths r1)) = rows /\
    lengths_at (snd (mysql_fetch_lengths r1)) =
      map (fun v => match v with Some s => Z.of_nat (length s) | None => 0 end) row
}.

(** What the theorems on termination and on times assume of the machine (not
    of the client library): the clock in milliseconds never runs backwards,
    no call takes more than [2 ^ 40] ms, and time passes while the program
    spins, that is, at most [pings_per_ms] pings fit in one millisecond ([spin]
    counts those made in the current one); [pings_per_ms] is any number.  The
    loop of [DBConnection::isActive] does not sleep between its pings
    (RECONNECT_SLEEP_TIME is not used), so nothing else bounds their number.
    A [StopWatch] measures no negative interval. *)
Class SqlClock (L : Mysql) : Type := {
  sqlclock : sqlworld -> Z;
  spin : sqlworld -> Z;
  pings_per_ms : Z;
  minute_pos : 0 < MINUTE < 2 ^ 20;
  spin_bound : forall w, 0 <= spin w <= pings_per_ms;
  sqltime : forall w, let w' := snd (GetTimeMillisecond w) in
    fst (GetTimeMillisecond w) = sqlclock w /\
    sqlclock w <= sqlclock w' <= sqlclock w + 2 ^ 40 /\
    (sqlclock w' = sqlclock w -> spin w' = spin w);
  ping_time : forall h w, let w' := snd (mysql_ping h w) in
    sqlclock w <= sqlclock w' <= sqlclock w + 2 ^ 40 /\
    (sqlclock w' = sqlclock w -> spin w' = spin w + 1);
  interval_nonneg : forall s w, 0 <= fst (Interval s w)
}.

Section SqlClock.
Context {L : Mysql} {C : SqlClock L}.

(** The pings made until now, at the most. *)
Definition progress (w : sqlworld) : Z := (pings_per_ms + 1) * sqlclock w + spin w.

(** The pings that fit in the half hour after which [isActive] gives up. *)
Definition ping_budget : Z := (pings_per_ms + 1) * (MINUTE * 30 + 2).

Lemma pings_per_ms_nonneg (w : sqlworld) : 0 <= pings_per_ms.
Proof. pose proof (spin_bound w). lia. Qed.

Lemma progress_bound w :
  (pings_per_ms + 1) * sqlclock w <= progress w <= (pings_per_ms + 1) * sqlclock w + pings_per_ms.
Proof. unfold progress. pose proof (spin_bound w). lia. Qed.

Lemma progress_le w w' : sqlclock w <= sqlclock w' -> (sqlclock w' = sqlclock w -> spin w <= spin w') ->
  progress w <= progress w'.
Proof.
  intros Hc Hs. unfold progress. pose proof (spin_bound w). pose proof (spin_bound w').
  destruct (Z.eq_dec (sqlclock w') (sqlclock w)) as [E|E]; [rewrite E; specialize (Hs E); lia|nia].
Qed.

Lemma progress_time w : progress w <= progress (snd (GetTimeMillisecond w)).
Proof. destruct (sqltime w) as (_ & [? _] & H). apply progress_le; [done|]. intros E. by rewrite H. Qed.

Lemma progress_ping h w : progress w + 1 <= progress (snd (mysql_ping h w)).
Proof.
  destruct (ping_time h w) as ([Hc _] & H). set (w' := snd (mysql_ping h w)) in *.
  unfold progress. pose proof (spin_bound w). pose proof (spin_bound w').
  destruct (Z.eq_dec (sqlclock w') (sqlclock w)) as [E|E]; [rewrite E; specialize (H E); lia|nia].
Qed.
End SqlClock.

(** ** A concrete library *)

Module ScriptedSql.
(** [queries] and [pings] script the results of queries and pings (0 is
    success; when they run out, everything succeeds), [connects] those of
    connection attempts, [log] is what was sent. *)
Record state : Type := mkState {
  queries : list Z;
  pings : list Z;
  connects : list bool;
  log : list bytes;
  ms : Z
}.

Definition pop {A} (d : A) (l : list A) : A * list A :=
  match l with [] => (d, []) | x :: l' => (x, l') end.

(** A handle is the last error number; a result its rows and lengths. *)
Definition query (h : Z) (sql : bytes) (w : state) : Z * Z * state :=
  let '(r, rest) := pop 0 (queries w) in
  (r, r, mkState rest (pings w) (connects w) (log w ++ [sql]) (ms w)).

Definition ping (h : Z) (w : state) : Z * Z * state :=
  let '(r, rest) := pop 0 (pings w) in
  (r, h, mkState (queries w) rest (connects w) (log w) (ms w + 1000)).

Definition connect (w : state) : bool * Z * state :=
  let '(r, rest) := pop true (connects w) in
  (r, if r then 0 else 2003, mkState (queries w) (pings w) rest (log w) (ms w)).

Definition res : Type := list MYSQL_ROW * MYSQL_ROW * list Z.

Definition fetch (r : res) : option MYSQL_ROW * res :=
  let '(rows, cur, ls) := r in
  match rows with [] => (None, ([], [], ls)) | x :: rows' => (Some x, (rows', x, ls)) end.

Definition lens (row : MYSQL_ROW) : list Z :=
  map (fun v => match v with Some s => Z.of_nat (length s) | None => 0 end) row.

(** Results always have the rows [table]. *)
Definition lib (table : list MYSQL_ROW) : Mysql := {|
  sqlworld := state;
  MYSQL := Z;
  mysql_init := 0;
  mysql_opt_reconnect := fun h => h;
  mysql_real_connect := fun _ _ _ _ _ _ _ _ w => connect w;
  mysql_close := fun _ w => w;
  mysql_set_character_set := fun h _ w => (0, h, w);
  mysql_real_query := query;
  mysql_ping := ping;
  mysql_errno := fun h => h;
  mysql_error := fun h => if h =? 0 then [] else lit "error";
  mysql_real_escape_string := fun _ s => (Z.of_nat (length s), s);
  mysql_affected_rows := fun _ => 0;
  MYSQL_RES := res;
  mysql_store_result := fun h w => (Some (table, [], []), h, w);
  mysql_num_fields := fun r => Z.of_nat (length (hd [] (fst (fst r))));
  mysql_num_rows := fun r => Z.of_nat (length (fst (fst r)));
  mysql_fetch_row := fetch;
  mysql_fetch_lengths := fun r => (true, (fst (fst r), snd (fst r), lens (snd (fst r))));
  lengths_at := fun r => snd r;
  MINUTE := 60000;
  GetTimeMillisecond := fun w => (ms w, w);
  StopWatch := Z;
  StopWatch_new := fun w => (ms w, w);
  Interval := fun t w => (Z.max 0 (ms w - t), w)
|}.

#[export] Instance laws table : ResultLaws (lib table).
Proof.
  refine {| pending := (fun r => fst (fst r)) : @MYSQL_RES (lib table) -> list MYSQL_ROW |}; cbn.
  - intros [[rows cur] ls]. cbn. by intros ->.
  - intros [[rows cur] ls] row rows'. cbn. by intros ->.
  - intros [[rows cur] ls] row rows'. cbn. by intros ->.
Defined.

#[export] Instance clock table : SqlClock (lib table).
Proof.
  refine {| sqlclock := ms : @sqlworld (lib table) -> Z; spin := fun _ => 0; pings_per_ms := 0 |}; cbn.
  - lia.
  - intros w. lia.
  - intros w. lia.
  - intros h w. unfold ping. destruct (pop 0 (pings w)). cbn. lia.
  - intros s w. lia.
Defined.

Definition start : state := mkState [] [] [] [] 0.
End ScriptedSql.

#[export] Existing Instances ScriptedSql.laws ScriptedSql.clock.
