(* ===== verification/DBConnection.v ===== *)
(** * A database connection (MysqlMgr/DBConnection.h, DBConnection.cpp)

    One handle of the client library with the data to open it again, and
    statistics.  A statement that fails is sent a second time once the
    connection answers a ping or has been reopened; [attempted] states this as
    a relation, which the executable loop refines. *)
From Stdlib Require Import ZArith Lia Ascii.
From stdpp Require Import base numbers list list_numbers strings.
From S2P Require Import Prelude Kernel RedisHelper MysqlApi.
Open Scope Z_scope.

Definition RECONNECT_TIME_OUT : Z := 30.
Definition RECONNECT_SLEEP_TIME : Z := 300.

Record ConnectionInfo : Type := mkInfo {
  hostDes : bytes;
  port : Z;
  unixSocket : bytes;
  clientFlag : Z;
  charset : bytes;
  username : bytes;
  password : bytes;
  databaseName : bytes
}.

(** The accessors; a pointer is [None] for [nullptr]. *)
Definition User (i : ConnectionInfo) : bytes := cstr (username i).
Definition Password (i : ConnectionInfo) : bytes := cstr (password i).
Definition DBName (i : ConnectionInfo) : bytes := cstr (databaseName i).
Definition Host (i : ConnectionInfo) : option bytes :=
  if bool_decide (hostDes i = []) then None else Some (cstr (hostDes i)).
Definition UnixHanderName (i : ConnectionInfo) : option bytes :=
  if bool_decide (unixSocket i = []) then None else Some (cstr (unixSocket i)).
Definition Port (i : ConnectionInfo) : Z := port i.
Definition ClientFlag (i : ConnectionInfo) : Z := clientFlag i.
Definition Charset (i : ConnectionInfo) : bytes := cstr (charset i).

Record ConnectionTraceInfo : Type := mkTrace {
  _execCount : Z;
  _failCount : Z;
  _maxExecTime : Z;
  _minExecTime : Z
}.

Section DBConnection.
Context {L : Mysql}.

Record DBConnection : Type := mkDB {
  _mysqlHandler : MYSQL;
  _connectionInfo : ConnectionInfo;
  _traceInfo : ConnectionTraceInfo
}.

Definition set_handle (h : MYSQL) (c : DBConnection) : DBConnection :=
  mkDB h (_connectionInfo c) (_traceInfo c).
Definition set_trace (t : ConnectionTraceInfo) (c : DBConnection) : DBConnection :=
  mkDB (_mysqlHandler c) (_connectionInfo c) t.

(** A connection and the world it lives in. *)
Abbreviation DB := (M (DBConnection * sqlworld)).

(** A library call on the handle. *)
Definition on_handle {A} (f : MYSQL -> sqlworld -> A * MYSQL * sqlworld) : DB A :=
  '(c, w) ← mget;
  let '(a, h, w) := f (_mysqlHandler c) w in mput (set_handle h c, w);; mret a.
Definition on_world {A} (f : sqlworld -> A * sqlworld) : DB A :=
  '(c, w) ← mget;
  let '(a, w) := f w in mput (c, w);; mret a.

(** The constructor; [tools::Zero] clears the statistics. *)
Definition DBConnection_new (hostIp : bytes) (port : Z) (databaseName username password : bytes)
    (connectionflag : Z) (charset : bytes) : DBConnection :=
  mkDB mysql_init (mkInfo hostIp (u32 port) [] (u32 connectionflag) charset username password databaseName)
    (mkTrace 0 0 0 0).

Definition open : DB bool :=
  '(c, _) ← mget;
  let i := _connectionInfo c in
  on_handle (fun h w => (tt, mysql_opt_reconnect h, w));;
  ok ← on_handle (fun h w => mysql_real_connect h (Host i) (User i) (Password i) (DBName i) (Port i)
                               (UnixHanderName i) (ClientFlag i) w);
  if negb ok then mret false else
  if negb (bool_decide (charset i = [])) then
    r ← on_handle (fun h w => mysql_set_character_set h (Charset i) w);
    mret (r =? 0)
  else mret true.

Definition reopen : DB bool :=
  on_handle (fun h w => (tt, h, mysql_close h w));;
  on_handle (fun _ w => (tt, mysql_init, w));;
  open.

(** The [while (true)] of [isActive]. *)
Fixpoint ping_loop (fuel : nat) (start : Z) : DB bool :=
  match fuel with
  | O => mfuel
  | S fuel' =>
      r ← on_handle mysql_ping;
      if r =? 0 then mret true else
      now ← on_world GetTimeMillisecond;
      if MINUTE * RECONNECT_TIME_OUT <? s64 (now - start) then reopen
      else ping_loop fuel' start
  end.

Definition isActive (fuel : nat) : DB bool :=
  r ← on_handle mysql_ping;
  if negb (r =? 0) then
    start ← on_world GetTimeMillisecond;
    ping_loop fuel start
  else mret true.

Definition InnerExecute (fuel : nat) (sql : bytes) : DB bool :=
  let sql := cstr sql in
  ret ← on_handle (fun h w => mysql_real_query h sql w);
  if ret =? 0 then mret true else
  active ← isActive fuel;
  if negb active then mret false else
  ret ← on_handle (fun h w => mysql_real_query h sql w);
  mret (ret =? 0).

(** The statistics after a statement that took [execTime] and ended in [ret]. *)
Definition record_exec (execTime : Z) (ret : bool) (t : ConnectionTraceInfo) : ConnectionTraceInfo :=
  let maxTime := if _maxExecTime t <? execTime then s32 execTime else _maxExecTime t in
  let minTime := if execTime <? _minExecTime t then s32 execTime else _minExecTime t in
  mkTrace (_execCount t) (if ret then _failCount t else s64 (_failCount t + 1)) maxTime minTime.

Definition execute (fuel : nat) (sql : bytes) : DB bool :=
  mmodify (fun '(c, w) => (set_trace (mkTrace (s64 (_execCount (_traceInfo c) + 1))
    (_failCount (_traceInfo c)) (_maxExecTime (_traceInfo c)) (_minExecTime (_traceInfo c))) c, w));;
  watch ← on_world StopWatch_new;
  ret ← InnerExecute fuel sql;
  execTime ← on_world (Interval watch);
  mmodify (fun '(c, w) => (set_trace (record_exec execTime ret (_traceInfo c)) c, w));;
  mret ret.

Definition GetLastErrNo (c : DBConnection) : Z := mysql_errno (_mysqlHandler c).
Definition GetLastErrInfo (c : DBConnection) : bytes := mysql_error (_mysqlHandler c).

(** The size, and what [pszDest] holds afterwards ([None]: untouched). *)
Definition EscapeStringEx (fuel : nat) (pszSrc : bytes) : DB (Z * bytes) :=
  '(c, _) ← mget;
  let '(size, dest) := mysql_real_escape_string (_mysqlHandler c) pszSrc in
  if size =? 0 then
    active ← isActive fuel;
    if (active : bool) then
      '(c, _) ← mget;
      mret (mysql_real_escape_string (_mysqlHandler c) pszSrc)
    else mret (size, dest)
  else mret (size, dest).

(** [EscapeString] of [IEscapeStringHandler]: the size as an [s32]. *)
Definition EscapeString (fuel : nat) (pszSrc : bytes) : DB (Z * bytes) :=
  '(size, dest) ← EscapeStringEx fuel pszSrc;
  mret (s32 size, dest).

Definition GetAffectedRow (c : DBConnection) : Z := u64 (mysql_affected_rows (_mysqlHandler c)).
End DBConnection.

Arguments mkDB {L}.

(** ** Properties *)

Section DBProps.
Context {L : Mysql} {C : SqlClock L}.

Abbreviation DB := (M (DBConnection * sqlworld)).

(** What only [execute] changes: the data to reconnect and the statistics. *)
Definition same_data (s s' : DBConnection * sqlworld) : Prop :=
  _connectionInfo (fst s') = _connectionInfo (fst s) /\ _traceInfo (fst s') = _traceInfo (fst s).

#[local] Instance same_data_preorder : PreOrder same_data.
Proof. split; [done|]. intros s1 s2 s3 [? ?] [? ?]. split; congruence. Qed.

Lemma preserves_on_handle {A} (f : MYSQL -> sqlworld -> A * MYSQL * sqlworld) :
  preserves same_data (on_handle f).
Proof.
  intros [c w] a s'. unfold on_handle, mget, mput, mret, M_ret, mbind, M_bind.
  destruct (f (_mysqlHandler c) w) as [[? ?] ?]. by intros [= <- <-].
Qed.

Lemma preserves_on_world {A} (f : sqlworld -> A * sqlworld) : preserves same_data (on_world f).
Proof.
  intros [c w] a s'. unfold on_world, mget, mput, mret, M_ret, mbind, M_bind.
  destruct (f w) as [? ?]. by intros [= <- <-].
Qed.

Hint Resolve preserves_on_handle preserves_on_world : preserve.

Lemma preserves_open : preserves same_data open.
Proof. unfold open. preserve_tac. Qed.

Hint Resolve preserves_open : preserve.

Lemma preserves_isActive fuel : preserves same_data (isActive fuel).
Proof.
  unfold isActive. preserve_tac. revert a0. induction fuel as [|fuel IH]; intros a0; cbn [ping_loop];
    unfold reopen; preserve_tac.
Qed.

Hint Resolve preserves_isActive : preserve.

Lemma preserves_InnerExecute fuel sql : preserves same_data (InnerExecute fuel sql).
Proof. unfold InnerExecute. preserve_tac. Qed.

(** *** Every operation returns *)

Definition total {S A} (m : M S A) : Prop := forall s, exists a s', m s = Ok (a, s').

Lemma total_bind {S A B} (m : M S A) (k : A -> M S B) : total m -> (forall a, total (k a)) -> total (m ≫= k).
Proof.
  intros Hm Hk s. destruct (Hm s) as (a & s1 & E). destruct (Hk a s1) as (b & s2 & E2).
  exists b, s2. by rewrite (M_bind_Ok _ _ _ _ _ E).
Qed.

Lemma total_ret {S A} (a : A) : total (mret (M := M S) a).
Proof. intros s. by exists a, s. Qed.

Lemma total_handle {A} (f : MYSQL -> sqlworld -> A * MYSQL * sqlworld) : total (on_handle f).
Proof.
  intros [c w]. unfold on_handle, mget, mput, mret, M_ret, mbind, M_bind.
  destruct (f (_mysqlHandler c) w) as [[? ?] ?]. eauto.
Qed.

Lemma total_world {A} (f : sqlworld -> A * sqlworld) : total (on_world f).
Proof.
  intros [c w]. unfold on_world, mget, mput, mret, M_ret, mbind, M_bind. destruct (f w). eauto.
Qed.

Lemma total_get {S} : total (mget (S := S)).
Proof. intros s. by exists s, s. Qed.

Lemma total_modify {S} (f : S -> S) : total (mmodify f).
Proof. intros s. by eexists _, _. Qed.

Hint Resolve total_ret total_handle total_world total_get total_modify : core.

Ltac total_tac := repeat first
  [ progress intros
  | match goal with
    | |- total (_ ≫= _) => apply total_bind
    | |- total (let '(_, _) := ?p in _) => destruct p
    | |- total (if ?c then _ else _) => destruct c
    end
  | solve [eauto] ].

Lemma total_open : total open.
Proof. unfold open. total_tac. Qed.

Lemma total_reopen : total reopen.
Proof. unfold reopen. total_tac. apply total_open. Qed.

(** *** What becomes of a statement *)

(** A call on the handle in the state [s]. *)
Definition called {A} (f : MYSQL -> sqlworld -> A * MYSQL * sqlworld)
    (s : DBConnection * sqlworld) (a : A) (s' : DBConnection * sqlworld) : Prop :=
  on_handle f s = Ok (a, s').

(** The attempts to get an answer since [start]: pings, until one is answered,
    or one fails when more than half an hour has passed; then the connection
    is opened anew, once, and what that gives is the result. *)
Inductive retried (start : Z) : DBConnection * sqlworld -> bool -> DBConnection * sqlworld -> Prop :=
  | retried_answer s s' : called mysql_ping s 0 s' -> retried start s true s'
  | retried_again s r c w b s' : called mysql_ping s r (c, w) -> r <> 0 ->
      fst (GetTimeMillisecond w) - start <= MINUTE * 30 ->
      retried start (c, snd (GetTimeMillisecond w)) b s' -> retried start s b s'
  | retried_reopen s r c w b s' : called mysql_ping s r (c, w) -> r <> 0 ->
      MINUTE * 30 < fst (GetTimeMillisecond w) - start ->
      reopen (c, snd (GetTimeMillisecond w)) = Ok (b, s') -> retried start s b s'.

(** Whether the connection answers, after a statement has failed. *)
Inductive active : DBConnection * sqlworld -> bool -> DBConnection * sqlworld -> Prop :=
  | active_at_once s s' : called mysql_ping s 0 s' -> active s true s'
  | active_retried s r c w b s' : called mysql_ping s r (c, w) -> r <> 0 ->
      retried (fst (GetTimeMillisecond w)) (c, snd (GetTimeMillisecond w)) b s' -> active s b s'.

(** A statement is sent once, and a second time when the first try fails and
    the connection answers again; it succeeds when the last try does. *)
Inductive attempted (sql : bytes) : DBConnection * sqlworld -> bool -> DBConnection * sqlworld -> Prop :=
  | attempted_once s s' :
      called (fun h w => mysql_real_query h (cstr sql) w) s 0 s' -> attempted sql s true s'
  | attempted_twice s r s1 s2 r2 s' :
      called (fun h w => mysql_real_query h (cstr sql) w) s r s1 -> r <> 0 -> active s1 true s2 ->
      called (fun h w => mysql_real_query h (cstr sql) w) s2 r2 s' -> attempted sql s (r2 =? 0) s'
  | attempted_lost s r s1 s' :
      called (fun h w => mysql_real_query h (cstr sql) w) s r s1 -> r <> 0 -> active s1 false s' ->
      attempted sql s false s'.

Lemma called_spec {A} (f : MYSQL -> sqlworld -> A * MYSQL * sqlworld) c w :
  called f (c, w) (fst (fst (f (_mysqlHandler c) w)))
    (set_handle (snd (fst (f (_mysqlHandler c) w))) c, snd (f (_mysqlHandler c) w)).
Proof.
  unfold called, on_handle, mget, mput, mret, M_ret, mbind, M_bind.
  by destruct (f (_mysqlHandler c) w) as [[? ?] ?].
Qed.

Lemma world_spec {A} (f : sqlworld -> A * sqlworld) (c : DBConnection) w :
  on_world f (c, w) = Ok (fst (f w), (c, snd (f w))).
Proof.
  unfold on_world, mget, mput, mret, M_ret, mbind, M_bind. by destruct (f w).
Qed.

(** The ping loop ends: its pings fit in half an hour. *)
Lemma ping_loop_ends fuel start c w :
  0 <= sqlclock w - start <= MINUTE * 30 + 2 ^ 40 ->
  (pings_per_ms + 1) * (start + MINUTE * 30 + 1) - progress w < Z.of_nat fuel -> (0 < fuel)%nat ->
  exists b s', ping_loop fuel start (c, w) = Ok (b, s') /\ retried start (c, w) b s'.
Proof.
  revert c w. induction fuel as [|fuel IH]; intros c w Hw Hf Hpos; [lia|]. cbn [ping_loop].
  pose proof (progress_ping (_mysqlHandler c) w) as Hp.
  destruct (ping_time (_mysqlHandler c) w) as [Hc _]. pose proof minute_pos as Hm.
  pose proof (called_spec mysql_ping c w) as Hcall. rewrite (M_bind_Ok _ _ _ _ _ Hcall).
  destruct (mysql_ping (_mysqlHandler c) w) as [[r h] w1]. cbn [fst snd] in *.
  destruct (Z.eqb_spec r 0) as [->|Hr].
  { do 2 eexists. split; [reflexivity|]. by apply retried_answer. }
  rewrite (M_bind_Ok _ _ _ _ _ (world_spec _ _ _)).
  destruct (sqltime w1) as (Ht & Hs & _). pose proof (progress_time w1) as Hq.
  unfold RECONNECT_TIME_OUT. rewrite Ht, s64_small by (unfold is_s64; lia).
  destruct (Z.ltb_spec (MINUTE * 30) (sqlclock w1 - start)) as [Hlate|Hlate].
  - destruct (total_reopen (set_handle h c, snd (GetTimeMillisecond w1))) as (b & s' & E).
    exists b, s'. split; [exact E|]. eapply retried_reopen; eauto. by rewrite Ht.
  - destruct (IH (set_handle h c) (snd (GetTimeMillisecond w1))) as (b & s' & E & HR).
    + lia.
    + lia.
    + destruct (progress_bound w1) as [_ Hb].
      assert ((pings_per_ms + 1) * sqlclock w1 <= (pings_per_ms + 1) * (start + MINUTE * 30)).
      { apply Z.mul_le_mono_nonneg_l; [|lia]. pose proof (pings_per_ms_nonneg w). lia. }
      lia.
    + exists b, s'. split; [exact E|]. eapply retried_again; eauto. by rewrite Ht.
Qed.

Lemma isActive_ends fuel c w : ping_budget < Z.of_nat fuel ->
  exists b s', isActive fuel (c, w) = Ok (b, s') /\ active (c, w) b s'.
Proof.
  intros Hf. unfold isActive. pose proof (called_spec mysql_ping c w) as Hcall.
  rewrite (M_bind_Ok _ _ _ _ _ Hcall).
  destruct (mysql_ping (_mysqlHandler c) w) as [[r h] w1]. cbn [fst snd] in *.
  destruct (Z.eqb_spec r 0) as [->|Hr]; cbn [negb].
  { do 2 eexists. split; [reflexivity|]. by apply active_at_once. }
  rewrite (M_bind_Ok _ _ _ _ _ (world_spec _ _ _)).
  destruct (sqltime w1) as (Ht & Hs & _). pose proof minute_pos.
  pose proof (pings_per_ms_nonneg w) as Hk. pose proof (progress_bound (snd (GetTimeMillisecond w1))) as [Hb _].
  unfold ping_budget in Hf.
  destruct (ping_loop_ends fuel (fst (GetTimeMillisecond w1)) (set_handle h c) (snd (GetTimeMillisecond w1)))
    as (b & s' & E & HR); rewrite ?Ht.
  - lia.
  - nia.
  - nia.
  - rewrite Ht in E, HR. exists b, s'. split; [exact E|].
    eapply active_retried; [exact Hcall|done|]. by rewrite Ht.
Qed.

Lemma total_isActive fuel : ping_budget < Z.of_nat fuel -> total (isActive fuel).
Proof. intros Hf [c w]. destruct (isActive_ends fuel c w Hf) as (b & s' & E & _). eauto. Qed.

Lemma InnerExecute_ends fuel sql c w : ping_budget < Z.of_nat fuel ->
  exists ret s', InnerExecute fuel sql (c, w) = Ok (ret, s') /\ attempted sql (c, w) ret s'.
Proof.
  intros Hf. unfold InnerExecute.
  pose proof (called_spec (fun h w => mysql_real_query h (cstr sql) w) c w) as Hcall.
  rewrite (M_bind_Ok _ _ _ _ _ Hcall).
  destruct (mysql_real_query (_mysqlHandler c) (cstr sql) w) as [[r h] w1]. cbn [fst snd] in *.
  destruct (Z.eqb_spec r 0) as [->|Hr].
  { do 2 eexists. split; [reflexivity|]. by apply attempted_once. }
  destruct (isActive_ends fuel (set_handle h c) w1 Hf) as (b & [c2 w2] & E & HA).
  rewrite (M_bind_Ok _ _ _ _ _ E). destruct b; cbn [negb].
  - pose proof (called_spec (fun h w => mysql_real_query h (cstr sql) w) c2 w2) as Hcall2.
    rewrite (M_bind_Ok _ _ _ _ _ Hcall2). do 2 eexists. split; [reflexivity|].
    by eapply attempted_twice.
  - do 2 eexists. split; [reflexivity|]. by eapply attempted_lost.
Qed.

Lemma total_InnerExecute fuel sql : ping_budget < Z.of_nat fuel -> total (InnerExecute fuel sql).
Proof. intros Hf [c w]. destruct (InnerExecute_ends fuel sql c w Hf) as (b & s' & E & _). eauto. Qed.

(** C31: Executing a statement always returns: however the server fails, the
    loop of pings gives up after half an hour (with fuel for the pings that
    fit in it, however many the machine does in a millisecond).  The statement
    is sent once, and a second time when the first try fails and the
    connection answers a ping within half an hour or the one reconnection made
    then succeeds; [execute] reports the last try.  Each call counts one
    execution, and one failure exactly when it reports [false].  With [t] the
    interval its stop watch measures around the tries, the kept longest time
    becomes [t] exactly when [t] is longer, and the shortest becomes [t]
    exactly when [t] is shorter, so from its initial zero it never moves. *)
Theorem execute_total fuel sql c w : ping_budget < Z.of_nat fuel ->
  let trace := _traceInfo c in
  exists watch w1 ret c2 w2 t w3 c',
    StopWatch_new w = (watch, w1) /\
    attempted sql (set_trace (mkTrace (s64 (_execCount trace + 1)) (_failCount trace)
                                (_maxExecTime trace) (_minExecTime trace)) c, w1) ret (c2, w2) /\
    Interval watch w2 = (t, w3) /\
    execute fuel sql (c, w) = Ok (ret, (c', w3)) /\
    _mysqlHandler c' = _mysqlHandler c2 /\ _connectionInfo c' = _connectionInfo c /\
    _execCount (_traceInfo c') = s64 (_execCount trace + 1) /\
    _failCount (_traceInfo c') = (if ret then _failCount trace else s64 (_failCount trace + 1)) /\
    _maxExecTime (_traceInfo c') = (if _maxExecTime trace <? t then s32 t else _maxExecTime trace) /\
    _minExecTime (_traceInfo c') = (if t <? _minExecTime trace then s32 t else _minExecTime trace) /\
    (_minExecTime trace = 0 -> _minExecTime (_traceInfo c') = 0).
Proof.
  intros Hf trace. unfold execute.
  set (c0 := set_trace (mkTrace (s64 (_execCount trace + 1)) (_failCount trace)
                          (_maxExecTime trace) (_minExecTime trace)) c).
  rewrite (M_bind_Ok _ _ (c, w) tt (c0, w)) by done.
  destruct (StopWatch_new w) as [watch w1] eqn:Ew.
  rewrite (M_bind_Ok _ _ (c0, w) watch (c0, w1)) by (rewrite world_spec; by rewrite Ew).
  destruct (InnerExecute_ends fuel sql c0 w1 Hf) as (ret & [c2 w2] & E2 & HA).
  rewrite (M_bind_Ok _ _ _ _ _ E2). apply preserves_InnerExecute in E2 as [I2 T2].
  cbn [fst] in I2, T2. pose proof (interval_nonneg watch w2) as Hi.
  destruct (Interval watch w2) as [t w3] eqn:Ei.
  rewrite (M_bind_Ok _ _ (c2, w2) t (c2, w3)) by (rewrite world_spec; by rewrite Ei).
  exists watch, w1, ret, c2, w2, t, w3. eexists.
  split; [done|]. split; [exact HA|]. split; [exact Ei|]. split; [reflexivity|].
  cbn [set_trace _mysqlHandler _connectionInfo _traceInfo]. rewrite T2. unfold record_exec.
  subst c0. cbn in *. split_and!; [done|done|done|by destruct ret|done|done|].
  intros ->. by destruct (Z.ltb_spec t 0); [lia|].
Qed.
End DBProps.

(** A server that refuses the first query and answers no ping for half an
    hour; each ping takes a second, so the connection is opened again after
    1802 of them, and the second query succeeds. *)
Definition deaf_server : ScriptedSql.state :=
  ScriptedSql.mkState [2006] (replicate 1802 2006) [true] [] 0.

Definition deaf_connection : @DBConnection (ScriptedSql.lib []) :=
  @DBConnection_new (ScriptedSql.lib []) (lit "127.0.0.1") 3306 (lit "db") (lit "u") (lit "p") 0 [].

Lemma execute_total_witness : exists ret c' w',
  @execute (ScriptedSql.lib []) (Z.to_nat 2000000) (lit "select 1") (deaf_connection, deaf_server) =
    Ok (ret, (c', w')) /\
  _execCount (_traceInfo c') = 1 /\ _minExecTime (_traceInfo c') = 0.
Proof.
  destruct (@execute_total (ScriptedSql.lib []) _ (Z.to_nat 2000000) (lit "select 1")
    deaf_connection deaf_server)
    as (watch & w1 & ret & c2 & w2 & t & w3 & c' & _ & _ & _ & E & _ & _ & H1 & _ & _ & _ & H2).
  - change (1 * (60000 * 30 + 2) < Z.of_nat (Z.to_nat 2000000)). lia.
  - exists ret, c', w3. split; [exact E|]. split; [exact H1|by apply H2].
Defined.

(** What the run of the witness comes to. *)
Example deaf_server_reopened :
  match @execute (ScriptedSql.lib []) 2000 (lit "select 1") (deaf_connection, deaf_server) with
  | Ok (ret, (c', w')) => ret = true /\ ScriptedSql.log w' = [lit "select 1"; lit "select 1"] /\
      ScriptedSql.pings w' = [] /\ ScriptedSql.connects w' = []
  | _ => False
  end.
Proof. vm_compute. by split_and!. Qed.
