(* ===== verification/MysqlBase.v ===== *)
(** * Results and tasks (MysqlMgr/MysqlBase.h, MysqlBase.cpp, Interface/IMysqlMgr.h)

    [MysqlResult] keeps the rows of a stored result; every row points to the
    one array of column lengths the library has per result, so the model reads
    lengths out of the result's [lengths_at], not out of the row.  [MysqlBase]
    is the task that runs a handler on a connection. *)
From Stdlib Require Import ZArith Lia Ascii.
From stdpp Require Import base numbers list list_numbers strings.
From S2P Require Import Prelude Kernel RedisHelper MysqlApi DBConnection.
Open Scope Z_scope.

(** The conversions of [tools] (Tools.h, not in the repository); a pointer may
    be null, a float is its bit pattern. *)
Class Tools : Type := {
  StrToBool : option bytes -> bool;
  StrToInt8 : option bytes -> Z;
  StrToInt16 : option bytes -> Z;
  StrToInt32 : option bytes -> Z;
  StrToInt64 : option bytes -> Z;
  StrToFloat : option bytes -> Z
}.

(** What [IMysqlHandler::ExecSql] does with its two arguments: statements it
    passes to [callBackFun] and strings it escapes, in order. *)
Inductive handler_prog : Type :=
  | HDone
  | HExec (pExecSql : bytes) (k : handler_prog)
  | HEscape (pszSrc : bytes) (k : Z * bytes -> handler_prog).

Section MysqlBase.
Context {L : Mysql} `{Build}.

(** [FiledRow]: [_row] and the field count; [_rowFieldLengths] points into
    the result. *)
Record FiledRow : Type := mkRow {
  _row : MYSQL_ROW;
  _filedCount : Z
}.

Definition FiledCount (r : FiledRow) : Z := _filedCount r.

(** [_row[index]] *)
Definition column (r : FiledRow) (index : Z) : outcome (option bytes) :=
  if index <? 0 then Fault OutOfBounds else of_option OutOfBounds (_row r !! Z.to_nat index).

Definition GetString (r : FiledRow) (index : Z) : outcome (option bytes) :=
  if index <? _filedCount r then column r index else Ok None.

(** [GetBuff]: the pointer and, when it is not null, [buffLen]. *)
Definition GetBuff (lengths : list Z) (r : FiledRow) (index : Z) : outcome (option (bytes * Z)) :=
  if index <? _filedCount r then
    v ← column r index;
    match v with
    | None => Ok None
    | Some s =>
        len ← of_option OutOfBounds (lengths !! Z.to_nat index);
        Ok (Some (s, s32 len))
    end
  else Ok None.

(** The typed getters of [IRowData]. *)
Section Getters.
Context `{Tools}.

Definition GetDataBool (r : FiledRow) (index : Z) : outcome bool :=
  s ← GetString r index; Ok (StrToBool s).
Definition GetDataS8 (r : FiledRow) (index : Z) : outcome Z :=
  s ← GetString r index; Ok (StrToInt8 s).
Definition GetDataS16 (r : FiledRow) (index : Z) : outcome Z :=
  s ← GetString r index; Ok (StrToInt16 s).
Definition GetDataS32 (r : FiledRow) (index : Z) : outcome Z :=
  s ← GetString r index; Ok (StrToInt32 s).
Definition GetDataS64 (r : FiledRow) (index : Z) : outcome Z :=
  s ← GetString r index; Ok (StrToInt64 s).
Definition GetDataFloat (r : FiledRow) (index : Z) : outcome Z :=
  s ← GetString r index; Ok (StrToFloat s).
End Getters.

Record MysqlResult : Type := mkResult {
  _result : option MYSQL_RES;
  _fieldCount : Z;
  _rows : list FiledRow
}.

(** [_fieldCount] is not initialised by the constructor; it is only read
    after [Init] has set it. *)
Definition MysqlResult_new : MysqlResult := mkResult None 0 [].

Definition RowCount (r : MysqlResult) : Z := s32 (Z.of_nat (length (_rows r))).

(** [&_rows[index]], [None] for [nullptr]; a negative index is converted to
    [size_t]. *)
Definition GetRow (r : MysqlResult) (index : Z) : outcome (option FiledRow) :=
  if index <? RowCount r then
    if index <? 0 then Fault OutOfBounds
    else row ← of_option OutOfBounds (_rows r !! Z.to_nat index); Ok (Some row)
  else Ok None.

(** The [while (row)] loop of [Init]; [row] is the row just fetched. *)
Fixpoint fetch_loop (fuel : nat) (res : MYSQL_RES) (row : option MYSQL_ROW) (fieldCount : Z)
    (rows : list FiledRow) : outcome (MYSQL_RES * list FiledRow) :=
  match row with
  | None => Ok (res, rows)
  | Some r =>
      match fuel with
      | O => OutOfFuel
      | S fuel' =>
          let '(ok, res) := mysql_fetch_lengths res in
          _ ← ASSERT ok;
          let rows := rows ++ [mkRow r fieldCount] in
          let '(row, res) := mysql_fetch_row res in
          fetch_loop fuel' res row fieldCount rows
      end
  end.

Definition Init (fuel : nat) (mysql : MYSQL) (this : MysqlResult) (w : sqlworld)
    : outcome (MysqlResult * MYSQL * sqlworld) :=
  let '(res, mysql, w) := mysql_store_result mysql w in
  match res with
  | None => Ok (mkResult None (_fieldCount this) (_rows this), mysql, w)
  | Some res =>
      let fieldCount := s32 (mysql_num_fields res) in
      let '(row, res) := mysql_fetch_row res in
      '(res, rows) ← fetch_loop fuel res row fieldCount (_rows this);
      Ok (mkResult (Some res) fieldCount rows, mysql, w)
  end.

(** The content of the array the rows point to. *)
Definition result_lengths (r : MysqlResult) : list Z :=
  match _result r with Some res => lengths_at res | None => [] end.

(** *** [MysqlBase] *)

(** [_erorCode] is not initialised by the constructor. *)
Record MysqlBase : Type := mkBase {
  _connection : nat;
  _mysqlHandler : handler_prog;
  _dbresult : MysqlResult;
  _erorCode : option Z;
  _errorInfo : bytes
}.

Definition MysqlBase_new (connection : nat) (handler : handler_prog) : MysqlBase :=
  mkBase connection handler MysqlResult_new None [].

Abbreviation DB := (M (DBConnection * sqlworld)).

(** [_mysqlHandler->ExecSql(_connection, callFun)]: every statement sets [ret]. *)
Fixpoint ExecSql (fuel : nat) (p : handler_prog) (ret : bool) : DB bool :=
  match p with
  | HDone => mret ret
  | HExec sql k => ret ← execute fuel sql; ExecSql fuel k ret
  | HEscape s k => r ← EscapeString fuel s; ExecSql fuel (k r) ret
  end.

Definition OnExecute (fuel : nat) (b : MysqlBase) : DB (bool * MysqlBase) :=
  ret ← ExecSql fuel (_mysqlHandler b) false;
  if (ret : bool) then
    '(c, w) ← mget;
    '(res, h, w) ← mlift (Init fuel (DBConnection._mysqlHandler c) (_dbresult b) w);
    mput (set_handle h c, w);;
    mret (true, mkBase (_connection b) (_mysqlHandler b) res (_erorCode b) (_errorInfo b))
  else
    '(c, _) ← mget;
    mret (false, mkBase (_connection b) (_mysqlHandler b) (_dbresult b)
                   (Some (s32 (GetLastErrNo c))) (GetLastErrInfo c)).

(** What the handler's callbacks are called with. *)
Definition OnSuccess (b : MysqlBase) : MysqlResult := _dbresult b.
Definition OnFailed (b : MysqlBase) (isExecuted : bool) : outcome (Z * bytes) :=
  code ← of_option Uninitialised (_erorCode b);
  Ok (code, cstr (_errorInfo b)).
End MysqlBase.

(** ** Properties *)

Section BaseProps.
Context {L : Mysql} {RL : ResultLaws L} {B : Build}.

(** The lengths of the columns of a row. *)
Definition row_lengths (row : MYSQL_ROW) : list Z :=
  map (fun v => match v with Some s => Z.of_nat (length s) | None => 0 end) row.

(** The loop, entered after a fetch from [res0]. *)
Lemma fetch_loop_spec fuel res0 n l rows : pending res0 = l -> (length l <= fuel)%nat ->
  exists res', fetch_loop fuel (snd (mysql_fetch_row res0)) (fst (mysql_fetch_row res0)) n rows =
      Ok (res', rows ++ map (fun r => mkRow r n) l) /\
    lengths_at res' = match last l with Some r => row_lengths r | None => lengths_at res0 end.
Proof.
  revert res0 l rows. induction fuel as [|fuel IH]; intros res0 l rows Hp Hf.
  { destruct l; [|cbn in Hf; lia]. destruct (fetch_row_nil _ Hp) as [E1 E2]. rewrite E1.
    eexists. cbn. rewrite app_nil_r. by split. }
  destruct l as [|r l].
  { destruct (fetch_row_nil _ Hp) as [E1 E2]. rewrite E1.
    eexists. cbn. rewrite app_nil_r. by split. }
  destruct (fetch_row_cons _ _ _ Hp) as [E1 _]. rewrite E1. cbn [fetch_loop].
  destruct (fetch_lengths _ _ _ Hp) as (Hok & Hp1 & Hl).
  destruct (mysql_fetch_lengths (snd (mysql_fetch_row res0))) as [ok res1]. cbn [fst snd] in *. subst ok.
  unfold ASSERT. cbn [orb mbind outcome_bind].
  destruct (IH res1 l (rows ++ [mkRow r n]) Hp1 ltac:(cbn in Hf; lia)) as (res' & E & El).
  destruct (mysql_fetch_row res1) as [row2 res2]. cbn [fst snd] in E.
  exists res'. rewrite E, <- app_assoc. split; [done|]. rewrite El, Hl.
  rewrite last_cons. by destruct (last l).
Qed.

(** C29: A stored result of rows with [n] columns each: [Init] ends, and the
    result has exactly these rows in order, with their values under every
    column index below [n] and a null pointer above.  But the length
    [GetBuff] reports for a column is the length it has in the last row of
    the result, whichever row is asked. *)
Theorem MysqlResult_Init_rows fuel h w res h' w' n :
  mysql_store_result h w = (Some res, h', w') -> s32 (mysql_num_fields res) = n -> 0 <= n ->
  Forall (fun r => Z.of_nat (length r) = n) (pending res) ->
  Z.of_nat (length (pending res)) < 2 ^ 31 -> (length (pending res) <= fuel)%nat ->
  exists r, Init fuel h MysqlResult_new w = Ok (r, h', w') /\
    RowCount r = Z.of_nat (length (pending res)) /\
    forall i row, pending res !! i = Some row -> exists fr, GetRow r (Z.of_nat i) = Ok (Some fr) /\
      (forall j v, row !! j = Some v -> GetString fr (Z.of_nat j) = Ok v) /\
      (forall j, n <= j -> GetString fr j = Ok None) /\
      (forall j s lastrow v, row !! j = Some (Some s) -> last (pending res) = Some lastrow ->
        lastrow !! j = Some v ->
        GetBuff (result_lengths r) fr (Z.of_nat j) =
          Ok (Some (s, s32 match v with Some t => Z.of_nat (length t) | None => 0 end))).
Proof.
  intros Es Hn Hn0 Hrows Hlen Hf. unfold Init. rewrite Es, Hn.
  destruct (fetch_loop_spec fuel res n _ [] eq_refl Hf) as (res' & E & El).
  destruct (mysql_fetch_row res) as [row1 res1]. cbn [fst snd] in E. cbn [_rows MysqlResult_new].
  rewrite E. cbn [mbind outcome_bind app]. eexists. split; [reflexivity|].
  assert (Hc : RowCount (mkResult (Some res') n (map (fun r => mkRow r n) (pending res))) =
    Z.of_nat (length (pending res))).
  { unfold RowCount. cbn [_rows]. rewrite length_map. apply s32_small. unfold is_s32. lia. }
  split; [exact Hc|]. intros i row Hi. exists (mkRow row n).
  pose proof (lookup_lt_Some _ _ _ Hi) as Hlt.
  assert (Hr : Z.of_nat (length row) = n) by exact (Forall_lookup_1 _ _ _ _ Hrows Hi).
  assert (Hcol : forall j v, row !! j = Some v -> (Z.of_nat j <? n) = true).
  { intros j v Hj%lookup_lt_Some. apply Z.ltb_lt. lia. }
  assert (Hat : forall j v, row !! j = Some v -> column (mkRow row n) (Z.of_nat j) = Ok v).
  { intros j v Hj. unfold column. destruct (Z.ltb_spec (Z.of_nat j) 0); [lia|].
    cbn [_row]. by rewrite Nat2Z.id, Hj. }
  split.
  { unfold GetRow. rewrite Hc. destruct (Z.ltb_spec (Z.of_nat i) (Z.of_nat (length (pending res)))); [|lia].
    destruct (Z.ltb_spec (Z.of_nat i) 0); [lia|]. cbn [_rows].
    change (map ?f ?l) with (f <$> l). by rewrite Nat2Z.id, list_lookup_fmap, Hi. }
  split_and!.
  - intros j v Hj. unfold GetString. cbn [_filedCount]. rewrite (Hcol _ _ Hj). by apply Hat.
  - intros j Hj. unfold GetString. cbn [_filedCount]. by destruct (Z.ltb_spec j n); [lia|].
  - intros j s lastrow v Hj Hlast Hv. unfold GetBuff. cbn [_filedCount].
    rewrite (Hcol _ _ Hj), (Hat _ _ Hj). cbn [mbind outcome_bind].
    unfold result_lengths. cbn [_result]. rewrite El, Hlast. unfold row_lengths.
    change (map ?f ?l) with (f <$> l). by rewrite Nat2Z.id, list_lookup_fmap, Hv.
Qed.

Context {C : SqlClock L}.

Lemma total_EscapeString fuel s : ping_budget < Z.of_nat fuel -> total (EscapeString fuel s).
Proof.
  intros Hf. unfold EscapeString, EscapeStringEx. apply total_bind; [|intros []; apply total_ret].
  apply total_bind; [apply total_get|]. intros [c w].
  destruct (mysql_real_escape_string _ s) as [size dest]. destruct (size =? 0); [|apply total_ret].
  apply total_bind; [by apply total_isActive|]. intros []; [|apply total_ret].
  apply total_bind; [apply total_get|]. intros [c' w']. apply total_ret.
Qed.

Lemma total_execute fuel sql : ping_budget < Z.of_nat fuel -> total (execute fuel sql).
Proof.
  intros Hf. unfold execute.
  apply total_bind; [apply total_modify|intros _].
  apply total_bind; [apply total_world|intros watch].
  apply total_bind; [by apply total_InnerExecute|intros ret].
  apply total_bind; [apply total_world|intros t].
  apply total_bind; [apply total_modify|intros _; apply total_ret].
Qed.

Lemma total_ExecSql fuel p ret : ping_budget < Z.of_nat fuel -> total (ExecSql fuel p ret).
Proof.
  intros Hf. revert ret. induction p as [|sql p IH|s k IH]; intros ret; cbn [ExecSql].
  - apply total_ret.
  - apply total_bind; [by apply total_execute|auto].
  - apply total_bind; [by apply total_EscapeString|auto].
Qed.

(** The results the server holds have at most [fuel] rows. *)
Definition results_fit (fuel : nat) : Prop := forall h w r h' w',
  mysql_store_result h w = (Some r, h', w') -> (length (pending r) <= fuel)%nat.

(** The rows of the result that the last statement left on a handle. *)
Definition stored_rows (h : MYSQL) (w : sqlworld) : list FiledRow :=
  match fst (fst (mysql_store_result h w)) with
  | Some res => map (fun row => mkRow row (s32 (mysql_num_fields res))) (pending res)
  | None => []
  end.

(** [Init] on a new result: it ends, and it takes over what is stored. *)
Lemma Init_ends fuel h w : results_fit fuel ->
  exists r, Init fuel h MysqlResult_new w =
      Ok (r, snd (fst (mysql_store_result h w)), snd (mysql_store_result h w)) /\
    _rows r = stored_rows h w.
Proof.
  intros Hfit. unfold Init, stored_rows.
  destruct (mysql_store_result h w) as [[[res|] h1] w2] eqn:Es; cbn [fst snd]; [|by eauto].
  destruct (fetch_loop_spec fuel res (s32 (mysql_num_fields res)) _ [] eq_refl (Hfit _ _ _ _ _ Es))
    as (res' & E' & _).
  destruct (mysql_fetch_row res) as [row1 res1]. cbn [fst snd] in E'. cbn [_rows MysqlResult_new].
  rewrite E'. cbn [mbind outcome_bind app]. by eexists.
Qed.

(** C30: Running a task always returns, whatever statements its handler makes
    out of the escaped strings it sees, and reports what [ExecSql] of the
    handler returned (a handler that executes nothing fails).  When it reports
    success, the result that [OnSuccess] hands to the handler holds exactly
    the rows the library stored for the connection as the statements left it,
    and the library's call has been made on that connection; when it reports
    failure, the connection is as the statements left it, the task holds its
    error and [OnFail] gets it.  A task that was never run has no error:
    reporting its failure reads an uninitialised variable. *)
Theorem OnExecute_outcome fuel conn p c w :
  ping_budget < Z.of_nat fuel -> results_fit fuel ->
  (exists ret c1 w1 b c' w', ExecSql fuel p false (c, w) = Ok (ret, (c1, w1)) /\
    OnExecute fuel (MysqlBase_new conn p) (c, w) = Ok ((ret, b), (c', w')) /\
    (p = HDone -> ret = false) /\
    (ret = true ->
       let stored := mysql_store_result (DBConnection._mysqlHandler c1) w1 in
       _rows (OnSuccess b) = stored_rows (DBConnection._mysqlHandler c1) w1 /\
       c' = set_handle (snd (fst stored)) c1 /\ w' = snd stored /\
       OnFailed b true = Fault Uninitialised) /\
    (ret = false -> c' = c1 /\ w' = w1 /\ OnSuccess b = MysqlResult_new /\
       OnFailed b true = Ok (s32 (GetLastErrNo c1), cstr (GetLastErrInfo c1)))) /\
  OnFailed (MysqlBase_new conn p) false = Fault Uninitialised.
Proof.
  intros Hf Hfit. split; [|done]. unfold OnExecute. cbn [_mysqlHandler MysqlBase_new].
  destruct (total_ExecSql fuel p false Hf (c, w)) as (ret & [c1 w1] & E).
  assert (Hdone : p = HDone -> ret = false) by (intros ->; by injection E as <- _ _).
  rewrite (M_bind_Ok _ _ _ _ _ E). exists ret, c1, w1. destruct ret.
  - rewrite (M_bind_Ok _ _ (c1, w1) (c1, w1) (c1, w1)) by done.
    destruct (Init_ends fuel (DBConnection._mysqlHandler c1) w1 Hfit) as (r & Ei & Hr).
    set (h' := snd (fst (mysql_store_result _ w1))) in Ei. set (w' := snd (mysql_store_result _ w1)) in Ei.
    rewrite (M_bind_Ok _ _ (c1, w1) (r, h', w') (c1, w1)).
    2:{ unfold mlift, mbind, outcome_bind. cbn [_dbresult MysqlBase_new]. by rewrite Ei. }
    do 3 eexists. split; [done|]. split; [reflexivity|].
    split_and!; [by intros ?%Hdone|done|done].
  - rewrite (M_bind_Ok _ _ (c1, w1) (c1, w1) (c1, w1)) by done.
    do 3 eexists. split; [done|]. split; [reflexivity|]. by split_and!.
Qed.
End BaseProps.

(** Two rows of one column; the last row is shorter. *)
Definition two_rows : list MYSQL_ROW := [[Some (lit "abcd")]; [Some (lit "x")]].

#[local] Instance debug_build : Build := {| ndebug := false |}.

Lemma MysqlResult_Init_rows_witness : exists r fr,
  @Init (ScriptedSql.lib two_rows) _ 2 0 MysqlResult_new ScriptedSql.start = Ok (r, 0, ScriptedSql.start) /\
  @GetRow (ScriptedSql.lib two_rows) r 0 = Ok (Some fr) /\
  GetBuff (result_lengths r) fr 0 = Ok (Some (lit "abcd", 1)).
Proof.
  destruct (@MysqlResult_Init_rows (ScriptedSql.lib two_rows) _ _ 2 0 ScriptedSql.start (two_rows, [], []) 0
    ScriptedSql.start 1) as (r & E & _ & H);
    [reflexivity|reflexivity|lia|repeat constructor|reflexivity|cbn; lia|].
  destruct (H 0%nat [Some (lit "abcd")] eq_refl) as (fr & E1 & _ & _ & E2).
  exists r, fr. split; [exact E|]. split; [exact E1|].
  exact (E2 0%nat (lit "abcd") [Some (lit "x")] (Some (lit "x")) eq_refl eq_refl eq_refl).
Defined.

Definition base_connection : @DBConnection (ScriptedSql.lib two_rows) :=
  @DBConnection_new (ScriptedSql.lib two_rows) (lit "127.0.0.1") 3306 (lit "db") (lit "u") (lit "p") 0 [].

(** A statement that succeeds: the task's result has the two rows. *)
Lemma OnExecute_outcome_witness : exists b c' w',
  @OnExecute (ScriptedSql.lib two_rows) _ (Z.to_nat 2000000)
    (@MysqlBase_new (ScriptedSql.lib two_rows) 0 (HExec (lit "select 1") HDone))
    (base_connection, ScriptedSql.mkState [] [] [] [] 0) = Ok ((true, b), (c', w')) /\
  map _row (_rows (OnSuccess b)) = two_rows.
Proof.
  destruct (@OnExecute_outcome (ScriptedSql.lib two_rows) _ _ _ (Z.to_nat 2000000) 0
    (HExec (lit "select 1") HDone) base_connection (ScriptedSql.mkState [] [] [] [] 0))
    as [(ret & c1 & w1 & b & c' & w' & E1 & E & _ & H & _) _].
  - change (1 * (60000 * 30 + 2) < Z.of_nat (Z.to_nat 2000000)). lia.
  - intros h w r h' w' [= <- _ _]. change (2 <= Z.to_nat 2000000)%nat. lia.
  - cbn in E1. injection E1 as <- <- <-. destruct (H eq_refl) as [Hr _].
    exists b, c', w'. split; [exact E|]. rewrite Hr. reflexivity.
Defined.

(** A statement that fails twice: the second error is the task's. *)
Example OnExecute_failed :
  match @OnExecute (ScriptedSql.lib two_rows) _ 10
    (@MysqlBase_new (ScriptedSql.lib two_rows) 0 (HExec (lit "selec 1") HDone))
    (base_connection, ScriptedSql.mkState [1064; 1064] [] [] [] 0) with
  | Ok ((ret, b), _) => ret = false /\ exists info, OnFailed b true = Ok (1064, info)
  | _ => False
  end.
Proof. vm_compute. split; [done|by eexists]. Qed.
