(* ===== verification/MysqlMgr.v ===== *)
(** * The MySQL manager (MysqlMgr/MysqlMgr.h, MysqlMgr.cpp)

    For every configured database a vector of connections: one for the main
    thread and one per asynchronous connection.  A [DBConnection] pointer is
    an index into [dbs]; the tasks handed to the asynchronous queue are kept
    with their state, and the queue's calls on them (execute, report, release)
    are operations of their own. *)
From Stdlib Require Import ZArith Lia Ascii.
From stdpp Require Import base numbers list list_numbers strings.
From S2P Require Import Prelude Kernel RedisHelper MysqlApi DBConnection MysqlBase.
Open Scope Z_scope.

Class MysqlEnv : Type := {
  MysqlEnv_xml :: Xml;
  (** [tools::MILLISECONDS] *)
  MILLISECONDS : Z
}.

(** The part of [IMysqlHandler] the manager looks at: what [ExecSql] does and
    whether [_base] is set. *)
Record IMysqlHandler : Type := mkHandler {
  h_exec : handler_prog;
  h_base : bool
}.

(** What the queue has done with a task. *)
Inductive task_state : Type :=
  | Queued
  | Executed (ret : bool)
  | Reported
  | Released.

Section MysqlMgr.
Context {L : Mysql} {E : MysqlEnv} {BB : Build}.

Record task : Type := mkTask {
  t_thread : Z;
  t_base : MysqlBase;
  t_state : task_state
}.

(** The members; [None] is a member the constructor leaves uninitialised.
    [_mainConnection] points to the vector of a name.  [timers] are the
    calls of the kernel's [StartTimer]. *)
Record MysqlMgr : Type := mkMysql {
  _connctionMap : list (bytes * list nat);
  _asyncConnectionNum : option Z;
  _mainConnection : option bytes;
  _perfileTime : option Z;
  _createBaseCount : Z;
  _releaseBaseCount : Z;
  dbs : list DBConnection;
  tasks : list task;
  timers : list (Z * Z * Z);
  sqlnet : sqlworld
}.

Definition MysqlMgr_new (w : sqlworld) : MysqlMgr := mkMysql [] None None None 0 0 [] [] [] w.

Definition set_map l m := mkMysql l (_asyncConnectionNum m) (_mainConnection m) (_perfileTime m)
  (_createBaseCount m) (_releaseBaseCount m) (dbs m) (tasks m) (timers m) (sqlnet m).
Definition set_async n m := mkMysql (_connctionMap m) n (_mainConnection m) (_perfileTime m)
  (_createBaseCount m) (_releaseBaseCount m) (dbs m) (tasks m) (timers m) (sqlnet m).
Definition set_mainconn c m := mkMysql (_connctionMap m) (_asyncConnectionNum m) c (_perfileTime m)
  (_createBaseCount m) (_releaseBaseCount m) (dbs m) (tasks m) (timers m) (sqlnet m).
Definition set_perfile t m := mkMysql (_connctionMap m) (_asyncConnectionNum m) (_mainConnection m) t
  (_createBaseCount m) (_releaseBaseCount m) (dbs m) (tasks m) (timers m) (sqlnet m).
Definition set_counts c r m := mkMysql (_connctionMap m) (_asyncConnectionNum m) (_mainConnection m)
  (_perfileTime m) c r (dbs m) (tasks m) (timers m) (sqlnet m).
Definition set_dbs d w m := mkMysql (_connctionMap m) (_asyncConnectionNum m) (_mainConnection m)
  (_perfileTime m) (_createBaseCount m) (_releaseBaseCount m) d (tasks m) (timers m) w.
Definition set_tasks t m := mkMysql (_connctionMap m) (_asyncConnectionNum m) (_mainConnection m)
  (_perfileTime m) (_createBaseCount m) (_releaseBaseCount m) (dbs m) t (timers m) (sqlnet m).
Definition set_mtimers t m := mkMysql (_connctionMap m) (_asyncConnectionNum m) (_mainConnection m)
  (_perfileTime m) (_createBaseCount m) (_releaseBaseCount m) (dbs m) (tasks m) t (sqlnet m).

(** [_connctionMap.find(name)] *)
Fixpoint find_conn (name : bytes) (l : list (bytes * list nat)) : option (list nat) :=
  match l with
  | [] => None
  | (k, v) :: l' => if bool_decide (k = name) then Some v else find_conn name l'
  end.

(** [iter->second.push_back(p)] *)
Fixpoint push_conn (name : bytes) (p : nat) (l : list (bytes * list nat)) : list (bytes * list nat) :=
  match l with
  | [] => []
  | (k, v) :: l' => if bool_decide (k = name) then (k, v ++ [p]) :: l' else (k, v) :: push_conn name p l'
  end.

(** A method of the connection [p]. *)
Definition on_db {A} (p : nat) (f : M (DBConnection * sqlworld) A) : M MysqlMgr A :=
  m ← mget;
  c ← mlift (of_option OutOfBounds (dbs m !! p));
  '(a, (c, w)) ← mlift (f (c, sqlnet m));
  mmodify (set_dbs (<[p := c]> (dbs m)) w);;
  mret a.

(** ** Configuration *)

(** [for (i = 0; i < connectionNum; i++)]: a connection that does not open
    is deleted and loading fails. *)
Fixpoint open_all (n : nat) (name : bytes) (c : DBConnection) : M MysqlMgr bool :=
  match n with
  | O => mret true
  | S n' =>
      m ← mget;
      '(ok, (c', w)) ← mlift (open (c, sqlnet m));
      if (ok : bool) then
        mmodify (set_dbs (dbs m ++ [c']) w);;
        mmodify (fun m' => set_map (push_conn name (length (dbs m)) (_connctionMap m')) m');;
        open_all n' name c
      else mmodify (set_dbs (dbs m) w);; mret false
  end.

(** [while (connection)]: the fuel bounds the number of siblings. *)
Fixpoint connection_loop (fuel : nat) (connectionNum : Z) (connection : option xml) : M MysqlMgr bool :=
  match connection with
  | None => mret true
  | Some x =>
      match fuel with
      | O => mfuel
      | S fuel' =>
          let name := GetAttribute_Str x (lit "name") in
          m ← mget;
          match find_conn name (_connctionMap m) with
          | Some _ => mlift (ASSERT false);; mret false
          | None =>
              mmodify (fun m => set_map (_connctionMap m ++ [(name, [])]) m);;
              let c := DBConnection_new (GetAttribute_Str x (lit "hostip")) (GetAttribute_S32 x (lit "port"))
                (GetAttribute_Str x (lit "databasename")) (GetAttribute_Str x (lit "username"))
                (GetAttribute_Str x (lit "password")) 0 (GetAttribute_Str x (lit "characterset")) in
              ok ← open_all (Z.to_nat connectionNum) name c;
              if negb ok then mret false else
              mmodify (set_async (Some (s32 (connectionNum - 1))));;
              connection_loop fuel' connectionNum (GetNextSibling x)
          end
      end
  end.

(** The number of connections per database. *)
Definition connection_count (connectionNum threadCount : Z) : Z :=
  let n := if connectionNum <? 0 then 1 else connectionNum in
  let n := if threadCount <? n then threadCount else n in
  s32 (n + 1).

Definition LoadConfigFile (fuel : nat) : M MysqlMgr bool :=
  match LoadFile with
  | None => mlift (ASSERT false);; mret false
  | Some root =>
      let threadCount := match GetFirstChrild root (lit "async") with
                         | Some async => GetAttribute_S32 async (lit "threadcount")
                         | None => 0
                         end in
      match GetFirstChrild root (lit "mysql") with
      | None => mret false
      | Some mysql =>
          let defaultConnetion := GetAttribute_Str mysql (lit "defultconnection") in
          mmodify (set_perfile (Some (s32 (GetAttribute_S32 mysql (lit "perfiletime") * MILLISECONDS))));;
          let n := connection_count (GetAttribute_S32 mysql (lit "connectionnum")) threadCount in
          ok ← connection_loop fuel n (GetFirstChrild mysql (lit "connection"));
          if negb ok then mret false else
          m ← mget;
          match find_conn defaultConnetion (_connctionMap m) with
          | None => mlift (ASSERT false);; mret false
          | Some _ => mmodify (set_mainconn (Some defaultConnetion));; mret true
          end
      end
  end.

Definition Initialize (fuel : nat) : M MysqlMgr bool := LoadConfigFile fuel.

Definition Launched : M MysqlMgr bool :=
  m ← mget;
  t ← mlift (of_option Uninitialised (_perfileTime m));
  let t := if t =? 0 then MINUTE else t in
  mmodify (set_perfile (Some t));;
  mmodify (fun m => set_mtimers (timers m ++ [(t, FOREVER, t)]) m);;
  mret true.

(** ** Choosing a connection *)

Definition GetConnectionThreadIdx (id : Z) : M MysqlMgr Z :=
  m ← mget;
  n ← mlift (of_option Uninitialised (_asyncConnectionNum m));
  if u64 n =? 0 then mfault DivByZero else mret (u32 (u64 (u64 id mod u64 n + 1))).

Definition GetConnectionMainThreadIdx : Z := 0.

Definition CheckThreadIdx (threadIdx : Z) : M MysqlMgr bool :=
  if 0 <? threadIdx then
    m ← mget;
    n ← mlift (of_option Uninitialised (_asyncConnectionNum m));
    mret (threadIdx <=? n)
  else mret false.

(** [None] is [nullptr]: a name that is not configured. *)
Definition GetDBConnection (threadIdx : Z) (connectionName : option bytes) : M MysqlMgr (option nat) :=
  m ← mget;
  match connectionName with
  | None =>
      name ← mlift (of_option Uninitialised (_mainConnection m));
      v ← mlift (of_option NullPointer (find_conn name (_connctionMap m)));
      p ← mlift (of_option OutOfBounds (v !! Z.to_nat threadIdx));
      mret (Some p)
  | Some name =>
      match find_conn name (_connctionMap m) with
      | Some v => p ← mlift (of_option OutOfBounds (v !! Z.to_nat threadIdx)); mret (Some p)
      | None => mret None
      end
  end.

(** ** The interface *)

(** The result and the handler afterwards. *)
Definition PushMysqlHandler (id : Z) (handler : option IMysqlHandler) (connectionName : option bytes)
    : M MysqlMgr (bool * option IMysqlHandler) :=
  match handler with
  | None => mlift (ASSERT false);; mret (false, None)
  | Some h =>
      if h_base h then mlift (ASSERT false);; mret (false, Some h) else
      threadIdx ← GetConnectionThreadIdx (u64 id);
      connection ← GetDBConnection threadIdx connectionName;
      match connection with
      | None => mlift (ASSERT false);; mret (false, Some h)
      | Some p =>
          let base := MysqlBase_new p (h_exec h) in
          mmodify (fun m => set_counts (s32 (_createBaseCount m + 1)) (_releaseBaseCount m) m);;
          mmodify (fun m => set_tasks (tasks m ++ [mkTask threadIdx base Queued]) m);;
          mret (true, Some (mkHandler (h_exec h) true))
      end
  end.

Definition EscapeStringExInMainThread (fuel : nat) (pszSrc : bytes) (connectionName : option bytes)
    : M MysqlMgr (Z * bytes) :=
  connection ← GetDBConnection GetConnectionMainThreadIdx connectionName;
  match connection with
  | Some p => '(size, dest) ← on_db p (EscapeStringEx fuel pszSrc); mret (s32 size, dest)
  | None => mret (0, [])
  end.

Definition GetEscapeStringHandlerInMainThread (connectionName : option bytes) : M MysqlMgr (option nat) :=
  GetDBConnection GetConnectionMainThreadIdx connectionName.

Definition EscapeStringExInAsyncThread (fuel : nat) (threadIdx : Z) (pszSrc : bytes)
    (connectionName : option bytes) : M MysqlMgr (Z * bytes) :=
  ok ← CheckThreadIdx threadIdx;
  if negb ok then mlift (ASSERT false);; mret (0, []) else
  connection ← GetDBConnection (u32 threadIdx) connectionName;
  match connection with
  | Some p => '(size, dest) ← on_db p (EscapeStringEx fuel pszSrc); mret (s32 size, dest)
  | None => mret (0, [])
  end.

Definition GetEscapeStringHandlerInAsyncThread (threadIdx : Z) (connectionName : option bytes)
    : M MysqlMgr (option nat) :=
  ok ← CheckThreadIdx threadIdx;
  if negb ok then mlift (ASSERT false);; mret None else GetDBConnection (u32 threadIdx) connectionName.

Definition ExecSqlInAsyncThread (fuel : nat) (threadIdx : Z) (sql : bytes)
    (connectionName : option bytes) : M MysqlMgr bool :=
  ok ← CheckThreadIdx threadIdx;
  if negb ok then mlift (ASSERT false);; mret false else
  connection ← GetDBConnection (u32 threadIdx) connectionName;
  match connection with
  | Some p => on_db p (execute fuel sql)
  | None => mret false
  end.

(** The overload with a callback; the second component is the result the
    callback is called with. *)
Definition ExecSqlInAsyncThread_cb (fuel : nat) (threadIdx : Z) (sql : bytes) (cbFun : bool)
    (connectionName : option bytes) : M MysqlMgr (bool * option MysqlResult) :=
  ok ← CheckThreadIdx threadIdx;
  if negb ok then mlift (ASSERT false);; mret (false, None) else
  connection ← GetDBConnection (u32 threadIdx) connectionName;
  match connection with
  | None => mret (false, None)
  | Some p =>
      ret ← on_db p (execute fuel sql);
      if negb ret then mret (false, None)
      else if cbFun then
        r ← on_db p ('(c, w) ← mget;
                     '(r, h, w) ← mlift (Init fuel (DBConnection._mysqlHandler c) MysqlResult_new w);
                     mput (set_handle h c, w);; mret r);
        mret (true, Some r)
      else mret (true, None)
  end.

(** ** The asynchronous queue's calls *)

Definition OnBaseRelease : M MysqlMgr () :=
  mmodify (fun m => set_counts (_createBaseCount m) (s32 (_releaseBaseCount m + 1)) m).

Definition set_task (i : nat) (t : task) : M MysqlMgr () :=
  mmodify (fun m => set_tasks (<[i := t]> (tasks m)) m).

(** [OnExecute] in the worker thread. *)
Definition task_execute (fuel i : nat) : M MysqlMgr bool :=
  m ← mget;
  t ← mlift (of_option BadCall (tasks m !! i));
  match t_state t with
  | Queued =>
      '(ret, b) ← on_db (_connection (t_base t)) (OnExecute fuel (t_base t));
      set_task i (mkTask (t_thread t) b (Executed ret));;
      mret ret
  | _ => mfault BadCall
  end.

(** [OnSuccess] or [OnFailed] in the main thread: what the handler gets. *)
Definition task_report (i : nat) : M MysqlMgr (MysqlResult + Z * bytes) :=
  m ← mget;
  t ← mlift (of_option BadCall (tasks m !! i));
  match t_state t with
  | Executed true => set_task i (mkTask (t_thread t) (t_base t) Reported);; mret (inl (OnSuccess (t_base t)))
  | Executed false =>
      r ← mlift (OnFailed (t_base t) true);
      set_task i (mkTask (t_thread t) (t_base t) Reported);; mret (inr r)
  | _ => mfault BadCall
  end.

(** [MysqlBase::OnRelease]. *)
Definition task_release (i : nat) : M MysqlMgr () :=
  m ← mget;
  t ← mlift (of_option BadCall (tasks m !! i));
  match t_state t with
  | Reported =>
      OnBaseRelease;;
      set_task i (mkTask (t_thread t) (t_base t) Released)
  | _ => mfault BadCall
  end.

(** ** Profiling *)

(** The lines [OnTime] logs. *)
Definition connecter_lines (m : MysqlMgr) (i : nat) (p : nat) : outcome (list bytes) :=
  c ← of_option OutOfBounds (dbs m !! p);
  let t := _traceInfo c in
  Ok [lit "Connecter[" ++ fmt_d (Z.of_nat i) ++ lit "], execute count:" ++ fmt_d (_execCount t) ++
      lit ", failed count:" ++ fmt_d (_failCount t) ++ lit ",  min exec time:" ++ fmt_d (_minExecTime t) ++
      lit " ms, max exec time:" ++ fmt_d (_maxExecTime t) ++ lit " ms"].

Fixpoint seq_lines {A} (l : list (outcome (list A))) : outcome (list A) :=
  match l with
  | [] => Ok []
  | o :: l' => a ← o; b ← seq_lines l'; Ok (a ++ b)
  end.

Definition OnTime (m : MysqlMgr) : outcome (list bytes) :=
  body ← seq_lines (map (fun kv =>
    ls ← seq_lines (imap (connecter_lines m) (snd kv));
    Ok ((lit "Connection:" ++ cstr (fst kv) ++ lit ", Info:") :: ls)) (_connctionMap m));
  Ok ([lit "MysqlProfile:";
       lit "MysqlBase Create Num:" ++ fmt_d (_createBaseCount m) ++ lit ", Release Num:" ++
         fmt_d (_releaseBaseCount m)] ++ body ++ [lit "MysqlProfile End."]).
End MysqlMgr.

Arguments mkMysql {L}.
Arguments mkTask {L}.
