(* ===== verification/MysqlMgrProps.v ===== *)
(** * Properties of the MySQL manager

    What a successful start-up establishes, where a handler is sent, and the
    life of a task as a state machine: which counters count what, and that no
    report reads an error code that was never set. *)
From Stdlib Require Import ZArith Lia Ascii.
From stdpp Require Import base numbers list list_numbers strings.
From S2P Require Import Prelude Kernel RedisHelper MysqlApi DBConnection MysqlBase MysqlMgr.
Open Scope Z_scope.

Section Props.
Context {L : Mysql} {E : MysqlEnv} {BB : Build}.

(** What the connection methods change: nothing but connections and world. *)
Record mframe (s s' : MysqlMgr) : Prop := {
  mf_map : _connctionMap s' = _connctionMap s;
  mf_async : _asyncConnectionNum s' = _asyncConnectionNum s;
  mf_main : _mainConnection s' = _mainConnection s;
  mf_create : _createBaseCount s' = _createBaseCount s;
  mf_release : _releaseBaseCount s' = _releaseBaseCount s;
  mf_tasks : tasks s' = tasks s;
  mf_dbs : length (dbs s') = length (dbs s)
}.

#[export] Instance mframe_preorder : PreOrder mframe.
Proof. split; [by constructor|]. intros s1 s2 s3 [] []. constructor; congruence. Qed.

Lemma preserves_on_db {A} p (f : M (DBConnection * sqlworld) A) : preserves mframe (on_db p f).
Proof.
  intros m a m'. unfold on_db, mget, mmodify, mlift, mret, M_ret, mbind, M_bind, outcome_bind.
  destruct (dbs m !! p) as [c|]; cbn [of_option]; [|done].
  destruct (f (c, sqlnet m)) as [[a' [c' w']]| |]; [|done..]. intros [= <- <-].
  constructor; cbn; try done. apply length_insert.
Qed.

Hint Resolve preserves_on_db : preserve.

Lemma preserves_GetDBConnection t n : preserves mframe (GetDBConnection t n).
Proof. unfold GetDBConnection. preserve_tac. Qed.

Lemma preserves_CheckThreadIdx t : preserves mframe (CheckThreadIdx t).
Proof. unfold CheckThreadIdx. preserve_tac. Qed.

Lemma preserves_GetConnectionThreadIdx t : preserves mframe (GetConnectionThreadIdx t).
Proof. unfold GetConnectionThreadIdx. preserve_tac. Qed.

Hint Resolve preserves_GetDBConnection preserves_CheckThreadIdx preserves_GetConnectionThreadIdx : preserve.

Lemma preserves_EscapeMain fuel s n : preserves mframe (EscapeStringExInMainThread fuel s n).
Proof. unfold EscapeStringExInMainThread. preserve_tac. Qed.

Lemma preserves_EscapeAsync fuel t s n : preserves mframe (EscapeStringExInAsyncThread fuel t s n).
Proof. unfold EscapeStringExInAsyncThread. preserve_tac. Qed.

Lemma preserves_ExecSql fuel t s n : preserves mframe (ExecSqlInAsyncThread fuel t s n).
Proof. unfold ExecSqlInAsyncThread. preserve_tac. Qed.

Lemma preserves_ExecSql_cb fuel t s cb n : preserves mframe (ExecSqlInAsyncThread_cb fuel t s cb n).
Proof. unfold ExecSqlInAsyncThread_cb. preserve_tac. Qed.

Lemma preserves_Launched : preserves mframe Launched.
Proof. unfold Launched. preserve_tac; by constructor. Qed.

(** ** Start-up *)

(** Vectors of [k] connections that exist. *)
Definition vectors_ok (k nd : nat) (l : list (bytes * list nat)) : Prop :=
  Forall (fun kv => length (snd kv) = k /\ Forall (fun p => (p < nd)%nat) (snd kv)) l.

Lemma vectors_mono k nd nd' l : vectors_ok k nd l -> (nd <= nd')%nat -> vectors_ok k nd' l.
Proof.
  intros H Hn. eapply Forall_impl; [exact H|]. intros [n v] [H1 H2]. split; [done|].
  eapply Forall_impl; [exact H2|]. cbn. lia.
Qed.

Lemma find_conn_last name v l : find_conn name l = None -> find_conn name (l ++ [(name, v)]) = Some v.
Proof.
  induction l as [|[k u] l IH]; cbn [app find_conn]; [by rewrite bool_decide_eq_true_2|].
  case_bool_decide; [done|exact IH].
Qed.

Lemma push_conn_last name v p l : find_conn name l = None ->
  push_conn name p (l ++ [(name, v)]) = l ++ [(name, v ++ [p])].
Proof.
  induction l as [|[k u] l IH]; cbn [app find_conn push_conn]; [by rewrite bool_decide_eq_true_2|].
  case_bool_decide; [done|]. intros Hf. by rewrite IH.
Qed.

Lemma find_conn_In name l v : find_conn name l = Some v -> (name, v) ∈ l.
Proof.
  induction l as [|[k u] l IH]; cbn [find_conn]; [done|]. case_bool_decide as Hk.
  - intros [= <-]. subst. by left.
  - intros H%IH. by right.
Qed.

(** Opening [n] connections for the name added last. *)
Lemma open_all_spec n name c l v m m' :
  find_conn name l = None -> _connctionMap m = l ++ [(name, v)] ->
  open_all n name c m = Ok (true, m') ->
  exists v', _connctionMap m' = l ++ [(name, v')] /\ length v' = (length v + n)%nat /\
    (Forall (fun p => (p < length (dbs m))%nat) v -> Forall (fun p => (p < length (dbs m'))%nat) v') /\
    (length (dbs m) <= length (dbs m'))%nat /\
    _asyncConnectionNum m' = _asyncConnectionNum m /\ tasks m' = tasks m /\
    _createBaseCount m' = _createBaseCount m /\ _releaseBaseCount m' = _releaseBaseCount m.
Proof.
  revert v m. induction n as [|n IH]; intros v m Hl Hm; cbn [open_all].
  { intros [= <-]. exists v. split_and!; done || lia. }
  unfold mget, mlift, mbind, M_bind, outcome_bind.
  destruct (open (c, sqlnet m)) as [[ok [c' w]]| |]; [|done..]. destruct ok; [|done].
  unfold mmodify. set (m1 := set_map _ _). intros H.
  destruct (IH (v ++ [length (dbs m)]) m1 Hl) as (v' & H1 & H2 & H3 & H4 & H5 & H6 & H7 & H8);
    [unfold m1; cbn; rewrite Hm; by apply push_conn_last|exact H|].
  assert (Hd : length (dbs m1) = S (length (dbs m))) by (unfold m1; cbn; rewrite length_app; cbn; lia).
  exists v'. rewrite length_app in H2. cbn in H2. split_and!; try done; [lia| |lia].
  intros Hv. apply H3. apply Forall_app. split.
  - eapply Forall_impl; [exact Hv|]. intros q Hq. rewrite Hd. cbn in Hq. lia.
  - constructor; [lia|constructor].
Qed.

Lemma connection_loop_spec fuel n x m m' : connection_loop fuel n x m = Ok (true, m') ->
  vectors_ok (Z.to_nat n) (length (dbs m)) (_connctionMap m) ->
  vectors_ok (Z.to_nat n) (length (dbs m')) (_connctionMap m') /\
  (_asyncConnectionNum m' = Some (s32 (n - 1)) \/ m' = m) /\
  tasks m' = tasks m /\ _createBaseCount m' = _createBaseCount m /\
  _releaseBaseCount m' = _releaseBaseCount m.
Proof.
  revert x m. induction fuel as [|fuel IH]; intros [x|] m; cbn [connection_loop];
    try (intros [= <-]; by auto 10); try done.
  unfold mget, mbind, M_bind at 1. cbn [mbind].
  destruct (find_conn _ (_connctionMap m)) eqn:Ef.
  { unfold mlift, ASSERT. by destruct (_ || _). }
  unfold mmodify, M_bind at 1. set (m1 := set_map _ _). unfold M_bind at 1.
  destruct (open_all _ _ _ m1) as [[ok m2]| |] eqn:Eo; [|done..]. destruct ok; cbn [negb]; [|done].
  unfold M_bind. intros H Hv.
  destruct (open_all_spec _ _ _ (_connctionMap m) [] m1 m2 Ef eq_refl Eo)
    as (v' & H1 & H2 & H3 & H4 & H5 & H6 & H7 & H8).
  apply IH in H as (V & A & T & C & R).
  - split; [done|]. split; [destruct A as [A|A]; left; [done|by rewrite A]|].
    cbn in T, C, R. by rewrite T, C, R, H6, H7, H8.
  - cbn. rewrite H1. apply Forall_app. split; [by eapply vectors_mono|].
    constructor; [|constructor]. split; [exact H2|]. apply H3. constructor.
Qed.

(** The numbers of the configuration file. *)
Definition config_count : option Z :=
  root ← LoadFile;
  mysql ← GetFirstChrild root (lit "mysql");
  Some (connection_count (GetAttribute_S32 mysql (lit "connectionnum"))
          match GetFirstChrild root (lit "async") with
          | Some async => GetAttribute_S32 async (lit "threadcount")
          | None => 0
          end).

Lemma Initialize_spec fuel w m : Initialize fuel (MysqlMgr_new w) = Ok (true, m) ->
  exists n name v, config_count = Some n /\ _mainConnection m = Some name /\
    find_conn name (_connctionMap m) = Some v /\
    vectors_ok (Z.to_nat n) (length (dbs m)) (_connctionMap m) /\
    _asyncConnectionNum m = Some (s32 (n - 1)) /\
    tasks m = [] /\ _createBaseCount m = 0 /\ _releaseBaseCount m = 0.
Proof.
  unfold Initialize, LoadConfigFile, config_count. destruct LoadFile as [root|].
  2:{ unfold mlift, mbind, M_bind, outcome_bind, ASSERT. by destruct (_ || _). }
  cbn [mbind option_bind]. destruct (GetFirstChrild root (lit "mysql")) as [x|]; [|done].
  cbn [mbind option_bind]. set (n := connection_count _ _).
  unfold mmodify, mbind, M_bind at 1. set (m1 := set_perfile _ _). unfold M_bind at 1.
  destruct (connection_loop fuel n _ m1) as [[ok m2]| |] eqn:Ec; [|done..].
  destruct ok; cbn [negb]; [|done]. unfold mget, M_bind at 1.
  destruct (find_conn _ (_connctionMap m2)) as [v|] eqn:Ef.
  2:{ unfold mlift, M_bind, mbind, outcome_bind, ASSERT. by destruct (_ || _). }
  unfold M_bind. intros [= <-]. apply connection_loop_spec in Ec as (V & A & T & C & R); [|constructor].
  eexists n, _, v. split_and!; try done.
  destruct A as [A| ->]; [exact A|]. by unfold m1 in Ef.
Qed.

(** ** Where a handler goes *)

(** A manager with [n] asynchronous connections per database. *)
Record mysql_ok (n : Z) (m : MysqlMgr) : Prop := {
  mo_range : 0 <= n < 2 ^ 31 - 1;
  mo_async : _asyncConnectionNum m = Some n;
  mo_vectors : vectors_ok (Z.to_nat (n + 1)) (length (dbs m)) (_connctionMap m);
  mo_main : exists name v, _mainConnection m = Some name /\ find_conn name (_connctionMap m) = Some v
}.

(** The vector a connection name means. *)
Definition vector_of (name : option bytes) (m : MysqlMgr) : option (list nat) :=
  match name with
  | Some k => find_conn k (_connctionMap m)
  | None => k ← _mainConnection m; find_conn k (_connctionMap m)
  end.

Lemma GetDBConnection_spec n m t name : mysql_ok n m -> 0 <= t <= n ->
  GetDBConnection t name m =
    match vector_of name m with
    | Some v => match v !! Z.to_nat t with Some p => Ok (Some p, m) | None => Fault OutOfBounds end
    | None => Ok (None, m)
    end /\
  (forall v, vector_of name m = Some v -> is_Some (v !! Z.to_nat t)).
Proof.
  intros [Hr Ha Hv (k & v & Hk & Hf)] Ht. split.
  - unfold GetDBConnection, vector_of, mget, mlift, mret, M_ret, mbind, M_bind, outcome_bind.
    destruct name as [name|].
    + destruct (find_conn name (_connctionMap m)) as [u|]; [|done]. by destruct (u !! Z.to_nat t).
    + rewrite Hk. cbn [of_option option_bind mbind]. rewrite Hf. cbn [of_option].
      by destruct (v !! Z.to_nat t).
  - intros u Hu. apply lookup_lt_is_Some_2.
    assert (Hin : exists name', (name', u) ∈ _connctionMap m).
    { destruct name as [name|]; cbn [vector_of] in Hu; [eauto using find_conn_In|].
      rewrite Hk in Hu. cbn in Hu. eauto using find_conn_In. }
    destruct Hin as [name' Hin]. unfold vectors_ok in Hv. rewrite Forall_forall in Hv.
    destruct (Hv _ Hin) as [Hlen _]. cbn in Hlen. lia.
Qed.

Lemma GetConnectionThreadIdx_spec n m id : mysql_ok n m -> 0 < n ->
  GetConnectionThreadIdx id m = Ok ((id mod 2 ^ 64) mod n + 1, m) /\ 1 <= (id mod 2 ^ 64) mod n + 1 <= n.
Proof.
  intros [Hr Ha _ _] Hn. pose proof (Z.mod_pos_bound (id mod 2 ^ 64) n ltac:(lia)). split; [|lia].
  unfold GetConnectionThreadIdx, mget, mlift, mret, M_ret, mbind, M_bind, outcome_bind. rewrite Ha.
  cbn [of_option]. unfold u64 at 1. rewrite (uwrap_small 64 n) by lia.
  destruct (Z.eqb_spec n 0); [lia|]. unfold u64. rewrite (uwrap_small 64 n) by lia.
  rewrite (uwrap_small 64 (uwrap 64 id mod n + 1)) by (unfold uwrap; lia).
  by rewrite u32_small by (unfold uwrap; lia).
Qed.

(** C21: Pushing a fresh handler with [n > 0] connections and a configured
    name queues exactly one task, for thread [(u64)id mod n + 1], on the
    connection of that index: equal ids share thread and connection, and
    every id of the 64-bit range finds one.  A name that is not configured
    queues nothing.  With [n = 0], which the configuration allows
    ([connectionnum] or [threadcount] 0), the modulus divides by zero. *)
Theorem PushMysqlHandler_routes n m id h name : mysql_ok n m -> h_base h = false ->
  (0 < n -> forall v, vector_of name m = Some v -> exists p m',
    let t := (id mod 2 ^ 64) mod n + 1 in
    1 <= t <= n /\ v !! Z.to_nat t = Some p /\ (p < length (dbs m))%nat /\
    PushMysqlHandler id (Some h) name m = Ok ((true, Some (mkHandler (h_exec h) true)), m') /\
    tasks m' = tasks m ++ [mkTask t (MysqlBase_new p (h_exec h)) Queued] /\
    _createBaseCount m' = s32 (_createBaseCount m + 1) /\ dbs m' = dbs m) /\
  (0 < n -> vector_of name m = None ->
    PushMysqlHandler id (Some h) name m =
      if ndebug then Ok ((false, Some h), m) else Fault AssertFailed) /\
  (n = 0 -> PushMysqlHandler id (Some h) name m = Fault DivByZero).
Proof.
  intros Hm Hb. unfold PushMysqlHandler. rewrite Hb.
  assert (Hu : u64 id mod 2 ^ 64 = id mod 2 ^ 64) by (unfold u64, uwrap; by rewrite Zmod_mod).
  split_and!.
  - intros Hn v Hv. destruct (GetConnectionThreadIdx_spec n m (u64 id) Hm Hn) as [E1 Ht].
    rewrite Hu in E1, Ht. set (t := (id mod 2 ^ 64) mod n + 1) in *.
    destruct (GetDBConnection_spec n m t name Hm ltac:(lia)) as [E2 Hs].
    destruct (Hs v Hv) as [p Hp]. rewrite Hv, Hp in E2.
    exists p. rewrite (M_bind_Ok _ _ _ _ _ E1), (M_bind_Ok _ _ _ _ _ E2).
    eexists. split_and!; [lia|lia|done| |reflexivity|done|done|done].
    destruct Hm as [_ _ Hvec _]. unfold vectors_ok in Hvec. rewrite Forall_forall in Hvec.
    assert (Hin : exists name', (name', v) ∈ _connctionMap m).
    { destruct name as [name|]; cbn [vector_of] in Hv; [eauto using find_conn_In|].
      destruct (_mainConnection m) as [k|]; cbn in Hv; [eauto using find_conn_In|done]. }
    destruct Hin as [name' Hin]. destruct (Hvec _ Hin) as [_ Hlt]. cbn in Hlt.
    exact (Forall_lookup_1 _ _ _ _ Hlt Hp).
  - intros Hn Hv. destruct (GetConnectionThreadIdx_spec n m (u64 id) Hm Hn) as [E1 Ht].
    rewrite Hu in E1, Ht.
    destruct (GetDBConnection_spec n m ((id mod 2 ^ 64) mod n + 1) name Hm ltac:(lia)) as [E2 _].
    rewrite Hv in E2. rewrite (M_bind_Ok _ _ _ _ _ E1), (M_bind_Ok _ _ _ _ _ E2).
    unfold mlift, ASSERT, mbind, M_bind, outcome_bind. cbn [orb]. by destruct ndebug.
  - intros ->. unfold GetConnectionThreadIdx, mget, mlift, mbind, M_bind, outcome_bind.
    by rewrite (mo_async _ _ Hm).
Qed.

(** ** The life of a task *)

Definition is_released (t : task) : bool := match t_state t with Released => true | _ => false end.

Definition released_count (l : list task) : Z := Z.of_nat (length (List.filter is_released l)).

(** A task knows its error if it has failed. *)
Definition task_ok (n : Z) (m : MysqlMgr) (t : task) : Prop :=
  1 <= t_thread t <= n /\
  (exists name v, (name, v) ∈ _connctionMap m /\ v !! Z.to_nat (t_thread t) = Some (_connection (t_base t))) /\
  (t_state t = Executed false -> is_Some (_erorCode (t_base t))).

Record mysql_inv (n : Z) (m : MysqlMgr) : Prop := {
  mi_ok : mysql_ok n m;
  mi_create : _createBaseCount m = s32 (Z.of_nat (length (tasks m)));
  mi_release : _releaseBaseCount m = s32 (released_count (tasks m));
  mi_tasks : Forall (task_ok n m) (tasks m)
}.

(** The manager's interface and the queue's calls on its tasks.  (Which queue
    the tasks wait in, [SetAsyncQueue], is no part of the manager's state
    here: [MysqlQueue] runs them in the order of the queue.) *)
Inductive mysql_step : MysqlMgr -> MysqlMgr -> Prop :=
  | ms_launched m r m' : Launched m = Ok (r, m') -> mysql_step m m'
  | ms_push id h name m r m' : PushMysqlHandler id h name m = Ok (r, m') -> mysql_step m m'
  | ms_execute fuel i m r m' : task_execute fuel i m = Ok (r, m') -> mysql_step m m'
  | ms_report i m r m' : task_report i m = Ok (r, m') -> mysql_step m m'
  | ms_release i m r m' : task_release i m = Ok (r, m') -> mysql_step m m'
  | ms_escape_main fuel s name m r m' :
      EscapeStringExInMainThread fuel s name m = Ok (r, m') -> mysql_step m m'
  | ms_escape_async fuel t s name m r m' :
      EscapeStringExInAsyncThread fuel t s name m = Ok (r, m') -> mysql_step m m'
  | ms_sql fuel t s name m r m' : ExecSqlInAsyncThread fuel t s name m = Ok (r, m') -> mysql_step m m'
  | ms_sql_cb fuel t s cb name m r m' :
      ExecSqlInAsyncThread_cb fuel t s cb name m = Ok (r, m') -> mysql_step m m'.

Inductive mysql_reachable : MysqlMgr -> Prop :=
  | mr_init fuel w m : Initialize fuel (MysqlMgr_new w) = Ok (true, m) -> mysql_reachable m
  | mr_step m m' : mysql_reachable m -> mysql_step m m' -> mysql_reachable m'.

(** *** What each operation does to the tasks *)

Lemma task_ok_map n m m' t : _connctionMap m' = _connctionMap m -> task_ok n m t -> task_ok n m' t.
Proof. unfold task_ok. by intros ->. Qed.

Lemma inv_mframe n m m' : mframe m m' -> mysql_inv n m -> mysql_inv n m'.
Proof.
  intros [Hmap Ha Hmn Hc Hr Ht Hd] [[O1 O2 O3 O4] Ic Ir It]. constructor.
  - constructor; rewrite ?Hmap, ?Ha, ?Hmn, ?Hd; done.
  - by rewrite Hc, Ht.
  - by rewrite Hr, Ht.
  - rewrite Ht. eapply Forall_impl; [exact It|]. intros t. by apply task_ok_map.
Qed.

Lemma released_app l t : is_released t = false -> released_count (l ++ [t]) = released_count l.
Proof. intros H. unfold released_count. rewrite List.filter_app. cbn. by rewrite H, app_nil_r. Qed.

(** Replacing one task. *)
Lemma released_insert l i t t' : l !! i = Some t ->
  released_count (<[i := t']> l) =
    released_count l - Z.b2z (is_released t) + Z.b2z (is_released t').
Proof.
  unfold released_count. generalize is_released. intros f. revert i. induction l as [|x l IH]; intros [|i]; try done.
  - intros [= ->]. cbn. destruct (f t), (f t'); cbn [length Z.b2z]; lia.
  - intros H%IH. cbn. destruct (f x); cbn [length]; [|exact H].
    rewrite !Nat2Z.inj_succ. etransitivity; [exact (f_equal Z.succ H)|lia].
Qed.

(** A task of the list replaced by one that is fine. *)
Lemma inv_set_task n m i t t' : mysql_inv n m -> tasks m !! i = Some t -> is_released t = false ->
  task_ok n m t' ->
  mysql_inv n (set_tasks (<[i := t']> (tasks m))
    (set_counts (_createBaseCount m) (s32 (_releaseBaseCount m + Z.b2z (is_released t'))) m)).
Proof.
  intros [[O1 O2 O3 O4] Ic Ir It] Hi Hn Ht'. constructor; cbn.
  - by constructor.
  - by rewrite length_insert.
  - rewrite (released_insert _ _ _ _ Hi), Hn, Ir. cbn.
    rewrite s32_add_l. f_equal. lia.
  - apply Forall_insert; [|by eapply task_ok_map; [|exact Ht']].
    eapply Forall_impl; [exact It|]. intros x. by apply task_ok_map.
Qed.

(** Nothing counted. *)
Lemma inv_set_task_live n m i t t' : mysql_inv n m -> tasks m !! i = Some t -> is_released t = false ->
  is_released t' = false -> task_ok n m t' -> mysql_inv n (set_tasks (<[i := t']> (tasks m)) m).
Proof.
  intros I Hi Hn Hn' Ht'. pose proof (inv_set_task n m i t t' I Hi Hn Ht') as I'.
  rewrite Hn' in I'. cbn in I'. rewrite Z.add_0_r in I'.
  assert (Er : s32 (_releaseBaseCount m) = _releaseBaseCount m) by (rewrite (mi_release _ _ I); apply s32_idem).
  rewrite Er in I'. destruct m; exact I'.
Qed.

(** A failed execution leaves an error code; the connection stays. *)
Lemma OnExecute_post fuel b s ret b' s' : OnExecute fuel b s = Ok ((ret, b'), s') ->
  _connection b' = _connection b /\ (ret = false -> is_Some (_erorCode b')).
Proof.
  unfold OnExecute. intros H. apply M_bind_inv in H as (r & s1 & _ & H). destruct r.
  - apply M_bind_inv in H as ([c w] & s2 & _ & H). apply M_bind_inv in H as ([[res h] w2] & s3 & _ & H).
    apply M_bind_inv in H as (? & s4 & _ & [= <- <- _]). done.
  - apply M_bind_inv in H as ([c w] & s2 & _ & [= <- <- _]). cbn. eauto.
Qed.

Lemma on_db_result {A} p (f : M (DBConnection * sqlworld) A) m a m' :
  on_db p f m = Ok (a, m') -> exists s s', f s = Ok (a, s').
Proof.
  unfold on_db, mget, mmodify, mlift, mret, M_ret, mbind, M_bind, outcome_bind.
  destruct (dbs m !! p) as [c|]; cbn [of_option]; [|done].
  destruct (f (c, sqlnet m)) as [[a' [c' w']]| |] eqn:Ef; [|done..]. intros [= <- <-]. eauto.
Qed.

Lemma inv_execute n fuel i m r m' : mysql_inv n m -> task_execute fuel i m = Ok (r, m') -> mysql_inv n m'.
Proof.
  intros I. unfold task_execute, mget, mlift. intros H.
  apply M_bind_inv in H as (? & ? & [= <- <-] & H).
  destruct (tasks m !! i) as [t|] eqn:Hi; [|done].
  rewrite (M_bind_Ok _ _ m t m) in H by done.
  destruct (t_state t) eqn:Es; [|done..].
  apply M_bind_inv in H as ([ret b] & m1 & H1 & H).
  pose proof (preserves_on_db _ _ _ _ _ H1) as F.
  apply on_db_result in H1 as (s & s' & H1). apply OnExecute_post in H1 as [Hc He].
  apply M_bind_inv in H as (? & m2 & [= _ <-] & [= _ <-]).
  pose proof (inv_mframe _ _ _ F I) as I1.
  assert (Hi1 : tasks m1 !! i = Some t) by by rewrite (mf_tasks _ _ F).
  pose proof (Forall_lookup_1 _ _ _ _ (mi_tasks _ _ I1) Hi1) as (T1 & T2 & T3).
  eapply inv_set_task_live; [exact I1|exact Hi1|unfold is_released; by rewrite Es|done|].
  split; [exact T1|]. split; [cbn; by rewrite Hc|]. cbn. intros [= ->]. by apply He.
Qed.

Lemma inv_report n i m r m' : mysql_inv n m -> task_report i m = Ok (r, m') -> mysql_inv n m'.
Proof.
  intros I. unfold task_report, mget, mlift. intros H.
  apply M_bind_inv in H as (? & ? & [= <- <-] & H).
  destruct (tasks m !! i) as [t|] eqn:Hi; [|done].
  rewrite (M_bind_Ok _ _ m t m) in H by done.
  pose proof (Forall_lookup_1 _ _ _ _ (mi_tasks _ _ I) Hi) as (T1 & T2 & T3).
  assert (I' : t_state t <> Released ->
    mysql_inv n (set_tasks (<[i := mkTask (t_thread t) (t_base t) Reported]> (tasks m)) m)).
  { intros Hs. eapply inv_set_task_live; [exact I|exact Hi| |done|done].
    unfold is_released. by destruct (t_state t). }
  destruct (t_state t) as [|[]| |] eqn:Es; try done.
  - apply M_bind_inv in H as (? & m2 & [= _ <-] & [= _ <-]). by apply I'.
  - apply M_bind_inv in H as (x & m2 & H1 & H). destruct (OnFailed (t_base t) true); [|done..].
    injection H1 as _ <-. apply M_bind_inv in H as (? & m3 & [= _ <-] & [= _ <-]). by apply I'.
Qed.

Lemma inv_release n i m r m' : mysql_inv n m -> task_release i m = Ok (r, m') -> mysql_inv n m'.
Proof.
  intros I. unfold task_release, mget, mlift. intros H.
  apply M_bind_inv in H as (? & ? & [= <- <-] & H).
  destruct (tasks m !! i) as [t|] eqn:Hi; [|done].
  rewrite (M_bind_Ok _ _ m t m) in H by done.
  destruct (t_state t) eqn:Es; try done.
  unfold OnBaseRelease, mmodify in H. apply M_bind_inv in H as (? & m2 & [= _ <-] & [= _ <-]).
  pose proof (Forall_lookup_1 _ _ _ _ (mi_tasks _ _ I) Hi) as (T1 & T2 & T3).
  refine (inv_set_task n m i t (mkTask (t_thread t) (t_base t) Released) I Hi _ _); [|done].
  unfold is_released. by rewrite Es.
Qed.

(** A call that returns has queued one task, or changed nothing. *)
Lemma PushMysqlHandler_inv n id h name m ok h' m' : mysql_ok n m ->
  PushMysqlHandler id h name m = Ok ((ok, h'), m') ->
  ok = false /\ m' = m \/
  ok = true /\ exists v p e, let t := (id mod 2 ^ 64) mod n + 1 in
    1 <= t <= n /\ vector_of name m = Some v /\ v !! Z.to_nat t = Some p /\
    m' = set_tasks (tasks m ++ [mkTask t (MysqlBase_new p e) Queued])
           (set_counts (s32 (_createBaseCount m + 1)) (_releaseBaseCount m) m).
Proof.
  intros O. unfold PushMysqlHandler.
  assert (Hf : forall hh, (mlift (ASSERT false);; mret (false, hh) : M MysqlMgr _) m = Ok ((ok, h'), m') ->
    ok = false /\ m' = m).
  { intros hh. unfold mlift, ASSERT, mbind, M_bind, outcome_bind. destruct (_ || _); [|done]. by intros [= <- _ <-]. }
  destruct h as [h|]; [|intros H; left; eauto]. destruct (h_base h); [intros H; left; eauto|]. intros H.
  destruct (Z.eq_dec n 0) as [->|Hn].
  { unfold GetConnectionThreadIdx, mget, mlift, mbind, M_bind, outcome_bind in H.
    by rewrite (mo_async _ _ O) in H. }
  pose proof (mo_range _ _ O) as Hr. destruct (GetConnectionThreadIdx_spec n m (u64 id) O ltac:(lia)) as [E1 Ht].
  rewrite (M_bind_Ok _ _ _ _ _ E1) in H.
  assert (Hu : u64 id mod 2 ^ 64 = id mod 2 ^ 64) by (unfold u64, uwrap; by rewrite Zmod_mod).
  rewrite Hu in Ht, H. set (t := _ + 1) in *.
  destruct (GetDBConnection_spec n m t name O ltac:(lia)) as [E2 Hs].
  destruct (vector_of name m) as [v|]; [|rewrite (M_bind_Ok _ _ _ _ _ E2) in H; left; eauto].
  destruct (Hs v eq_refl) as [p Hp]. rewrite Hp in E2. rewrite (M_bind_Ok _ _ _ _ _ E2) in H.
  injection H as <- _ <-. right. split; [done|]. exists v, p, (h_exec h). split; [exact Ht|done].
Qed.

Lemma vector_of_In name m v : vector_of name m = Some v -> exists name', (name', v) ∈ _connctionMap m.
Proof.
  destruct name as [name|]; cbn [vector_of]; [eauto using find_conn_In|].
  destruct (_mainConnection m) as [k|]; cbn; [eauto using find_conn_In|done].
Qed.

Lemma inv_push n id h name m r m' : mysql_inv n m ->
  PushMysqlHandler id h name m = Ok (r, m') -> mysql_inv n m'.
Proof.
  intros I H. destruct r as [ok h'].
  destruct (PushMysqlHandler_inv n id h name m ok h' m' (mi_ok _ _ I) H)
    as [[_ ->]|(_ & v & p & e & Ht & Hv & Hp & ->)]; [done|].
  destruct I as [[O1 O2 O3 O4] Ic Ir It]. constructor; cbn.
  - by constructor.
  - rewrite Ic, s32_add_l, length_app. cbn. f_equal. lia.
  - by rewrite released_app.
  - apply Forall_app. split.
    + eapply Forall_impl; [exact It|]. intros x. by apply task_ok_map.
    + repeat constructor; [cbn; lia|cbn; lia| |done].
      destruct (vector_of_In _ _ _ Hv) as [name' Hin]. by exists name', v.
Qed.

Lemma inv_step n m m' : mysql_inv n m -> mysql_step m m' -> mysql_inv n m'.
Proof.
  intros I H. destruct H as [m r m' H|id h name m r m' H|fuel i m r m' H|i m r m' H|i m r m' H|
    fuel s name m r m' H|fuel t s name m r m' H|fuel t s name m r m' H|fuel t s cb name m r m' H].
  - eapply inv_mframe; [|exact I]. exact (preserves_Launched _ _ _ H).
  - by eapply inv_push.
  - by eapply inv_execute.
  - by eapply inv_report.
  - by eapply inv_release.
  - eapply inv_mframe; [|exact I]. exact (preserves_EscapeMain _ _ _ _ _ _ H).
  - eapply inv_mframe; [|exact I]. exact (preserves_EscapeAsync _ _ _ _ _ _ _ H).
  - eapply inv_mframe; [|exact I]. exact (preserves_ExecSql _ _ _ _ _ _ _ H).
  - eapply inv_mframe; [|exact I]. exact (preserves_ExecSql_cb _ _ _ _ _ _ _ _ H).
Qed.

Lemma inv_init n fuel w m : config_count = Some (n + 1) -> 0 <= n < 2 ^ 31 - 1 ->
  Initialize fuel (MysqlMgr_new w) = Ok (true, m) -> mysql_inv n m.
Proof.
  intros Hc Hn (k & name & v & Hk & Hmain & Hf & Hv & Ha & Ht & Hcr & Hre)%Initialize_spec.
  rewrite Hc in Hk. injection Hk as <-. replace (n + 1 - 1) with n in Ha by lia.
  rewrite s32_small in Ha by (unfold is_s32; lia). constructor; [|by rewrite Ht, Hcr|by rewrite Ht, Hre|by rewrite Ht].
  constructor; [exact Hn|exact Ha|exact Hv|by eauto].
Qed.

(** C17: The life of tasks, from a successful start-up through any
    interleaving of the manager's calls with the queue's calls.  With [n]
    asynchronous connections every connection vector keeps [n + 1] existing
    connections; every task runs on a thread of [1..n], on the connection of
    that index, never on the main thread's; the created counter is the number
    of handlers accepted and the released one the number of tasks released,
    both modulo 2^32; and whenever a task's execution has failed, reporting it
    to the handler succeeds (the error code it passes has been set). *)
Theorem mysql_lifecycle n m : config_count = Some (n + 1) -> 0 <= n < 2 ^ 31 - 1 -> mysql_reachable m ->
  mysql_ok n m /\
  _createBaseCount m = s32 (Z.of_nat (length (tasks m))) /\
  _releaseBaseCount m = s32 (released_count (tasks m)) /\
  forall i t, tasks m !! i = Some t ->
    1 <= t_thread t <= n /\
    (exists name v, (name, v) ∈ _connctionMap m /\ v !! Z.to_nat (t_thread t) = Some (_connection (t_base t))) /\
    (t_state t = Executed false -> exists code info m', task_report i m = Ok (inr (code, info), m') /\
       tasks m' = <[i := mkTask (t_thread t) (t_base t) Reported]> (tasks m)).
Proof.
  intros Hc Hn Hr. assert (I : mysql_inv n m).
  { induction Hr as [fuel w m Hi|m m' _ IH Hs]; [by eapply inv_init|by eapply inv_step]. }
  split_and!; [exact (mi_ok _ _ I)|exact (mi_create _ _ I)|exact (mi_release _ _ I)|].
  intros i t Hi. pose proof (Forall_lookup_1 _ _ _ _ (mi_tasks _ _ I) Hi) as (T1 & T2 & T3).
  split_and!; [lia|lia|exact T2|]. intros Hs. destruct (T3 Hs) as [code Hcode].
  unfold task_report, mget, mlift, mbind, M_bind, outcome_bind. rewrite Hi. cbn [of_option]. rewrite Hs.
  unfold OnFailed. rewrite Hcode. cbn. by eauto 10.
Qed.
End Props.

(** ** A concrete manager: one database, two asynchronous connections *)

Module MysqlExample.
Inductive node : Type := XRoot | XAsync | XMysql | XConnection.

Definition config : Xml := {|
  xml := node;
  LoadFile := Some XRoot;
  GetFirstChrild := fun x tag =>
    match x with
    | XRoot => if bool_decide (tag = lit "async") then Some XAsync
               else if bool_decide (tag = lit "mysql") then Some XMysql else None
    | XMysql => Some XConnection
    | _ => None
    end;
  GetNextSibling := fun _ => None;
  GetAttribute_Str := fun _ key =>
    if bool_decide (key = lit "name") then lit "game"
    else if bool_decide (key = lit "defultconnection") then lit "game" else key;
  GetAttribute_S32 := fun _ key =>
    if bool_decide (key = lit "connectionnum") then 5
    else if bool_decide (key = lit "threadcount") then 2 else 3306
|}.

#[export] Instance env : MysqlEnv := {|
  MysqlEnv_xml := config;
  MILLISECONDS := 1000
|}.

#[export] Instance debug : Build := {| ndebug := false |}.

(** The server refuses the first two statements. *)
#[export] Instance lib : Mysql := ScriptedSql.lib [].

Definition world : @sqlworld lib := ScriptedSql.mkState [1064; 1064] [] [] [] 0.

Definition m0 : MysqlMgr := state_of (MysqlMgr_new world) (Initialize 3 (MysqlMgr_new world)).

Lemma init_ok : Initialize 3 (MysqlMgr_new world) = Ok (true, m0).
Proof. apply is_true_result_state. by vm_compute. Qed.

Lemma m0_ok : mysql_ok 2 m0.
Proof.
  constructor.
  - lia.
  - by vm_compute.
  - vm_compute. repeat constructor.
  - exists (lit "game"), [0%nat; 1%nat; 2%nat]. split; by vm_compute.
Qed.

Definition handler : IMysqlHandler := mkHandler (HExec (lit "update player") HDone) false.

Definition state_after {A} (d : MysqlMgr) (o : outcome (A * MysqlMgr)) : MysqlMgr :=
  match o with Ok (_, s) => s | _ => d end.

Definition m1 : MysqlMgr := state_after m0 (PushMysqlHandler 8 (Some handler) None m0).
Definition m2 : MysqlMgr := state_after m1 (task_execute 3 0 m1).

Lemma state_after_ok {A} d (o : outcome (A * MysqlMgr)) : is_ok o = true -> exists r, o = Ok (r, state_after d o).
Proof. destruct o as [[r s]| |]; [eauto|done..]. Qed.

Lemma m2_reachable : mysql_reachable m2.
Proof.
  apply (mr_step m1 m2).
  - apply (mr_step m0 m1); [exact (mr_init _ _ _ init_ok)|].
    destruct (state_after_ok m0 (PushMysqlHandler 8 (Some handler) None m0)) as [r Hr]; [by vm_compute|].
    exact (ms_push _ _ _ _ _ _ Hr).
  - destruct (state_after_ok m1 (task_execute 3 0 m1)) as [r Hr]; [by vm_compute|].
    exact (ms_execute _ _ _ _ _ Hr).
Qed.

Lemma task0 : exists t, tasks m2 !! 0%nat = Some t /\ t_state t = Executed false.
Proof.
  destruct (tasks m2) as [|t l] eqn:Et; [by vm_compute in Et|]. exists t. split; [done|].
  assert (Hb : match tasks m2 with t :: _ => match t_state t with Executed false => true | _ => false end
               | [] => false end = true) by by vm_compute.
  rewrite Et in Hb. by destruct (t_state t) as [|[]| |].
Qed.
End MysqlExample.

Lemma PushMysqlHandler_routes_witness : exists m',
  @PushMysqlHandler MysqlExample.lib MysqlExample.debug 8 (Some MysqlExample.handler) None MysqlExample.m0 =
    Ok ((true, Some (mkHandler (HExec (lit "update player") HDone) true)), m') /\
  length (tasks m') = 1%nat.
Proof.
  destruct (@PushMysqlHandler_routes MysqlExample.lib MysqlExample.debug 2 MysqlExample.m0 8
    MysqlExample.handler None MysqlExample.m0_ok eq_refl) as [H _].
  destruct (H eq_refl [0%nat; 1%nat; 2%nat]) as (p & m' & _ & _ & _ & E & Ht & _).
  - by vm_compute.
  - exists m'. split; [exact E|]. rewrite Ht. by vm_compute.
Defined.

Lemma mysql_lifecycle_witness : exists code info m',
  @task_report MysqlExample.lib 0 MysqlExample.m2 = Ok (inr (code, info), m').
Proof.
  destruct (@mysql_lifecycle MysqlExample.lib MysqlExample.env MysqlExample.debug 2 MysqlExample.m2)
    as (_ & _ & _ & H); [reflexivity|lia|exact MysqlExample.m2_reachable|].
  destruct MysqlExample.task0 as (t & Ht & Hs). destruct (H 0%nat t Ht) as (_ & _ & Hr).
  destruct (Hr Hs) as (code & info & m' & E & _). exists code, info, m'. exact E.
Defined.
