(* ===== verification/MysqlQueue.v ===== *)
(** * The order of MySQL tasks (MysqlMgr.cpp over IAsyncQueue)

    [IAsyncQueue] promises that handlers started for the same thread id
    execute in the order they were started, and [IMysqlMgr] that handlers
    pushed for the same id do.  [queue_step] adds the first promise to the
    calls of [mysql_step]; the theorem is the second. *)
From Stdlib Require Import ZArith Lia Ascii.
From stdpp Require Import base numbers list list_numbers strings relations.
From S2P Require Import Prelude Kernel MysqlApi DBConnection MysqlBase MysqlMgr MysqlMgrProps.
Open Scope Z_scope.

Section Queue.
Context {HM : Mysql} {HE : MysqlEnv} {HB : Build}.

(** The manager, the id and name of every accepted handler, and the tasks
    that were executed, in order. *)
Record qstate : Type := mkQ {
  q_mgr : MysqlMgr;
  q_ids : list (Z * option bytes);
  q_log : list nat
}.

(** The promise: no earlier task of the thread is still waiting. *)
Definition oldest (m : MysqlMgr) (i : nat) : Prop :=
  forall j ti tj, (j < i)%nat -> tasks m !! i = Some ti -> tasks m !! j = Some tj ->
    t_thread tj = t_thread ti -> t_state tj <> Queued.

(** The calls that touch no task. *)
Inductive direct_call : MysqlMgr -> MysqlMgr -> Prop :=
  | dc_escape_main fuel s name m r m' :
      EscapeStringExInMainThread fuel s name m = Ok (r, m') -> direct_call m m'
  | dc_escape_async fuel t s name m r m' :
      EscapeStringExInAsyncThread fuel t s name m = Ok (r, m') -> direct_call m m'
  | dc_sql fuel t s name m r m' : ExecSqlInAsyncThread fuel t s name m = Ok (r, m') -> direct_call m m'
  | dc_sql_cb fuel t s cb name m r m' :
      ExecSqlInAsyncThread_cb fuel t s cb name m = Ok (r, m') -> direct_call m m'.

Inductive queue_step : qstate -> qstate -> Prop :=
  | q_push id h name m ids log h' m' : PushMysqlHandler id h name m = Ok ((true, h'), m') ->
      queue_step (mkQ m ids log) (mkQ m' (ids ++ [(id, name)]) log)
  | q_refuse id h name m ids log h' m' : PushMysqlHandler id h name m = Ok ((false, h'), m') ->
      queue_step (mkQ m ids log) (mkQ m' ids log)
  | q_execute fuel i m ids log r m' : oldest m i -> task_execute fuel i m = Ok (r, m') ->
      queue_step (mkQ m ids log) (mkQ m' ids (log ++ [i]))
  | q_report i m ids log r m' : task_report i m = Ok (r, m') -> queue_step (mkQ m ids log) (mkQ m' ids log)
  | q_release i m ids log r m' : task_release i m = Ok (r, m') -> queue_step (mkQ m ids log) (mkQ m' ids log)
  | q_direct m ids log m' : direct_call m m' -> queue_step (mkQ m ids log) (mkQ m' ids log).

Inductive queue_reachable : qstate -> Prop :=
  | qr_init fuel w m : Initialize fuel (MysqlMgr_new w) = Ok (true, m) -> queue_reachable (mkQ m [] [])
  | qr_step s s' : queue_reachable s -> queue_step s s' -> queue_reachable s'.

(** ** What a step does to the tasks *)

Lemma direct_call_frame m m' : direct_call m m' -> mframe m m'.
Proof.
  destruct 1 as [fuel s name m r m' H|fuel t s name m r m' H|fuel t s name m r m' H|fuel t s cb name m r m' H].
  - exact (preserves_EscapeMain _ _ _ _ _ _ H).
  - exact (preserves_EscapeAsync _ _ _ _ _ _ _ H).
  - exact (preserves_ExecSql _ _ _ _ _ _ _ H).
  - exact (preserves_ExecSql_cb _ _ _ _ _ _ _ _ H).
Qed.

(** The task keeps its place: thread and connection. *)
Definition same_place (t t' : task) : Prop :=
  t_thread t' = t_thread t /\ _connection (t_base t') = _connection (t_base t).

(** The task [i], and only it, changes from [t] to [t']; the connections stay
    where they are. *)
Record changes (i : nat) (t t' : task) (m m' : MysqlMgr) : Prop := {
  ch_at : tasks m !! i = Some t;
  ch_tasks : tasks m' = <[i := t']> (tasks m);
  ch_place : same_place t t';
  ch_map : _connctionMap m' = _connctionMap m;
  ch_main : _mainConnection m' = _mainConnection m
}.

Lemma execute_changes fuel i m r m' : task_execute fuel i m = Ok (r, m') ->
  exists t t', changes i t t' m m' /\ t_state t = Queued /\ t_state t' <> Queued.
Proof.
  unfold task_execute, mget, mlift. intros H.
  apply M_bind_inv in H as (? & ? & [= <- <-] & H).
  destruct (tasks m !! i) as [t|] eqn:Hi; [|done]. rewrite (M_bind_Ok _ _ m t m) in H by done.
  destruct (t_state t) eqn:Es; [|done..].
  apply M_bind_inv in H as ([ret b] & m1 & H1 & H). pose proof (preserves_on_db _ _ _ _ _ H1) as F.
  apply on_db_result in H1 as (s & s' & H1). apply OnExecute_post in H1 as [Hc _].
  apply M_bind_inv in H as (? & m2 & [= _ <-] & [= _ <-]).
  exists t, (mkTask (t_thread t) b (Executed ret)). split; [|done]. destruct F. constructor; try done.
  cbn. congruence.
Qed.

Lemma report_changes i m r m' : task_report i m = Ok (r, m') ->
  exists t t', changes i t t' m m' /\ t_state t <> Queued /\ t_state t' <> Queued.
Proof.
  unfold task_report, mget, mlift. intros H.
  apply M_bind_inv in H as (? & ? & [= <- <-] & H).
  destruct (tasks m !! i) as [t|] eqn:Hi; [|done]. rewrite (M_bind_Ok _ _ m t m) in H by done.
  exists t, (mkTask (t_thread t) (t_base t) Reported).
  destruct (t_state t) as [|[]| |] eqn:Es; try done.
  - apply M_bind_inv in H as (? & m2 & [= _ <-] & [= _ <-]). by split.
  - apply M_bind_inv in H as (x & m2 & H1 & H). destruct (OnFailed (t_base t) true); [|done..].
    injection H1 as _ <-. apply M_bind_inv in H as (? & m3 & [= _ <-] & [= _ <-]). by split.
Qed.

Lemma release_changes i m r m' : task_release i m = Ok (r, m') ->
  exists t t', changes i t t' m m' /\ t_state t <> Queued /\ t_state t' <> Queued.
Proof.
  unfold task_release, mget, mlift. intros H.
  apply M_bind_inv in H as (? & ? & [= <- <-] & H).
  destruct (tasks m !! i) as [t|] eqn:Hi; [|done]. rewrite (M_bind_Ok _ _ m t m) in H by done.
  exists t, (mkTask (t_thread t) (t_base t) Released). destruct (t_state t) eqn:Es; try done.
  unfold OnBaseRelease, mmodify in H. apply M_bind_inv in H as (? & m2 & [= _ <-] & [= _ <-]). by split.
Qed.

(** ** The invariant *)

(** Where the handler of an id and a name belongs. *)
Definition thread_of (n id : Z) : Z := (id mod 2 ^ 64) mod n + 1.
Definition connection_of (n : Z) (m : MysqlMgr) (p : Z * option bytes) : option nat :=
  v ← vector_of (snd p) m; v !! Z.to_nat (thread_of n (fst p)).

Definition placed (n : Z) (m : MysqlMgr) (p : Z * option bytes) (t : task) : Prop :=
  t_thread t = thread_of n (fst p) /\ connection_of n m p = Some (_connection (t_base t)).

Record queue_inv (n : Z) (s : qstate) : Prop := {
  qi_mgr : mysql_inv n (q_mgr s);
  qi_len : length (q_ids s) = length (tasks (q_mgr s));
  qi_ids : forall i p t, q_ids s !! i = Some p -> tasks (q_mgr s) !! i = Some t -> placed n (q_mgr s) p t;
  qi_nodup : NoDup (q_log s);
  qi_done : forall i, i ∈ q_log s <-> exists t, tasks (q_mgr s) !! i = Some t /\ t_state t <> Queued;
  qi_order : forall b i j ti tj, q_log s !! b = Some j -> (i < j)%nat ->
    tasks (q_mgr s) !! i = Some ti -> tasks (q_mgr s) !! j = Some tj -> t_thread ti = t_thread tj ->
    exists a, (a < b)%nat /\ q_log s !! a = Some i
}.

Lemma placed_same n m m' p t : _connctionMap m' = _connctionMap m -> _mainConnection m' = _mainConnection m ->
  placed n m p t -> placed n m' p t.
Proof. unfold placed, connection_of, vector_of. by intros -> ->. Qed.

(** A state with the same tasks and connections. *)
Lemma queue_inv_frame n m m' ids log : mframe m m' -> queue_inv n (mkQ m ids log) -> queue_inv n (mkQ m' ids log).
Proof.
  intros F [Im Il Ii In Id Io]. cbn in *. pose proof F as [Hmap Ha Hmn Hc Hr Ht Hd].
  constructor; cbn; rewrite ?Ht; try done; [by eapply inv_mframe|].
  intros i p t Hp Hi. eapply placed_same; eauto.
Qed.

(** The tasks after one has changed. *)
Lemma changes_lookup i t t' m m' j t2 : changes i t t' m m' -> tasks m' !! j = Some t2 ->
  exists t1, tasks m !! j = Some t1 /\ same_place t1 t2 /\ (i = j -> t1 = t /\ t2 = t') /\ (i <> j -> t1 = t2).
Proof.
  intros [Hi Ht Hp _ _]. rewrite Ht. destruct (decide (i = j)) as [<-|Hne].
  - rewrite list_lookup_insert_eq by (by eapply lookup_lt_Some). intros [= <-]. by exists t.
  - rewrite list_lookup_insert_ne by done. intros Hj. by exists t2.
Qed.

Lemma changes_lookup_back i t t' m m' j t1 : changes i t t' m m' -> tasks m !! j = Some t1 ->
  exists t2, tasks m' !! j = Some t2 /\ (i = j -> t2 = t') /\ (i <> j -> t1 = t2).
Proof.
  intros [Hi Ht _ _ _] Hj. rewrite Ht. destruct (decide (i = j)) as [<-|Hne].
  - exists t'. by rewrite list_lookup_insert_eq by (by eapply lookup_lt_Some).
  - exists t1. by rewrite list_lookup_insert_ne.
Qed.

(** Whatever the new log, a changed task keeps the static part. *)
Lemma changes_static n i t t' m m' ids : changes i t t' m m' ->
  (length ids = length (tasks m) ->
   length ids = length (tasks m')) /\
  ((forall j p t, ids !! j = Some p -> tasks m !! j = Some t -> placed n m p t) ->
   forall j p t, ids !! j = Some p -> tasks m' !! j = Some t -> placed n m' p t).
Proof.
  intros C. split; [intros H; by rewrite (ch_tasks _ _ _ _ _ C), length_insert|].
  intros H j p t2 Hp Ht2. destruct (changes_lookup _ _ _ _ _ _ _ C Ht2) as (t1 & Ht1 & [P1 P2] & _).
  eapply placed_same; [apply C|apply C|]. destruct (H j p t1 Hp Ht1) as [H1 H2]. split; congruence.
Qed.

(** The order is that of the threads. *)
Lemma changes_order i t t' m m' (log : list nat) b j k tj tk : changes i t t' m m' ->
  (forall b i j ti tj, log !! b = Some j -> (i < j)%nat -> tasks m !! i = Some ti -> tasks m !! j = Some tj ->
    t_thread ti = t_thread tj -> exists a, (a < b)%nat /\ log !! a = Some i) ->
  log !! b = Some k -> (j < k)%nat -> tasks m' !! j = Some tj -> tasks m' !! k = Some tk ->
  t_thread tj = t_thread tk -> exists a, (a < b)%nat /\ log !! a = Some j.
Proof.
  intros C H Hb Hlt Hj Hk He.
  destruct (changes_lookup _ _ _ _ _ _ _ C Hj) as (t1 & Ht1 & [P1 _] & _).
  destruct (changes_lookup _ _ _ _ _ _ _ C Hk) as (t2 & Ht2 & [P2 _] & _).
  eapply H; eauto. congruence.
Qed.

(** A task that was executed is reported or released. *)
Lemma queue_inv_later n i t t' m m' ids log : changes i t t' m m' -> t_state t <> Queued -> t_state t' <> Queued ->
  mysql_inv n m' -> queue_inv n (mkQ m ids log) -> queue_inv n (mkQ m' ids log).
Proof.
  intros C Hs Hs' Im' [Im Il Ii In Id Io]. cbn in *. destruct (changes_static n _ _ _ _ _ ids C) as [S1 S2].
  constructor; cbn; [done|by apply S1|by apply S2|done| |].
  - intros j. rewrite Id. split.
    + intros (t1 & Ht1 & Hn). destruct (changes_lookup_back _ _ _ _ _ _ _ C Ht1) as (t2 & Ht2 & He & Hne).
      exists t2. split; [done|]. destruct (decide (i = j)) as [E|E]; [by rewrite He|by rewrite <- Hne].
    + intros (t2 & Ht2 & Hn). destruct (changes_lookup _ _ _ _ _ _ _ C Ht2) as (t1 & Ht1 & _ & He & Hne).
      exists t1. split; [done|]. destruct (decide (i = j)) as [E|E]; [by destruct (He E) as [-> _]|by rewrite Hne].
  - intros b j k tj tk. by eapply changes_order.
Qed.

(** A task is executed. *)
Lemma queue_inv_execute n fuel i m r m' ids log : oldest m i -> task_execute fuel i m = Ok (r, m') ->
  queue_inv n (mkQ m ids log) -> queue_inv n (mkQ m' ids (log ++ [i])).
Proof.
  intros Ho E [Im Il Ii In Id Io]. cbn in *. pose proof (inv_execute n _ _ _ _ _ Im E) as Im'.
  destruct (execute_changes _ _ _ _ _ E) as (t & t' & C & Hs & Hs').
  destruct (changes_static n _ _ _ _ _ ids C) as [S1 S2]. pose proof (ch_at _ _ _ _ _ C) as Hi.
  assert (Hnew : i ∉ log) by (rewrite Id; intros (t0 & H0 & Hn); congruence).
  constructor; cbn; [done|by apply S1|by apply S2| | |].
  - apply NoDup_app. split_and!; [done| |apply NoDup_singleton]. intros x Hx. by intros ->%list_elem_of_singleton.
  - intros j. rewrite elem_of_app, list_elem_of_singleton, Id. split.
    + intros [(t1 & Ht1 & Hn)| ->].
      * destruct (changes_lookup_back _ _ _ _ _ _ _ C Ht1) as (t2 & Ht2 & He & Hne). exists t2. split; [done|].
        destruct (decide (i = j)) as [E1|E1]; [by rewrite He|by rewrite <- Hne].
      * destruct (changes_lookup_back _ _ _ _ _ _ _ C Hi) as (t2 & Ht2 & He & _). exists t2.
        split; [done|]. by rewrite He.
    + intros (t2 & Ht2 & Hn). destruct (changes_lookup _ _ _ _ _ _ _ C Ht2) as (t1 & Ht1 & _ & _ & Hne).
      destruct (decide (i = j)) as [<-|E1]; [by right|]. left. exists t1. split; [done|by rewrite Hne].
  - intros b j k tj tk Hb Hlt Hj Hk He. apply lookup_app_Some in Hb as [Hb|[Hge Hb]].
    + destruct (changes_order _ _ _ _ _ log b j k tj tk C Io Hb Hlt Hj Hk He) as (a & Ha & Hl).
      exists a. split; [done|]. by apply lookup_app_l_Some.
    + apply list_lookup_singleton_Some in Hb as [Hb <-].
      destruct (changes_lookup _ _ _ _ _ _ _ C Hj) as (t1 & Ht1 & [P1 _] & _ & Hne).
      destruct (changes_lookup _ _ _ _ _ _ _ C Hk) as (t2 & Ht2 & [P2 _] & _).
      assert (Hj' : j ∈ log). { apply Id. exists t1. split; [done|]. eapply Ho; [exact Hlt|exact Ht2|exact Ht1|congruence]. }
      apply list_elem_of_lookup in Hj' as [a Ha]. exists a. pose proof (lookup_lt_Some _ _ _ Ha).
      split; [lia|]. by apply lookup_app_l_Some.
Qed.

(** A handler is accepted. *)
Lemma queue_inv_push n id h name m ids log h' m' : PushMysqlHandler id h name m = Ok ((true, h'), m') ->
  queue_inv n (mkQ m ids log) -> queue_inv n (mkQ m' (ids ++ [(id, name)]) log).
Proof.
  intros E [Im Il Ii In Id Io]. cbn in *. pose proof (inv_push n _ _ _ _ _ _ Im E) as Im'.
  destruct (PushMysqlHandler_inv n id h name m true h' m' (mi_ok _ _ Im) E)
    as [[? _]|(_ & v & p & e & Ht & Hv & Hp & ->)]; [done|].
  set (t := mkTask _ _ _) in *. constructor; cbn; [done|rewrite !length_app; cbn; lia| |done| |].
  - intros i q t1 Hq Hi. apply lookup_app_Some in Hi as [Hi|[Hge Hi]].
    + apply lookup_app_Some in Hq as [Hq|[Hge _]]; [eapply placed_same; [..|by eapply Ii]; done|].
      pose proof (lookup_lt_Some _ _ _ Hi). lia.
    + apply list_lookup_singleton_Some in Hi as [Hi <-].
      apply lookup_app_Some in Hq as [Hq|[_ Hq]]; [pose proof (lookup_lt_Some _ _ _ Hq); lia|].
      apply list_lookup_singleton_Some in Hq as [_ <-]. split; [done|].
      unfold connection_of. cbn [fst snd]. change (vector_of name _) with (vector_of name m). by rewrite Hv.
  - intros j. rewrite Id. split.
    + intros (t1 & Ht1 & Hn). exists t1. split; [by apply lookup_app_l_Some|done].
    + intros (t1 & Ht1 & Hn). exists t1. split; [|done].
      apply lookup_app_Some in Ht1 as [Ht1|[_ Ht1]]; [done|]. by apply list_lookup_singleton_Some in Ht1 as [_ <-].
  - intros b j k tj tk Hb Hlt Hj Hk He.
    assert (Hk' : is_Some (tasks m !! k)).
    { destruct (proj1 (Id k)) as (t0 & H0 & _); [by eapply list_elem_of_lookup_2|by exists t0]. }
    destruct Hk' as [tk' Hk']. pose proof (lookup_lt_Some _ _ _ Hk').
    rewrite lookup_app_l in Hj, Hk by lia. exact (Io b j k tj tk Hb Hlt Hj Hk He).
Qed.

Lemma queue_inv_step n s s' : queue_inv n s -> queue_step s s' -> queue_inv n s'.
Proof.
  intros I H. destruct H as [id h name m ids log h' m' H|id h name m ids log h' m' H|fuel i m ids log r m' Ho H|
    i m ids log r m' H|i m ids log r m' H|m ids log m' H].
  - by eapply queue_inv_push.
  - by destruct (PushMysqlHandler_inv n id h name m false h' m' (mi_ok _ _ (qi_mgr _ _ I)) H) as [[_ ->]|[? _]].
  - by eapply queue_inv_execute.
  - destruct (report_changes _ _ _ _ H) as (t & t' & C & Hs & Hs').
    eapply queue_inv_later; eauto. by eapply inv_report; [apply (qi_mgr _ _ I)|].
  - destruct (release_changes _ _ _ _ H) as (t & t' & C & Hs & Hs').
    eapply queue_inv_later; eauto. by eapply inv_release; [apply (qi_mgr _ _ I)|].
  - eapply queue_inv_frame; [by apply direct_call_frame|done].
Qed.

(** C18: The queue executes the tasks of one thread in the order they were
    started; then the manager executes the handlers pushed for one id and one
    connection name in the order they were pushed, each at most once, all by
    the same thread and on the same connection, through any interleaving of
    the manager's and the queue's calls from a successful start-up. *)
Theorem handlers_in_order n s : config_count = Some (n + 1) -> 0 <= n < 2 ^ 31 - 1 -> queue_reachable s ->
  NoDup (q_log s) /\
  forall i j id id' name, (i < j)%nat -> q_ids s !! i = Some (id, name) -> q_ids s !! j = Some (id', name) ->
    id mod 2 ^ 64 = id' mod 2 ^ 64 ->
  exists ti tj, tasks (q_mgr s) !! i = Some ti /\ tasks (q_mgr s) !! j = Some tj /\
    t_thread ti = t_thread tj /\ _connection (t_base ti) = _connection (t_base tj) /\
    forall b, q_log s !! b = Some j -> exists a, (a < b)%nat /\ q_log s !! a = Some i.
Proof.
  intros Hc Hn Hr. assert (I : queue_inv n s).
  { induction Hr as [fuel w m Hi|s s' _ IH Hs]; [|by eapply queue_inv_step].
    pose proof Hi as (k & name & v & _ & _ & _ & _ & _ & Ht & _)%Initialize_spec.
    constructor; cbn; rewrite ?Ht; try done; [by eapply inv_init|constructor|].
    intros i. rewrite elem_of_nil. naive_solver. }
  destruct I as [Im Il Ii In Id Io]. split; [done|]. intros i j id id' name Hlt Hi Hj He.
  destruct (lookup_lt_is_Some_2 (tasks (q_mgr s)) i) as [ti Hti]; [rewrite <- Il; by eapply lookup_lt_Some|].
  destruct (lookup_lt_is_Some_2 (tasks (q_mgr s)) j) as [tj Htj]; [rewrite <- Il; by eapply lookup_lt_Some|].
  destruct (Ii _ _ _ Hi Hti) as [A1 A2]. destruct (Ii _ _ _ Hj Htj) as [B1 B2].
  assert (Hth : thread_of n id = thread_of n id') by (unfold thread_of; by rewrite He).
  assert (Hthread : t_thread ti = t_thread tj) by (rewrite A1, B1; exact Hth).
  unfold connection_of in A2, B2. cbn [fst snd] in *. rewrite Hth in A2.
  exists ti, tj. split_and!; [done|done|done|congruence|]. intros b Hb. by eapply Io.
Qed.
End Queue.

(** ** Two handlers of one id *)

Module QueueExample.
Import MysqlExample.

Definition insert_role : IMysqlHandler := mkHandler (HExec (lit "insert role") HDone) false.
Definition query_role : IMysqlHandler := mkHandler (HExec (lit "select role") HDone) false.

Definition p1 : MysqlMgr := state_after m0 (PushMysqlHandler 8 (Some insert_role) None m0).
Definition p2 : MysqlMgr := state_after p1 (PushMysqlHandler 8 (Some query_role) None p1).
Definition e1 : MysqlMgr := state_after p2 (task_execute 3 0 p2).
Definition e2 : MysqlMgr := state_after e1 (task_execute 3 1 e1).

Definition final : qstate := mkQ e2 [(8, None); (8, None)] [0%nat; 1%nat].

Lemma push_state_after m id h name : match PushMysqlHandler id h name m with Ok ((true, _), _) => true | _ => false end = true ->
  exists h', PushMysqlHandler id h name m = Ok ((true, h'), state_after m (PushMysqlHandler id h name m)).
Proof. destruct (PushMysqlHandler id h name m) as [[[[] h'] s]| |]; [by eexists|done..]. Qed.

Lemma final_reachable : queue_reachable final.
Proof.
  apply (qr_step (mkQ e1 [(8, None); (8, None)] [0%nat])).
  2:{ destruct (state_after_ok e1 (task_execute 3 1 e1)) as [r Hr]; [by vm_compute|].
      apply (q_execute 3 1 e1 [(8, None); (8, None)] [0%nat] r); [|exact Hr].
      intros j ti tj Hj _ Htj _. assert (j = 0%nat) as -> by lia.
      assert (H0 : match tasks e1 !! 0%nat with Some t => t_state t <> Queued | None => False end)
        by (vm_compute; discriminate).
      by rewrite Htj in H0. }
  apply (qr_step (mkQ p2 [(8, None); (8, None)] [])).
  2:{ destruct (state_after_ok p2 (task_execute 3 0 p2)) as [r Hr]; [by vm_compute|].
      apply (q_execute 3 0 p2 [(8, None); (8, None)] [] r); [|exact Hr]. intros j ti tj Hj. lia. }
  apply (qr_step (mkQ p1 [(8, None)] [])).
  2:{ destruct (push_state_after p1 8 (Some query_role) None) as [h' Hr]; [by vm_compute|].
      exact (q_push 8 (Some query_role) None p1 [(8, None)] [] h' p2 Hr). }
  apply (qr_step (mkQ m0 [] [])); [exact (qr_init _ _ _ init_ok)|].
  destruct (push_state_after m0 8 (Some insert_role) None) as [h' Hr]; [by vm_compute|].
  exact (q_push 8 (Some insert_role) None m0 [] [] h' p1 Hr).
Qed.
End QueueExample.
Import QueueExample.

Lemma handlers_in_order_witness : exists ti tj a,
  tasks (q_mgr final) !! 0%nat = Some ti /\ tasks (q_mgr final) !! 1%nat = Some tj /\
  t_thread ti = t_thread tj /\ (a < 1)%nat /\ q_log final !! a = Some 0%nat.
Proof.
  destruct (@handlers_in_order MysqlExample.lib MysqlExample.env MysqlExample.debug 2 final)
    as [_ H]; [reflexivity|lia|exact final_reachable|].
  destruct (H 0%nat 1%nat 8 8 None) as (ti & tj & Hi & Hj & Ht & _ & Hb); [lia|reflexivity|reflexivity|reflexivity|].
  destruct (Hb 1%nat eq_refl) as (a & Ha & Hl). exists ti, tj, a. split_and!; [exact Hi|exact Hj|exact Ht|exact Ha|exact Hl].
Defined.
