(* ===== verification/MysqlTest.v ===== *)
(** * The MySQL unit test (Logic/UnitTest/unittest/MysqlTest.h, MysqlTest.cpp)

    A client of the manager: it pushes handlers, and the release of some of
    them pushes the next ones.  The state is the manager with the handler of
    every task it accepted; the queue's calls on a task reach the handler
    through [MysqlBase].  The SQL builder (MysqlBuilder.h) is not in the
    repository; it is the class [MysqlBuilder].  The theorem follows the chain
    of tasks from its start to its end. *)
From Stdlib Require Import ZArith Lia Ascii.
From stdpp Require Import base numbers list list_numbers strings.
From S2P Require Import Prelude Kernel RedisHelper MysqlApi DBConnection MysqlBase MysqlMgr MysqlMgrProps.
Open Scope Z_scope.

(** ** Statements *)

Inductive field_value : Type :=
  | FInt (z : Z)
  | FStr (s : bytes).

(** The macros that declare a builder. *)
Inductive sql_kind : Type := MYSQL_QUERY | MYSQL_INSERT | MYSQL_UPDATE | MYSQL_SAVE.

(** What the test tells a builder; every comparison is [SQLCommand::EQ], and
    [OrderBy] takes fields and directions. *)
Inductive sql_call : Type :=
  | Select (fields : list bytes)
  | Where (field : bytes) (v : field_value)
  | And (field : bytes) (v : field_value)
  | OrderBy (args : list (bytes + bool))
  | Limit (n : Z)
  | SetKey (fields : list (bytes * field_value))
  | SetFiled (fields : list (bytes * field_value))
  | SetBlobFiled (field : bytes) (data : bytes).

Record sql_command : Type := mkCommand {
  sql_kind_of : sql_kind;
  sql_table : bytes;
  sql_calls : list sql_call
}.

(** [ToStr()]: the builder escapes values with the connection's handler and
    hands over the statement. *)
Class MysqlBuilder : Type := {
  ToStr : sql_command -> (bytes -> handler_prog) -> handler_prog
}.

(** The bytes of a [TestBinData] as the test fills it in: the end of the name
    and the padding, [junk], are never set. *)
Definition TestBinData (id level : Z) (junk : bytes) : bytes :=
  le32 id ++ le32 level ++ lit "xu" ++ [NUL] ++ junk.
Definition sizeof_TestBinData : Z := 16.

(** The classes of handlers with their [_id]. *)
Inductive test_handler : Type :=
  | MainThreadTestHandler (id : Z)
  | MainThreadErrorHandler (id : Z)
  | ClearTableHandler
  | InsertRoleHandler (id : Z)
  | QueryRoleHandler (id : Z).

Section MysqlTest.
Context {L : Mysql} {EV : MysqlEnv} {BB : Build} {TT : Tools} {MB : MysqlBuilder}.
(** What the unset bytes of a [TestBinData] on the stack are. *)
Variable junk : bytes.

(** A handler logs its statement, which builds it once, and executes it. *)
Definition InsertRoleHandler_ExecSql (id : Z) : handler_prog :=
  let insertCmd := mkCommand MYSQL_INSERT (lit "t_role")
    [SetFiled [(lit "roleid", FInt id); (lit "accountid", FInt 3); (lit "level", FInt 2)];
     SetBlobFiled (lit "bin_data") (TestBinData id id junk);
     SetFiled [(lit "online_total_time", FInt id)]] in
  ToStr insertCmd (fun _ => ToStr insertCmd (fun sql => HExec (cstr sql) HDone)).

Definition QueryRoleHandler_ExecSql (id : Z) : handler_prog :=
  let queryCmd := mkCommand MYSQL_QUERY (lit "t_role")
    [Select [lit "roleid"; lit "accountid"; lit "level"; lit "bin_data"; lit "online_total_time"];
     Where (lit "roleid") (FInt id)] in
  ToStr queryCmd (fun _ => ToStr queryCmd (fun sql => HExec (cstr sql) HDone)).

Definition ExecSql (h : test_handler) : handler_prog :=
  match h with
  | MainThreadTestHandler _ => HExec (lit "select * from account;") HDone
  | MainThreadErrorHandler _ => HExec (lit "select * from accoun;") HDone
  | ClearTableHandler => HExec (lit "delete  from `t_role`;") HDone
  | InsertRoleHandler id => InsertRoleHandler_ExecSql id
  | QueryRoleHandler id => QueryRoleHandler_ExecSql id
  end.

(** ** Results *)

(** The loops of [MainThreadTestHandler::OnSuccess], over the fields of a row
    and over the rows, with [n] left. *)
Fixpoint fields_loop (n : nat) (j : Z) (row : FiledRow) : outcome () :=
  match n with
  | O => Ok tt
  | S n' => _ ← GetString row j; fields_loop n' (j + 1) row
  end.

Fixpoint rows_loop (n : nat) (i : Z) (dbResult : MysqlResult) : outcome () :=
  match n with
  | O => Ok tt
  | S n' =>
      r ← GetRow dbResult i;
      row ← of_option NullPointer r;
      fields_loop (Z.to_nat (FiledCount row)) 0 row;;
      rows_loop n' (i + 1) dbResult
  end.

(** The call [memcmp(&testBinData, binData, binSize)]: a null pointer is not
    allowed, and with the size converted to [size_t] both operands must have
    that many bytes (a column has a NUL behind its bytes).  What it returns
    only changes what is logged. *)
Definition memcmp_bin (binData : option (bytes * Z)) : outcome () :=
  match binData with
  | None => Fault NullPointer
  | Some (data, binSize) =>
      let n := u64 binSize in
      if (n <=? sizeof_TestBinData) && (n <=? Z.of_nat (length data) + 1) then Ok tt
      else Fault OutOfBounds
  end.

(** [QueryRoleHandler::OnSuccess]. *)
Definition query_success (id : Z) (dbResult : MysqlResult) : outcome () :=
  if RowCount dbResult =? 1 then
    r ← GetRow dbResult 0;
    row ← of_option NullPointer r;
    ASSERT (FiledCount row =? 5);;
    roleId ← GetDataS32 row 0;
    accountid ← GetDataS32 row 1;
    level ← GetDataS32 row 2;
    binData ← GetBuff (result_lengths dbResult) row 3;
    ASSERT (match binData with Some (_, binSize) => binSize | None => 0 end =? sizeof_TestBinData);;
    memcmp_bin binData;;
    onlineTime ← GetDataS32 row 4;
    ASSERT (onlineTime =? id)
  else Ok tt.

Definition OnSuccess (h : test_handler) (dbResult : MysqlResult) : outcome () :=
  match h with
  | MainThreadTestHandler _ | MainThreadErrorHandler _ => rows_loop (Z.to_nat (RowCount dbResult)) 0 dbResult
  | ClearTableHandler | InsertRoleHandler _ => Ok tt
  | QueryRoleHandler id => query_success id dbResult
  end.

(** Every [OnFail] only logs. *)
Definition OnFail (h : test_handler) (errorCode : Z) (errorInfo : bytes) : outcome () := Ok tt.

(** ** The test *)

(** [handlers]: the handler of each task of the manager. *)
Record MysqlTest : Type := mkTest {
  _mysqlMgr : MysqlMgr;
  handlers : list test_handler
}.

Definition on_mgr {A} (f : M MysqlMgr A) : M MysqlTest A := fun s =>
  match f (_mysqlMgr s) with
  | Ok (a, m) => Ok (a, mkTest m (handlers s))
  | Fault e => Fault e
  | OutOfFuel => OutOfFuel
  end.

(** [_mysqlMgr->PushMysqlHandler(id, NEW ...)]; the result is not looked at. *)
Definition push (id : Z) (h : test_handler) : M MysqlTest () :=
  '(ok, _) ← on_mgr (PushMysqlHandler id (Some (mkHandler (ExecSql h) false)) None);
  if (ok : bool) then mmodify (fun s => mkTest (_mysqlMgr s) (handlers s ++ [h])) else mret tt.

Definition DoMysqlTestTask (iTaskId : Z) : M MysqlTest () :=
  if 10000 <=? iTaskId then mret tt else
  push iTaskId (InsertRoleHandler iTaskId);;
  push iTaskId (QueryRoleHandler iTaskId).

(** The [for] loop, with [n] iterations left. *)
Fixpoint push_main (n : nat) (i : Z) : M MysqlTest () :=
  match n with
  | O => mret tt
  | S n' => push i (MainThreadTestHandler i);; push_main n' (i + 1)
  end.

Definition MainThreadTest : M MysqlTest () :=
  push_main 10 0;;
  push 0 ClearTableHandler.

(** The statements of [MainThreadSQLBuilder], in order. *)
Definition main_commands : list sql_command :=
  [mkCommand MYSQL_QUERY (lit "t_role")
     [Select [lit "accountid"]; Select [lit "platform"; lit "username"];
      Where (lit "username") (FStr (lit "dfgew")); And (lit "username") (FStr (lit "dfgew"));
      OrderBy [inl (lit "username"); inr false; inl (lit "platform"); inl (lit "accountid"); inr true]; Limit 10];
   mkCommand MYSQL_UPDATE (lit "t_role")
     [SetFiled [(lit "name", FStr (lit "xuping1")); (lit "level", FInt 1)]; Where (lit "roleid") (FInt 1)];
   mkCommand MYSQL_INSERT (lit "t_role")
     [SetFiled [(lit "roleid", FInt 2); (lit "accountid", FInt 3); (lit "level", FInt 2)]];
   mkCommand MYSQL_SAVE (lit "t_role")
     [SetKey [(lit "roleid", FInt 3)];
      SetFiled [(lit "name", FStr (lit "xuping")); (lit "level", FInt 2); (lit "accountid", FInt 4)];
      SetBlobFiled (lit "bin_data") (TestBinData 1 0 junk)]].

(** [ToStr()] with the connection [hander]; the statements are only logged. *)
Fixpoint build_all (fuel hander : nat) (cmds : list sql_command) : M MysqlTest () :=
  match cmds with
  | [] => mret tt
  | c :: cmds' =>
      on_mgr (on_db hander (MysqlBase.ExecSql fuel (ToStr c (fun _ => HDone)) false));;
      build_all fuel hander cmds'
  end.

Definition MainThreadSQLBuilder (fuel : nat) : M MysqlTest () :=
  hander ← on_mgr (GetEscapeStringHandlerInMainThread None);
  match hander with
  | Some hander => build_all fuel hander main_commands
  | None => mret tt
  end.

Definition StartTest (fuel : nat) : M MysqlTest () := MainThreadTest;; MainThreadSQLBuilder fuel.

Definition OnRelease (h : test_handler) : M MysqlTest () :=
  match h with
  | MainThreadTestHandler _ | MainThreadErrorHandler _ | InsertRoleHandler _ => mret tt
  | ClearTableHandler => DoMysqlTestTask 1
  | QueryRoleHandler id => DoMysqlTestTask (s32 (id + 1))
  end.

(** *** The queue's calls on task [i] *)

Definition handler_of (i : nat) : M MysqlTest test_handler :=
  s ← mget; mlift (of_option BadCall (handlers s !! i)).

Definition test_execute (fuel i : nat) : M MysqlTest bool := on_mgr (task_execute fuel i).

Definition test_report (i : nat) : M MysqlTest () :=
  r ← on_mgr (task_report i);
  h ← handler_of i;
  match r with
  | inl dbResult => mlift (OnSuccess h dbResult)
  | inr (errorCode, errorInfo) => mlift (OnFail h errorCode errorInfo)
  end.

(** [MysqlBase::OnRelease]: the manager counts, then the handler runs. *)
Definition test_release (i : nat) : M MysqlTest () :=
  on_mgr (task_release i);;
  h ← handler_of i;
  OnRelease h.

Inductive test_step : MysqlTest -> MysqlTest -> Prop :=
  | ts_execute fuel i s r s' : test_execute fuel i s = Ok (r, s') -> test_step s s'
  | ts_report i s r s' : test_report i s = Ok (r, s') -> test_step s s'
  | ts_release i s r s' : test_release i s = Ok (r, s') -> test_step s s'.

(** The states from the start of the test on a manager that has just been
    initialised. *)
Inductive test_reachable : MysqlTest -> Prop :=
  | tr_start fuel w m s : Initialize fuel (MysqlMgr_new w) = Ok (true, m) ->
      StartTest fuel (mkTest m []) = Ok (tt, s) -> test_reachable s
  | tr_step s s' : test_reachable s -> test_step s s' -> test_reachable s'.

(** ** The chain of tasks *)

(** The connection id a handler is pushed with. *)
Definition push_id (h : test_handler) : Z :=
  match h with
  | MainThreadTestHandler id | MainThreadErrorHandler id | InsertRoleHandler id | QueryRoleHandler id => id
  | ClearTableHandler => 0
  end.

Definition first_handlers : list test_handler :=
  map MainThreadTestHandler [0; 1; 2; 3; 4; 5; 6; 7; 8; 9] ++ [ClearTableHandler].

(** The handlers of the task ids [1..K]. *)
Fixpoint chain_handlers (K : nat) : list test_handler :=
  match K with
  | O => []
  | S K' => chain_handlers K' ++ [InsertRoleHandler (Z.of_nat K); QueryRoleHandler (Z.of_nat K)]
  end.

Definition all_handlers (K : nat) : list test_handler := first_handlers ++ chain_handlers K.

Lemma chain_length K : length (chain_handlers K) = (2 * K)%nat.
Proof. induction K as [|K IH]; [done|]. cbn [chain_handlers]. rewrite length_app, IH. cbn. lia. Qed.

Lemma chain_lookup K j h : chain_handlers K !! j = Some h -> exists k, (1 <= k <= K)%nat /\
  (h = InsertRoleHandler (Z.of_nat k) /\ j = (2 * k - 2)%nat \/
   h = QueryRoleHandler (Z.of_nat k) /\ j = (2 * k - 1)%nat).
Proof.
  induction K as [|K IH]; [by destruct j|]. cbn [chain_handlers].
  rewrite lookup_app_Some, chain_length. intros [H|[Hj H]].
  - destruct (IH H) as (k & Hk & Hh). exists k. split; [lia|exact Hh].
  - exists (S K). split; [lia|]. destruct (j - 2 * K)%nat as [|[|j']] eqn:Ej; [| |by destruct j'];
      injection H as <-; [left|right]; split; (done || lia).
Qed.

(** Where the handlers are. *)
Lemma handlers_lookup K i h : all_handlers K !! i = Some h ->
  match h with
  | MainThreadTestHandler _ => (i < 10)%nat
  | MainThreadErrorHandler _ => False
  | ClearTableHandler => i = 10%nat
  | InsertRoleHandler id => exists k, id = Z.of_nat k /\ (1 <= k <= K)%nat /\ i = (9 + 2 * k)%nat
  | QueryRoleHandler id => exists k, id = Z.of_nat k /\ (1 <= k <= K)%nat /\ i = (10 + 2 * k)%nat
  end.
Proof.
  unfold all_handlers. rewrite lookup_app_Some. change (length first_handlers) with 11%nat. intros [H|[Hi H]].
  - do 11 (destruct i as [|i]; [injection H as <-; lia|]). done.
  - apply chain_lookup in H as (k & Hk & [[-> Hj]|[-> Hj]]); exists k; split_and!; lia.
Qed.

(** The task [i] has been released. *)
Definition released (s : MysqlTest) (i : nat) : Prop :=
  exists t, tasks (_mysqlMgr s) !! i = Some t /\ is_released t = true.

(** The handlers [l] have been pushed, each on the thread of its id. *)
Record pushed (n : Z) (l : list test_handler) (s : MysqlTest) : Prop := {
  pu_mgr : mysql_inv n (_mysqlMgr s);
  pu_handlers : handlers s = l;
  pu_threads : Forall2 (fun h t => t_thread t = (push_id h mod 2 ^ 64) mod n + 1) l (tasks (_mysqlMgr s))
}.

(** The test has pushed the tasks up to the id [K] on [n] connections. *)
Record chain_inv (n : Z) (K : nat) (s : MysqlTest) : Prop := {
  ch_pushed : pushed n (all_handlers K) s;
  ch_bound : Z.of_nat K <= 9999;
  ch_clear : released s 10 <-> (0 < K)%nat;
  ch_done : forall k, (1 <= k < K)%nat -> released s (10 + 2 * k);
  ch_last : 1 <= Z.of_nat K < 9999 -> ~ released s (10 + 2 * K)
}.

(** *** Tasks that change *)

Lemma execute_tasks fuel i m r m' : task_execute fuel i m = Ok (r, m') ->
  exists t t', tasks m !! i = Some t /\ is_released t = false /\ is_released t' = false /\
    t_thread t' = t_thread t /\ tasks m' = <[i := t']> (tasks m).
Proof.
  unfold task_execute, mget, mlift. intros H. apply M_bind_inv in H as (? & ? & [= <- <-] & H).
  destruct (tasks m !! i) as [t|] eqn:Hi; [|done]. rewrite (M_bind_Ok _ _ m t m) in H by done.
  destruct (t_state t) eqn:Es; [|done..]. apply M_bind_inv in H as ([ret b] & m1 & H1 & H).
  apply preserves_on_db in H1. apply M_bind_inv in H as (? & m2 & [= _ <-] & [= _ <-]).
  exists t, (mkTask (t_thread t) b (Executed ret)). split_and!; [done|unfold is_released; by rewrite Es|reflexivity..|].
  cbn. by rewrite (mf_tasks _ _ H1).
Qed.

Lemma report_tasks i m r m' : task_report i m = Ok (r, m') ->
  exists t t', tasks m !! i = Some t /\ is_released t = false /\ is_released t' = false /\
    t_thread t' = t_thread t /\ tasks m' = <[i := t']> (tasks m).
Proof.
  unfold task_report, mget, mlift. intros H. apply M_bind_inv in H as (? & ? & [= <- <-] & H).
  destruct (tasks m !! i) as [t|] eqn:Hi; [|done]. rewrite (M_bind_Ok _ _ m t m) in H by done.
  destruct (t_state t) as [|[]| |] eqn:Es; try done.
  - apply M_bind_inv in H as (? & m2 & [= _ <-] & [= _ <-]).
    exists t, (mkTask (t_thread t) (t_base t) Reported). split_and!; [done|unfold is_released; by rewrite Es|reflexivity..].
  - apply M_bind_inv in H as (x & m2 & H1 & H). destruct (OnFailed (t_base t) true); [|done..].
    injection H1 as _ <-. apply M_bind_inv in H as (? & m3 & [= _ <-] & [= _ <-]).
    exists t, (mkTask (t_thread t) (t_base t) Reported). split_and!; [done|unfold is_released; by rewrite Es|reflexivity..].
Qed.

Lemma release_tasks i m r m' : task_release i m = Ok (r, m') ->
  exists t t', tasks m !! i = Some t /\ is_released t = false /\ is_released t' = true /\
    t_thread t' = t_thread t /\ tasks m' = <[i := t']> (tasks m).
Proof.
  unfold task_release, mget, mlift. intros H. apply M_bind_inv in H as (? & ? & [= <- <-] & H).
  destruct (tasks m !! i) as [t|] eqn:Hi; [|done]. rewrite (M_bind_Ok _ _ m t m) in H by done.
  destruct (t_state t) eqn:Es; try done. unfold OnBaseRelease, mmodify in H.
  apply M_bind_inv in H as (? & m2 & [= _ <-] & [= _ <-]).
  exists t, (mkTask (t_thread t) (t_base t) Released). split_and!; [done|unfold is_released; by rewrite Es|reflexivity..].
Qed.

(** *** Pushing *)

Lemma mgr_push n id h m : mysql_inv n m -> 0 < n -> h_base h = false ->
  exists p m', PushMysqlHandler id (Some h) None m = Ok ((true, Some (mkHandler (h_exec h) true)), m') /\
    mysql_inv n m' /\
    tasks m' = tasks m ++ [MysqlMgr.mkTask ((id mod 2 ^ 64) mod n + 1) (MysqlBase_new p (h_exec h)) Queued].
Proof.
  intros I Hn Hb. pose proof (mi_ok _ _ I) as O.
  assert (Hu : u64 id mod 2 ^ 64 = id mod 2 ^ 64) by (unfold u64, uwrap; by rewrite Zmod_mod).
  destruct (GetConnectionThreadIdx_spec n m (u64 id) O Hn) as [E1 Ht]. rewrite Hu in E1, Ht.
  destruct (GetDBConnection_spec n m _ None O (conj (Z.le_trans 0 1 _ ltac:(lia) (proj1 Ht)) (proj2 Ht))) as [E2 Hs].
  destruct (mo_main _ _ O) as (k & v & Hk & Hv).
  assert (Hvec : vector_of None m = Some v) by (cbn; by rewrite Hk).
  destruct (Hs v Hvec) as [p Hp]. rewrite Hvec, Hp in E2.
  assert (E3 : exists m', PushMysqlHandler id (Some h) None m = Ok ((true, Some (mkHandler (h_exec h) true)), m') /\
    tasks m' = tasks m ++ [MysqlMgr.mkTask ((id mod 2 ^ 64) mod n + 1) (MysqlBase_new p (h_exec h)) Queued]).
  { unfold PushMysqlHandler. rewrite Hb, (M_bind_Ok _ _ _ _ _ E1), (M_bind_Ok _ _ _ _ _ E2).
    eexists. by split. }
  destruct E3 as (m' & E3 & Ht'). exists p, m'. split_and!; [done| |done]. by eapply inv_push.
Qed.

(** New tasks change nothing for the others. *)
Lemma released_push m m' hs hs' t j : tasks m' = tasks m ++ [t] -> is_released t = false ->
  released (mkTest m' hs') j <-> released (mkTest m hs) j.
Proof.
  intros E Ht. unfold released. cbn [_mysqlMgr]. rewrite E. split.
  - intros (t' & [H|[Hj H]]%lookup_app_Some & Hr); [by exists t'|].
    destruct (j - _)%nat as [|j']; [injection H as <-; congruence|by destruct j'].
  - intros (t' & H & Hr). exists t'. split; [|done]. by apply lookup_app_l_Some.
Qed.

Lemma push_spec n l id h s : pushed n l s -> 0 < n -> push_id h = id ->
  exists s', push id h s = Ok (tt, s') /\ pushed n (l ++ [h]) s' /\ forall j, released s' j <-> released s j.
Proof.
  intros [I Hh Ht] Hn <-. destruct s as [m hs]. cbn [_mysqlMgr handlers] in *. subst hs.
  destruct (mgr_push n (push_id h) (mkHandler (ExecSql h) false) m I Hn eq_refl) as (p & m' & E & I' & Et).
  exists (mkTest m' (l ++ [h])). split_and!.
  - unfold push, on_mgr, mbind, M_bind. cbn [_mysqlMgr]. by rewrite E.
  - constructor; cbn [_mysqlMgr handlers]; [done|done|]. rewrite Et. apply Forall2_app; [done|]. by repeat constructor.
  - intros j. by eapply released_push.
Qed.

Lemma all_handlers_S K : all_handlers (S K) =
  (all_handlers K ++ [InsertRoleHandler (Z.of_nat (S K))]) ++ [QueryRoleHandler (Z.of_nat (S K))].
Proof. unfold all_handlers. cbn [chain_handlers]. by rewrite <- !app_assoc. Qed.

Lemma DoMysqlTestTask_spec n K s : pushed n (all_handlers K) s -> 0 < n -> Z.of_nat (S K) < 10000 ->
  exists s', DoMysqlTestTask (Z.of_nat (S K)) s = Ok (tt, s') /\ pushed n (all_handlers (S K)) s' /\
    forall j, released s' j <-> released s j.
Proof.
  intros H Hn HK. unfold DoMysqlTestTask. destruct (Z.leb_spec 10000 (Z.of_nat (S K))); [lia|].
  destruct (push_spec n _ (Z.of_nat (S K)) (InsertRoleHandler (Z.of_nat (S K))) s H Hn eq_refl) as (s1 & E1 & H1 & R1).
  destruct (push_spec n _ (Z.of_nat (S K)) (QueryRoleHandler (Z.of_nat (S K))) s1 H1 Hn eq_refl) as (s2 & E2 & H2 & R2).
  exists s2. rewrite (M_bind_Ok _ _ _ _ _ E1), E2, all_handlers_S. split_and!; [done|done|].
  intros j. by rewrite R2, R1.
Qed.

Lemma push_main_spec n k i l s : pushed n l s -> 0 < n ->
  exists s', push_main k i s = Ok (tt, s') /\
    pushed n (l ++ map MainThreadTestHandler (seqZ i (Z.of_nat k))) s' /\ forall j, released s' j <-> released s j.
Proof.
  revert i l s. induction k as [|k IH]; intros i l s H Hn; cbn [push_main].
  { exists s. split_and!; [done|by rewrite app_nil_r|done]. }
  destruct (push_spec n l i (MainThreadTestHandler i) s H Hn eq_refl) as (s1 & E1 & H1 & R1).
  destruct (IH (i + 1) _ s1 H1 Hn) as (s2 & E2 & H2 & R2). exists s2.
  rewrite (M_bind_Ok _ _ _ _ _ E1), E2. split_and!; [done| |].
  - rewrite <- app_assoc in H2. rewrite (seqZ_cons i) by lia.
    replace (Z.pred (Z.of_nat (S k))) with (Z.of_nat k) by lia. by replace (Z.succ i) with (i + 1) by lia.
  - intros j. by rewrite R2, R1.
Qed.

Lemma on_mgr_inv {A} (f : M MysqlMgr A) s a s' : on_mgr f s = Ok (a, s') ->
  exists m', f (_mysqlMgr s) = Ok (a, m') /\ s' = mkTest m' (handlers s).
Proof. unfold on_mgr. destruct (f _) as [[a' m']| |]; [|done..]. intros [= <- <-]. by exists m'. Qed.

(** What leaves the tasks and handlers as they are. *)
Record kept (s s' : MysqlTest) : Prop := {
  ke_mgr : mframe (_mysqlMgr s) (_mysqlMgr s');
  ke_handlers : handlers s' = handlers s
}.

#[export] Instance kept_preorder : PreOrder kept.
Proof. split; [by constructor|]. intros s1 s2 s3 [] []. constructor; [by etransitivity|congruence]. Qed.

Lemma preserves_on_mgr {A} (f : M MysqlMgr A) : preserves mframe f -> preserves kept (on_mgr f).
Proof. intros Hf s a s' (m' & E & ->)%on_mgr_inv. constructor; [by eapply Hf|done]. Qed.

Lemma preserves_build_all fuel hander cmds : preserves kept (build_all fuel hander cmds).
Proof.
  induction cmds as [|c cmds IH]; cbn [build_all]; [apply (preserves_ret kept)|].
  apply (preserves_bind kept); [apply preserves_on_mgr, preserves_on_db|done].
Qed.

Lemma preserves_MainThreadSQLBuilder fuel : preserves kept (MainThreadSQLBuilder fuel).
Proof.
  apply (preserves_bind kept); [apply preserves_on_mgr, preserves_GetDBConnection|].
  intros [p|]; [apply preserves_build_all|apply (preserves_ret kept)].
Qed.

Lemma kept_pushed n l s s' : kept s s' -> pushed n l s -> pushed n l s'.
Proof.
  intros [F H] [I Hh Ht]. constructor; [by eapply inv_mframe|congruence|by rewrite (mf_tasks _ _ F)].
Qed.

Lemma kept_released s s' j : kept s s' -> released s' j <-> released s j.
Proof. intros [F _]. unfold released. by rewrite (mf_tasks _ _ F). Qed.

(** *** The start of the test *)

Lemma MainThreadTest_spec n fuel w m : config_count = Some (n + 1) -> 0 < n < 2 ^ 31 - 1 ->
  Initialize fuel (MysqlMgr_new w) = Ok (true, m) ->
  exists s, MainThreadTest (mkTest m []) = Ok (tt, s) /\ pushed n (all_handlers 0) s /\ forall j, ~ released s j.
Proof.
  intros Hc Hn Hi. pose proof (inv_init n fuel w m Hc ltac:(lia) Hi) as I.
  pose proof (Initialize_spec fuel w m Hi) as (_ & _ & _ & _ & _ & _ & _ & _ & Ht & _).
  assert (P : pushed n [] (mkTest m [])) by (constructor; cbn [_mysqlMgr]; rewrite ?Ht; done).
  destruct (push_main_spec n 10 0 [] _ P (proj1 Hn)) as (s1 & E1 & H1 & R1).
  destruct (push_spec n _ 0 ClearTableHandler s1 H1 (proj1 Hn) eq_refl) as (s2 & E2 & H2 & R2).
  exists s2. split_and!; [by unfold MainThreadTest; rewrite (M_bind_Ok _ _ _ _ _ E1)|exact H2|].
  intros j. rewrite R2, R1. unfold released. cbn [_mysqlMgr]. rewrite Ht. by intros (t & [=] & _).
Qed.

Lemma StartTest_pushed n fuel w m s : config_count = Some (n + 1) -> 0 < n < 2 ^ 31 - 1 ->
  Initialize fuel (MysqlMgr_new w) = Ok (true, m) -> StartTest fuel (mkTest m []) = Ok (tt, s) ->
  pushed n (all_handlers 0) s /\ forall j, ~ released s j.
Proof.
  intros Hc Hn Hi Hs. destruct (MainThreadTest_spec n fuel w m Hc Hn Hi) as (s1 & E & P & R).
  unfold StartTest in Hs. rewrite (M_bind_Ok _ _ _ _ _ E) in Hs. apply preserves_MainThreadSQLBuilder in Hs.
  split; [by eapply kept_pushed|]. intros j. by rewrite (kept_released _ _ _ Hs).
Qed.

Context {SC : SqlClock L}.

Lemma on_db_total {A} p (f : M (DBConnection * sqlworld) A) m : total f -> (p < length (dbs m))%nat -> exists a m', on_db p f m = Ok (a, m').
Proof.
  intros Hf [c Hc]%lookup_lt_is_Some_2. unfold on_db, mget, mmodify, mlift, mret, M_ret, mbind, M_bind, outcome_bind.
  rewrite Hc. cbn [of_option]. destruct (Hf (c, sqlnet m)) as (a & [c' w'] & ->). by do 2 eexists.
Qed.

(** The builders escape with the main connection; the escaping may ping, which
    ends when the fuel is enough. *)
Lemma build_all_total fuel p cmds s : ping_budget < Z.of_nat fuel ->
  (p < length (dbs (_mysqlMgr s)))%nat -> exists s', build_all fuel p cmds s = Ok (tt, s').
Proof.
  intros Hf. revert s. induction cmds as [|c cmds IH]; intros s Hp; cbn [build_all]; [by exists s|].
  destruct (on_db_total p (MysqlBase.ExecSql fuel (ToStr c (fun _ => HDone)) false) _ (total_ExecSql _ _ _ Hf) Hp)
    as (a & m' & E). pose proof (preserves_on_db _ _ _ _ _ E) as F.
  assert (E' : on_mgr (on_db p (MysqlBase.ExecSql fuel (ToStr c (fun _ => HDone)) false)) s =
    Ok (a, mkTest m' (handlers s))) by (unfold on_mgr; by rewrite E).
  rewrite (M_bind_Ok _ _ _ _ _ E'). apply IH. cbn [_mysqlMgr]. by rewrite (mf_dbs _ _ F).
Qed.

Lemma StartTest_total n fuel w m : config_count = Some (n + 1) -> 0 < n < 2 ^ 31 - 1 ->
  ping_budget < Z.of_nat fuel -> Initialize fuel (MysqlMgr_new w) = Ok (true, m) ->
  exists s, StartTest fuel (mkTest m []) = Ok (tt, s).
Proof.
  intros Hc Hn Hf Hi. destruct (MainThreadTest_spec n fuel w m Hc Hn Hi) as (s1 & E & P & _).
  unfold StartTest. rewrite (M_bind_Ok _ _ _ _ _ E). pose proof (mi_ok _ _ (pu_mgr _ _ _ P)) as O.
  destruct (GetDBConnection_spec n (_mysqlMgr s1) 0 None O ltac:(lia)) as [Eg Hs].
  assert (Eh : on_mgr (GetEscapeStringHandlerInMainThread None) s1 = match GetDBConnection 0 None (_mysqlMgr s1) with
      Ok (a, m') => Ok (a, mkTest m' (handlers s1)) | Fault f => Fault f | OutOfFuel => OutOfFuel end) by done.
  rewrite Eg in Eh. destruct (vector_of None (_mysqlMgr s1)) as [v|] eqn:Ev.
  2:{ exists s1. unfold MainThreadSQLBuilder. rewrite (M_bind_Ok _ _ _ _ _ Eh). by destruct s1. }
  destruct (Hs v eq_refl) as [p Hp]. rewrite Hp in Eh.
  unfold MainThreadSQLBuilder. rewrite (M_bind_Ok _ _ _ _ _ Eh). apply build_all_total; [done|]. cbn [_mysqlMgr].
  destruct (vector_of_In _ _ _ Ev) as [name Hin]. pose proof (mo_vectors _ _ O) as Hv. unfold vectors_ok in Hv.
  rewrite Forall_forall in Hv. destruct (Hv _ Hin) as [_ Hd]. exact (Forall_lookup_1 _ _ _ _ Hd Hp).
Qed.

(** *** The invariant *)

Lemma pushed_update n l s m' i t t' : pushed n l s -> mysql_inv n m' ->
  tasks (_mysqlMgr s) !! i = Some t -> t_thread t' = t_thread t ->
  tasks m' = <[i := t']> (tasks (_mysqlMgr s)) -> pushed n l (mkTest m' (handlers s)).
Proof.
  intros [I Hh Ht] I' Hi Hth Et. constructor; cbn [_mysqlMgr handlers]; [done|done|]. rewrite Et.
  destruct (Forall2_lookup_r _ _ _ _ _ Ht Hi) as (h & Hl & Hp).
  rewrite <- (list_insert_id l i h Hl). apply Forall2_insert; [done|congruence].
Qed.

Lemma released_update s m' hs i t t' j : tasks (_mysqlMgr s) !! i = Some t -> is_released t = false ->
  tasks m' = <[i := t']> (tasks (_mysqlMgr s)) ->
  released (mkTest m' hs) j <-> (j = i /\ is_released t' = true) \/ released s j.
Proof.
  intros Hi Hn Et. unfold released. cbn [_mysqlMgr]. rewrite Et. destruct (decide (i = j)) as [<-|Hne].
  - rewrite list_lookup_insert_eq by (by eapply lookup_lt_Some). rewrite Hi.
    split; [intros (x & [= <-] & Hr); by left|intros [[_ Hr]|(x & [= <-] & Hr)]; [by exists t'|congruence]].
  - rewrite list_lookup_insert_ne by done. naive_solver.
Qed.

Lemma chain_same n K s s' : chain_inv n K s -> pushed n (all_handlers K) s' ->
  (forall j, released s' j <-> released s j) -> chain_inv n K s'.
Proof.
  intros [C1 C2 C3 C4 C5] P R. constructor; [done|done|by rewrite R|intros k; rewrite R; apply C4|by rewrite R].
Qed.

Lemma released_bound n l s j : pushed n l s -> released s j -> (j < length l)%nat.
Proof.
  intros P (t & Ht & _). rewrite (Forall2_length _ _ _ (pu_threads _ _ _ P)). by eapply lookup_lt_Some.
Qed.

(** An update of a task that does not release it. *)
Lemma chain_update n K s m' i t t' : chain_inv n K s -> mysql_inv n m' ->
  tasks (_mysqlMgr s) !! i = Some t -> is_released t = false -> is_released t' = false ->
  t_thread t' = t_thread t -> tasks m' = <[i := t']> (tasks (_mysqlMgr s)) ->
  chain_inv n K (mkTest m' (handlers s)).
Proof.
  intros C I Hi Hn Hn' Hth Et. eapply chain_same; [exact C|by eapply pushed_update; [exact (ch_pushed _ _ _ C)|..]|].
  intros j. rewrite (released_update s m' _ i t t' j Hi Hn Et). rewrite Hn'. naive_solver.
Qed.

(** What the release of task [i] pushes, from the state [s1] in which it has
    just been released. *)
Lemma chain_release n K s s1 i h : chain_inv n K s -> 0 < n -> pushed n (all_handlers K) s1 ->
  all_handlers K !! i = Some h -> ~ released s i -> (forall j, released s1 j <-> j = i \/ released s j) ->
  exists s', OnRelease h s1 = Ok (tt, s') /\ exists K', chain_inv n K' s'.
Proof.
  intros [C1 C2 C3 C4 C5] Hn P Hh Hi R. pose proof (handlers_lookup _ _ _ Hh) as Hl.
  assert (B : forall k, released s (10 + 2 * k) -> (k <= K)%nat).
  { intros k H. pose proof (released_bound _ _ _ _ C1 H) as Hb. unfold all_handlers in Hb.
    rewrite length_app, chain_length in Hb. change (length first_handlers) with 11%nat in Hb. lia. }
  destruct h as [id|id| |id|id]; cbn [OnRelease]; [|done|..].
  - exists s1. split; [done|]. exists K. constructor; [done|done|rewrite R, C3; lia| |].
    + intros k Hk. apply R. right. by apply C4.
    + intros Hk. rewrite R. intros [H|H]; [lia|by apply C5].
  - subst i. assert (K = 0)%nat as -> by (destruct K; [done|exfalso; apply Hi, C3; lia]).
    destruct (DoMysqlTestTask_spec n 0 s1 P Hn ltac:(lia)) as (s' & E' & P' & R').
    exists s'. split; [exact E'|]. exists 1%nat. constructor; [done|lia| |lia|].
    + rewrite R', R. split; [lia|by left].
    + intros _. rewrite R', R. intros [H|H%(B 1%nat)]; lia.
  - destruct Hl as (k & -> & Hk & ->). exists s1. split; [done|]. exists K.
    constructor; [done|done|rewrite R, C3; lia| |].
    + intros k' Hk'. apply R. right. by apply C4.
    + intros Hk'. rewrite R. intros [H|H]; [lia|by apply C5].
  - destruct Hl as (k & -> & Hk & ->).
    assert (k = K) as -> by (destruct (decide (k < K)%nat); [exfalso; apply Hi, C4; lia|lia]).
    rewrite s32_small by (unfold is_s32; lia). replace (Z.of_nat K + 1) with (Z.of_nat (S K)) by lia.
    destruct (decide (Z.of_nat (S K) < 10000)) as [HK|HK].
    + destruct (DoMysqlTestTask_spec n K s1 P Hn HK) as (s' & E' & P' & R').
      exists s'. split; [exact E'|]. exists (S K). constructor; [done|lia| | |].
      * rewrite R', R, C3. lia.
      * intros k' Hk'. rewrite R', R. destruct (decide (k' = K)) as [->|]; [by left|right; apply C4; lia].
      * intros _. rewrite R', R. intros [H|H%(B (S K))]; lia.
    + exists s1. split; [unfold DoMysqlTestTask; destruct (Z.leb_spec 10000 (Z.of_nat (S K))); [done|lia]|].
      exists K. constructor; [done|done|rewrite R, C3; lia| |lia].
      intros k' Hk'. apply R. right. by apply C4.
Qed.

Lemma handler_lookup n l s i t : pushed n l s -> tasks (_mysqlMgr s) !! i = Some t -> exists h, l !! i = Some h.
Proof. intros P Hi. destruct (Forall2_lookup_r _ _ _ _ _ (pu_threads _ _ _ P) Hi) as (h & Hl & _). by exists h. Qed.

(** Releasing a task that the manager releases. *)
Lemma chain_task_release n K s i m' : chain_inv n K s -> 0 < n -> task_release i (_mysqlMgr s) = Ok (tt, m') ->
  exists s', test_release i s = Ok (tt, s') /\ exists K', chain_inv n K' s'.
Proof.
  intros C Hn H. pose proof (ch_pushed _ _ _ C) as P.
  destruct (release_tasks _ _ _ _ H) as (t & t' & Hi & Hr & Hr' & Hth & Et).
  destruct (handler_lookup _ _ _ _ _ P Hi) as [h Hh].
  assert (I' : mysql_inv n m') by (eapply inv_release; [exact (pu_mgr _ _ _ P)|exact H]).
  assert (P1 : pushed n (all_handlers K) (mkTest m' (handlers s))) by (by eapply pushed_update).
  destruct (chain_release n K s (mkTest m' (handlers s)) i h C Hn P1 Hh) as (s' & E' & C').
  - intros (x & Hx & Hrx). rewrite Hi in Hx. injection Hx as <-. congruence.
  - intros j. rewrite (released_update s m' _ i t t' j Hi Hr Et). naive_solver.
  - exists s'. split; [|exact C'].
    assert (Ho : on_mgr (task_release i) s = Ok (tt, mkTest m' (handlers s))) by (unfold on_mgr; by rewrite H).
    unfold test_release. rewrite (M_bind_Ok _ _ _ _ _ Ho). unfold handler_of, mget, mlift.
    rewrite (M_bind_Ok _ _ _ h (mkTest m' (handlers s))); [exact E'|].
    unfold mbind, M_bind. cbn [handlers]. by rewrite (pu_handlers _ _ _ P), Hh.
Qed.

Lemma chain_step n K s s' : chain_inv n K s -> 0 < n -> test_step s s' -> exists K', chain_inv n K' s'.
Proof.
  intros C Hn H. pose proof (ch_pushed _ _ _ C) as P. destruct H as [fuel i s r s' H|i s r s' H|i s r s' H].
  - apply on_mgr_inv in H as (m' & H & ->). exists K.
    destruct (execute_tasks _ _ _ _ _ H) as (t & t' & Hi & Hr & Hr' & Hth & Et).
    eapply chain_update; [exact C|eapply inv_execute; [exact (pu_mgr _ _ _ P)|exact H]|done..].
  - unfold test_report in H. apply M_bind_inv in H as (x & s1 & H1 & H).
    apply on_mgr_inv in H1 as (m' & H1 & ->).
    destruct (report_tasks _ _ _ _ H1) as (t & t' & Hi & Hr & Hr' & Hth & Et). exists K.
    assert (s' = mkTest m' (handlers s)) as ->.
    { apply M_bind_inv in H as (h & s2 & H2 & H). unfold handler_of, mget, mlift in H2.
      apply M_bind_inv in H2 as (? & ? & [= <- <-] & H2). destruct (of_option _ _) as [h0| |]; [|done..]. injection H2 as -> <-.
      unfold mlift in H. destruct x as [x|[c e]]; [destruct (OnSuccess h x)|destruct (OnFail h c e)];
        try done; by injection H as _ <-. }
    eapply chain_update; [exact C|eapply inv_report; [exact (pu_mgr _ _ _ P)|exact H1]|done..].
  - pose proof H as H0. unfold test_release in H0. apply M_bind_inv in H0 as ([] & s1 & H1 & _).
    apply on_mgr_inv in H1 as (m' & H1 & _).
    destruct (chain_task_release _ _ _ _ _ C Hn H1) as (s2 & E2 & C2). rewrite H in E2. by injection E2 as _ ->.
Qed.

Lemma chain_start n s0 : pushed n (all_handlers 0) s0 -> (forall j, ~ released s0 j) -> chain_inv n 0 s0.
Proof. intros P R. constructor; [done|done|split; [by intros ?%R|lia]|lia|lia]. Qed.

(** C19: The MySQL test from its start to its end, whatever the order in which
    the queue executes, reports and releases the tasks and whatever the
    server answers.  On a manager that has been initialised with [n > 0]
    asynchronous connections the test starts: with enough fuel for the pings
    of half an hour [StartTest] ends.  From then on the handlers that
    have been pushed are the first eleven and one insert and one query for
    each id of [1..K], in that order and each id once, with [K < 10000];
    handlers of equal ids are on the same thread; a reported task can always
    be released; and the chain does not stop early: when every task pushed so
    far has been released, [K = 9999]. *)
Theorem MysqlTest_chain n : config_count = Some (n + 1) -> 0 < n < 2 ^ 31 - 1 ->
  (forall fuel w m, Initialize fuel (MysqlMgr_new w) = Ok (true, m) ->
     ping_budget < Z.of_nat fuel -> exists s, StartTest fuel (mkTest m []) = Ok (tt, s)) /\
  forall s, test_reachable s -> exists K, Z.of_nat K <= 9999 /\
    handlers s = all_handlers K /\
    Forall2 (fun h t => t_thread t = (push_id h mod 2 ^ 64) mod n + 1) (handlers s) (tasks (_mysqlMgr s)) /\
    (forall i t, tasks (_mysqlMgr s) !! i = Some t -> t_state t = Reported ->
       exists s', test_release i s = Ok (tt, s')) /\
    ((forall i, (i < length (tasks (_mysqlMgr s)))%nat -> released s i) -> Z.of_nat K = 9999).
Proof.
  intros Hc Hn. split.
  { intros fuel w m Hi Hf. by eapply StartTest_total. }
  intros s Hs. assert (HC : exists K, chain_inv n K s).
  { induction Hs as [fuel w m s Hi Hst|s s' _ [K IH] Hst].
    - destruct (StartTest_pushed n fuel w m s Hc Hn Hi Hst) as [P R]. exists 0%nat. by apply chain_start.
    - by eapply chain_step; [exact IH|lia|]. }
  destruct HC as [K C]. pose proof (ch_pushed _ _ _ C) as P. exists K. split_and!.
  - exact (ch_bound _ _ _ C).
  - exact (pu_handlers _ _ _ P).
  - rewrite (pu_handlers _ _ _ P). exact (pu_threads _ _ _ P).
  - intros i t Hi Ht. assert (Hm : exists m', task_release i (_mysqlMgr s) = Ok (tt, m')).
    { unfold task_release, mget, mlift, mbind, M_bind, outcome_bind. rewrite Hi. cbn [of_option]. rewrite Ht. by eexists. }
    destruct Hm as [m' Hm]. destruct (chain_task_release _ _ _ _ _ C (proj1 Hn) Hm) as (s' & E & _). by exists s'.
  - intros R. pose proof (Forall2_length _ _ _ (pu_threads _ _ _ P)) as Hl.
    unfold all_handlers in Hl. rewrite length_app, chain_length in Hl. change (length first_handlers) with 11%nat in Hl.
    assert (R10 : released s 10) by (apply R; lia). apply (ch_clear _ _ _ C) in R10.
    destruct (decide (Z.of_nat K < 9999)) as [HK|HK]; [|pose proof (ch_bound _ _ _ C); lia].
    exfalso. apply (ch_last _ _ _ C); [lia|]. apply R. lia.
Qed.
End MysqlTest.

(** ** A run on the concrete manager *)

Module MysqlTestExample.
#[export] Existing Instances MysqlExample.lib MysqlExample.env MysqlExample.debug.

(** Conversions that find no number. *)
#[export] Instance tools : Tools := {|
  StrToBool := fun _ => false; StrToInt8 := fun _ => 0; StrToInt16 := fun _ => 0;
  StrToInt32 := fun _ => 0; StrToInt64 := fun _ => 0; StrToFloat := fun _ => 0
|}.

(** A builder that hands over a fixed statement. *)
#[export] Instance builder : MysqlBuilder := {| ToStr := fun _ k => k (lit "insert") |}.

Definition after {A} (d : MysqlTest) (o : outcome (A * MysqlTest)) : MysqlTest :=
  match o with Ok (_, s) => s | _ => d end.

Definition s0 : MysqlTest :=
  after (mkTest MysqlExample.m0 []) (StartTest [] 3 (mkTest MysqlExample.m0 [])).
Definition s1 : MysqlTest := after s0 (test_execute 3 10 s0).
Definition s2 : MysqlTest := after s1 (test_report 10 s1).
Definition s3 : MysqlTest := after s2 (test_release [] 10 s2).

Lemma after_ok {A} d (o : outcome (A * MysqlTest)) : is_ok o = true ->
  exists r, o = Ok (r, after d o).
Proof. destruct o as [[r s]| |]; [eauto|done..]. Qed.

Lemma s3_reachable : test_reachable [] s3.
Proof.
  assert (R0 : test_reachable [] s0).
  { destruct (after_ok (mkTest MysqlExample.m0 []) (StartTest [] 3 (mkTest MysqlExample.m0 []))) as [[] H];
      [by vm_compute|]. exact (tr_start _ _ _ _ _ MysqlExample.init_ok H). }
  destruct (after_ok s0 (test_execute 3 10 s0)) as [r1 H1]; [by vm_compute|].
  destruct (after_ok s1 (test_report 10 s1)) as [r2 H2]; [by vm_compute|].
  destruct (after_ok s2 (test_release [] 10 s2)) as [r3 H3]; [by vm_compute|].
  apply (tr_step _ s2); [|exact (ts_release _ _ _ _ _ H3)].
  apply (tr_step _ s1); [|exact (ts_report _ _ _ _ _ H2)].
  apply (tr_step _ s0); [exact R0|exact (ts_execute _ _ _ _ _ _ H1)].
Qed.
End MysqlTestExample.

(** Once the table is cleared the first pair is queued. *)
Lemma MysqlTest_chain_witness : handlers MysqlTestExample.s3 = all_handlers 1 /\
  Z.of_nat (length (tasks (_mysqlMgr MysqlTestExample.s3))) = 13.
Proof.
  destruct (@MysqlTest_chain MysqlExample.lib MysqlExample.env MysqlExample.debug MysqlTestExample.tools
    MysqlTestExample.builder [] _
    2 eq_refl ltac:(lia)) as [_ H].
  destruct (H MysqlTestExample.s3 MysqlTestExample.s3_reachable) as (K & _ & Hh & _). rewrite Hh.
  split; [|by vm_compute]. apply (f_equal length) in Hh. unfold all_handlers in Hh.
  rewrite length_app, chain_length in Hh. replace (length (handlers MysqlTestExample.s3)) with 13%nat in Hh by by vm_compute.
  change (length first_handlers) with 11%nat in Hh. by replace K with 1%nat by lia.
Defined.
