(* ===== verification/LuaApi.v ===== *)
(** * The Lua C interface as the program uses it (Thridlibrary/include/lua)

    [lua.h] gives the type codes and the macros; the functions are in a
    compiled library and are the operations of the class [Lua].  [LuaLaws]
    states what the reference manual says of them: the state has a stack of
    values, with [limit] slots guaranteed to exist, and a heap of tables.  An
    operation that can raise a Lua error returns [None] for it.  The module
    [ScriptedLua] is a concrete instance, for the witnesses. *)
From Stdlib Require Import ZArith Lia Ascii.
From stdpp Require Import base numbers list list_numbers strings.
From S2P Require Import Prelude.
Open Scope Z_scope.

(** ** lua.h *)

Definition LUA_OK : Z := 0.
Definition LUA_TNONE : Z := -1.
Definition LUA_TNIL : Z := 0.
Definition LUA_TBOOLEAN : Z := 1.
Definition LUA_TLIGHTUSERDATA : Z := 2.
Definition LUA_TNUMBER : Z := 3.
Definition LUA_TSTRING : Z := 4.
Definition LUA_TTABLE : Z := 5.
Definition LUA_TFUNCTION : Z := 6.
Definition LUA_TUSERDATA : Z := 7.
Definition LUA_TTHREAD : Z := 8.
Definition LUA_MINSTACK : Z := 20.

(** Values; a table, a function, a full userdata or a thread is a reference. *)
Inductive lvalue : Type :=
  | LNil
  | LBool (b : bool)
  | LInt (z : Z)
  | LFloat (bits : Z)
  | LStr (s : bytes)
  | LLight (p : Z)
  | LTable (r : Z)
  | LFun (f : Z)
  | LUserdata (u : Z)
  | LThread (t : Z).

#[export] Instance lvalue_eq_dec : EqDecision lvalue.
Proof. solve_decision. Defined.

Definition type_code (v : lvalue) : Z :=
  match v with
  | LNil => LUA_TNIL
  | LBool _ => LUA_TBOOLEAN
  | LInt _ | LFloat _ => LUA_TNUMBER
  | LStr _ => LUA_TSTRING
  | LLight _ => LUA_TLIGHTUSERDATA
  | LTable _ => LUA_TTABLE
  | LFun _ => LUA_TFUNCTION
  | LUserdata _ => LUA_TUSERDATA
  | LThread _ => LUA_TTHREAD
  end.

(** The value an index means: from the bottom, 1 first, or from the top, -1
    first. *)
Definition value_at (st : list lvalue) (i : Z) : option lvalue :=
  if 0 <? i then st !! Z.to_nat (i - 1)
  else if (i <? 0) && (0 <=? Z.of_nat (length st) + i) then st !! Z.to_nat (Z.of_nat (length st) + i)
  else None.

(** The C functions the program gives to Lua: its static members [LuaCall] and
    [Log]. *)
Inductive c_function : Type := CF_LuaCall | CF_Log.

Class Lua : Type := {
  lua_State : Type;
  (** A registered C++ function object, copied into a userdata. *)
  func_object : Type;
  luaL_newstate : lua_State;
  luaL_openlibs : lua_State -> lua_State;
  lua_gettop : lua_State -> Z;
  lua_settop : Z -> lua_State -> lua_State;
  lua_rotate : Z -> Z -> lua_State -> lua_State;
  lua_type : Z -> lua_State -> Z;
  lua_toboolean : Z -> lua_State -> bool;
  lua_tointeger : Z -> lua_State -> Z;
  lua_tostring : Z -> lua_State -> option bytes * lua_State;
  (** The address of a light userdata, 0 for [NULL]. *)
  lua_touserdata : Z -> lua_State -> Z;
  (** The object in the first upvalue of the running closure. *)
  lua_upvalue : lua_State -> option func_object;
  lua_len : Z -> lua_State -> option lua_State;
  lua_pushboolean : bool -> lua_State -> lua_State;
  lua_pushinteger : Z -> lua_State -> lua_State;
  lua_pushstring : bytes -> lua_State -> lua_State;
  lua_pushlightuserdata : Z -> lua_State -> lua_State;
  lua_createtable : Z -> Z -> lua_State -> lua_State;
  lua_newuserdata : func_object -> lua_State -> lua_State;
  lua_pushcclosure : c_function -> Z -> lua_State -> lua_State;
  lua_getglobal : bytes -> lua_State -> option lua_State;
  lua_setglobal : bytes -> lua_State -> option lua_State;
  lua_getfield : Z -> bytes -> lua_State -> option lua_State;
  lua_setfield : Z -> bytes -> lua_State -> option lua_State;
  lua_rawget : Z -> lua_State -> lua_State;
  lua_rawset : Z -> lua_State -> lua_State;
  luaL_loadstring : bytes -> lua_State -> Z * lua_State;
  (** [lua_pcall L nargs nresults msgh]. *)
  lua_pcall : Z -> Z -> Z -> lua_State -> Z * lua_State
}.

(** The macros of lua.h. *)
Section Macros.
Context {L : Lua}.
Definition lua_pop (n : Z) (s : lua_State) : lua_State := lua_settop (- n - 1) s.
Definition lua_insert (i : Z) (s : lua_State) : lua_State := lua_rotate i 1 s.
Definition lua_register (n : bytes) (f : c_function) (s : lua_State) : option lua_State :=
  lua_setglobal n (lua_pushcclosure f 0 s).
Definition lua_newtable (s : lua_State) : lua_State := lua_createtable 0 0 s.
Definition lua_isfunction (i : Z) (s : lua_State) : bool := lua_type i s =? LUA_TFUNCTION.
Definition lua_istable (i : Z) (s : lua_State) : bool := lua_type i s =? LUA_TTABLE.
Definition lua_isnil (i : Z) (s : lua_State) : bool := lua_type i s =? LUA_TNIL.
End Macros.

(** ** The documented behaviour *)

Class LuaLaws (L : Lua) : Type := {
  stack : lua_State -> list lvalue;
  (** The slots the running C function may use ([LUA_MINSTACK]). *)
  limit : lua_State -> nat;
  lheap : Type;
  heap : lua_State -> lheap;
  (** The value a table has under a string key, and the table of globals. *)
  tab : lheap -> Z -> bytes -> lvalue;
  GLOBALS : Z;
  (** A table that exists and has no metatable. *)
  plain : lheap -> Z -> Prop;
  (** The object in a userdata, and in the upvalue of a closure. *)
  held : lheap -> Z -> option func_object;
  upval : lheap -> Z -> option func_object;

  gettop_law : forall s, lua_gettop s = Z.of_nat (length (stack s));
  type_law : forall i s,
    lua_type i s = match value_at (stack s) i with Some v => type_code v | None => LUA_TNONE end;
  toboolean_law : forall i s b, value_at (stack s) i = Some (LBool b) -> lua_toboolean i s = b;
  tointeger_law : forall i s z, value_at (stack s) i = Some (LInt z) -> lua_tointeger i s = z;
  touserdata_law : forall i s p, value_at (stack s) i = Some (LLight p) -> lua_touserdata i s = p;
  tostring_law : forall i s v, value_at (stack s) i = Some (LStr v) -> lua_tostring i s = (Some v, s);
  (** At most the value on top changes (a number becomes a string). *)
  tostring_top_law : forall s st v, stack s = st ++ [v] -> exists v',
    stack (snd (lua_tostring (-1) s)) = st ++ [v'] /\ heap (snd (lua_tostring (-1) s)) = heap s /\
    limit (snd (lua_tostring (-1) s)) = limit s;

  settop_law : forall s st xs, stack s = st ++ xs ->
    stack (lua_settop (- Z.of_nat (length xs) - 1) s) = st /\
    heap (lua_settop (- Z.of_nat (length xs) - 1) s) = heap s /\
    limit (lua_settop (- Z.of_nat (length xs) - 1) s) = limit s;
  rotate_law : forall s st xs v, stack s = st ++ xs ++ [v] ->
    stack (lua_rotate (- Z.of_nat (length xs) - 1) 1 s) = st ++ v :: xs /\
    heap (lua_rotate (- Z.of_nat (length xs) - 1) 1 s) = heap s /\
    limit (lua_rotate (- Z.of_nat (length xs) - 1) 1 s) = limit s;

  pushes_law : forall s, (length (stack s) < limit s)%nat ->
    (forall b, stack (lua_pushboolean b s) = stack s ++ [LBool b] /\
       heap (lua_pushboolean b s) = heap s /\ limit (lua_pushboolean b s) = limit s) /\
    (forall z, stack (lua_pushinteger z s) = stack s ++ [LInt (s64 z)] /\
       heap (lua_pushinteger z s) = heap s /\ limit (lua_pushinteger z s) = limit s) /\
    (forall v, stack (lua_pushstring v s) = stack s ++ [LStr v] /\
       heap (lua_pushstring v s) = heap s /\ limit (lua_pushstring v s) = limit s) /\
    (forall p, stack (lua_pushlightuserdata p s) = stack s ++ [LLight p] /\
       heap (lua_pushlightuserdata p s) = heap s /\ limit (lua_pushlightuserdata p s) = limit s);
  (** The length of a string is pushed. *)
  len_law : forall i s v, value_at (stack s) i = Some (LStr v) -> (length (stack s) < limit s)%nat ->
    exists s', lua_len i s = Some s' /\ stack s' = stack s ++ [LInt (Z.of_nat (length v))] /\
      heap s' = heap s /\ limit s' = limit s;
  createtable_law : forall n k s, (length (stack s) < limit s)%nat -> exists r,
    stack (lua_createtable n k s) = stack s ++ [LTable r] /\ limit (lua_createtable n k s) = limit s /\
    ~ plain (heap s) r /\ plain (heap (lua_createtable n k s)) r /\
    (forall c f, upval (heap s) c = Some f -> upval (heap (lua_createtable n k s)) c = Some f) /\
    forall r', plain (heap s) r' -> plain (heap (lua_createtable n k s)) r' /\
      forall f, tab (heap (lua_createtable n k s)) r' f = tab (heap s) r' f;
  getglobal_law : forall k s, plain (heap s) GLOBALS -> (length (stack s) < limit s)%nat -> exists s',
    lua_getglobal k s = Some s' /\ stack s' = stack s ++ [tab (heap s) GLOBALS k] /\
    heap s' = heap s /\ limit s' = limit s;
  getfield_law : forall i r k s, value_at (stack s) i = Some (LTable r) -> plain (heap s) r ->
    (length (stack s) < limit s)%nat -> exists s',
    lua_getfield i k s = Some s' /\ stack s' = stack s ++ [tab (heap s) r k] /\
    heap s' = heap s /\ limit s' = limit s;
  setfield_law : forall i r k s st v, stack s = st ++ [v] -> value_at (stack s) i = Some (LTable r) ->
    plain (heap s) r -> exists s',
    lua_setfield i k s = Some s' /\ stack s' = st /\ limit s' = limit s /\
    tab (heap s') r k = v /\
    (forall r' k', (r', k') <> (r, k) -> tab (heap s') r' k' = tab (heap s) r' k') /\
    (forall r', plain (heap s) r' -> plain (heap s') r');
  rawget_law : forall i r k s st, stack s = st ++ [LStr k] -> value_at (stack s) i = Some (LTable r) ->
    stack (lua_rawget i s) = st ++ [tab (heap s) r k] /\ heap (lua_rawget i s) = heap s /\
    limit (lua_rawget i s) = limit s;
  rawset_law : forall i r k s st v, stack s = st ++ [LStr k; v] -> value_at (stack s) i = Some (LTable r) ->
    plain (heap s) r ->
    stack (lua_rawset i s) = st /\ limit (lua_rawset i s) = limit s /\
    tab (heap (lua_rawset i s)) r k = v /\
    (forall r' k', (r', k') <> (r, k) -> tab (heap (lua_rawset i s)) r' k' = tab (heap s) r' k') /\
    (forall r', plain (heap s) r' -> plain (heap (lua_rawset i s)) r') /\
    (forall c, upval (heap (lua_rawset i s)) c = upval (heap s) c);
  newuserdata_law : forall f s, (length (stack s) < limit s)%nat -> exists u,
    stack (lua_newuserdata f s) = stack s ++ [LUserdata u] /\ limit (lua_newuserdata f s) = limit s /\
    held (heap (lua_newuserdata f s)) u = Some f /\
    (forall c g, upval (heap s) c = Some g -> upval (heap (lua_newuserdata f s)) c = Some g) /\
    (forall r k, tab (heap (lua_newuserdata f s)) r k = tab (heap s) r k) /\
    (forall r, plain (heap s) r -> plain (heap (lua_newuserdata f s)) r);
  pushcfunction_law : forall f s, (length (stack s) < limit s)%nat -> exists c,
    stack (lua_pushcclosure f 0 s) = stack s ++ [LFun c] /\ heap (lua_pushcclosure f 0 s) = heap s /\
    limit (lua_pushcclosure f 0 s) = limit s;
  setglobal_law : forall k s st v, stack s = st ++ [v] -> plain (heap s) GLOBALS -> exists s',
    lua_setglobal k s = Some s' /\ stack s' = st /\ limit s' = limit s /\
    tab (heap s') GLOBALS k = v /\
    (forall r k', (r, k') <> (GLOBALS, k) -> tab (heap s') r k' = tab (heap s) r k') /\
    (forall r, plain (heap s) r -> plain (heap s') r);
  pushcclosure_law : forall f s st u, stack s = st ++ [LUserdata u] -> exists c,
    stack (lua_pushcclosure f 1 s) = st ++ [LFun c] /\ limit (lua_pushcclosure f 1 s) = limit s /\
    upval (heap (lua_pushcclosure f 1 s)) c = held (heap s) u /\
    (forall c' g, upval (heap s) c' = Some g -> upval (heap (lua_pushcclosure f 1 s)) c' = Some g) /\
    (forall r k, tab (heap (lua_pushcclosure f 1 s)) r k = tab (heap s) r k) /\
    (forall r, plain (heap s) r -> plain (heap (lua_pushcclosure f 1 s)) r);
  loadstring_law : forall b s, (length (stack s) < limit s)%nat -> exists v,
    stack (snd (luaL_loadstring b s)) = stack s ++ [v] /\
    limit (snd (luaL_loadstring b s)) = limit s /\
    heap (snd (luaL_loadstring b s)) = heap s /\
    (fst (luaL_loadstring b s) = LUA_OK -> exists f, v = LFun f) /\
    (fst (luaL_loadstring b s) <> LUA_OK -> exists e, v = LStr e);
  (** A protected call of a function replaces it and its arguments by
      [nresults] results or by one error value, whatever it does to the heap. *)
  pcall_law : forall s st f args nresults msgh,
    stack s = st ++ f :: args -> 0 <= nresults -> (length st + Z.to_nat nresults <= limit s)%nat ->
    ((fst (lua_pcall (Z.of_nat (length args)) nresults msgh s) = LUA_OK /\
     exists rs, length rs = Z.to_nat nresults /\
       stack (snd (lua_pcall (Z.of_nat (length args)) nresults msgh s)) = st ++ rs) \/
     (fst (lua_pcall (Z.of_nat (length args)) nresults msgh s) <> LUA_OK /\
     exists e, stack (snd (lua_pcall (Z.of_nat (length args)) nresults msgh s)) = st ++ [e])) /\
    limit (snd (lua_pcall (Z.of_nat (length args)) nresults msgh s)) = limit s
}.

(** ** A concrete interpreter, for the witnesses

    A function value is a number; [behave] gives what it returns in a
    state, [None] when it raises.  Table 0 holds the globals.  No table has a metatable. *)
Module ScriptedLua.
Record state : Type := mkState {
  stk : list lvalue;
  tabs : list (list (bytes * lvalue));
  udata : list Z;
  clos : list (option Z);
  lim : nat
}.

Definition with_stk (st : list lvalue) (s : state) : state := mkState st (tabs s) (udata s) (clos s) (lim s).

Fixpoint assoc (k : bytes) (l : list (bytes * lvalue)) : lvalue :=
  match l with
  | [] => LNil
  | (k', v) :: l' => if bool_decide (k' = k) then v else assoc k l'
  end.

(** The content of a table: its fields, the latest first. *)
Definition field (ts : list (list (bytes * lvalue))) (r : Z) (k : bytes) : lvalue :=
  if r <? 0 then LNil else assoc k (default [] (ts !! Z.to_nat r)).

Definition exists_tab (ts : list (list (bytes * lvalue))) (r : Z) : Prop := 0 <= r < Z.of_nat (length ts).

Definition store (ts : list (list (bytes * lvalue))) (r : Z) (k : bytes) (v : lvalue) :=
  if r <? 0 then ts else alter (cons (k, v)) (Z.to_nat r) ts.

Definition push (v : lvalue) (s : state) : state := with_stk (stk s ++ [v]) s.
Definition top (st : list lvalue) : lvalue := default LNil (last st).
Definition cut (n : nat) (st : list lvalue) : list lvalue := take (length st - n) st.

Definition settop (i : Z) (s : state) : state :=
  with_stk (if 0 <=? i then take (Z.to_nat i) (stk s ++ replicate (Z.to_nat i) LNil)
            else take (Z.to_nat (Z.of_nat (length (stk s)) + i + 1)) (stk s)) s.

(** Only by one position and from a negative index. *)
Definition rotate (i n : Z) (s : state) : state :=
  let k := Z.to_nat (- i) in
  with_stk (cut k (stk s) ++ match rev (drop (length (stk s) - k) (stk s)) with
                             | v :: xs => v :: rev xs
                             | [] => []
                             end) s.

Definition tostring (i : Z) (s : state) : option bytes * state :=
  match value_at (stk s) i with
  | Some (LStr v) => (Some v, s)
  | Some (LInt z) =>
      let n := if 0 <? i then i - 1 else Z.of_nat (length (stk s)) + i in
      (Some (fmt_d z), with_stk (<[Z.to_nat n := LStr (fmt_d z)]> (stk s)) s)
  | _ => (None, s)
  end.

Definition len (i : Z) (s : state) : option state :=
  match value_at (stk s) i with
  | Some (LStr v) => Some (push (LInt (Z.of_nat (length v))) s)
  | Some (LTable _) => Some (push (LInt 0) s)
  | _ => None
  end.

Definition getfield (i : Z) (k : bytes) (s : state) : option state :=
  match value_at (stk s) i with Some (LTable r) => Some (push (field (tabs s) r k) s) | _ => None end.

Definition set_to (r : Z) (k : bytes) (v : lvalue) (n : nat) (s : state) : state :=
  mkState (cut n (stk s)) (store (tabs s) r k v) (udata s) (clos s) (lim s).

Definition setfield (i : Z) (k : bytes) (s : state) : option state :=
  match value_at (stk s) i with Some (LTable r) => Some (set_to r k (top (stk s)) 1 s) | _ => None end.

Definition key (v : lvalue) : bytes := match v with LStr k => k | _ => [] end.

Definition rawget (i : Z) (s : state) : state :=
  match value_at (stk s) i with
  | Some (LTable r) => with_stk (cut 1 (stk s) ++ [field (tabs s) r (key (top (stk s)))]) s
  | _ => s
  end.

Definition rawset (i : Z) (s : state) : state :=
  match value_at (stk s) i with
  | Some (LTable r) => set_to r (key (top (cut 1 (stk s)))) (top (stk s)) 2 s
  | _ => s
  end.

Definition newuserdata (f : Z) (s : state) : state :=
  mkState (stk s ++ [LUserdata (Z.of_nat (length (udata s)))]) (tabs s) (udata s ++ [f]) (clos s) (lim s).

Definition pushcclosure (f : c_function) (n : Z) (s : state) : state :=
  if n =? 0 then push (LFun match f with CF_LuaCall => 998 | CF_Log => 999 end) s else
  match top (stk s) with
  | LUserdata u => mkState (cut 1 (stk s) ++ [LFun (1000 + Z.of_nat (length (clos s)))]) (tabs s) (udata s)
                     (clos s ++ [udata s !! Z.to_nat u]) (lim s)
  | _ => s
  end.

Section Behave.
Variable behave : state -> Z -> list lvalue -> option (list lvalue).

Definition pcall (nargs nresults msgh : Z) (s : state) : Z * state :=
  let n := Z.to_nat nargs in
  let base := cut (S n) (stk s) in
  let err e := (2, with_stk (base ++ [LStr e]) s) in
  match stk s !! (length (stk s) - S n)%nat with
  | Some (LFun f) =>
      match behave s f (drop (length (stk s) - n) (stk s)) with
      | Some rs => (LUA_OK, with_stk (base ++ take (Z.to_nat nresults) (rs ++ replicate (Z.to_nat nresults) LNil)) s)
      | None => err (lit "raised")
      end
  | _ => err (lit "attempt to call a value")
  end.

#[export] Instance lib : Lua := {|
  lua_State := state;
  func_object := Z;
  luaL_newstate := mkState [] [[]] [] [] 20;
  luaL_openlibs := fun s => s;
  lua_gettop := fun s => Z.of_nat (length (stk s));
  lua_settop := settop;
  lua_rotate := rotate;
  lua_type := fun i s => match value_at (stk s) i with Some v => type_code v | None => LUA_TNONE end;
  lua_toboolean := fun i s =>
    match value_at (stk s) i with Some (LBool b) => b | Some LNil | None => false | _ => true end;
  lua_tointeger := fun i s => match value_at (stk s) i with Some (LInt z) => z | _ => 0 end;
  lua_tostring := tostring;
  lua_touserdata := fun i s => match value_at (stk s) i with Some (LLight p) => p | _ => 0 end;
  lua_upvalue := fun s => udata s !! 0%nat;
  lua_len := len;
  lua_pushboolean := fun b => push (LBool b);
  lua_pushinteger := fun z => push (LInt (s64 z));
  lua_pushstring := fun v => push (LStr v);
  lua_pushlightuserdata := fun p => push (LLight p);
  lua_createtable := fun _ _ s =>
    mkState (stk s ++ [LTable (Z.of_nat (length (tabs s)))]) (tabs s ++ [[]]) (udata s) (clos s) (lim s);
  lua_newuserdata := newuserdata;
  lua_pushcclosure := pushcclosure;
  lua_getglobal := fun k s => Some (push (field (tabs s) 0 k) s);
  lua_setglobal := fun k s => Some (set_to 0 k (top (stk s)) 1 s);
  lua_getfield := getfield;
  lua_setfield := setfield;
  lua_rawget := rawget;
  lua_rawset := rawset;
  luaL_loadstring := fun b s => (LUA_OK, push (LFun 0) s);
  lua_pcall := pcall
|}.

(** The laws. *)

Lemma cut_app st xs : cut (length xs) (st ++ xs) = st.
Proof. unfold cut. rewrite length_app. replace (_ - _)%nat with (length st) by lia. apply take_app_length. Qed.

Lemma cut_1 st v : cut 1 (st ++ [v]) = st.
Proof. apply (cut_app st [v]). Qed.

Lemma cut_2 st a b : cut 2 (st ++ [a; b]) = st.
Proof. apply (cut_app st [a; b]). Qed.

Lemma top_app st v : top (st ++ [v]) = v.
Proof. unfold top. by rewrite last_snoc. Qed.

Lemma field_store_eq ts r k v : exists_tab ts r -> field (store ts r k v) r k = v.
Proof.
  intros [H1 H2]. unfold field, store. destruct (Z.ltb_spec r 0); [lia|].
  destruct (lookup_lt_is_Some_2 ts (Z.to_nat r)) as [t Ht]; [lia|].
  rewrite (list_lookup_alter_eq (cons (k, v)) ts (Z.to_nat r)), Ht. cbn. by rewrite bool_decide_eq_true_2.
Qed.

Lemma field_store_ne ts r k v r' k' : (r', k') <> (r, k) -> field (store ts r k v) r' k' = field ts r' k'.
Proof.
  intros Hne. unfold field, store. destruct (Z.ltb_spec r' 0), (Z.ltb_spec r 0); try done.
  destruct (decide (r' = r)) as [->|Hr].
  - rewrite (list_lookup_alter_eq (cons (k, v)) ts (Z.to_nat r)). destruct (ts !! Z.to_nat r) as [t|]; [|done]. cbn.
    rewrite bool_decide_eq_false_2; [done|]. intros ->. by apply Hne.
  - rewrite list_lookup_alter_ne; [done|]. intros E. apply Hr. lia.
Qed.

Lemma store_exists ts r k v r' : exists_tab ts r' -> exists_tab (store ts r k v) r'.
Proof. unfold exists_tab, store. destruct (r <? 0); [done|]. by rewrite length_alter. Qed.

Lemma rotate_app s st xs v : stk s = st ++ xs ++ [v] ->
  rotate (- Z.of_nat (length xs) - 1) 1 s = with_stk (st ++ v :: xs) s.
Proof.
  intros Hs. unfold rotate. rewrite Hs.
  replace (Z.to_nat (- (- Z.of_nat (length xs) - 1))) with (length (xs ++ [v])) by (rewrite length_app; cbn; lia).
  rewrite cut_app, length_app. replace (length st + length (xs ++ [v]) - length (xs ++ [v]))%nat with (length st) by lia.
  rewrite drop_app_length, rev_app_distr. cbn [rev app]. by rewrite rev_involutive.
Qed.

Lemma pcall_call s st f args nresults msgh : stk s = st ++ LFun f :: args ->
  pcall (Z.of_nat (length args)) nresults msgh s =
    match behave s f args with
    | Some rs => (LUA_OK, with_stk (st ++ take (Z.to_nat nresults) (rs ++ replicate (Z.to_nat nresults) LNil)) s)
    | None => (2, with_stk (st ++ [LStr (lit "raised")]) s)
    end.
Proof.
  intros Hs. unfold pcall. rewrite Nat2Z.id, Hs.
  change (S (length args)) with (length (LFun f :: args)). rewrite cut_app, length_app.
  replace (length st + length (LFun f :: args) - length (LFun f :: args))%nat with (length st) by lia.
  rewrite list_lookup_middle by done. cbn [length].
  replace (length st + S (length args) - length args)%nat with (length st + 1)%nat by lia.
  by rewrite drop_app_add.
Qed.

Lemma pcall_shape s st f args nresults msgh : stk s = st ++ f :: args -> 0 <= nresults ->
  ((fst (pcall (Z.of_nat (length args)) nresults msgh s) = LUA_OK /\
   exists rs, length rs = Z.to_nat nresults /\
     stk (snd (pcall (Z.of_nat (length args)) nresults msgh s)) = st ++ rs) \/
   (fst (pcall (Z.of_nat (length args)) nresults msgh s) <> LUA_OK /\
   exists e, stk (snd (pcall (Z.of_nat (length args)) nresults msgh s)) = st ++ [e])) /\
  lim (snd (pcall (Z.of_nat (length args)) nresults msgh s)) = lim s.
Proof.
  intros Hs Hn. unfold pcall. rewrite Nat2Z.id, Hs.
  change (S (length args)) with (length (f :: args)). rewrite cut_app, length_app.
  replace (length st + length (f :: args) - length (f :: args))%nat with (length st) by lia.
  rewrite list_lookup_middle by done. cbn [length].
  replace (length st + S (length args) - length args)%nat with (length st + 1)%nat by lia.
  rewrite drop_app_add. change (drop 1 (f :: args)) with args.
  assert (Herr : 2 <> LUA_OK) by (unfold LUA_OK; lia).
  destruct f as [|b|z|z|v|z|z|fid|z|z]; try (split; [right|done]; split; [exact Herr|]; eexists; reflexivity).
  destruct (behave s fid args) as [rs|]; cbn [fst snd]; (split; [|reflexivity]).
  - left. split; [done|]. eexists. split; [|reflexivity].
    rewrite length_take, length_app, length_replicate. lia.
  - right. split; [exact Herr|]. eexists. reflexivity.
Qed.

#[export] Instance laws : LuaLaws lib.
Proof.
  refine {|
    stack := stk : @lua_State lib -> list lvalue;
    limit := lim : @lua_State lib -> nat;
    lheap := (list (list (bytes * lvalue)) * list Z * list (option Z))%type;
    heap := (fun s => (tabs s, udata s, clos s)) : @lua_State lib -> _;
    tab := (fun h => field (fst (fst h)));
    GLOBALS := 0;
    plain := (fun h => exists_tab (fst (fst h)));
    held := (fun h u => snd (fst h) !! Z.to_nat u);
    upval := (fun h c => if c <? 1000 then None else default None (snd h !! Z.to_nat (c - 1000))) |}; cbn -[Z.sub Z.opp rotate pcall field store exists_tab].
  - done.
  - done.
  - intros i s b Hv. by rewrite Hv.
  - intros i s z Hv. by rewrite Hv.
  - intros i s p Hv. by rewrite Hv.
  - intros i s v Hv. unfold tostring. by rewrite Hv.
  - intros s st v Hs. unfold tostring.
    destruct (value_at (stk s) (-1)) as [[]|]; cbn [snd]; try (exists v; by rewrite Hs).
    exists (LStr (fmt_d z)). cbn [with_stk stk tabs udata clos lim]. split; [|done].
    change (0 <? -1) with false. cbv iota. rewrite Hs, length_app. cbn [length].
    replace (Z.to_nat _) with (length st + 0)%nat by lia. by rewrite insert_app_r.
  - intros s st xs Hs. split; [|done]. unfold settop. cbn.
    destruct (Z.leb_spec 0 (- Z.of_nat (length xs) - 1)); [lia|]. rewrite Hs, length_app.
    replace (Z.to_nat _) with (length st) by lia. apply take_app_length.
  - intros s st xs v Hs. by rewrite (rotate_app s st xs v Hs).
  - done.
  - intros i s v Hv _. unfold len. rewrite Hv. by eexists.
  - intros n k s _. eexists. split_and!; try done.
    + unfold exists_tab. cbn. lia.
    + unfold exists_tab. cbn. rewrite length_app. cbn. lia.
    + unfold exists_tab. cbn. intros r' Hr. rewrite length_app. cbn. split; [lia|].
      intros f. unfold field. destruct (Z.ltb_spec r' 0); [done|]. by rewrite lookup_app_l by lia.
  - intros k s _ _. by eexists.
  - intros i r k s Hv _ _. unfold getfield. rewrite Hv. by eexists.
  - intros i r k s st v Hs Hv Hp. unfold setfield. rewrite Hv. eexists. split; [done|]. cbn.
    rewrite Hs, cut_1, top_app. split_and!; try done.
    + by apply field_store_eq.
    + intros r' k'. apply field_store_ne.
    + intros r'. apply store_exists.
  - intros i r k s st Hs Hv. unfold rawget. rewrite Hv. cbn. by rewrite Hs, cut_1, top_app.
  - intros i r k s st v Hs Hv Hp. unfold rawset. rewrite Hv. cbn.
    assert (Hc : cut 1 (stk s) = st ++ [LStr k]).
    { rewrite Hs. change [LStr k; v] with ([LStr k] ++ [v]). rewrite app_assoc. apply cut_1. }
    assert (Ht : top (stk s) = v).
    { rewrite Hs. change [LStr k; v] with ([LStr k] ++ [v]). rewrite app_assoc. apply top_app. }
    rewrite Hc, Ht, Hs, cut_2, top_app. cbn [key]. split_and!; try done.
    + by apply field_store_eq.
    + intros r' k'. apply field_store_ne.
    + intros r'. apply store_exists.
  - intros f s _. eexists. split_and!; try done.
    unfold newuserdata. cbn. by rewrite Nat2Z.id, list_lookup_middle.
  - intros f s _. by eexists.
  - intros k s st v Hs Hp. eexists. split; [done|]. unfold set_to. cbn [stk tabs udata clos lim fst].
    rewrite Hs, cut_1, top_app. split_and!; try done.
    + by apply field_store_eq.
    + intros r' k'. apply field_store_ne.
    + intros r'. apply store_exists.
  - intros f s st u Hs. unfold pushcclosure. cbn [Z.eqb]. rewrite Hs, top_app, cut_1.
    eexists. cbn -[Z.sub Z.add Z.ltb]. split_and!; try done.
    1: destruct (Z.ltb_spec (1000 + Z.of_nat (length (clos s))) 1000); [lia|].
    + replace (Z.to_nat _) with (length (clos s)) by lia. by rewrite list_lookup_middle.
    + intros c' g. destruct (c' <? 1000); [done|].
      destruct (clos s !! Z.to_nat (c' - 1000)) eqn:E; [|done]. rewrite lookup_app_l, E; [done|].
      by apply lookup_lt_Some in E.
  - intros b s _. eexists. split_and!; try done. intros _. by eexists.
  - intros s st f args n msgh Hs Hn _. by apply (pcall_shape s st f).
Defined.
End Behave.
End ScriptedLua.

#[export] Existing Instances ScriptedLua.laws.
