(* ===== verification/LuaInterchange.v ===== *)
(** * Data streams between C++ and Lua (ScriptEngine/LuaInterchange.h, .cpp)

    An output stream pushes values and counts them; an input stream reads
    values of the stack from [_start + 1] on.  The state the methods change is
    the Lua state; a stream is an argument and a component of the result. *)
From Stdlib Require Import ZArith Lia Ascii.
From stdpp Require Import base numbers list list_numbers strings.
From S2P Require Import Prelude Kernel LuaApi.
Open Scope Z_scope.

Definition PTR_INDEX : bytes := lit "ptr".
Definition TYPE_INDEX : bytes := lit "type".
Definition CALL_FUNCTION : bytes := lit "call".

(** [ScriptEngine.h]: the results a script call is asked for. *)
Definition LUA_RESULT_COUNT : Z := 8.

Record LuaInputStream : Type := mkInput {
  _index : Z;
  _start : Z;
  _count : Z
}.

(** The number of values written. *)
Record LuaOutputStream : Type := mkOutput { _ocount : Z }.

Section Streams.
Context {L : Lua} {BB : Build}.

(** The Lua state changed by a call that cannot raise, and by one that can. *)
Definition lua_do (f : lua_State -> lua_State) : M lua_State () := mmodify f.
Definition lua_try (f : lua_State -> option lua_State) : M lua_State () :=
  s ← mget;
  s' ← mlift (of_option LuaRaised (f s));
  mput s'.

(** ** LuaInputStream *)

(** The [for] loop of the constructor, from [i]. *)
Fixpoint count_loop (n : nat) (i : Z) (s : lua_State) : Z :=
  match n with
  | O => 0
  | S n' => if lua_isnil (- LUA_RESULT_COUNT + i) s then 0 else 1 + count_loop n' (i + 1) s
  end.

Definition LuaInputStream_new (callStack : bool) : M lua_State LuaInputStream :=
  s ← mget;
  mret (if callStack
        then mkInput 0 (lua_gettop s - LUA_RESULT_COUNT) (count_loop (Z.to_nat LUA_RESULT_COUNT) 0 s)
        else mkInput 0 0 (lua_gettop s)).

Definition advance (i : LuaInputStream) : LuaInputStream := mkInput (_index i + 1) (_start i) (_count i).

Definition ReadBool (i : LuaInputStream) (val : bool) : M lua_State (LuaInputStream * bool) :=
  mlift (ASSERT (_index i <? _count i));;
  if _index i <? _count i then
    s ← mget;
    mret (advance i, lua_toboolean (_index i + 1 + _start i) s)
  else mret (i, val).

(** The body of the four integer readers: the value is cast to the width. *)
Definition read_integer (cast : Z -> Z) (i : LuaInputStream) (val : Z) : M lua_State (LuaInputStream * Z) :=
  mlift (ASSERT (_index i <? _count i));;
  if _index i <? _count i then
    s ← mget;
    mret (advance i, cast (lua_tointeger (_index i + 1 + _start i) s))
  else mret (i, val).

Definition ReadInt8 := read_integer s8.
Definition ReadInt16 := read_integer s16.
Definition ReadInt32 := read_integer s32.
Definition ReadInt64 := read_integer (fun tmp => tmp).

(** [val[len]] of a string of Lua, which has a NUL behind its last byte. *)
Definition char_at (val : bytes) (len : Z) : outcome ascii :=
  if len <? 0 then Fault OutOfBounds else of_option OutOfBounds ((val ++ [NUL]) !! Z.to_nat len).

(** The two assertions of [ReadStr]: their expressions are not evaluated in a
    release build. *)
Definition check_str (val : option bytes) (len : Z) : outcome () :=
  if ndebug then Ok tt else
  v ← of_option NullPointer val;
  c ← char_at v len;
  ASSERT (bool_decide (c = NUL));;
  ASSERT (strlen v <=? len).

Definition ReadStr (i : LuaInputStream) (val : option bytes)
    : M lua_State (LuaInputStream * option bytes) :=
  mlift (ASSERT (_index i <? _count i));;
  if _index i <? _count i then
    s ← mget;
    let '(val, s') := lua_tostring (_index i + 1 + _start i) s in
    mput s';;
    lua_try (lua_len (_index i + 1 + _start i));;
    s ← mget;
    let len := lua_tointeger (-1) s in
    lua_do (lua_pop 1);;
    mlift (check_str val len);;
    mret (advance i, val)
  else mret (i, val).

Definition ReadBlob (i : LuaInputStream) (val : option bytes) (size : Z)
    : M lua_State (LuaInputStream * option bytes * Z) :=
  mlift (ASSERT false);;
  mret (i, val, size).

(** Pointers are addresses, 0 for [nullptr]. *)
Definition ReadPtr (i : LuaInputStream) (val : Z) (type : bytes) : M lua_State (LuaInputStream * Z) :=
  mlift (ASSERT (_index i <? _count i));;
  if _index i <? _count i then
    s ← mget;
    mlift (ASSERT (lua_istable (_index i + 1 + _start i) s));;
    lua_try (lua_getfield (_index i + 1 + _start i) PTR_INDEX);;
    s ← mget;
    let ptr := lua_touserdata (-1) s in
    lua_do (lua_pop 1);;
    lua_try (lua_getfield (_index i + 1 + _start i) TYPE_INDEX);;
    s ← mget;
    let '(luaType, s') := lua_tostring (-1) s in
    mput s';;
    lua_do (lua_pop 1);;
    t ← mlift (of_option NullPointer luaType);
    if negb (bool_decide (cstr t = cstr type)) || bool_decide (cstr type = [])
    then mlift (ASSERT false);; mret (advance i, val)
    else mret (advance i, ptr)
  else mret (i, val).

Definition Reset (i : LuaInputStream) : LuaInputStream := mkInput 0 (_start i) (_count i).
Definition GetCount (i : LuaInputStream) : Z := _count i.

(** ** LuaOutputStream *)

Definition LuaOutputStream_new : LuaOutputStream := mkOutput 0.
Definition Count (o : LuaOutputStream) : Z := _ocount o.
Definition OReset (o : LuaOutputStream) : LuaOutputStream := mkOutput 0.
Definition counted (o : LuaOutputStream) : LuaOutputStream := mkOutput (s32 (_ocount o + 1)).

Definition WriteBool (o : LuaOutputStream) (val : bool) : M lua_State LuaOutputStream :=
  lua_do (lua_pushboolean val);; mret (counted o).

Definition WriteInt8 (o : LuaOutputStream) (val : Z) : M lua_State LuaOutputStream :=
  lua_do (lua_pushinteger val);; mret (counted o).
Definition WriteInt16 (o : LuaOutputStream) (val : Z) : M lua_State LuaOutputStream :=
  lua_do (lua_pushinteger val);; mret (counted o).
Definition WriteInt32 (o : LuaOutputStream) (val : Z) : M lua_State LuaOutputStream :=
  lua_do (lua_pushinteger val);; mret (counted o).
Definition WriteInt64 (o : LuaOutputStream) (val : Z) : M lua_State LuaOutputStream :=
  lua_do (lua_pushinteger val);; mret (counted o).

Definition WriteStr (o : LuaOutputStream) (val : bytes) : M lua_State LuaOutputStream :=
  lua_do (lua_pushstring (cstr val));; mret (counted o).

Definition WriteBlob (o : LuaOutputStream) (val : bytes) (size : Z) : M lua_State LuaOutputStream :=
  mlift (ASSERT false);; mret o.

Definition WritePtr (o : LuaOutputStream) (val : Z) (type : bytes) : M lua_State LuaOutputStream :=
  lua_do (lua_createtable 0 2);;
  lua_do (lua_pushlightuserdata val);;
  lua_try (lua_setfield (-2) PTR_INDEX);;
  lua_do (lua_pushstring (cstr type));;
  lua_try (lua_setfield (-2) TYPE_INDEX);;
  mret (counted o).

(** ** LuaInterchangeCaller: what [PreCall] leaves in its stream. *)
Definition PreCall (module func : bytes) : M lua_State LuaOutputStream :=
  let input := OReset LuaOutputStream_new in
  input ← WriteStr input module;
  WriteStr input func.
End Streams.

(** ** Properties *)

(** A value of the interface, written and read. *)
Inductive datum : Type :=
  | DBool (b : bool)
  | DInt8 (z : Z)
  | DInt16 (z : Z)
  | DInt32 (z : Z)
  | DInt64 (z : Z)
  | DStr (s : bytes)
  | DPtr (p : Z) (type : bytes).

Definition datum_ok (d : datum) : Prop :=
  match d with
  | DBool _ => True
  | DInt8 z => is_s8 z
  | DInt16 z => - 2 ^ 15 <= z < 2 ^ 15
  | DInt32 z => is_s32 z
  | DInt64 z => is_s64 z
  | DStr s => no_nul s
  | DPtr _ ty => no_nul ty /\ ty <> []
  end.

Section StreamProps.
Context {L : Lua} {LL : LuaLaws L} {BB : Build}.

(** The writer and the reader of a value; the reader starts from variables
    that hold something else. *)
Definition write_datum (o : LuaOutputStream) (d : datum) : M lua_State LuaOutputStream :=
  match d with
  | DBool b => WriteBool o b
  | DInt8 z => WriteInt8 o z
  | DInt16 z => WriteInt16 o z
  | DInt32 z => WriteInt32 o z
  | DInt64 z => WriteInt64 o z
  | DStr s => WriteStr o s
  | DPtr p ty => WritePtr o p ty
  end.

Definition read_datum (i : LuaInputStream) (d : datum) : M lua_State (LuaInputStream * datum) :=
  match d with
  | DBool _ => '(i, v) ← ReadBool i false; mret (i, DBool v)
  | DInt8 _ => '(i, v) ← ReadInt8 i 0; mret (i, DInt8 v)
  | DInt16 _ => '(i, v) ← ReadInt16 i 0; mret (i, DInt16 v)
  | DInt32 _ => '(i, v) ← ReadInt32 i 0; mret (i, DInt32 v)
  | DInt64 _ => '(i, v) ← ReadInt64 i 0; mret (i, DInt64 v)
  | DStr _ => '(i, v) ← ReadStr i None; mret (i, DStr (default [] v))
  | DPtr _ ty => '(i, v) ← ReadPtr i 0 ty; mret (i, DPtr v ty)
  end.

Fixpoint write_all (o : LuaOutputStream) (ds : list datum) : M lua_State LuaOutputStream :=
  match ds with
  | [] => mret o
  | d :: ds' => o ← write_datum o d; write_all o ds'
  end.

Fixpoint read_all (i : LuaInputStream) (ds : list datum) : M lua_State (LuaInputStream * list datum) :=
  match ds with
  | [] => mret (i, [])
  | d :: ds' => '(i, v) ← read_datum i d; '(i, vs) ← read_all i ds'; mret (i, v :: vs)
  end.

(** How a Lua value holds a datum. *)
Definition holds (h : lheap) (d : datum) (v : lvalue) : Prop :=
  match d with
  | DBool b => v = LBool b
  | DInt8 z | DInt16 z | DInt32 z | DInt64 z => v = LInt z
  | DStr s => v = LStr s
  | DPtr p ty => exists r, v = LTable r /\ plain h r /\ tab h r PTR_INDEX = LLight p /\
      tab h r TYPE_INDEX = LStr ty
  end.

(** The tables of [h] are in [h'] with their fields. *)
Definition heap_ext (h h' : lheap) : Prop :=
  forall r, plain h r -> plain h' r /\ forall f, tab h' r f = tab h r f.

#[export] Instance heap_ext_preorder : PreOrder heap_ext.
Proof.
  split; [by split|]. intros h1 h2 h3 H12 H23 r Hr. destruct (H12 r Hr) as [Hr2 E2].
  destruct (H23 r Hr2) as [Hr3 E3]. split; [done|]. intros f. by rewrite E3.
Qed.

Lemma holds_ext h h' d v : heap_ext h h' -> holds h d v -> holds h' d v.
Proof.
  intros He. destruct d; try done. cbn. intros (r & -> & Hr & E1 & E2).
  destruct (He r Hr) as [Hr' E]. exists r. by rewrite !E.
Qed.

(** *** Indices *)

Lemma value_at_pos st v xs : value_at (st ++ v :: xs) (Z.of_nat (length st) + 1) = Some v.
Proof.
  unfold value_at. destruct (Z.ltb_spec 0 (Z.of_nat (length st) + 1)); [|lia].
  replace (Z.to_nat _) with (length st) by lia. by rewrite list_lookup_middle.
Qed.

Lemma value_at_neg st v xs i : i = - Z.of_nat (length xs) - 1 -> value_at (st ++ v :: xs) i = Some v.
Proof.
  intros ->. unfold value_at. rewrite length_app. cbn [length].
  destruct (Z.ltb_spec 0 (- Z.of_nat (length xs) - 1)); [lia|].
  destruct (Z.ltb_spec (- Z.of_nat (length xs) - 1) 0); [|lia]. cbn [andb].
  destruct (Z.leb_spec 0 (Z.of_nat (length st + S (length xs)) + (- Z.of_nat (length xs) - 1))); [|lia].
  replace (Z.to_nat _) with (length st) by lia. by rewrite list_lookup_middle.
Qed.

Lemma value_at_app st v xs ys : value_at ((st ++ v :: xs) ++ ys) (Z.of_nat (length st) + 1) = Some v.
Proof. rewrite <- app_assoc. apply value_at_pos. Qed.

(** Popping what was pushed. *)
Lemma pop_law s st xs n : stack s = st ++ xs -> n = Z.of_nat (length xs) ->
  stack (lua_pop n s) = st /\ heap (lua_pop n s) = heap s /\ limit (lua_pop n s) = limit s.
Proof. intros H ->. unfold lua_pop. by apply settop_law. Qed.

Lemma lua_try_ok f s s' : f s = Some s' -> lua_try f s = Ok (tt, s').
Proof. intros H. unfold lua_try, mget, mlift, mput, mbind, M_bind, outcome_bind. by rewrite H. Qed.

(** A table in the field of which a value is stored. *)
Lemma setfield_top s st r v k : stack s = st ++ [LTable r; v] -> plain (heap s) r -> exists s',
  lua_try (lua_setfield (-2) k) s = Ok (tt, s') /\ stack s' = st ++ [LTable r] /\ limit s' = limit s /\
  tab (heap s') r k = v /\ (forall r' k', (r', k') <> (r, k) -> tab (heap s') r' k' = tab (heap s) r' k') /\
  (forall r', plain (heap s) r' -> plain (heap s') r').
Proof.
  intros Hs Hp. destruct (setfield_law (-2) r k s (st ++ [LTable r]) v) as (s' & E & H1 & H2 & H3 & H4 & H5).
  - by rewrite Hs, <- app_assoc.
  - rewrite Hs. by apply (value_at_neg st (LTable r) [v]).
  - done.
  - exists s'. split; [by apply lua_try_ok|]. done.
Qed.
(** *** Writing and reading one value *)

Lemma write_ptr_ok o p ty s : no_nul ty -> (length (stack s) + 2 <= limit s)%nat ->
  exists s' v, WritePtr o p ty s = Ok (counted o, s') /\ stack s' = stack s ++ [v] /\
    holds (heap s') (DPtr p ty) v /\ heap_ext (heap s) (heap s') /\ limit s' = limit s.
Proof.
  intros Hty Hroom. unfold WritePtr. rewrite (cstr_id _ Hty).
  destruct (createtable_law 0 2 s ltac:(lia)) as (r & S1 & L1 & F1 & P1 & _ & K1).
  rewrite (M_bind_Ok _ _ s tt (lua_createtable 0 2 s)) by done.
  set (s1 := lua_createtable 0 2 s) in *.
  assert (R1 : (length (stack s1) < limit s1)%nat) by (rewrite S1, L1, length_app; cbn; lia).
  destruct (pushes_law s1 R1) as (_ & _ & _ & Hp). destruct (Hp p) as (S2 & H2 & L2).
  rewrite (M_bind_Ok _ _ s1 tt (lua_pushlightuserdata p s1)) by done. set (s2 := lua_pushlightuserdata p s1) in *.
  rewrite S1, <- app_assoc in S2.
  destruct (setfield_top s2 (stack s) r (LLight p) PTR_INDEX S2 ltac:(by rewrite H2))
    as (s3 & E3 & S3 & L3 & T3 & O3 & P3).
  rewrite (M_bind_Ok _ _ _ _ _ E3).
  assert (R3 : (length (stack s3) < limit s3)%nat) by (rewrite S3, L3, L2, L1, length_app; cbn; lia).
  destruct (pushes_law s3 R3) as (_ & _ & Hs & _). destruct (Hs ty) as (S4 & H4 & L4).
  rewrite (M_bind_Ok _ _ s3 tt (lua_pushstring ty s3)) by done. set (s4 := lua_pushstring ty s3) in *.
  rewrite S3, <- app_assoc in S4.
  assert (Pr : plain (heap s4) r) by (rewrite H4; apply P3; by rewrite H2).
  destruct (setfield_top s4 (stack s) r (LStr ty) TYPE_INDEX S4 Pr) as (s5 & E5 & S5 & L5 & T5 & O5 & P5).
  rewrite (M_bind_Ok _ _ _ _ _ E5). exists s5, (LTable r). split_and!; [done|done| | |congruence].
  - exists r. split_and!; [done|by apply P5| |done]. rewrite O5 by done. by rewrite H4.
  - intros r' Hr'. destruct (K1 r' Hr') as [Hp1 Hf1].
    assert (Hne : r' <> r) by (intros ->; done). split.
    + apply P5. rewrite H4. apply P3. by rewrite H2.
    + intros f. rewrite O5 by congruence. rewrite H4, O3 by congruence. by rewrite H2, Hf1.
Qed.

Lemma write_datum_ok o d s : datum_ok d -> (length (stack s) + 2 <= limit s)%nat ->
  exists s' v, write_datum o d s = Ok (counted o, s') /\ stack s' = stack s ++ [v] /\
    holds (heap s') d v /\ heap_ext (heap s) (heap s') /\ limit s' = limit s.
Proof.
  intros Hd Hroom. destruct (pushes_law s ltac:(lia)) as (Pb & Pi & Ps & _).
  assert (Hint : forall z, is_s64 z -> exists s' v,
    (lua_do (lua_pushinteger z);; mret (counted o)) s = Ok (counted o, s') /\ stack s' = stack s ++ [v] /\
    v = LInt z /\ heap_ext (heap s) (heap s') /\ limit s' = limit s).
  { intros z Hz. destruct (Pi z) as (S1 & H1 & L1). exists (lua_pushinteger z s), (LInt z).
    rewrite S1, H1, (s64_small z Hz). by split_and!. }
  destruct d; cbn [write_datum datum_ok holds] in *; unfold is_s64, is_s32, is_s8 in *;
    try (apply Hint; lia).
  - destruct (Pb b) as (S1 & H1 & L1). exists (lua_pushboolean b s), (LBool b). rewrite S1, H1. by split_and!.
  - destruct (Ps s0) as (S1 & H1 & L1). exists (lua_pushstring s0 s), (LStr s0).
    unfold WriteStr. rewrite (cstr_id _ Hd). rewrite S1, H1. by split_and!.
  - destruct Hd. by apply write_ptr_ok.
Qed.

(** The value under the cursor. *)
Definition at_cursor (i : LuaInputStream) (st : list lvalue) : Prop :=
  _index i + _start i = Z.of_nat (length st) /\ _index i < _count i.

Lemma check_str_ok v : no_nul v -> check_str (Some v) (Z.of_nat (length v)) = Ok tt.
Proof.
  intros Hv. unfold check_str. destruct ndebug eqn:E; [done|]. cbn [of_option mbind outcome_bind].
  unfold char_at, strlen, ASSERT. rewrite E, (cstr_id _ Hv), Z.leb_refl.
  destruct (Z.ltb_spec (Z.of_nat (length v)) 0); [lia|]. by rewrite Nat2Z.id, list_lookup_middle.
Qed.

Lemma ReadStr_ok i val s st v xs : stack s = st ++ LStr v :: xs -> no_nul v -> at_cursor i st ->
  (length (stack s) < limit s)%nat -> exists s',
  ReadStr i val s = Ok ((advance i, Some v), s') /\ stack s' = stack s /\ heap s' = heap s /\ limit s' = limit s.
Proof.
  intros Hs Hv [Hi Hc] Hroom. unfold ReadStr, ASSERT. rewrite (proj2 (Z.ltb_lt _ _) Hc). cbn [orb].
  replace (_index i + 1 + _start i) with (Z.of_nat (length st) + 1) by lia.
  assert (Hat : value_at (stack s) (Z.of_nat (length st) + 1) = Some (LStr v)) by (rewrite Hs; apply value_at_pos).
  rewrite (M_bind_Ok _ _ s tt s), (M_bind_Ok _ _ s s s), (tostring_law _ _ _ Hat) by done.
  rewrite (M_bind_Ok _ _ s tt s) by done.
  destruct (len_law _ _ _ Hat Hroom) as (s1 & E1 & S1 & H1 & L1).
  rewrite (M_bind_Ok _ _ s tt s1), (M_bind_Ok _ _ s1 s1 s1) by (done || by apply lua_try_ok).
  rewrite (tointeger_law (-1) s1 (Z.of_nat (length v))) by (rewrite S1; by apply value_at_neg).
  destruct (pop_law s1 (stack s) [_] 1 S1 eq_refl) as (S2 & H2 & L2).
  rewrite (M_bind_Ok _ _ s1 tt (lua_pop 1 s1)) by done.
  rewrite (M_bind_Ok _ _ _ tt (lua_pop 1 s1)) by (unfold mlift; by rewrite check_str_ok).
  exists (lua_pop 1 s1). split; [done|]. rewrite S2, H2, L2, H1, L1. done.
Qed.

(** One field of the table under the cursor, pushed, looked at and popped. *)
Lemma getfield_pop s i r k : value_at (stack s) i = Some (LTable r) -> plain (heap s) r ->
  (length (stack s) < limit s)%nat -> exists s1, lua_try (lua_getfield i k) s = Ok (tt, s1) /\
    stack s1 = stack s ++ [tab (heap s) r k] /\ value_at (stack s1) (-1) = Some (tab (heap s) r k) /\
    stack (lua_pop 1 s1) = stack s /\ heap (lua_pop 1 s1) = heap s /\ limit (lua_pop 1 s1) = limit s.
Proof.
  intros Hat Hp Hroom. destruct (getfield_law _ _ k _ Hat Hp Hroom) as (s1 & E & S1 & H1 & L1).
  destruct (pop_law s1 _ [_] 1 S1 eq_refl) as (S2 & H2 & L2).
  exists s1. split; [by apply lua_try_ok|]. rewrite S1, S2, H2, L2, H1, L1. split_and!; try done.
  by apply value_at_neg.
Qed.

Lemma ReadPtr_ok i val s st p ty v xs : stack s = st ++ v :: xs -> holds (heap s) (DPtr p ty) v ->
  no_nul ty -> ty <> [] -> at_cursor i st -> (length (stack s) < limit s)%nat -> exists s',
  ReadPtr i val ty s = Ok ((advance i, p), s') /\ stack s' = stack s /\ heap s' = heap s /\ limit s' = limit s.
Proof.
  intros Hs (r & -> & Hp & Fp & Ft) Hty Hne [Hi Hc] Hroom. unfold ReadPtr, ASSERT.
  rewrite (proj2 (Z.ltb_lt _ _) Hc). cbn [orb].
  replace (_index i + 1 + _start i) with (Z.of_nat (length st) + 1) by lia.
  assert (Hat : value_at (stack s) (Z.of_nat (length st) + 1) = Some (LTable r)) by (rewrite Hs; apply value_at_pos).
  rewrite (M_bind_Ok _ _ s tt s), (M_bind_Ok _ _ s s s) by done.
  assert (Ht : lua_istable (Z.of_nat (length st) + 1) s = true) by (unfold lua_istable; by rewrite type_law, Hat).
  rewrite Ht, (M_bind_Ok _ _ s tt s) by done.
  destruct (getfield_pop s _ r PTR_INDEX Hat Hp Hroom) as (s1 & E1 & _ & V1 & S2 & H2 & L2).
  rewrite (M_bind_Ok _ _ _ _ _ E1), (M_bind_Ok _ _ s1 s1 s1) by done.
  rewrite (touserdata_law (-1) s1 p) by (by rewrite V1, Fp).
  set (s2 := lua_pop 1 s1) in *. rewrite (M_bind_Ok _ _ s1 tt s2) by done.
  destruct (getfield_pop s2 (Z.of_nat (length st) + 1) r TYPE_INDEX) as (s3 & E3 & _ & V3 & S4 & H4 & L4);
    [by rewrite S2|by rewrite H2|by rewrite S2, L2|].
  rewrite (M_bind_Ok _ _ _ _ _ E3), (M_bind_Ok _ _ s3 s3 s3) by done.
  rewrite H2, Ft in V3. rewrite (tostring_law _ _ _ V3).
  set (s4 := lua_pop 1 s3) in *.
  rewrite (M_bind_Ok _ _ s3 tt s3), (M_bind_Ok _ _ s3 tt s4), (M_bind_Ok _ _ s4 ty s4) by done.
  rewrite (cstr_id _ Hty), bool_decide_eq_true_2, (bool_decide_eq_false_2 (ty = [])) by done. cbn [negb orb].
  exists s4. split; [done|]. rewrite S4, H4, L4, S2, H2, L2. done.
Qed.

Lemma read_integer_ok cast i val s st z xs : stack s = st ++ LInt z :: xs -> at_cursor i st -> cast z = z ->
  read_integer cast i val s = Ok ((advance i, z), s).
Proof.
  intros Hs [Hi Hc] Hz. unfold read_integer, ASSERT. rewrite (proj2 (Z.ltb_lt _ _) Hc). cbn [orb].
  replace (_index i + 1 + _start i) with (Z.of_nat (length st) + 1) by lia.
  rewrite (M_bind_Ok _ _ s tt s), (M_bind_Ok _ _ s s s) by done.
  rewrite (tointeger_law _ s z) by (rewrite Hs; apply value_at_pos). by rewrite Hz.
Qed.

Lemma read_datum_ok i d s st v xs : stack s = st ++ v :: xs -> holds (heap s) d v -> datum_ok d ->
  at_cursor i st -> (length (stack s) < limit s)%nat -> exists s',
  read_datum i d s = Ok ((advance i, d), s') /\ stack s' = stack s /\ heap s' = heap s /\ limit s' = limit s.
Proof.
  intros Hs Hv Hd Hi Hroom. destruct d; cbn [holds datum_ok read_datum] in *; try subst v.
  - exists s. split; [|done]. unfold ReadBool, ASSERT. destruct Hi as [Hi Hc].
    rewrite (proj2 (Z.ltb_lt _ _) Hc). cbn [orb].
    replace (_index i + 1 + _start i) with (Z.of_nat (length st) + 1) by lia.
    unfold mget, mlift, mret, M_ret, mbind, M_bind, outcome_bind.
    by rewrite (toboolean_law _ s b) by (rewrite Hs; apply value_at_pos).
  - exists s. split; [|done]. unfold ReadInt8.
    by rewrite (M_bind_Ok _ _ _ _ _ (read_integer_ok s8 i 0 s st z xs Hs Hi (s8_small _ Hd))).
  - exists s. split; [|done]. unfold ReadInt16.
    by rewrite (M_bind_Ok _ _ _ _ _ (read_integer_ok s16 i 0 s st z xs Hs Hi (swrap_small 16 z eq_refl Hd))).
  - exists s. split; [|done]. unfold ReadInt32.
    by rewrite (M_bind_Ok _ _ _ _ _ (read_integer_ok s32 i 0 s st z xs Hs Hi (s32_small _ Hd))).
  - exists s. split; [|done]. unfold ReadInt64.
    by rewrite (M_bind_Ok _ _ _ _ _ (read_integer_ok (fun tmp => tmp) i 0 s st z xs Hs Hi eq_refl)).
  - destruct (ReadStr_ok i None s st _ xs Hs Hd Hi Hroom) as (s' & E & K). exists s'. split; [|done].
    by rewrite (M_bind_Ok _ _ _ _ _ E).
  - destruct Hd as [H1 H2]. destruct (ReadPtr_ok i 0 s st p type v xs Hs Hv H1 H2 Hi Hroom) as (s' & E & K).
    exists s'. split; [|done]. by rewrite (M_bind_Ok _ _ _ _ _ E).
Qed.

Lemma write_all_ok ds : forall o s, Forall datum_ok ds -> (length (stack s) + length ds + 1 <= limit s)%nat ->
  exists s' vs, write_all o ds s = Ok (Nat.iter (length ds) counted o, s') /\ stack s' = stack s ++ vs /\
    Forall2 (holds (heap s')) ds vs /\ heap_ext (heap s) (heap s') /\ limit s' = limit s.
Proof.
  induction ds as [|d ds IH]; intros o s Hd Hroom; cbn [write_all length Nat.iter] in *.
  { exists s, []. rewrite app_nil_r. by split_and!. }
  apply Forall_cons in Hd as [Hd Hds].
  destruct (write_datum_ok o d s Hd ltac:(lia)) as (s1 & v & E1 & S1 & V1 & X1 & L1).
  rewrite (M_bind_Ok _ _ _ _ _ E1).
  destruct (IH (counted o) s1 Hds) as (s2 & vs & E2 & S2 & V2 & X2 & L2); [rewrite S1, L1, length_app; cbn; lia|].
  exists s2, (v :: vs). rewrite E2, S2, S1, <- app_assoc, <- Nat.iter_succ_r. split_and!; try done; [|by etrans|congruence].
  constructor; [by eapply holds_ext|done].
Qed.

Lemma count_iter n o : Count (Nat.iter (S n) counted o) = s32 (Count o + Z.of_nat (S n)).
Proof.
  induction n as [|n IH]; [done|].
  change (Count (Nat.iter (S (S n)) counted o)) with (s32 (Count (Nat.iter (S n) counted o) + 1)).
  rewrite IH, s32_add_l. f_equal. lia.
Qed.

Lemma read_all_ok ds : forall vs i s st xs, Forall datum_ok ds -> stack s = st ++ vs ++ xs ->
  Forall2 (holds (heap s)) ds vs -> _index i + _start i = Z.of_nat (length st) ->
  _index i + Z.of_nat (length ds) <= _count i -> (length (stack s) < limit s)%nat -> exists s',
  read_all i ds s = Ok ((mkInput (_index i + Z.of_nat (length ds)) (_start i) (_count i), ds), s') /\
    stack s' = stack s /\ heap s' = heap s /\ limit s' = limit s.
Proof.
  induction ds as [|d ds IH]; intros vs i s st xs Hd Hs Hv Hi Hc Hroom; cbn [read_all length] in *.
  { exists s. split; [|done]. rewrite Z.add_0_r. by destruct i. }
  apply Forall_cons in Hd as [Hd Hds]. apply Forall2_cons_inv_l in Hv as (v & vs' & Hv & Hvs & ->).
  destruct (read_datum_ok i d s st v (vs' ++ xs)) as (s1 & E1 & S1 & H1 & L1); [done..|split; [done|lia]|done|].
  rewrite (M_bind_Ok _ _ _ _ _ E1).
  destruct (IH vs' (advance i) s1 (st ++ [v]) xs) as (s2 & E2 & S2 & H2 & L2); try done.
  - by rewrite S1, Hs, <- app_assoc.
  - by rewrite H1.
  - unfold advance. cbn [_index _start]. rewrite length_app. cbn [length]. lia.
  - unfold advance. cbn [_index _count]. lia.
  - by rewrite S1, L1.
  - exists s2. rewrite (M_bind_Ok _ _ _ _ _ E2). rewrite S2, H2, L2. split; [|done].
    unfold advance. cbn [_index _start _count].
    by replace (_index i + 1 + Z.of_nat (length ds)) with (_index i + Z.of_nat (S (length ds))) by lia.
Qed.

(** C36: Values written to an output stream are counted and pushed in order,
    and an input stream over them reads the same values back: every width of
    integer, booleans, strings without a NUL byte, and pointers with their type
    name (which go through a table with the fields [ptr] and [type]).  Reading
    leaves the stack, the heap and what was below the values as they were. *)
Theorem stream_roundtrip s ds : Forall datum_ok ds -> Z.of_nat (length ds) < 2 ^ 31 ->
  (length (stack s) + length ds + 1 <= limit s)%nat -> exists o s1 vs,
  write_all LuaOutputStream_new ds s = Ok (o, s1) /\ Count o = Z.of_nat (length ds) /\
  stack s1 = stack s ++ vs /\ length vs = length ds /\
  forall n, Z.of_nat (length ds) <= n -> exists s2,
  read_all (mkInput 0 (Z.of_nat (length (stack s))) n) ds s1 =
    Ok ((mkInput (Z.of_nat (length ds)) (Z.of_nat (length (stack s))) n, ds), s2) /\
  stack s2 = stack s1 /\ heap s2 = heap s1.
Proof.
  intros Hd Hlen Hroom. destruct (write_all_ok ds LuaOutputStream_new s Hd Hroom) as (s1 & vs & E1 & S1 & V1 & X1 & L1).
  pose proof (Forall2_length _ _ _ V1) as Hl.
  eexists _, s1, vs. split; [exact E1|]. split.
  { destruct (length ds) as [|n]; [done|]. rewrite count_iter.
    apply s32_small. unfold is_s32, Count, LuaOutputStream_new, _ocount. lia. }
  split_and!; [done|done|]. intros n Hn.
  destruct (read_all_ok ds vs (mkInput 0 (Z.of_nat (length (stack s))) n) s1 (stack s) [] Hd) as (s2 & E2 & S2 & H2 & _);
    [by rewrite app_nil_r|done|done|cbn; lia|rewrite S1, L1, length_app; lia|].
  exists s2. rewrite E2. cbn. done.
Qed.
End StreamProps.

(** A fresh state of the concrete interpreter. *)
Definition lua_start : ScriptedLua.state := ScriptedLua.mkState [] [[]] [] [] 20.

#[local] Instance release_build : Build := {| ndebug := true |}.

Lemma stream_roundtrip_witness :
  let ds := [DBool true; DInt8 (-5); DInt64 (2 ^ 40); DStr (lit "abc"); DPtr 4096 (lit "PlayerInfo")] in
  exists o s1 s2 i, @write_all (ScriptedLua.lib (fun _ _ _ => None)) LuaOutputStream_new ds lua_start =
    Ok (o, s1) /\ Count o = 5 /\
    @read_all (ScriptedLua.lib (fun _ _ _ => None)) release_build (mkInput 0 0 5) ds s1 = Ok ((i, ds), s2).
Proof.
  intros ds.
  destruct (@stream_roundtrip (ScriptedLua.lib (fun _ _ _ => None)) _ release_build lua_start ds)
    as (o & s1 & vs & E1 & Hc & _ & _ & H).
  - repeat constructor; done.
  - done.
  - cbn. lia.
  - destruct (H 5 ltac:(done)) as (s2 & E2 & _). exists o, s1, s2, (mkInput 5 0 5). done.
Defined.
