(* ===== verification/ScriptEngine.v ===== *)
(** * The script engine (ScriptEngine/ScriptEngine.h, ScriptEngine.cpp)

    Scripts run in one Lua state.  C++ calls a script function through the
    global Lua function [call], and scripts call C++ functions registered in a
    module table.  The state of every definition is the Lua state
    ([s_luaState]); a callback is a function over its stream, [None] for
    [nullptr]. *)
From Stdlib Require Import ZArith Lia Ascii.
From stdpp Require Import base numbers list list_numbers strings.
From S2P Require Import Prelude Kernel LuaApi LuaInterchange.
Open Scope Z_scope.

Definition PACKAGE : bytes := lit "package".
Definition PKG_PATH_INDEX : bytes := lit "path".
Definition PKG_MODULE_INDEX : bytes := lit "loaded".
Definition LUA_TRACE_NAME : bytes := lit "__G__TRACKBACK__".
Definition LINK_FILE_NAME : bytes := lit "link".

Section ScriptEngine.
Context {L : Lua} {BB : Build}.

Abbreviation LM := (M lua_State).

(** [std::function] types of IDataInterchange.h; a callback's result is what
    it leaves in the variables it captured. *)
Definition IDataCallBackFuncType (A : Type) : Type := option (LuaInputStream -> LM A).
Definition IDataOutputFuncType : Type := option (LuaOutputStream -> LM LuaOutputStream).
Definition IDataInterchangeFuncType : Type := LuaInputStream -> LuaOutputStream -> LM LuaOutputStream.

(** ** Calling a script *)

(** [argc] arguments on top of the function. *)
Definition ExecFunction {A} (argc : Z) (callback : IDataCallBackFuncType A) : LM (bool * option A) :=
  let findex := s8 (- (argc + 1)) in
  s ← mget;
  if negb (lua_isfunction findex s) then lua_do (lua_pop (- findex));; mret (false, None) else
  lua_try (lua_getglobal LUA_TRACE_NAME);;
  s ← mget;
  tarceIndex ← (if negb (lua_isfunction (-1) s) then lua_do (lua_pop 1);; mret 0
                else lua_do (lua_insert (findex - 1));; mret (findex - 1));
  s ← mget;
  let '(error, s') := lua_pcall argc LUA_RESULT_COUNT tarceIndex s in
  mput s';;
  if negb (error =? LUA_OK) then
    lua_do (fun s => snd (lua_tostring (-1) s));;
    lua_do (lua_pop (if tarceIndex =? 0 then 1 else 2));;
    mret (false, None)
  else
    ack ← LuaInputStream_new true;
    r ← (match callback with Some f => a ← f ack; mret (Some a) | None => mret None end);
    lua_do (lua_pop LUA_RESULT_COUNT);;
    mwhen (negb (tarceIndex =? 0)) (lua_do (lua_pop 1));;
    mret (true, r).

(** [argc] arguments are on the stack; the function is put below them. *)
Definition ExecGlobalFunction {A} (func : bytes) (argc : Z) (callback : IDataCallBackFuncType A)
    : LM (bool * option A) :=
  lua_try (lua_getglobal func);;
  s ← mget;
  if negb (lua_isfunction (-1) s) then
    mlift (ASSERT false);; lua_do (lua_pop 1);; mret (false, None)
  else
    mwhen (0 <? argc) (lua_do (lua_insert (- (argc + 1))));;
    ExecFunction argc callback.

(** [LuaInterchangeCaller::Call]: the count is passed as an [s8]. *)
Definition Call {A} (input : LuaOutputStream) (fun_ : IDataCallBackFuncType A) : LM (bool * option A) :=
  ExecGlobalFunction CALL_FUNCTION (s8 (Count input)) fun_.

Definition CallScriptFunc {A} (module func : bytes) (outPutFunc : IDataOutputFuncType)
    (callBackFun : IDataCallBackFuncType A) : LM (bool * option A) :=
  input ← PreCall module func;
  input ← (match outPutFunc with Some f => f input | None => mret input end);
  Call input callBackFun.

Definition ReloadScript (module : bytes) : LM () :=
  lua_do (lua_pushstring (cstr module));;
  ExecGlobalFunction (A := Z) (lit "reload") 1 None;;
  mret tt.

Definition CallPtfMod (modName : bytes) : LM () :=
  lua_do (lua_pushstring (cstr modName));;
  ExecGlobalFunction (A := Z) (lit "ptfmod") 1 None;;
  mret tt.

(** ** Start-up *)

Definition SetSearchPath (path : bytes) : LM () :=
  lua_try (lua_getglobal PACKAGE);;
  lua_try (lua_getfield (-1) PKG_PATH_INDEX);;
  lua_do (fun s => snd (lua_tostring (-1) s));;
  let buff := SafeSprintf 1024 (cstr path ++ lit "/?.lua") in
  lua_do (lua_pushstring (cstr buff));;
  lua_try (lua_setfield (-3) PKG_PATH_INDEX);;
  lua_do (lua_pop 2).

Definition ReplacePrint : LM () := lua_try (lua_register (lit "print") CF_Log).

Definition ExecScriptFile (file : bytes) : LM bool :=
  let buff := SafeSprintf 512 (lit "return require " ++ QUOTE ++ cstr file ++ QUOTE) in
  lua_do (fun s => snd (luaL_loadstring (cstr buff) s));;
  '(ok, _) ← ExecFunction (A := Z) 0 None;
  mret ok.

(** The new state replaces the one there was; [envi] is the kernel's
    environment path. *)
Definition Initialize (envi : bytes) : LM bool :=
  mput luaL_newstate;;
  lua_do luaL_openlibs;;
  let scriptPath := SafeSprintf MAX_PATH (cstr envi ++ lit "/script") in
  SetSearchPath scriptPath;;
  ReplacePrint;;
  ExecScriptFile LINK_FILE_NAME;;
  mret true.

Definition Launched : LM bool := mret true.

(** ** Functions for scripts *)

Definition RegModuleFunc (module func : bytes) (f : func_object) : LM () :=
  let path := SafeSprintf MAX_PATH (lit "serverd." ++ cstr module) in
  lua_try (lua_getglobal PACKAGE);;
  lua_try (lua_getfield (-1) PKG_MODULE_INDEX);;
  lua_do (lua_pushstring (cstr path));;
  lua_do (lua_rawget (-2));;
  s ← mget;
  mwhen (lua_isnil (-1) s)
    (lua_do (lua_pop 1);;
     lua_do (lua_pushstring (cstr path));;
     lua_do lua_newtable;;
     lua_do (lua_rawset (-3));;
     lua_do (lua_pushstring (cstr path));;
     lua_do (lua_rawget (-2)));;
  lua_do (lua_pushstring (cstr func));;
  lua_do (lua_newuserdata f);;
  lua_do (lua_pushcclosure CF_LuaCall 1);;
  lua_do (lua_rawset (-3));;
  lua_do (lua_pop 3).

(** The C function behind every registered one: [deref] gives the C++ function
    an object is, [None] for an empty one. *)
Definition LuaCall (deref : func_object -> option IDataInterchangeFuncType) : LM Z :=
  s ← mget;
  u ← mlift (of_option NullPointer (lua_upvalue s));
  mlift (ASSERT (bool_decide (is_Some (deref u))));;
  input ← LuaInputStream_new false;
  func ← mlift (of_option BadCall (deref u));
  output ← func input LuaOutputStream_new;
  mret (Count output).
End ScriptEngine.
