(* ===== verification/ScriptEngineProps.v ===== *)
(** * Properties of the script engine

    Every call of a script leaves the Lua stack as it found it, hands the
    script exactly the module, the function and the arguments, and shows the
    callback exactly its results; except that a call that finds no global
    function leaves its arguments on the stack. *)
From Stdlib Require Import ZArith Lia Ascii.
From stdpp Require Import base numbers list list_numbers strings.
From S2P Require Import Prelude Kernel LuaApi LuaInterchange ScriptEngine.
Open Scope Z_scope.

Section EngineProps.
Context {L : Lua} {LL : LuaLaws L} {BB : Build}.

(** [n] more slots. *)
Definition room (n : nat) (s : lua_State) : Prop := (length (stack s) + n <= limit s)%nat.

(** Whether a value is a function. *)
Definition is_fun (v : lvalue) : bool := match v with LFun _ => true | _ => false end.

Lemma is_fun_code v : (type_code v =? LUA_TFUNCTION) = is_fun v.
Proof. by destruct v. Qed.

Lemma isfunction_at i s v : value_at (stack s) i = Some v -> lua_isfunction i s = is_fun v.
Proof. intros H. unfold lua_isfunction. rewrite type_law, H. apply is_fun_code. Qed.

Lemma lua_do_ok (f : lua_State -> lua_State) s : lua_do f s = Ok (tt, f s).
Proof. reflexivity. Qed.

(** *** Single steps, on the shape of the stack *)

Lemma getglobal_step k s : plain (heap s) GLOBALS -> room 1 s -> exists s',
  lua_try (lua_getglobal k) s = Ok (tt, s') /\ stack s' = stack s ++ [tab (heap s) GLOBALS k] /\
  heap s' = heap s /\ limit s' = limit s.
Proof.
  intros Hp Hr. destruct (getglobal_law k s Hp) as (s' & E & H); [unfold room in Hr; lia|].
  exists s'. split; [by apply lua_try_ok|done].
Qed.

(** A value moved below the [n] values under it. *)
Lemma insert_step s st xs v i : stack s = st ++ xs ++ [v] -> i = - (Z.of_nat (length xs) + 1) ->
  stack (lua_insert i s) = st ++ v :: xs /\ heap (lua_insert i s) = heap s /\ limit (lua_insert i s) = limit s.
Proof.
  intros Hs ->. unfold lua_insert.
  replace (- (Z.of_nat (length xs) + 1)) with (- Z.of_nat (length xs) - 1) by lia. by apply rotate_law.
Qed.

(** The results the input stream of a call counts: up to the first [nil]. *)
Fixpoint leading (rs : list lvalue) : Z :=
  match rs with
  | [] | LNil :: _ => 0
  | _ :: rs' => 1 + leading rs'
  end.

Lemma count_loop_leading s st ps rs : stack s = st ++ ps ++ rs -> Z.of_nat (length (ps ++ rs)) = LUA_RESULT_COUNT ->
  count_loop (length rs) (Z.of_nat (length ps)) s = leading rs.
Proof.
  revert ps. induction rs as [|v rs IH]; intros ps Hs Hl; [done|]. cbn [count_loop length].
  assert (Hv : value_at (stack s) (- LUA_RESULT_COUNT + Z.of_nat (length ps)) = Some v).
  { rewrite Hs, app_assoc. apply value_at_neg. rewrite length_app in Hl. cbn [length] in Hl. lia. }
  unfold lua_isnil. rewrite type_law, Hv.
  assert (Hr : count_loop (length rs) (Z.of_nat (length ps) + 1) s = leading rs).
  { rewrite <- (IH (ps ++ [v])) by (rewrite <- app_assoc; done). rewrite length_app. f_equal. cbn [length]. lia. }
  destruct v; cbn [leading type_code]; rewrite ?Hr; reflexivity.
Qed.

(** What an input stream over the [LUA_RESULT_COUNT] results of a call is. *)
Definition results_stream (base : list lvalue) (rs : list lvalue) : LuaInputStream :=
  mkInput 0 (Z.of_nat (length base)) (leading rs).

Lemma ack_stream s base rs : stack s = base ++ rs -> Z.of_nat (length rs) = LUA_RESULT_COUNT ->
  LuaInputStream_new true s = Ok (results_stream base rs, s).
Proof.
  intros Hs Hl. unfold LuaInputStream_new, mget, mret, M_ret, mbind, M_bind. do 2 f_equal. unfold results_stream. f_equal.
  - rewrite gettop_law, Hs, length_app. lia.
  - rewrite <- (count_loop_leading s base [] rs Hs Hl), <- Hl, Nat2Z.id. done.
Qed.

(** The values the trace function adds to the stack. *)
Definition trace_values (h : lheap) : list lvalue :=
  let t := tab h GLOBALS LUA_TRACE_NAME in if is_fun t then [t] else [].

(** *** ExecFunction *)

Definition run_callback {A} (cb : IDataCallBackFuncType A) (ack : LuaInputStream) : M lua_State (option A) :=
  match cb with Some f => a ← f ack; mret (Some a) | None => mret None end.

(** What a call does, given the protected call it makes: the values [below]
    stay, [tv] is the trace function's place.  The call itself is all that
    changes the heap. *)
Definition outcome_of {A} (below tv : list lvalue) (lim : nat) (cb : IDataCallBackFuncType A) (code : Z) (s1 : lua_State)
    (result : outcome ((bool * option A) * lua_State)) : Prop :=
  (code <> LUA_OK /\ exists s', result = Ok ((false, None), s') /\ stack s' = below /\ heap s' = heap s1 /\
     limit s' = lim) \/
  (code = LUA_OK /\ exists rs, Z.of_nat (length rs) = LUA_RESULT_COUNT /\ stack s1 = below ++ tv ++ rs /\
     limit s1 = lim /\
     forall r s2, run_callback cb (results_stream (below ++ tv) rs) s1 = Ok (r, s2) -> stack s2 = stack s1 ->
       exists s', result = Ok ((true, r), s') /\ stack s' = below /\ heap s' = heap s2 /\
         limit s' = limit s2).

(** The trace function, when there is one, is put below the function. *)
Lemma trace_step s st f args : stack s = st ++ f :: args -> plain (heap s) GLOBALS -> room 1 s ->
  exists s1 s2 tr, lua_try (lua_getglobal LUA_TRACE_NAME) s = Ok (tt, s1) /\
  (if negb (lua_isfunction (-1) s1) then lua_do (lua_pop 1);; mret 0
   else lua_do (lua_insert (- Z.of_nat (length args) - 1 - 1));; mret (- Z.of_nat (length args) - 1 - 1)) s1 =
    Ok (tr, s2) /\
  stack s2 = st ++ trace_values (heap s) ++ f :: args /\ limit s2 = limit s /\ heap s2 = heap s /\
  Z.of_nat (length (trace_values (heap s))) = (if tr =? 0 then 0 else 1).
Proof.
  intros Hs Hp Hr. destruct (getglobal_step LUA_TRACE_NAME s Hp Hr) as (s1 & E1 & S1 & H1 & L1).
  exists s1. unfold trace_values. set (t := tab (heap s) GLOBALS LUA_TRACE_NAME) in *.
  rewrite (isfunction_at (-1) s1 t) by (rewrite S1; by apply value_at_neg).
  destruct (is_fun t); cbn [negb].
  - destruct (insert_step s1 st (f :: args) t (- Z.of_nat (length args) - 1 - 1)) as (S2 & H2 & L2);
      [by rewrite S1, Hs, <- app_assoc|cbn [length]; lia|].
    do 2 eexists. split; [exact E1|]. split; [reflexivity|]. rewrite S2, H2, L2. split_and!; try done; try congruence.
    by destruct (Z.eqb_spec (- Z.of_nat (length args) - 1 - 1) 0); [lia|].
  - destruct (pop_law s1 (stack s) [t] 1 S1 eq_refl) as (S2 & H2 & L2).
    do 2 eexists. split; [exact E1|]. split; [reflexivity|]. rewrite S2, H2, L2, Hs. split_and!; try done; congruence.
Qed.

Lemma ExecFunction_spec {A} s st f args (cb : IDataCallBackFuncType A) :
  stack s = st ++ LFun f :: args -> (length args <= 127)%nat -> plain (heap s) GLOBALS -> room 1 s ->
  (length st + 9 <= limit s)%nat ->
  exists s0 msgh code s1, stack s0 = st ++ trace_values (heap s) ++ LFun f :: args /\ heap s0 = heap s /\
  lua_pcall (Z.of_nat (length args)) LUA_RESULT_COUNT msgh s0 = (code, s1) /\
  outcome_of st (trace_values (heap s)) (limit s) cb code s1 (ExecFunction (Z.of_nat (length args)) cb s).
Proof.
  intros Hs Ha Hp Hr Hl. unfold ExecFunction.
  assert (Hfi : s8 (- (Z.of_nat (length args) + 1)) = - Z.of_nat (length args) - 1).
  { rewrite s8_small; [lia|]. unfold is_s8. lia. }
  rewrite Hfi, (M_bind_Ok _ _ s s s) by done.
  rewrite (isfunction_at _ s (LFun f)) by (rewrite Hs; by apply value_at_neg). cbn [is_fun negb].
  destruct (trace_step s st (LFun f) args Hs Hp Hr) as (s1 & s2 & tr & E1 & E2 & S2 & L2 & H2 & Htv).
  rewrite (M_bind_Ok _ _ _ _ _ E1), (M_bind_Ok _ _ s1 s1 s1), (M_bind_Ok _ _ _ _ _ E2), (M_bind_Ok _ _ s2 s2 s2) by done.
  set (tv := trace_values (heap s)) in *. rewrite app_assoc in S2.
  destruct (pcall_law s2 (st ++ tv) (LFun f) args LUA_RESULT_COUNT tr S2) as [Hcall L3];
    [done|rewrite L2, length_app; unfold LUA_RESULT_COUNT; destruct (tr =? 0); lia|].
  exists s2, tr. destruct (lua_pcall _ _ _ s2) as [code s3]. cbn [fst snd] in *.
  exists code, s3. rewrite app_assoc. split_and!; [done|done|done|].
  rewrite (M_bind_Ok _ _ s2 tt s3) by done.
  destruct Hcall as [[-> (rs & Hrs & S3)]|[Hc (e & S3)]].
  - right. split; [done|]. exists rs. unfold LUA_RESULT_COUNT in *. rewrite app_assoc.
    split; [lia|]. split; [done|]. split; [congruence|]. intros r s4 Hcb S4. rewrite Z.eqb_refl. cbn [negb].
    rewrite (M_bind_Ok _ _ _ _ _ (ack_stream s3 (st ++ tv) rs S3 ltac:(unfold LUA_RESULT_COUNT; lia))).
    rewrite (M_bind_Ok _ _ _ _ _ Hcb).
    destruct (pop_law s4 (st ++ tv) rs 8) as (S5 & H5 & L5); [congruence|lia|].
    rewrite (M_bind_Ok _ _ s4 tt (lua_pop 8 s4)) by done.
    destruct (Z.eqb_spec tr 0); cbn [negb mwhen].
    + eexists. split; [reflexivity|]. destruct tv; [|done]. by rewrite S5, app_nil_r.
    + destruct (pop_law (lua_pop 8 s4) st tv 1 S5) as (S6 & H6 & L6); [lia|].
      eexists. split; [reflexivity|]. by rewrite H6, L6.
  - left. split; [done|]. destruct (Z.eqb_spec code LUA_OK); [done|]. cbn [negb].
    destruct (tostring_top_law s3 (st ++ tv) e S3) as (e' & S4 & H4 & L4).
    eexists. split; [reflexivity|]. rewrite <- app_assoc in S4. rewrite <- H4, <- L2, <- L3, <- L4.
    apply (pop_law _ st (tv ++ [e']) _ S4). rewrite length_app. cbn [length]. destruct (tr =? 0); lia.
Qed.

(** *** ExecGlobalFunction and CallScriptFunc *)

Lemma ExecGlobalFunction_spec {A} s st func f args (cb : IDataCallBackFuncType A) :
  stack s = st ++ args -> (length args <= 127)%nat -> plain (heap s) GLOBALS ->
  tab (heap s) GLOBALS func = LFun f -> room 2 s -> (length st + 9 <= limit s)%nat ->
  exists s0 msgh code s1, stack s0 = st ++ trace_values (heap s) ++ LFun f :: args /\ heap s0 = heap s /\
  lua_pcall (Z.of_nat (length args)) LUA_RESULT_COUNT msgh s0 = (code, s1) /\
  outcome_of st (trace_values (heap s)) (limit s) cb code s1 (ExecGlobalFunction func (Z.of_nat (length args)) cb s).
Proof.
  intros Hs Ha Hp Hf Hr Hl. unfold ExecGlobalFunction.
  destruct (getglobal_step func s Hp) as (s1 & E1 & S1 & H1 & L1); [unfold room in *; lia|].
  rewrite (M_bind_Ok _ _ _ _ _ E1), (M_bind_Ok _ _ s1 s1 s1) by done. rewrite Hf in S1.
  rewrite (isfunction_at (-1) s1 (LFun f)) by (rewrite S1; by apply value_at_neg). cbn [is_fun negb].
  assert (Hins : exists s2, mwhen (0 <? Z.of_nat (length args)) (lua_do (lua_insert (- (Z.of_nat (length args) + 1)))) s1 =
    Ok (tt, s2) /\ stack s2 = st ++ LFun f :: args /\ heap s2 = heap s /\ limit s2 = limit s).
  { destruct (Z.ltb_spec 0 (Z.of_nat (length args))); cbn [mwhen].
    - destruct (insert_step s1 st args (LFun f) (- (Z.of_nat (length args) + 1))) as (S2 & H2 & L2);
        [by rewrite S1, Hs, <- app_assoc|done|].
      eexists. split; [reflexivity|]. rewrite S2, H2, L2. split_and!; congruence.
    - destruct args; [|cbn in *; lia]. rewrite app_nil_r in Hs. exists s1. rewrite S1, Hs. split_and!; try done. }
  destruct Hins as (s2 & E2 & S2 & H2 & L2). rewrite (M_bind_Ok _ _ _ _ _ E2), <- H2, <- L2.
  apply ExecFunction_spec; [done|done|by rewrite H2| |by rewrite L2].
  unfold room in *. rewrite S2, L2. rewrite Hs in Hr. rewrite length_app in *. cbn [length]. lia.
Qed.

(** The stream [CallScriptFunc] fills: the module, the function, the arguments. *)
Lemma CallScriptFunc_args {A} s module func ds (cb : IDataCallBackFuncType A) :
  no_nul module -> no_nul func -> Forall datum_ok ds -> (length ds <= 125)%nat -> room (length ds + 3) s ->
  exists s1 vs, stack s1 = stack s ++ LStr module :: LStr func :: vs /\ Forall2 (holds (heap s1)) ds vs /\
  heap_ext (heap s) (heap s1) /\ limit s1 = limit s /\
  CallScriptFunc module func (Some (fun o => write_all o ds)) cb s =
    ExecGlobalFunction CALL_FUNCTION (Z.of_nat (length (LStr module :: LStr func :: vs))) cb s1.
Proof.
  intros Hm Hf Hd Hlen Hr. unfold room in Hr.
  destruct (write_all_ok (DStr module :: DStr func :: ds) LuaOutputStream_new s)
    as (s1 & vs0 & E & S1 & V & X & L1); [by repeat constructor|cbn [length]; lia|].
  apply Forall2_cons_inv_l in V as (v1 & vs1 & -> & V & ->). apply Forall2_cons_inv_l in V as (v2 & vs & -> & V & ->).
  exists s1, vs. split_and!; try done. cbn [write_all write_datum length] in E.
  unfold CallScriptFunc, PreCall. unfold OReset, LuaOutputStream_new in *.
  apply M_bind_inv in E as (o1 & s2 & W1 & E). apply M_bind_inv in E as (o2 & s3 & W2 & E).
  rewrite (M_bind_Ok _ _ s o2 s3) by by rewrite (M_bind_Ok _ _ _ _ _ W1).
  rewrite (M_bind_Ok _ _ _ _ _ E). unfold Call. rewrite count_iter. cbn [Count _ocount length].
  rewrite <- (Forall2_length _ _ _ V). rewrite s32_small by (unfold is_s32; lia).
  by rewrite s8_small by (unfold is_s8; lia).
Qed.

Lemma trace_values_ext h h' : plain h GLOBALS -> heap_ext h h' -> trace_values h' = trace_values h.
Proof. intros Hp He. unfold trace_values. destruct (He _ Hp) as [_ E]. by rewrite E. Qed.

(** A whole script call. *)
Lemma CallScriptFunc_spec {A} s module func ds (cb : IDataCallBackFuncType A) f :
  no_nul module -> no_nul func -> Forall datum_ok ds -> (length ds <= 125)%nat -> room (length ds + 9) s ->
  plain (heap s) GLOBALS -> tab (heap s) GLOBALS CALL_FUNCTION = LFun f ->
  exists s0 msgh code s1 vs,
  stack s0 = stack s ++ trace_values (heap s) ++ LFun f :: LStr module :: LStr func :: vs /\
  Forall2 (holds (heap s0)) ds vs /\ heap_ext (heap s) (heap s0) /\
  lua_pcall (Z.of_nat (length ds) + 2) LUA_RESULT_COUNT msgh s0 = (code, s1) /\
  outcome_of (stack s) (trace_values (heap s)) (limit s) cb code s1
    (CallScriptFunc module func (Some (fun o => write_all o ds)) cb s).
Proof.
  intros Hm Hf Hd Hlen Hr Hp Hcall. unfold room in Hr.
  destruct (CallScriptFunc_args s module func ds cb Hm Hf Hd Hlen) as (s1 & vs & S1 & V & X & L1 & E);
    [unfold room; lia|]. destruct (X _ Hp) as [Hp1 T1].
  pose proof (Forall2_length _ _ _ V) as Hl.
  destruct (ExecGlobalFunction_spec s1 (stack s) CALL_FUNCTION f (LStr module :: LStr func :: vs) cb)
    as (s0 & msgh & code & s2 & S0 & H0 & Hc & Ho);
    [done|cbn [length]; lia|done|by rewrite T1| |rewrite L1; lia|].
  { unfold room. rewrite S1, L1, length_app. cbn [length]. lia. }
  rewrite (trace_values_ext _ _ Hp X) in S0, Ho. rewrite L1 in Ho. rewrite E.
  exists s0, msgh, code, s2, vs. rewrite H0. split_and!; [done|done|done| |done].
  rewrite <- Hc. f_equal. cbn [length]. lia.
Qed.

(** C37: A script call with up to 125 well-formed arguments, when the global
    function [call] exists, makes exactly one protected call, of that function
    on the module, the function name and the arguments in order, with the trace
    function below it when there is one.  When the call raises, the result is
    [false] and the callback is not run; when it succeeds, the callback gets a
    stream over the eight results that counts those before the first [nil],
    and the result is [true].  Either way the stack is left as it was. *)
Theorem CallScriptFunc_calls {A} s module func ds (cb : IDataCallBackFuncType A) f :
  no_nul module -> no_nul func -> Forall datum_ok ds -> (length ds <= 125)%nat -> room (length ds + 9) s ->
  plain (heap s) GLOBALS -> tab (heap s) GLOBALS CALL_FUNCTION = LFun f ->
  exists s0 msgh code s1 vs,
  stack s0 = stack s ++ trace_values (heap s) ++ LFun f :: LStr module :: LStr func :: vs /\
  Forall2 (holds (heap s0)) ds vs /\
  lua_pcall (Z.of_nat (length ds) + 2) LUA_RESULT_COUNT msgh s0 = (code, s1) /\
  outcome_of (stack s) (trace_values (heap s)) (limit s) cb code s1
    (CallScriptFunc module func (Some (fun o => write_all o ds)) cb s).
Proof.
  intros Hm Hf Hd Hlen Hr Hp Hcall.
  destruct (CallScriptFunc_spec s module func ds cb f Hm Hf Hd Hlen Hr Hp Hcall)
    as (s0 & msgh & code & s1 & vs & S0 & V & _ & E & O).
  exists s0, msgh, code, s1, vs. by split_and!.
Qed.

(** C38: When the scripts define no global function [call], a script call
    reports failure (an assertion in a debug build) but leaves the module, the
    function name and every argument on the stack: each such call of a release
    build makes the stack longer by two and the number of arguments. *)
Theorem CallScriptFunc_missing_leaks {A} s module func ds (cb : IDataCallBackFuncType A) :
  no_nul module -> no_nul func -> Forall datum_ok ds -> (length ds <= 125)%nat -> room (length ds + 3) s ->
  plain (heap s) GLOBALS -> is_fun (tab (heap s) GLOBALS CALL_FUNCTION) = false ->
  exists s' vs, stack s' = stack s ++ LStr module :: LStr func :: vs /\ length vs = length ds /\
  CallScriptFunc module func (Some (fun o => write_all o ds)) cb s =
    if ndebug then Ok ((false, None), s') else Fault AssertFailed.
Proof.
  intros Hm Hf Hd Hlen Hr Hp Hcall.
  destruct (CallScriptFunc_args s module func ds cb Hm Hf Hd Hlen Hr) as (s1 & vs & S1 & V & X & L1 & E).
  destruct (X _ Hp) as [Hp1 T1]. pose proof (Forall2_length _ _ _ V) as Hl.
  rewrite E. unfold ExecGlobalFunction.
  destruct (getglobal_step CALL_FUNCTION s1 Hp1) as (s2 & E2 & S2 & _ & _).
  { unfold room in *. rewrite S1, L1, length_app. cbn [length]. lia. }
  rewrite (M_bind_Ok _ _ _ _ _ E2), (M_bind_Ok _ _ s2 s2 s2) by done. rewrite T1 in S2.
  rewrite (isfunction_at (-1) s2 (tab (heap s) GLOBALS CALL_FUNCTION)) by (rewrite S2; by apply value_at_neg).
  rewrite Hcall. cbn [negb]. exists (lua_pop 1 s2), vs.
  destruct (pop_law s2 _ [_] 1 S2 eq_refl) as (S3 & _ & _). rewrite S3. split_and!; [done|done|].
  unfold mlift, ASSERT, lua_do, mmodify, mret, M_ret, mbind, M_bind, outcome_bind. cbn [orb]. by destruct ndebug.
Qed.

(** *** Functions for scripts *)

Lemma pushstring_step v s : room 1 s -> stack (lua_pushstring v s) = stack s ++ [LStr v] /\
  heap (lua_pushstring v s) = heap s /\ limit (lua_pushstring v s) = limit s.
Proof. intros Hr. unfold room in Hr. by destruct (pushes_law s ltac:(lia)) as (_ & _ & H & _). Qed.

(** What registering leaves: the tables that exist, and the upvalues. *)
Definition grows (h h' : lheap) : Prop :=
  (forall r, plain h r -> plain h' r) /\
  (forall c f, upval h c = Some f -> upval h' c = Some f).

#[local] Instance grows_preorder : PreOrder grows.
Proof. split; [by split|]. intros h1 h2 h3 [? ?] [? ?]. split; auto. Qed.

Lemma grows_eq h h' : h' = h -> grows h h'.
Proof. by intros ->. Qed.

(** [pkg modules] on the stack, the module's table looked up or created. *)
Lemma module_table s st l path : stack s = st ++ [LTable l] -> plain (heap s) l -> room 2 s ->
  (tab (heap s) l path = LNil \/ exists m, tab (heap s) l path = LTable m /\ plain (heap s) m /\ m <> l) ->
  exists s' m, (lua_do (lua_pushstring path);; lua_do (lua_rawget (-2));;
    s ← mget;
    mwhen (lua_isnil (-1) s)
      (lua_do (lua_pop 1);; lua_do (lua_pushstring path);; lua_do lua_newtable;; lua_do (lua_rawset (-3));;
       lua_do (lua_pushstring path);; lua_do (lua_rawget (-2)))) s = Ok (tt, s') /\
  stack s' = st ++ [LTable l; LTable m] /\ limit s' = limit s /\ plain (heap s') m /\ m <> l /\
  grows (heap s) (heap s') /\
  tab (heap s') l path = LTable m /\ (forall m', tab (heap s) l path = LTable m' -> m = m') /\
  forall r k, plain (heap s) r -> (r, k) <> (l, path) -> tab (heap s') r k = tab (heap s) r k.
Proof.
  intros Hs Hl Hr Hm. unfold room in Hr.
  destruct (pushstring_step path s ltac:(unfold room; lia)) as (S1 & H1 & L1).
  set (s1 := lua_pushstring path s) in *.
  assert (V1 : value_at (stack s1) (-2) = Some (LTable l)).
  { rewrite S1, Hs, <- app_assoc. by apply (value_at_neg st (LTable l) [LStr path]). }
  destruct (rawget_law (-2) l path s1 (stack s) S1 V1) as (S2 & H2 & L2). set (s2 := lua_rawget (-2) s1) in *.
  rewrite (M_bind_Ok _ _ s tt s1), (M_bind_Ok _ _ s1 tt s2), (M_bind_Ok _ _ s2 s2 s2) by done.
  unfold lua_isnil. rewrite type_law, S2, (value_at_neg (stack s) _ [] (-1) eq_refl), H1.
  destruct Hm as [Hn|(m & Hm & Hp & Hne)].
  2:{ rewrite Hm. cbn [type_code]. change (LUA_TTABLE =? LUA_TNIL) with false. cbn [mwhen].
      exists s2, m. rewrite S2, H1, H2, H1, L2, L1, Hs, <- app_assoc, Hm. split_and!; try done.
      intros m' E. by injection E. }
  rewrite Hn. cbn [type_code]. rewrite Z.eqb_refl. cbn [mwhen].
  destruct (pop_law s2 (stack s) [_] 1 S2 eq_refl) as (S3 & H3 & L3). set (s3 := lua_pop 1 s2) in *.
  destruct (pushstring_step path s3) as (S4 & H4 & L4); [unfold room; rewrite S3, L3, L2, L1; lia|].
  set (s4 := lua_pushstring path s3) in *. rewrite S3 in S4.
  destruct (createtable_law 0 0 s4) as (m & S5 & L5 & F5 & P5 & V5 & K5).
  { rewrite S4, L4, L3, L2, L1, length_app. cbn [length]. lia. }
  change (lua_createtable 0 0 s4) with (lua_newtable s4) in *. set (s5 := lua_newtable s4) in *.
  assert (Hh4 : heap s4 = heap s) by congruence. rewrite Hh4 in F5, V5, K5.
  assert (Hne : m <> l) by (intros ->; done). destruct (K5 l Hl) as [Pl5 T5].
  rewrite S4, <- app_assoc in S5. cbn [app] in S5.
  destruct (rawset_law (-3) l path s5 (stack s) (LTable m) S5) as (S6 & L6 & T6 & O6 & P6 & U6); [|done|].
  { rewrite S5, Hs, <- app_assoc. by apply (value_at_neg st (LTable l) [LStr path; LTable m]). }
  set (s6 := lua_rawset (-3) s5) in *.
  destruct (pushstring_step path s6) as (S7 & H7 & L7); [unfold room; rewrite S6, L6, L5, L4, L3, L2, L1; lia|].
  set (s7 := lua_pushstring path s6) in *.
  assert (V7 : value_at (stack s7) (-2) = Some (LTable l)).
  { rewrite S7, S6, Hs, <- app_assoc. by apply (value_at_neg st (LTable l) [LStr path]). }
  destruct (rawget_law (-2) l path s7 (stack s6) S7 V7) as (S8 & H8 & L8).
  exists (lua_rawget (-2) s7), m. split; [reflexivity|].
  rewrite S8, H8, H7, T6, S6, Hs, <- app_assoc. split_and!; try done; [congruence|by apply P6|split|].
  { intros r Hr'. apply P6. by destruct (K5 r Hr'). }
  { intros c f Hc. rewrite U6. by apply V5. }
  intros r k Hr' Hne'. rewrite O6 by done. by destruct (K5 r Hr') as [_ ->].
Qed.

(** The closure stored under its name in the table on top. *)
Lemma store_closure s st m func f : stack s = st ++ [LTable m] -> plain (heap s) m -> room 2 s ->
  exists s' c, (lua_do (lua_pushstring func);; lua_do (lua_newuserdata f);;
    lua_do (lua_pushcclosure CF_LuaCall 1);; lua_do (lua_rawset (-3))) s = Ok (tt, s') /\
  stack s' = stack s /\ limit s' = limit s /\ tab (heap s') m func = LFun c /\ upval (heap s') c = Some f /\
  grows (heap s) (heap s') /\
  forall r k, (r, k) <> (m, func) -> tab (heap s') r k = tab (heap s) r k.
Proof.
  intros Hs Hp Hr. unfold room in Hr.
  destruct (pushstring_step func s ltac:(unfold room; lia)) as (S1 & H1 & L1).
  set (s1 := lua_pushstring func s) in *.
  destruct (newuserdata_law f s1) as (u & S2 & L2 & U2 & V2 & T2 & P2).
  { rewrite S1, L1, length_app. cbn [length]. lia. }
  set (s2 := lua_newuserdata f s1) in *.
  destruct (pushcclosure_law CF_LuaCall s2 (stack s1) u S2) as (c & S3 & L3 & U3 & V3 & T3 & P3).
  set (s3 := lua_pushcclosure CF_LuaCall 1 s2) in *. rewrite S1, <- app_assoc in S3. cbn [app] in S3.
  destruct (rawset_law (-3) m func s3 (stack s) (LFun c) S3) as (S4 & L4 & T4 & O4 & P4 & U4).
  { rewrite S3, Hs, <- app_assoc. by apply (value_at_neg st (LTable m) [LStr func; LFun c]). }
  { apply P3, P2. by rewrite H1. }
  exists (lua_rawset (-3) s3), c. split; [reflexivity|]. rewrite S4, L4, T4, U4, U3, U2. split_and!; try done; [congruence|split|].
  { intros r Hr'. apply P4, P3, P2. by rewrite H1. }
  { intros c' g Hc. rewrite U4. apply V3, V2. by rewrite H1. }
  intros r k Hne. by rewrite O4, T3, T2, H1.
Qed.

(** Registering a function, with all it leaves unchanged. *)
Lemma RegModuleFunc_step s p l module func f :
  no_nul module -> no_nul func -> (length module <= 251)%nat -> room 5 s -> plain (heap s) GLOBALS ->
  tab (heap s) GLOBALS PACKAGE = LTable p -> plain (heap s) p ->
  tab (heap s) p PKG_MODULE_INDEX = LTable l -> plain (heap s) l ->
  (tab (heap s) l (lit "serverd." ++ module) = LNil \/ exists m,
     tab (heap s) l (lit "serverd." ++ module) = LTable m /\ plain (heap s) m /\ m <> l) ->
  exists s' m c, RegModuleFunc module func f s = Ok (tt, s') /\ stack s' = stack s /\ limit s' = limit s /\
  tab (heap s') l (lit "serverd." ++ module) = LTable m /\ plain (heap s') m /\ m <> l /\
  tab (heap s') m func = LFun c /\ upval (heap s') c = Some f /\
  (forall m', tab (heap s) l (lit "serverd." ++ module) = LTable m' -> m = m') /\
  grows (heap s) (heap s') /\
  forall r k, plain (heap s) r -> (r, k) <> (l, lit "serverd." ++ module) -> (r, k) <> (m, func) ->
    tab (heap s') r k = tab (heap s) r k.
Proof.
  intros Hmod Hfunc Hlen Hr Hg Hpk Hp Hld Hl Hm. unfold room in Hr. unfold RegModuleFunc.
  assert (Hpath : cstr (SafeSprintf MAX_PATH (lit "serverd." ++ cstr module)) = lit "serverd." ++ module).
  { rewrite (cstr_id _ Hmod). apply SafeSprintf_fits.
    - apply Forall_app. split; [repeat constructor; done|exact Hmod].
    - rewrite length_app. unfold MAX_PATH. change (length (lit "serverd.")) with 8%nat. lia. }
  set (path := lit "serverd." ++ module) in *. cbv zeta. rewrite Hpath, (cstr_id _ Hfunc).
  destruct (getglobal_step PACKAGE s Hg) as (s1 & E1 & S1 & H1 & L1); [unfold room; lia|].
  rewrite (M_bind_Ok _ _ _ _ _ E1). rewrite Hpk in S1.
  destruct (getfield_law (-1) p PKG_MODULE_INDEX s1) as (s2 & E2 & S2 & H2 & L2);
    [rewrite S1; by apply value_at_neg|by rewrite H1|rewrite S1, L1, length_app; cbn [length]; lia|].
  rewrite (M_bind_Ok _ _ s1 tt s2) by by apply lua_try_ok. rewrite H1, Hld in S2.
  destruct (module_table s2 (stack s1) l path S2) as (s3 & m & E3 & S3 & L3 & P3 & N3 & G3 & T3 & K3 & O3).
  { by rewrite H2, H1. }
  { unfold room. rewrite S2, S1, L2, L1, !length_app. cbn [length]. lia. }
  { by rewrite H2, H1. }
  rewrite H2, H1 in G3, K3, O3.
  destruct (store_closure s3 (stack s1 ++ [LTable l]) m func f) as (s4 & c & E4 & S4 & L4 & T4 & U4 & G4 & O4).
  { by rewrite S3, <- app_assoc. }
  { done. }
  { unfold room. rewrite S3, S1, L3, L2, L1, !length_app. cbn [length]. lia. }
  exists (lua_pop 3 s4), m, c.
  rewrite S3, S1, <- app_assoc in S4. cbn [app] in S4.
  destruct (pop_law s4 (stack s) [LTable p; LTable l; LTable m] 3 S4 eq_refl) as (S5 & H5 & L5).
  rewrite S5, H5, L5. split_and!; try done.
  - unfold mget, mbind, M_bind in *. cbn in E3, E4 |- *.
    unfold lua_do, mmodify in *. rewrite E3. injection E4 as E4. by rewrite E4.
  - congruence.
  - rewrite O4; [done|]. intros [= E _]. done.
  - by apply G4.
  - by transitivity (heap s3).
  - intros r k Hr' Hne1 Hne2. rewrite O4 by done. by apply O3.
Qed.

(** C39: Registering a function puts, in the table [package.loaded] has under
    ["serverd."] and the module's name, a closure over the function object
    under its name; the module's table is made when there is none and kept when
    there is one.  No other field of an existing table changes, so functions
    registered before stay, and the stack is left as it was. *)
Theorem RegModuleFunc_registers s p l module func f :
  no_nul module -> no_nul func -> (length module <= 251)%nat -> room 5 s -> plain (heap s) GLOBALS ->
  tab (heap s) GLOBALS PACKAGE = LTable p -> plain (heap s) p ->
  tab (heap s) p PKG_MODULE_INDEX = LTable l -> plain (heap s) l ->
  (tab (heap s) l (lit "serverd." ++ module) = LNil \/ exists m,
     tab (heap s) l (lit "serverd." ++ module) = LTable m /\ plain (heap s) m /\ m <> l) ->
  exists s' m c, RegModuleFunc module func f s = Ok (tt, s') /\ stack s' = stack s /\
  tab (heap s') l (lit "serverd." ++ module) = LTable m /\
  tab (heap s') m func = LFun c /\ upval (heap s') c = Some f /\
  (forall m', tab (heap s) l (lit "serverd." ++ module) = LTable m' -> m = m') /\
  forall r k, plain (heap s) r -> (r, k) <> (l, lit "serverd." ++ module) -> (r, k) <> (m, func) ->
    tab (heap s') r k = tab (heap s) r k.
Proof.
  intros H1 H2 H3 H4 H5 H6 H7 H8 H9 H10.
  destruct (RegModuleFunc_step s p l module func f H1 H2 H3 H4 H5 H6 H7 H8 H9 H10)
    as (s' & m & c & E & S & _ & T & _ & _ & F & U & K & _ & O).
  by exists s', m, c.
Qed.

(** C40: A script's call of a registered function: the function's input stream
    holds exactly the arguments of the call, what it writes to its output is on
    top of the stack in order, and the count it returns to Lua is the number of
    these values, which Lua takes as the call's results. *)
Theorem LuaCall_returns s deref u ds vs g :
  stack s = vs -> Forall2 (holds (heap s)) ds vs -> Forall datum_ok ds -> Forall datum_ok (g ds) ->
  lua_upvalue s = Some u ->
  deref u = Some (fun i o => '(_, xs) ← read_all i ds; write_all o (g xs)) ->
  room (length (g ds) + 2) s -> Z.of_nat (length (g ds)) < 2 ^ 31 ->
  exists s' vs', LuaCall deref s = Ok (Z.of_nat (length (g ds)), s') /\ stack s' = vs ++ vs' /\
    Forall2 (holds (heap s')) (g ds) vs'.
Proof.
  intros Hs Hv Hd Hg Hu Hf Hr Hlen. unfold room in Hr. pose proof (Forall2_length _ _ _ Hv) as Hl.
  unfold LuaCall. rewrite (M_bind_Ok _ _ s s s), Hu, (M_bind_Ok _ _ s u s), Hf by done.
  rewrite bool_decide_eq_true_2 by eauto.
  rewrite (M_bind_Ok _ _ s tt s) by done.
  rewrite (M_bind_Ok _ _ s (mkInput 0 0 (Z.of_nat (length vs))) s).
  2:{ unfold LuaInputStream_new, mget, mret, M_ret, mbind, M_bind. by rewrite gettop_law, Hs. }
  match goal with |- context [mlift (of_option BadCall (Some ?F))] =>
    rewrite (M_bind_Ok _ _ s F s) by done end.
  destruct (read_all_ok ds vs (mkInput 0 0 (Z.of_nat (length vs))) s [] []) as (s1 & E1 & S1 & H1 & L1);
    [done|by rewrite app_nil_r|done|done|cbn; lia|lia|].
  destruct (write_all_ok (g ds) LuaOutputStream_new s1 Hg) as (s2 & vs' & E2 & S2 & V2 & _ & _);
    [rewrite S1, L1; lia|].
  exists s2, vs'. split; [|split; [by rewrite S2, S1, Hs|exact V2]].
  erewrite M_bind_Ok.
  2:{ rewrite (M_bind_Ok _ _ _ _ _ E1). exact E2. }
  unfold mret, M_ret. do 2 f_equal. destruct (length (g ds)) as [|n]; [done|].
  rewrite count_iter. unfold Count, LuaOutputStream_new, _ocount. rewrite Z.add_0_l.
  apply s32_small. unfold is_s32. lia.
Qed.
End EngineProps.

(** ** A concrete engine: the global [call] returns the arguments it is given *)

Module EngineExample.
Definition behave (_ : ScriptedLua.state) (f : Z) (args : list lvalue) : option (list lvalue) :=
  if f =? 1 then Some (drop 2 args) else None.

#[export] Instance lib : Lua := ScriptedLua.lib behave.
#[export] Instance release : Build := {| ndebug := true |}.

Definition engine : @lua_State lib := ScriptedLua.mkState []
  [[(lit "call", LFun 1); (lit "package", LTable 1)]; [(lit "loaded", LTable 2)]; []] [] [] 20.

(** The scripts define nothing. *)
Definition bare : @lua_State lib := ScriptedLua.mkState [] [[]] [] [] 20.

Definition reader : IDataCallBackFuncType (option bytes) :=
  Some (fun i => '(_, v) ← ReadStr i None; mret v).

(** An echo comes back and leaves nothing. *)
Lemma echo_runs :
  match CallScriptFunc (lit "test.func") (lit "testEcho") (Some (fun o => WriteStr o (lit "hello"))) reader engine with
  | Ok ((true, Some (Some v)), s) => v = lit "hello" /\ stack s = []
  | _ => False
  end.
Proof. by vm_compute. Qed.

(** A frame of a registered function with one argument. *)
Definition frame : @lua_State lib := ScriptedLua.mkState [LInt 7] [[]] [42] [] 20.

(** A function that reads an [s32] and answers with an [s64] and a string. *)
Definition answer (ds : list datum) : list datum :=
  match ds with [DInt32 z] => [DInt64 (z * z); DStr (lit "done")] | _ => [] end.

Definition deref (u : Z) : option IDataInterchangeFuncType :=
  Some (fun i o => '(_, xs) ← read_all i [DInt32 7]; write_all o (answer xs)).
End EngineExample.

Lemma CallScriptFunc_calls_witness : exists code s1 vs, length vs = 1%nat /\
  outcome_of (stack EngineExample.engine) [] 20 EngineExample.reader code s1
    (@CallScriptFunc EngineExample.lib EngineExample.release _ (lit "test.func") (lit "testEcho")
       (Some (fun o => write_all o [DStr (lit "hello")])) EngineExample.reader EngineExample.engine) /\
  exists s0 msgh, stack s0 = LFun 1 :: LStr (lit "test.func") :: LStr (lit "testEcho") :: vs /\
    @lua_pcall EngineExample.lib 3 8 msgh s0 = (code, s1).
Proof.
  destruct (@CallScriptFunc_calls EngineExample.lib _ EngineExample.release _ EngineExample.engine
    (lit "test.func") (lit "testEcho") [DStr (lit "hello")] EngineExample.reader 1)
    as (s0 & msgh & code & s1 & vs & S0 & V & E & O).
  - repeat constructor; done.
  - repeat constructor; done.
  - repeat constructor; done.
  - cbn. lia.
  - unfold room. cbn. lia.
  - cbn. unfold ScriptedLua.exists_tab. cbn. lia.
  - by vm_compute.
  - exists code, s1, vs. split; [by rewrite <- (Forall2_length _ _ _ V)|].
    split; [exact O|]. exists s0, msgh. split; [exact S0|exact E].
Defined.

Lemma CallScriptFunc_missing_leaks_witness : exists s',
  @CallScriptFunc EngineExample.lib EngineExample.release Z (lit "m") (lit "f")
    (Some (fun o => write_all o [DInt32 1])) None EngineExample.bare = Ok ((false, None), s') /\
  length (@stack EngineExample.lib _ s') = 3%nat.
Proof.
  destruct (@CallScriptFunc_missing_leaks EngineExample.lib _ EngineExample.release Z EngineExample.bare
    (lit "m") (lit "f") [DInt32 1] None) as (s' & vs & S & Hl & E).
  - repeat constructor; done.
  - repeat constructor; done.
  - repeat constructor; done.
  - cbn. lia.
  - unfold room. cbn. lia.
  - cbn. unfold ScriptedLua.exists_tab. cbn. lia.
  - by vm_compute.
  - exists s'. split; [exact E|]. rewrite S, length_app. cbn [length]. rewrite Hl. reflexivity.
Defined.

Lemma RegModuleFunc_registers_witness : exists s' m c,
  @RegModuleFunc EngineExample.lib (lit "scripttest") (lit "callFibNumer") 42 EngineExample.engine = Ok (tt, s') /\
  tab (@heap EngineExample.lib _ s') 2 (lit "serverd.scripttest") = LTable m /\
  tab (@heap EngineExample.lib _ s') m (lit "callFibNumer") = LFun c /\
  @upval EngineExample.lib _ (heap s') c = Some 42.
Proof.
  destruct (@RegModuleFunc_registers EngineExample.lib _ EngineExample.engine 1 2
    (lit "scripttest") (lit "callFibNumer") 42) as (s' & m & c & E & _ & H1 & H2 & H3 & _).
  - repeat constructor; done.
  - repeat constructor; done.
  - cbn. lia.
  - unfold room. cbn. lia.
  - cbn. unfold ScriptedLua.exists_tab. cbn. lia.
  - by vm_compute.
  - cbn. unfold ScriptedLua.exists_tab. cbn. lia.
  - by vm_compute.
  - cbn. unfold ScriptedLua.exists_tab. cbn. lia.
  - left. by vm_compute.
  - exists s', m, c. split; [exact E|]. split; [exact H1|]. split; [exact H2|exact H3].
Defined.

Lemma LuaCall_returns_witness : exists s' vs',
  @LuaCall EngineExample.lib EngineExample.release EngineExample.deref EngineExample.frame = Ok (2, s') /\
  @stack EngineExample.lib _ s' = [LInt 7] ++ vs' /\ vs' = [LInt 49; LStr (lit "done")].
Proof.
  destruct (@LuaCall_returns EngineExample.lib _ EngineExample.release EngineExample.frame EngineExample.deref 42
    [DInt32 7] [LInt 7] EngineExample.answer) as (s' & vs' & E & S & V).
  - reflexivity.
  - repeat constructor.
  - repeat constructor; done.
  - repeat constructor; done.
  - reflexivity.
  - reflexivity.
  - unfold room. cbn. lia.
  - reflexivity.
  - exists s', vs'. split; [exact E|]. split; [exact S|].
    apply Forall2_cons_inv_l in V as (v1 & vs1 & H1 & V & ->). apply Forall2_cons_inv_l in V as (v2 & vs2 & H2 & V & ->).
    apply Forall2_nil_inv_l in V as ->. cbn in H1, H2. by rewrite H1, H2.
Defined.
