(* ===== verification/ScriptLog.v ===== *)
(** * What the script engine prints (ScriptEngine.cpp: Log, PrintLuaStack)

    [Log] is the C function behind the script's [print]; [PrintLuaStack]
    lists the stack.  They only read the Lua state, through functions of the
    library that the rest of the engine does not use (class [LuaDebug]), and
    write to the kernel's log.  The string type they build the text with
    ([tlib::TString]) is not in the repository; it is the class [TString].
    [Destroy] and [TestCallLuaFunction], which nothing calls, are here too. *)
From Stdlib Require Import ZArith Lia Ascii.
From stdpp Require Import base numbers list list_numbers strings.
From S2P Require Import Prelude Kernel KernelLog LuaApi LuaInterchange ScriptEngine ScriptEngineProps.
Open Scope Z_scope.

(** Doubles and floats are given by their bits. *)
Class LuaDebug (L : Lua) : Type := {
  luaL_where : Z -> lua_State -> lua_State;
  lua_isinteger : Z -> lua_State -> bool;
  lua_tonumber : Z -> lua_State -> Z;
  lua_topointer : Z -> lua_State -> Z;
  lua_typename : Z -> bytes;
  lua_pushnumber : Z -> lua_State -> lua_State;
  lua_call : Z -> Z -> lua_State -> option lua_State;
  lua_close : lua_State -> lua_State;
  (** Conversions of the language, and the [%f] of [printf]. *)
  double_of : Z -> Z;
  double_to_s64 : Z -> Z;
  double_to_float : Z -> Z;
  fmt_f : Z -> bytes
}.

Class TString : Type := {
  tstring : Type;
  tstring_new : tstring;
  put_str : bytes -> tstring -> tstring;
  put_s64 : Z -> tstring -> tstring;
  put_float : Z -> tstring -> tstring;
  GetString : tstring -> bytes
}.

Section ScriptLog.
Context {L : Lua} {D : LuaDebug L} {TS : TString} {BB : Build}.
(** [core::G_KERNEL::g_logLvl], and the file and line of a log. *)
Variable g_logLvl : Z.
Variable where_ : Z -> site.

Abbreviation LM := (M lua_State).

Definition luaL_typename (i : Z) (s : lua_State) : bytes := lua_typename (lua_type i s).

(** [lua_tostring] as an argument that has to be a string. *)
Definition string_at (i : Z) : LM bytes :=
  s ← mget;
  let '(v, s') := lua_tostring i s in
  mput s';;
  mlift (of_option NullPointer v).

(** Only the first argument is printed. *)
Definition Log : LM (Z * list log_call) :=
  lua_do (luaL_where 1);;
  v ← string_at (-1);
  let content := put_str (cstr v) tstring_new in
  lua_do (lua_pop 1);;
  s ← mget;
  let t := lua_type 1 s in
  content ← (if t =? LUA_TNIL then mret (put_str (lit "nil") content)
             else if t =? LUA_TNUMBER then
               if lua_isinteger 1 s then mret (put_s64 (lua_tointeger 1 s) content)
               else mret (put_float (double_to_float (lua_tonumber 1 s)) content)
             else if t =? LUA_TBOOLEAN then
               mret (put_str (if lua_toboolean 1 s then lit "true" else lit "false") content)
             else if t =? LUA_TSTRING then v ← string_at 1; mret (put_str (cstr v) content)
             else mret (put_s64 (s64 (lua_topointer 1 s)) (put_str (lit ":") (put_str (luaL_typename 1 s) content))));
  log ← mlift (LABEL_LOG g_logLvl LOG_LEVEL_DEBUG (lit "LUA") (where_ 172)
    (QUOTE ++ cstr (GetString content) ++ QUOTE));
  mret (0, log).

(** The arguments of a log that is filtered are not evaluated. *)
Definition trace (line : Z) (message : LM bytes) : LM (list log_call) :=
  if g_logLvl <=? LOG_LEVEL_TRACE then m ← message; mlift (TRACE_LOG g_logLvl (where_ line) (QUOTE ++ m ++ QUOTE))
  else mret [].

(** One element: a Boolean is treated as a number that is no integer. *)
Definition print_element (nIdx : Z) : LM (list log_call) :=
  s ← mget;
  let nType := lua_type nIdx s in
  let element value := lit "(i:" ++ fmt_d nIdx ++ lit ") " ++ lua_typename nType ++ lit "(" ++ value ++ lit ")" in
  if (nType =? LUA_TBOOLEAN) || (nType =? LUA_TNUMBER) then
    if lua_isinteger nIdx s then
      let val := double_to_s64 (lua_tonumber nIdx s) in
      trace 214 (mret (element (fmt_d val)))
    else trace 218 (mret (element (fmt_f (lua_tonumber nIdx s))))
  else trace 224 (v ← string_at nIdx; mret (element (cstr v))).

(** The loop, from the index [n] down to 1. *)
Fixpoint print_elements (n : nat) : LM (list log_call) :=
  match n with
  | O => mret []
  | S n' => l ← print_element (Z.of_nat n); l' ← print_elements n'; mret (l ++ l')
  end.

(** The UTF-8 text of the two rulers, whose Chinese words are parameters. *)
Definition PrintLuaStack (top_word bottom_word : bytes) : LM (list log_call) :=
  s ← mget;
  let stackTop := s32 (lua_gettop s) in
  l1 ← trace 201 (mret (lit " element count: " ++ fmt_d stackTop));
  l2 ← trace 202 (mret (lit "--" ++ top_word ++ lit "(v)(" ++ fmt_d stackTop ++ lit ")--"));
  l3 ← print_elements (Z.to_nat stackTop);
  l4 ← trace 227 (mret (lit "--" ++ bottom_word ++ lit "--"));
  mret (l1 ++ l2 ++ l3 ++ l4).

(** Unprotected: an error of the script leaves it. *)
Definition TestCallLuaFunction : LM () :=
  lua_try (lua_getglobal (lit "test"));;
  lua_do (lua_pushnumber (double_of 1));;
  lua_do (lua_pushnumber (double_of 2));;
  lua_try (lua_call 2 0).

Definition Destroy : LM bool := lua_do lua_close;; mret true.
End ScriptLog.

(** ** Properties *)

(** What the reference manual and the language say of these functions. *)
Class LuaDebugLaws {L : Lua} (LL : LuaLaws L) (D : LuaDebug L) : Prop := {
  where_law n s : room 1 s -> exists w, stack (luaL_where n s) = stack s ++ [LStr w] /\
    heap (luaL_where n s) = heap s /\ limit (luaL_where n s) = limit s;
  isinteger_law i s : lua_isinteger i s = match value_at (stack s) i with Some (LInt _) => true | _ => false end;
  tonumber_law i s : lua_tonumber i s =
    match value_at (stack s) i with
    | Some (LInt z) => double_of z
    | Some (LFloat b) => b
    | Some (LBool _) => double_of 0
    | _ => lua_tonumber i s
    end;
  (** [NULL] for what is neither a string nor a number. *)
  tostring_null i s v : value_at (stack s) i = Some v -> (forall t, v <> LStr t) -> type_code v <> LUA_TNUMBER ->
    lua_tostring i s = (None, s);
  double_exact z : - 2 ^ 53 <= z <= 2 ^ 53 -> double_to_s64 (double_of z) = z;
  double_s64 b : is_s64 (double_to_s64 b);
  typename_law t : no_nul (lua_typename t);
  fmt_f_law b : no_nul (fmt_f b)
}.

Lemma fmt_d_no_nul_s64 z : is_s64 z -> no_nul (fmt_d z).
Proof.
  intros Hz. unfold is_s64 in Hz. destruct (Z.ltb_spec z 0) as [Hn|]; [|apply fmt_d_no_nul; lia].
  unfold fmt_d. destruct (Z.ltb_spec z 0); [|lia]. constructor; [done|].
  rewrite <- (fmt_d_nonneg (- z)) by lia. apply fmt_d_no_nul. lia.
Qed.

Ltac text_no_nul :=
  rewrite ?no_nul_app; split_and?; try assumption;
  try lazymatch goal with |- no_nul (lit _) => apply (bool_decide_unpack _); vm_compute; reflexivity end.

Section Props.
Context {L : Lua} {LL : LuaLaws L} {D : LuaDebug L} {DL : LuaDebugLaws LL D} {TS : TString} {BB : Build}.
Variable g_logLvl : Z.
Variable where_ : Z -> site.
Hypothesis where_ok : forall l, no_nul (site_file (where_ l)) /\ no_nul (site_function (where_ l)) /\
  0 <= site_line (where_ l) < 2 ^ 31.

Lemma quoted_no_nul m : no_nul m -> no_nul (QUOTE ++ m ++ QUOTE).
Proof. intros Hm. apply no_nul_app. split; [|apply no_nul_app; split; [done|]]; by repeat constructor. Qed.

(** *** The stack *)

(** A value [PrintLuaStack] can print, and what it prints. *)
Definition shown (v : lvalue) : option bytes :=
  match v with
  | LInt z => Some (fmt_d (double_to_s64 (double_of z)))
  | LFloat b => Some (fmt_f b)
  | LBool _ => Some (fmt_f (double_of 0))
  | LStr t => Some (cstr t)
  | _ => None
  end.

(** The line of the source that prints it. *)
Definition shown_line (v : lvalue) : Z :=
  match v with LInt _ => 214 | LFloat _ | LBool _ => 218 | _ => 224 end.

Definition element_text (n : nat) (v : lvalue) (t : bytes) : bytes :=
  lit "(i:" ++ fmt_d (Z.of_nat n) ++ lit ") " ++ lua_typename (type_code v) ++ lit "(" ++ t ++ lit ")".

Definition logged (line : Z) (message : bytes) : list log_call :=
  [AsyncLog None (text_of (lit "TRACE") (where_ line) (QUOTE ++ message ++ QUOTE))].

(** The elements from the index [n] down. *)
Fixpoint listing (st : list lvalue) (n : nat) : option (list log_call) :=
  match n with
  | O => Some []
  | S n' =>
      v ← st !! n';
      t ← shown v;
      l ← listing st n';
      Some (logged (shown_line v) (element_text n v t) ++ l)
  end.

Lemma trace_logged line m s : g_logLvl <= LOG_LEVEL_TRACE -> no_nul m ->
  trace g_logLvl where_ line (mret m) s = Ok (logged line m, s).
Proof.
  intros Hg Hm. unfold trace. rewrite (proj2 (Z.leb_le _ _) Hg). unfold mbind at 1, M_bind at 1.
  unfold mret, M_ret. destruct (where_ok line) as (H1 & H2 & H3).
  unfold TRACE_LOG, mlift, mbind, outcome_bind. rewrite (proj2 (Z.leb_le _ _) Hg).
  rewrite log_text_spec; [done|done|done|done|by repeat constructor|by apply quoted_no_nul].
Qed.

Lemma trace_filtered line m s : LOG_LEVEL_TRACE < g_logLvl -> trace g_logLvl where_ line m s = Ok ([], s).
Proof. intros Hg. unfold trace. by rewrite (proj2 (Z.leb_gt _ _) Hg). Qed.

Lemma value_at_index (st : list lvalue) n : value_at st (Z.of_nat (S n)) = st !! n.
Proof. unfold value_at. rewrite (proj2 (Z.ltb_lt 0 _)) by lia. f_equal. lia. Qed.

Lemma element_no_nul n v t : Z.of_nat n < 2 ^ 31 -> no_nul t -> no_nul (element_text n v t).
Proof.
  intros Hn Ht. unfold element_text. text_no_nul.
  - apply fmt_d_no_nul. lia.
  - apply typename_law.
Qed.

Lemma shown_no_nul v t : shown v = Some t -> no_nul t.
Proof.
  destruct v; cbn [shown]; try done; intros [= <-];
    [apply fmt_f_law|apply fmt_d_no_nul_s64, double_s64|apply fmt_f_law|apply cstr_no_nul].
Qed.

(** One element, printed or not. *)
Lemma print_element_spec n v s : g_logLvl <= LOG_LEVEL_TRACE -> stack s !! n = Some v -> Z.of_nat (S n) < 2 ^ 31 ->
  print_element g_logLvl where_ (Z.of_nat (S n)) s =
    match shown v with
    | Some t => Ok (logged (shown_line v) (element_text (S n) v t), s)
    | None => Fault NullPointer
    end.
Proof.
  intros Hg Hv Hn. unfold print_element, mget, mbind at 1, M_bind at 1.
  rewrite type_law, isinteger_law, tonumber_law, value_at_index, Hv.
  assert (Ht : forall t, shown v = Some t -> no_nul (element_text (S n) v t)).
  { intros t Hs. apply element_no_nul; [done|by eapply shown_no_nul]. }
  destruct v; cbn [shown type_code shown_line] in *;
    try (apply (trace_logged _ _ _ Hg); by apply Ht).
  all: cbn [Z.eqb orb LUA_TBOOLEAN LUA_TNUMBER LUA_TNIL LUA_TSTRING LUA_TLIGHTUSERDATA LUA_TTABLE LUA_TFUNCTION
    LUA_TUSERDATA LUA_TTHREAD Pos.eqb].
  2:{ transitivity (trace g_logLvl where_ 224 (mret (element_text (S n) (LStr s0) (cstr s0))) s);
        [|apply (trace_logged _ _ _ Hg); by apply Ht].
      unfold trace. rewrite (proj2 (Z.leb_le _ _) Hg). unfold string_at, mget, mput, mlift, mret, M_ret, mbind, M_bind.
      by rewrite (tostring_law _ s s0) by (by rewrite value_at_index). }
  all: unfold trace; rewrite (proj2 (Z.leb_le _ _) Hg);
    unfold string_at, mget, mput, mlift, mret, M_ret, mbind, M_bind;
    by erewrite tostring_null by (rewrite ?value_at_index; done).
Qed.

Lemma print_elements_spec n s : g_logLvl <= LOG_LEVEL_TRACE -> (n <= length (stack s))%nat -> Z.of_nat n < 2 ^ 31 ->
  print_elements g_logLvl where_ n s =
    match listing (stack s) n with Some l => Ok (l, s) | None => Fault NullPointer end.
Proof.
  intros Hg. induction n as [|n IH]; intros Hn Hb; [done|]. cbn [print_elements listing].
  destruct (lookup_lt_is_Some_2 (stack s) n ltac:(lia)) as [v Hv]. rewrite Hv. cbn [mbind option_bind].
  unfold mbind at 1, M_bind at 1. rewrite (print_element_spec n v s Hg Hv Hb).
  destruct (shown v) as [t|]; cbn [option_bind]; [|done].
  unfold mbind, M_bind. rewrite IH by lia. by destruct (listing (stack s) n).
Qed.

Lemma print_elements_filtered n s : LOG_LEVEL_TRACE < g_logLvl -> print_elements g_logLvl where_ n s = Ok ([], s).
Proof.
  intros Hg. induction n as [|n IH]; [done|]. cbn [print_elements].
  assert (E : print_element g_logLvl where_ (Z.of_nat (S n)) s = Ok ([], s)).
  { unfold print_element, mget, mbind at 1, M_bind at 1.
    destruct (_ || _); [destruct (lua_isinteger _ s)|]; by apply trace_filtered. }
  rewrite (M_bind_Ok _ _ _ _ _ E), (M_bind_Ok _ _ _ _ _ IH). done.
Qed.

Lemma listing_shown (st : list lvalue) : is_Some (listing st (length st)) <-> Forall (fun v => is_Some (shown v)) st.
Proof.
  rewrite <- (firstn_all st) at 3. generalize (Nat.le_refl (length st)).
  generalize (length st) at 1 3 4 as n. induction n as [|n IH]; intros Hn; cbn [listing].
  { split; [intros _; apply Forall_nil_2|by eexists]. }
  destruct (lookup_lt_is_Some_2 st n ltac:(lia)) as [v Hv]. rewrite Hv, (take_S_r _ _ _ Hv), Forall_app, Forall_singleton.
  rewrite <- (IH ltac:(lia)). cbn [mbind option_bind].
  destruct (shown v) as [t|]; cbn [mbind option_bind]; [|by split; [intros [? ?]|intros [_ [? ?]]]].
  destruct (listing st n); cbn [mbind option_bind]; split; [by eauto|by eauto|by intros [? ?]|by intros [[? ?] _]].
Qed.

(** [PrintLuaStack] at every level and on every stack.  When trace logs
    are on and every value is a Boolean, a number or a string, it logs a head
    of two lines, one line for every element, the top first, and a last line,
    and leaves the state as it was (an integer is shown as it is up to
    [2^53], a Boolean as the number 0).  Any other value makes it pass the null
    pointer [lua_tostring] returns to a [%s].  When trace logs are off it does
    nothing. *)
Theorem PrintLuaStack_lists top_word bottom_word s : no_nul top_word -> no_nul bottom_word ->
  Z.of_nat (length (stack s)) < 2 ^ 31 ->
  (LOG_LEVEL_TRACE < g_logLvl -> PrintLuaStack g_logLvl where_ top_word bottom_word s = Ok ([], s)) /\
  (g_logLvl <= LOG_LEVEL_TRACE ->
   PrintLuaStack g_logLvl where_ top_word bottom_word s =
     match listing (stack s) (length (stack s)) with
     | Some l =>
         Ok (logged 201 (lit " element count: " ++ fmt_d (Z.of_nat (length (stack s)))) ++
             logged 202 (lit "--" ++ top_word ++ lit "(v)(" ++ fmt_d (Z.of_nat (length (stack s))) ++ lit ")--") ++
             l ++ logged 227 (lit "--" ++ bottom_word ++ lit "--"), s)
     | None => Fault NullPointer
     end) /\
  (is_Some (listing (stack s) (length (stack s))) <-> Forall (fun v => is_Some (shown v)) (stack s)) /\
  (forall z, - 2 ^ 53 <= z <= 2 ^ 53 -> shown (LInt z) = Some (fmt_d z)).
Proof.
  intros Ht Hb Hl. set (n := length (stack s)) in *.
  assert (Htop : s32 (lua_gettop s) = Z.of_nat n) by (rewrite gettop_law; apply s32_small; unfold is_s32; lia).
  assert (Hd : no_nul (fmt_d (Z.of_nat n))) by (apply fmt_d_no_nul; lia).
  assert (H1 : no_nul (lit " element count: " ++ fmt_d (Z.of_nat n))) by text_no_nul.
  assert (H2 : no_nul (lit "--" ++ top_word ++ lit "(v)(" ++ fmt_d (Z.of_nat n) ++ lit ")--")) by text_no_nul.
  assert (H3 : no_nul (lit "--" ++ bottom_word ++ lit "--")) by text_no_nul.
  split_and!.
  - intros Hg. unfold PrintLuaStack, mget, mbind at 1, M_bind at 1.
    rewrite !(M_bind_Ok _ _ _ _ _ (trace_filtered _ _ _ Hg)), (M_bind_Ok _ _ _ _ _ (print_elements_filtered _ _ Hg)).
    by rewrite (M_bind_Ok _ _ _ _ _ (trace_filtered _ _ _ Hg)).
  - intros Hg. unfold PrintLuaStack, mget, mbind at 1, M_bind at 1. rewrite Htop, Nat2Z.id.
    rewrite (M_bind_Ok _ _ _ _ _ (trace_logged 201 _ s Hg H1)), (M_bind_Ok _ _ _ _ _ (trace_logged 202 _ s Hg H2)).
    unfold mbind at 1, M_bind at 1. rewrite print_elements_spec by done.
    destruct (listing (stack s) n) as [l|]; [|done].
    by rewrite (M_bind_Ok _ _ _ _ _ (trace_logged 227 _ s Hg H3)).
  - apply listing_shown.
  - intros z Hz. cbn [shown]. by rewrite double_exact.
Qed.

(** *** [print] *)

(** The text of the first argument, [None] for none, in the state [s]. *)
Definition rendered (v : option lvalue) (s : lua_State) (content : tstring) : tstring :=
  match v with
  | Some LNil => put_str (lit "nil") content
  | Some (LBool b) => put_str (if b then lit "true" else lit "false") content
  | Some (LInt z) => put_s64 z content
  | Some (LFloat bits) => put_float (double_to_float bits) content
  | Some (LStr t) => put_str (cstr t) content
  | _ => put_s64 (s64 (lua_topointer 1 s)) (put_str (lit ":") (put_str
           (lua_typename match v with Some v => type_code v | None => LUA_TNONE end) content))
  end.

(** [print] shows the position of the caller and its first argument, one log
    of the level debug, whatever the other arguments are; it returns nothing
    and leaves the stack and the tables as they were. *)
Theorem Log_prints s : room 1 s ->
  exists w s', stack s' = stack s /\ heap s' = heap s /\ limit s' = limit s /\
    Log g_logLvl where_ s =
      Ok ((0, if g_logLvl <=? LOG_LEVEL_DEBUG then
                [AsyncLog None (text_of (lit "LUA") (where_ 172)
                   (QUOTE ++ cstr (GetString (rendered (stack s !! 0%nat) s' (put_str (cstr w) tstring_new))) ++ QUOTE))]
              else []), s').
Proof.
  intros Hr. destruct (where_law 1 s Hr) as (w & S1 & H1 & L1).
  set (s1 := luaL_where 1 s) in *. destruct (settop_law s1 (stack s) [LStr w] S1) as (S2 & H2 & L2).
  set (s2 := lua_pop 1 s1). change (lua_settop (- Z.of_nat (length [LStr w]) - 1) s1) with s2 in *.
  assert (Ew : string_at (-1) s1 = Ok (w, s1)).
  { unfold string_at, mget, mput, mlift, mbind, M_bind, outcome_bind.
    rewrite (tostring_law (-1) s1 w) by (rewrite S1; by apply (value_at_neg (stack s) (LStr w) [])). done. }
  exists w, s2. split_and!; [done|congruence|congruence|]. unfold Log.
  rewrite (M_bind_Ok _ _ _ _ _ (lua_do_ok (luaL_where 1) s)). fold s1. rewrite (M_bind_Ok _ _ _ _ _ Ew).
  rewrite (M_bind_Ok _ _ _ _ _ (lua_do_ok (lua_pop 1) s1)). fold s2. rewrite (M_bind_Ok _ _ s2 s2 s2) by done.
  set (content := put_str (cstr w) tstring_new).
  rewrite (M_bind_Ok _ _ _ (rendered (stack s !! 0%nat) s2 content) s2).
  - set (text := cstr (GetString _)). destruct (where_ok 172) as (W1 & W2 & W3).
    unfold LABEL_LOG, mlift, mbind, M_bind, outcome_bind. rewrite log_text_spec;
      [by destruct (g_logLvl <=? _)|done|done|done|by repeat constructor|apply quoted_no_nul, cstr_no_nul].
  - assert (Hv : value_at (stack s2) 1 = stack s !! 0%nat) by (rewrite S2; exact (value_at_index (stack s) 0)).
    unfold luaL_typename. rewrite type_law, isinteger_law, tonumber_law, Hv.
    destruct (stack s !! 0%nat) as [[]|] eqn:E; cbn [rendered type_code]; try done.
    + by rewrite (toboolean_law 1 s2 b).
    + by rewrite (tointeger_law 1 s2 z).
    + change ((v ← string_at 1; mret (put_str (cstr v) content)) s2 = Ok (put_str (cstr s0) content, s2)).
      unfold string_at, mget, mput, mlift, mret, M_ret, mbind, M_bind, outcome_bind.
      by rewrite (tostring_law 1 s2 s0).
Qed.
End Props.

(** ** A concrete library *)

Module ScriptLogExample.
Import ScriptedLua.
#[export] Instance lua : Lua := ScriptedLua.lib (fun _ _ _ => None).

(** Doubles are shown by their integer part here. *)
#[export] Instance debug : LuaDebug lua := {|
  luaL_where := fun _ s => push (LStr (lit "main.lua:1: ")) (s : state);
  lua_isinteger := fun i s => match value_at (stk s) i with Some (LInt _) => true | _ => false end;
  lua_tonumber := fun i s =>
    match value_at (stk s) i with Some (LInt z) => z | Some (LFloat b) => b | _ => 0 end;
  lua_topointer := fun _ _ => 0;
  lua_typename := fun t =>
    if t =? LUA_TNUMBER then lit "number" else if t =? LUA_TSTRING then lit "string"
    else if t =? LUA_TBOOLEAN then lit "boolean" else lit "other";
  lua_pushnumber := fun b => push (LFloat b);
  lua_call := fun _ _ _ => None;
  lua_close := fun s => s;
  double_of := fun z => z;
  double_to_s64 := s64;
  double_to_float := fun b => b;
  fmt_f := fun b => cstr (fmt_d b ++ lit ".000000")
|}.

#[export] Instance debug_laws : LuaDebugLaws (ScriptedLua.laws _) debug.
Proof.
  split.
  - intros n s _. by eexists.
  - done.
  - intros i s. cbn. destruct (value_at (stk s) i) as [[]|]; done.
  - intros i s v Hv Hs Hn. cbn in Hv |- *. unfold tostring. rewrite Hv. by destruct v as [| | | |t| | | | |]; try done; destruct (Hs t).
  - intros z Hz. cbn. apply s64_small. unfold is_s64. lia.
  - intros b. apply (swrap_range 64). lia.
  - intros t. cbn. repeat case_match; apply (bool_decide_unpack _); vm_compute; reflexivity.
  - intros b. apply cstr_no_nul.
Qed.

#[export] Instance text : TString := {|
  tstring := bytes;
  tstring_new := [];
  put_str := fun a t => t ++ a;
  put_s64 := fun z t => t ++ fmt_d z;
  put_float := fun b t => t ++ fmt_d b;
  GetString := fun t => t
|}.

Definition here (line : Z) : site := mkSite (lit "src/ScriptEngine.cpp") (Z.max 0 (Z.min line 1000)) (lit "f").

Lemma here_ok l : no_nul (site_file (here l)) /\ no_nul (site_function (here l)) /\ 0 <= site_line (here l) < 2 ^ 31.
Proof.
  split; [apply (bool_decide_unpack _); vm_compute; reflexivity|].
  split; [apply (bool_decide_unpack _); vm_compute; reflexivity|]. cbn [site_line here]. lia.
Qed.

Definition three : @lua_State lua := mkState [LInt 5; LBool true; LStr (lit "x")] [[]] [] [] 20.
End ScriptLogExample.
Import ScriptLogExample.

Lemma PrintLuaStack_lists_witness : exists head last,
  PrintLuaStack LOG_LEVEL_DEBUG here (lit "top") (lit "bottom") three =
    Ok (head ++ [AsyncLog None (lit "[TRACE]: ScriptEngine.cpp:224:f | " ++ spelled (lit "(i:3) string(x)"));
                 AsyncLog None (lit "[TRACE]: ScriptEngine.cpp:218:f | " ++ spelled (lit "(i:2) boolean(0.000000)"));
                 AsyncLog None (lit "[TRACE]: ScriptEngine.cpp:214:f | " ++ spelled (lit "(i:1) number(5)"))] ++ last,
        three).
Proof.
  destruct (PrintLuaStack_lists LOG_LEVEL_DEBUG here here_ok (lit "top") (lit "bottom") three)
    as (_ & H & _ & _); try (apply (bool_decide_unpack _); vm_compute; reflexivity).
  do 2 eexists. rewrite H by (unfold LOG_LEVEL_DEBUG, LOG_LEVEL_TRACE; lia).
  cbn [listing]. rewrite <- app_assoc. reflexivity.
Defined.
