(* ===== verification/ScriptEngineTest.v ===== *)
(** * The script engine's unit test (Logic/UnitTest/unittest/ScriptEngineTest.h, .cpp)

    A client of the script engine on both sides: it calls the functions of
    [Config/envir/script/test/func.lua] and [exceptionfunc.lua], and those call
    the C++ functions it has registered, so that C++ and Lua call each other
    recursively.  [script] and [test_script] are those two script files; the
    class [ScriptHost] states that the interpreter runs them, once the functions
    they call are registered.  A check logs a success, or fails an assertion
    and, without assertions, logs an error: [check] is what it logs.  The
    theorem runs the whole test, from its registrations on. *)
From Stdlib Require Import ZArith Lia Ascii.
From stdpp Require Import base numbers list list_numbers strings.
From S2P Require Import Prelude Kernel LuaApi LuaInterchange ScriptEngine ScriptEngineProps.
Open Scope Z_scope.

Record PlayerInfo : Type := mkPlayer { name : bytes; id : Z }.

(** The function objects of the three C++ functions a script can call. *)
Class TestObjects (L : Lua) : Type := {
  fib_object : func_object;
  player_object : func_object;
  exception_object : func_object
}.

Section ScriptEngineTest.
Context {L : Lua} {BB : Build} {TO : TestObjects L}.

Abbreviation LM := (M lua_State).

Definition u16 (z : Z) : Z := uwrap 16 z.

(** The address of the test's own player, a local variable. *)
Variable player : Z.
(** What an uninitialised [int32_t] holds. *)
Variable uninit : Z.

(** ** The checks *)

(** Which branch of a check the test takes: the one that logs a success
    ([IMPORTANT_LOG], [TRACE_LOG]), or the other.  That one is an [ASSERT],
    which aborts a debug build, and then an [ERROR_LOG] (except for the
    check of the echo, which has none). *)
Inductive check : Type := Success | Failure.

Definition check_that (ok : bool) : LM (list check) :=
  if ok then mret [Success] else mlift (ASSERT false);; mret [Failure].

(** ** Calls with one argument and one result *)

Definition testLuaCallEcho (content : bytes) : LM bytes :=
  let outPutFun := Some (fun output => WriteStr output content) in
  let readFun := Some (fun input =>
    '(_, content) ← ReadStr input None;
    mret match content with Some c => cstr c | None => [] end) in
  '(_, ret) ← CallScriptFunc (lit "test.func") (lit "testEcho") outPutFun readFun;
  mret (default [] ret).

Definition testCallLuaFun : LM (list check) :=
  let content := lit "this is test echo" in
  echo ← testLuaCallEcho content;
  check_that (bool_decide (echo = content)).

(** The calls with an integer: [ret] is what the variable holds before. *)
Definition read_s32 (ret : Z) : IDataCallBackFuncType Z :=
  Some (fun input => '(_, ret) ← ReadInt32 input ret; mret ret).
Definition read_s64 (ret : Z) : IDataCallBackFuncType Z :=
  Some (fun input => '(_, ret) ← ReadInt64 input ret; mret ret).
Definition write_s32 (num : Z) : IDataOutputFuncType := Some (fun output => WriteInt32 output num).

Definition testLuaPtr (playerInfo : Z) : LM Z :=
  '(_, ret) ← CallScriptFunc (lit "test.func") (lit "testPoint")
    (Some (fun output => WritePtr output playerInfo (lit "PlayerInfo"))) (read_s32 uninit);
  mret (default uninit ret).

(** The test's player, and what is at an address. *)
Definition playerId : Z := 10.
Definition playerInfo : PlayerInfo := mkPlayer (lit "xuping") playerId.
Definition player_at (p : Z) : option PlayerInfo := if p =? player then Some playerInfo else None.

Definition testInputPtrToLua : LM (list check) :=
  retId ← testLuaPtr player;
  check_that (retId =? playerId).

Definition getPlayerId : IDataInterchangeFuncType := fun input out =>
  '(_, tmp) ← ReadPtr input 0 (lit "PlayerInfo");
  if negb (tmp =? 0) then
    p ← mlift (of_option BadCall (player_at tmp));
    WriteInt32 out (s32 (id p))
  else mret out.

(** The recursion, with fuel. *)
Fixpoint fib_loop (fuel : nat) (num : Z) : outcome Z :=
  match fuel with
  | O => OutOfFuel
  | S fuel' =>
      if num <=? 2 then Ok 1 else
      a ← fib_loop fuel' (u16 (num - 1));
      b ← fib_loop fuel' (u16 (num - 2));
      Ok (s64 (a + b))
  end.

Definition FibNumber (num : Z) : outcome Z := fib_loop (S (Z.to_nat num)) num.

Definition testFibNumber (num : Z) : LM Z :=
  if num <=? 2 then mret 1 else
  '(_, ret) ← CallScriptFunc (lit "test.func") (lit "testFibNum") (write_s32 num) (read_s64 0);
  mret (default 0 ret).

Definition callFibNumer : IDataInterchangeFuncType := fun input out =>
  '(_, num) ← ReadInt32 input 0;
  if num <=? 2 then WriteInt64 out 1 else v ← testFibNumber num; WriteInt64 out v.

(** The [for] loop from [i] on, with [n] iterations left. *)
Fixpoint compare_fib (n : nat) (i : Z) : LM (list check) :=
  match n with
  | O => mret []
  | S n' =>
      tmp ← mlift (FibNumber i);
      tmpLua ← testFibNumber i;
      c ← check_that (tmp =? tmpLua);
      cs ← compare_fib n' (u16 (i + 1));
      mret (c ++ cs)
  end.

Definition testLoopCall : LM (list check) := let num := 10 in compare_fib (Z.to_nat (num - 1)) 1.

Definition callTestReload (num : Z) : LM Z :=
  '(_, ret) ← CallScriptFunc (lit "test.func") (lit "testReload") (write_s32 num) (read_s32 0);
  mret (default 0 ret).

(** Not run: it expects the script to be edited in between. *)
Definition testLuaReload : LM (list check) :=
  ret ← callTestReload 10;
  ReloadScript (lit "test.func");;
  ret2 ← callTestReload 10;
  check_that (negb (ret =? ret2)).

(** ** Scripts that fail *)

(** The callback of this one logs an error when it runs. *)
Definition testErrorLuaFile : LM (list check) :=
  '(exeRet, ret) ← CallScriptFunc (lit "test.errorfunc") (lit "testEcho") (write_s32 1) (read_s32 0);
  c ← check_that (negb exeRet);
  mret (match ret with Some _ => [Failure] | None => [] end ++ c).

Definition testExceptionLuaFunc : LM (list check) :=
  '(exeRet, _) ← CallScriptFunc (lit "test.exceptionfunc") (lit "testEcho") (write_s32 1) (read_s32 0);
  check_that (negb exeRet).

Definition testInnerExceptionLuaFunc : LM (list check) :=
  '(exeRet, _) ← CallScriptFunc (lit "test.exceptionfunc") (lit "testCallExcptionLuaFunc") (write_s32 1) (read_s32 0);
  check_that exeRet.

Definition callExceptionLuaFunc : IDataInterchangeFuncType := fun input out =>
  ReadInt32 input 0;;
  '(_, ret) ← CallScriptFunc (lit "test.exceptionfunc") (lit "testEcho") (write_s32 1) (read_s32 0);
  WriteInt32 out (default 0 ret).

(** What [StartTest] does after the registrations: what it logs, in order. *)
Definition run_tests : LM (list check) :=
  c1 ← testCallLuaFun;
  c2 ← testLoopCall;
  c3 ← testInputPtrToLua;
  c4 ← testErrorLuaFile;
  c5 ← testExceptionLuaFunc;
  c6 ← testInnerExceptionLuaFunc;
  mret (c1 ++ c2 ++ c3 ++ c4 ++ c5 ++ c6).

Definition StartTest : LM (list check) :=
  RegModuleFunc (lit "scripttest") (lit "callFibNumer") fib_object;;
  RegModuleFunc (lit "scripttest") (lit "getPlayerId") player_object;;
  RegModuleFunc (lit "scripttest") (lit "callExceptionLuaFunc") exception_object;;
  run_tests.
End ScriptEngineTest.

(** ** The scripts *)

(** What a script function does, up to its calls of registered functions:
    [args] are a call's arguments and the continuation gets its results. *)
Inductive script {L : Lua} : Type :=
  | SReturn (vs : list lvalue)
  | SRaise
  | SCall (f : func_object) (args : list lvalue) (k : list lvalue -> script).

Section Scripts.
Context {L : Lua} {LL : LuaLaws L} {TO : TestObjects L}.
Variable player : Z.

(** A missing argument or result is [nil]. *)
Definition nth_value (vs : list lvalue) (i : nat) : lvalue := default LNil (vs !! i).

(** [..] takes strings and numbers. *)
Definition printable (v : lvalue) : bool :=
  match v with LStr _ | LInt _ | LFloat _ => true | _ => false end.

Definition add (v w : lvalue) : script :=
  match v, w with LInt a, LInt b => SReturn [LInt (s64 (a + b))] | _, _ => SRaise end.

(** *** func.lua *)

Definition testEcho (x : lvalue) : script := if printable x then SReturn [x] else SRaise.

Definition testFibNum (x : Z) : script :=
  SCall fib_object [LInt (s64 (x - 1)); LInt x] (fun r1 =>
  SCall fib_object [LInt (s64 (x - 2)); LInt x] (fun r2 =>
  add (nth_value r1 0) (nth_value r2 0))).

Definition testPoint (pPlayer : lvalue) : script :=
  SCall player_object [pPlayer] (fun r =>
  let playerId := nth_value r 0 in
  if printable playerId then SReturn [playerId] else SRaise).

(** *** exceptionfunc.lua *)

(** It appends a [nil] to a string. *)
Definition testEcho_exception (x : lvalue) : script := SRaise.

Definition testCallExcptionLuaFunc (x : lvalue) : script :=
  if printable x then SCall exception_object [x] (fun r => SReturn [nth_value r 0]) else SRaise.

(** The table [WritePtr] makes for the test's player. *)
Definition is_pointer (h : lheap) (v : lvalue) : bool :=
  match v with
  | LTable r => match tab h r PTR_INDEX with
                | LLight p => (p =? player) && bool_decide (tab h r TYPE_INDEX = LStr (lit "PlayerInfo"))
                | _ => false
                end
  | _ => false
  end.

(** [call(m, f, ...)] of link.lua, on the modules and the kinds of argument of
    the test.  [errorfunc.lua] does not parse, so [require] raises.  [None]: not
    described. *)
Definition test_script (h : lheap) (m f : bytes) (args : list lvalue) : option script :=
  let x := nth_value args 0 in
  if bool_decide (m = lit "test.func") then
    if bool_decide (f = lit "testEcho") then Some (testEcho x)
    else if bool_decide (f = lit "testFibNum") then match x with LInt z => Some (testFibNum z) | _ => None end
    else if bool_decide (f = lit "testPoint") then if is_pointer h x then Some (testPoint x) else None
    else None
  else if bool_decide (m = lit "test.exceptionfunc") then
    if bool_decide (f = lit "testEcho") then Some (testEcho_exception x)
    else if bool_decide (f = lit "testCallExcptionLuaFunc") then
      match x with LInt _ => Some (testCallExcptionLuaFunc x) | _ => None end
    else None
  else if bool_decide (m = lit "test.errorfunc") then Some SRaise
  else None.
End Scripts.

(** ** The interpreter runs them *)

Section Host.
Context {L : Lua} {LL : LuaLaws L} {BB : Build}.
Variable deref : func_object -> option IDataInterchangeFuncType.
Variable fine : lheap -> Prop.

(** If each call of the script, in whatever frame Lua makes for it, returns
    (its results are the topmost values) and keeps the heap [fine], then [Q]
    holds of the script's results; [None]: it raises. *)
Fixpoint runs (sc : script) (h : lheap) (Q : option (list lvalue) -> Prop) : Prop :=
  match sc with
  | SReturn vs => Q (Some vs)
  | SRaise => Q None
  | SCall f args k => forall s, stack s = args -> lua_upvalue s = Some f -> limit s = (length args + 20)%nat ->
      heap_ext h (heap s) -> fine (heap s) ->
      exists n s' below rs, LuaCall deref s = Ok (n, s') /\ stack s' = below ++ rs /\ Z.of_nat (length rs) = n /\
        fine (heap s') /\ runs (k rs) (heap s') Q
  end.

(** The results a call asks for. *)
Definition eight (vs : list lvalue) : list lvalue := take 8 (vs ++ replicate 8 LNil).

Definition pcall_gives (st : list lvalue) (r : option (list lvalue)) (code : Z) (s1 : lua_State) : Prop :=
  match r with
  | Some vs => code = LUA_OK /\ stack s1 = st ++ eight vs
  | None => code <> LUA_OK
  end.
End Host.

(** *** The registrations *)

Section Registrations.
Context {L : Lua} {LL : LuaLaws L} {TO : TestObjects L}.

Definition module_path : bytes := lit "serverd." ++ lit "scripttest".

(** The names the registrations give values to. *)
Definition test_names : list bytes :=
  [module_path; lit "callFibNumer"; lit "getPlayerId"; lit "callExceptionLuaFunc"].

Lemma fixed_names : (PACKAGE ∉ test_names) /\ (PKG_MODULE_INDEX ∉ test_names).
Proof. apply (bool_decide_unpack _). by vm_compute. Qed.

(** The tables of the engine as its start leaves them: the globals, [package]
    ([p]) and its table of loaded modules ([l]), where the test's module may
    be. *)
Record engine_tables (h : lheap) (p l : Z) : Prop := {
  et_globals : plain h GLOBALS;
  et_package : tab h GLOBALS PACKAGE = LTable p;
  et_package_plain : plain h p;
  et_loaded : tab h p PKG_MODULE_INDEX = LTable l;
  et_loaded_plain : plain h l;
  et_module : tab h l module_path = LNil \/
    exists m, tab h l module_path = LTable m /\ plain h m /\ m <> l
}.

(** The table [m] has, under [fn], a closure over [f]. *)
Definition has_function (h : lheap) (m : Z) (fn : bytes) (f : func_object) : Prop :=
  exists c, tab h m fn = LFun c /\ upval h c = Some f.

(** The three functions are registered. *)
Definition registered (h : lheap) : Prop := exists p l m,
  engine_tables h p l /\ tab h l module_path = LTable m /\ plain h m /\
  has_function h m (lit "callFibNumer") fib_object /\
  has_function h m (lit "getPlayerId") player_object /\
  has_function h m (lit "callExceptionLuaFunc") exception_object.

(** Nothing else has changed. *)
Definition others_kept (h h' : lheap) : Prop := forall r, plain h r ->
  plain h' r /\ forall k, k ∉ test_names -> tab h' r k = tab h r k.

#[export] Instance others_kept_preorder : PreOrder others_kept.
Proof.
  split; [by split|]. intros h1 h2 h3 H12 H23 r Hr. destruct (H12 r Hr) as [Hr2 E2].
  destruct (H23 r Hr2) as [Hr3 E3]. split; [done|]. intros k Hk. by rewrite E3, E2.
Qed.
End Registrations.

(** [ready k h]: the engine has run link.lua, [require] finds the test's
    scripts, and [k] calls of C from Lua fit (the interpreter allows about
    200).  [linked k h]: the test's functions are registered too, so that the
    scripts run. *)
Class ScriptHost (L : Lua) {LL : LuaLaws L} {BB : Build} {TO : TestObjects L} (player : Z) : Type := {
  deref : func_object -> option IDataInterchangeFuncType;
  deref_fib : deref fib_object = Some callFibNumer;
  deref_player : deref player_object = Some (getPlayerId player);
  deref_exception : deref exception_object = Some callExceptionLuaFunc;
  ready : nat -> lheap -> Prop;
  linked : nat -> lheap -> Prop;
  ready_tables : forall k h, ready k h -> exists p l, engine_tables h p l;
  ready_linked : forall k h h', ready k h -> others_kept h h' -> registered h' -> linked k h';
  linked_call : forall k h, linked k h -> plain h GLOBALS /\ exists f, tab h GLOBALS CALL_FUNCTION = LFun f;
  linked_ext : forall k h h', linked k h -> heap_ext h h' -> linked k h';
  call_runs : forall k s st f m fn args sc msgh Q,
    linked (S k) (heap s) -> tab (heap s) GLOBALS CALL_FUNCTION = LFun f ->
    stack s = st ++ LFun f :: LStr m :: LStr fn :: args ->
    test_script player (heap s) m fn args = Some sc -> runs deref (linked k) sc (heap s) Q ->
    exists code s1 r, lua_pcall (Z.of_nat (length args) + 2) LUA_RESULT_COUNT msgh s = (code, s1) /\
      pcall_gives st r code s1 /\ Q r /\ linked (S k) (heap s1)
}.

Section Calls.
Context {L : Lua} {LL : LuaLaws L} {BB : Build}.

Lemma eight_length vs : length (eight vs) = 8%nat.
Proof. unfold eight. rewrite length_take, length_app, length_replicate. lia. Qed.

Lemma eight_cons v vs : exists rest, eight (v :: vs) = v :: rest.
Proof. unfold eight. cbn [app take]. by eexists. Qed.

(** The callback reads [a] in the results [vs] of a script. *)
Definition reads {A} (cb : IDataCallBackFuncType A) (vs : list lvalue) (a : A) : Prop :=
  forall base s, stack s = base ++ eight vs -> room 1 s -> exists s',
    run_callback cb (results_stream base (eight vs)) s = Ok (Some a, s') /\ stack s' = stack s /\
    heap s' = heap s /\ limit s' = limit s.

Lemma first_cursor base v rest : v <> LNil -> at_cursor (results_stream base (v :: rest)) base.
Proof.
  intros Hv. unfold at_cursor, results_stream. cbn [_index _start _count]. split; [lia|].
  assert (Hn : forall l, 0 <= leading l) by (intros l; induction l as [|[] l IH]; cbn [leading]; lia).
  specialize (Hn rest). destruct v; cbn [leading]; done || lia.
Qed.

Lemma reads_integer cast z vs ret : cast z = z ->
  reads (Some (fun i => '(_, r) ← read_integer cast i ret; mret r)) (LInt z :: vs) z.
Proof.
  intros Hz base s Hs _. destruct (eight_cons (LInt z) vs) as [rest E]. rewrite E in *. exists s. split; [|done].
  cbn [run_callback]. rewrite (M_bind_Ok _ _ s z s); [done|].
  by rewrite (M_bind_Ok _ _ _ _ _ (read_integer_ok cast _ ret s base z rest Hs (first_cursor base (LInt z) rest ltac:(done)) Hz)).
Qed.

Lemma reads_string (v : bytes) vs : no_nul v ->
  reads (Some (fun input => '(_, content) ← ReadStr input None;
    mret match content with Some c => cstr c | None => [] end)) (LStr v :: vs) v.
Proof.
  intros Hv base s Hs Hr. destruct (eight_cons (LStr v) vs) as [rest E]. rewrite E in *.
  destruct (ReadStr_ok (results_stream base (LStr v :: rest)) None s base v rest Hs Hv) as (s' & E' & S' & H' & L');
    [by apply first_cursor|unfold room in Hr; lia|].
  exists s'. split; [|done]. cbn [run_callback]. rewrite (M_bind_Ok _ _ s v s'); [done|].
  rewrite (M_bind_Ok _ _ _ _ _ E'). by rewrite (cstr_id _ Hv).
Qed.

(** What a script call gives its caller. *)
Definition call_gives {A} (s : lua_State) (P : lheap -> Prop) (cb : IDataCallBackFuncType A)
    (r : option (list lvalue)) (o : outcome ((bool * option A) * lua_State)) : Prop :=
  match r with
  | None => exists s', o = Ok ((false, None), s') /\ stack s' = stack s /\ P (heap s') /\ limit s' = limit s
  | Some vs => forall a, reads cb vs a -> exists s',
      o = Ok ((true, Some a), s') /\ stack s' = stack s /\ P (heap s') /\ limit s' = limit s
  end.

(** A script call, from what its protected call gives. *)
Lemma call_from_pcall {A} s m fn ds (cb : IDataCallBackFuncType A) f (P : lheap -> Prop) Q :
  no_nul m -> no_nul fn -> Forall datum_ok ds -> (length ds <= 125)%nat -> room (length ds + 10) s ->
  plain (heap s) GLOBALS -> tab (heap s) GLOBALS CALL_FUNCTION = LFun f ->
  (forall s0 st vs msgh, stack s0 = st ++ LFun f :: LStr m :: LStr fn :: vs -> Forall2 (LuaInterchange.holds (heap s0)) ds vs ->
     heap_ext (heap s) (heap s0) ->
     exists code s1 r, lua_pcall (Z.of_nat (length ds) + 2) LUA_RESULT_COUNT msgh s0 = (code, s1) /\
       pcall_gives st r code s1 /\ Q r /\ P (heap s1)) ->
  exists r, Q r /\ call_gives s P cb r (CallScriptFunc m fn (Some (fun o => write_all o ds)) cb s).
Proof.
  intros Hm Hf Hd Hlen Hr Hp Hc Hpcall. unfold room in Hr.
  destruct (CallScriptFunc_spec s m fn ds cb f Hm Hf Hd Hlen ltac:(unfold room; lia) Hp Hc)
    as (s0 & msgh & code & s1 & vs & S0 & V & X & E & O).
  rewrite app_assoc in S0. destruct (Hpcall s0 _ vs msgh S0 V X) as (code' & s1' & r & E' & G & HQ & HP).
  rewrite E in E'. injection E' as <- <-. exists r. split; [exact HQ|].
  destruct O as [[Hne (s' & Er & S' & H' & L')]|[-> (rs & Hrs & S1 & L1 & O)]].
  - destruct r as [vs'|]; [by destruct G|]. exists s'. rewrite H'. by split_and!.
  - destruct r as [vs'|]; [|done]. destruct G as [_ G]. intros a Ha. rewrite app_assoc in S1. rewrite S1 in G.
    apply app_inv_head in G as ->. destruct (Ha _ s1 S1) as (s2 & E2 & S2 & H2 & L2).
    { unfold room. rewrite S1, L1, !length_app, eight_length.
      assert (length (trace_values (heap s)) <= 1)%nat by (unfold trace_values; cbv zeta; destruct (is_fun _); cbn; lia).
      lia. }
    destruct (O _ _ E2 S2) as (s' & Er & S' & H' & L'). exists s'. rewrite H', H2, L', L2. by split_and!.
Qed.

(** Writers that write the same. *)
Lemma CallScriptFunc_ext {A} m fn f g (cb : IDataCallBackFuncType A) s : (forall o s, f o s = g o s) ->
  CallScriptFunc m fn (Some f) cb s = CallScriptFunc m fn (Some g) cb s.
Proof. intros H. unfold CallScriptFunc. apply M_bind_ext. intros o s'. unfold mbind, M_bind. by rewrite H. Qed.

Lemma write_one d o s : write_datum o d s = write_all o [d] s.
Proof. unfold write_all, mbind, M_bind. by destruct (write_datum o d s) as [[]| |]. Qed.
End Calls.

(** ** Fibonacci numbers *)

Fixpoint fib_pair (n : nat) : Z * Z :=
  match n with
  | O => (0, 1)
  | S n' => let '(a, b) := fib_pair n' in (b, a + b)
  end.

Definition fib (n : nat) : Z := fst (fib_pair n).

(** The number for [num], which is 1 up to 2, in 64 bits. *)
Definition fib_value (num : Z) : Z := if num <=? 2 then 1 else s64 (fib (Z.to_nat num)).

Lemma fib_SS n : fib (S (S n)) = fib (S n) + fib n.
Proof. unfold fib. cbn [fib_pair]. destruct (fib_pair n). cbn. lia. Qed.

Lemma fib_value_range num : is_s64 (fib_value num).
Proof. unfold fib_value. destruct (num <=? 2); [unfold is_s64; lia|]. apply (swrap_range 64). lia. Qed.

Lemma fib_value_pos num : 0 < num -> fib_value num = s64 (fib (Z.to_nat num)).
Proof.
  intros H. unfold fib_value. destruct (Z.leb_spec num 2); [|done].
  assert (num = 1 \/ num = 2) as [-> | ->] by lia; reflexivity.
Qed.

Lemma fib_value_rec num : 2 < num -> fib_value num = s64 (fib_value (num - 1) + fib_value (num - 2)).
Proof.
  intros H. rewrite !fib_value_pos by lia. rewrite s64_add. f_equal.
  replace (Z.to_nat num) with (S (S (Z.to_nat (num - 2)))) by lia. rewrite fib_SS.
  by replace (S (Z.to_nat (num - 2))) with (Z.to_nat (num - 1)) by lia.
Qed.

Lemma fib_loop_value fuel num : 0 <= num < 2 ^ 16 -> (Z.to_nat num < fuel)%nat ->
  fib_loop fuel num = Ok (fib_value num).
Proof.
  revert num. induction fuel as [|fuel IH]; intros num Hn Hf; [lia|]. cbn [fib_loop].
  destruct (Z.leb_spec num 2); [unfold fib_value; by destruct (Z.leb_spec num 2); [|lia]|].
  unfold u16, uwrap. rewrite !Z.mod_small, !IH by lia. cbn. by rewrite <- fib_value_rec.
Qed.

(** ** Single calls, from what the scripts give *)

Section Frames.
Context {L : Lua} {LL : LuaLaws L} {BB : Build} {TO : TestObjects L}.
Variable P : lheap -> Prop.

Definition same_stack (s s' : lua_State) : Prop := stack s' = stack s /\ P (heap s') /\ limit s' = limit s.

(** The calls with an [s32]. *)
Definition int_call {A} (m fn : bytes) (num : Z) (cb : IDataCallBackFuncType A) : M lua_State (bool * option A) :=
  CallScriptFunc m fn (write_s32 num) cb.

Lemma int_call_writes {A} m fn num (cb : IDataCallBackFuncType A) s :
  int_call m fn num cb s = CallScriptFunc m fn (Some (fun o => write_all o [DInt32 num])) cb s.
Proof. apply CallScriptFunc_ext. intros o s'. exact (write_one (DInt32 num) o s'). Qed.

Lemma testFibNumber_from num s : P (heap s) ->
  (2 < num -> call_gives s P (read_s64 0) (Some [LInt (fib_value num)])
     (int_call (lit "test.func") (lit "testFibNum") num (read_s64 0) s)) ->
  exists s', testFibNumber num s = Ok (fib_value num, s') /\ same_stack s s'.
Proof.
  intros HP Hc. unfold testFibNumber, fib_value. destruct (Z.leb_spec num 2) as [Hn|Hn]; [by exists s|].
  destruct (Hc Hn (fib_value num)) as (s' & E & Hs).
  { exact (reads_integer (fun z => z) _ [] 0 eq_refl). }
  exists s'. split; [|exact Hs]. unfold int_call in E. rewrite (M_bind_Ok _ _ _ _ _ E). cbn [default from_option id].
  unfold fib_value. by destruct (Z.leb_spec num 2); [lia|].
Qed.

(** The frame of a registered function: its input stream. *)
Lemma LuaCall_frame deref f (g : IDataInterchangeFuncType) s n o s' :
  lua_upvalue s = Some f -> deref f = Some g ->
  g (mkInput 0 0 (Z.of_nat (length (stack s)))) LuaOutputStream_new s = Ok (o, s') -> Count o = n ->
  LuaCall deref s = Ok (n, s').
Proof.
  intros Hu Hf E Hn. unfold LuaCall. rewrite (M_bind_Ok _ _ s s s), Hu, (M_bind_Ok _ _ s f s), Hf by done.
  rewrite bool_decide_eq_true_2 by eauto. rewrite (M_bind_Ok _ _ s tt s) by done.
  rewrite (M_bind_Ok _ _ s (mkInput 0 0 (Z.of_nat (length (stack s)))) s).
  2:{ unfold LuaInputStream_new, mget, mret, M_ret, mbind, M_bind. by rewrite gettop_law. }
  rewrite (M_bind_Ok _ _ s g s) by done. rewrite (M_bind_Ok _ _ _ _ _ E). by rewrite Hn.
Qed.

Lemma push_result z s : is_s64 z -> room 1 s -> P (heap s) -> exists s',
  WriteInt64 LuaOutputStream_new z s = Ok (mkOutput 1, s') /\ stack s' = stack s ++ [LInt z] /\ P (heap s').
Proof.
  intros Hz Hr HP. unfold room in Hr. destruct (pushes_law s ltac:(lia)) as (_ & Hp & _).
  destruct (Hp z) as (S1 & H1 & L1). exists (lua_pushinteger z s). rewrite S1, H1, (s64_small _ Hz). by split_and!.
Qed.

(** An integer argument is read without a change of the state. *)
Lemma read_argument s y rest : stack s = LInt y :: rest ->
  ReadInt32 (mkInput 0 0 (Z.of_nat (length (stack s)))) 0 s =
    Ok ((advance (mkInput 0 0 (Z.of_nat (length (stack s)))), s32 y), s).
Proof.
  intros Hs. unfold ReadInt32, read_integer, ASSERT. cbn [_index _count _start].
  assert (Hc : (0 <? Z.of_nat (length (stack s))) = true) by (apply Z.ltb_lt; rewrite Hs; cbn [length]; lia). rewrite Hc. cbn [orb].
  rewrite (M_bind_Ok _ _ s tt s), (M_bind_Ok _ _ s s s) by done.
  rewrite (tointeger_law _ s y); [done|]. rewrite Hs. done.
Qed.

Lemma callFib_frame deref s y rest : stack s = LInt y :: rest -> room 1 s ->
  lua_upvalue s = Some fib_object -> deref fib_object = Some callFibNumer -> P (heap s) ->
  (exists s1, testFibNumber (s32 y) s = Ok (fib_value (s32 y), s1) /\ same_stack s s1) ->
  exists s', LuaCall deref s = Ok (1, s') /\ stack s' = stack s ++ [LInt (fib_value (s32 y))] /\ P (heap s').
Proof.
  intros Hs Hr Hu Hf HP (s1 & E & S1 & H1 & L1).
  destruct (push_result (fib_value (s32 y)) s1) as (s' & E' & S' & H'); [apply fib_value_range|by unfold room in *; rewrite S1, L1|done|].
  exists s'. split; [|by rewrite S', S1]. apply (LuaCall_frame deref _ _ s 1 (mkOutput 1) s' Hu Hf); [|reflexivity].
  unfold callFibNumer. rewrite (M_bind_Ok _ _ _ _ _ (read_argument s y rest Hs)).
  unfold testFibNumber in E. destruct (s32 y <=? 2) eqn:Ey.
  - injection E as _ <-. unfold fib_value in E'. rewrite Ey in E'. exact E'.
  - assert (Et : testFibNumber (s32 y) s = Ok (fib_value (s32 y), s1)) by (unfold testFibNumber; by rewrite Ey).
    by rewrite (M_bind_Ok _ _ _ _ _ Et).
Qed.

Lemma callException_frame deref s y rest : stack s = LInt y :: rest -> room 1 s ->
  lua_upvalue s = Some exception_object -> deref exception_object = Some callExceptionLuaFunc ->
  call_gives s P (read_s32 0) None (int_call (lit "test.exceptionfunc") (lit "testEcho") 1 (read_s32 0) s) ->
  exists s', LuaCall deref s = Ok (1, s') /\ stack s' = stack s ++ [LInt 0] /\ P (heap s').
Proof.
  intros Hs Hr Hu Hf (s1 & E & S1 & H1 & L1).
  destruct (push_result 0 s1) as (s' & E' & S' & H'); [unfold is_s64; lia|by unfold room in *; rewrite S1, L1|done|].
  exists s'. split; [|by rewrite S', S1]. apply (LuaCall_frame deref _ _ s 1 (mkOutput 1) s' Hu Hf); [|reflexivity].
  unfold callExceptionLuaFunc. rewrite (M_bind_Ok _ _ _ _ _ (read_argument s y rest Hs)).
  unfold int_call in E. by rewrite (M_bind_Ok _ _ _ _ _ E).
Qed.

Lemma getPlayerId_frame deref player s v : stack s = [v] -> room 1 s ->
  LuaInterchange.holds (heap s) (DPtr player (lit "PlayerInfo")) v -> player <> 0 ->
  lua_upvalue s = Some player_object -> deref player_object = Some (getPlayerId player) -> P (heap s) ->
  exists s', LuaCall deref s = Ok (1, s') /\ stack s' = stack s ++ [LInt playerId] /\ P (heap s').
Proof.
  intros Hs Hr Hv Hp Hu Hf HP.
  destruct (ReadPtr_ok (mkInput 0 0 (Z.of_nat (length (stack s)))) 0 s [] player (lit "PlayerInfo") v [] Hs Hv)
    as (s1 & E & S1 & H1 & L1).
  - repeat constructor; done.
  - done.
  - split; [done|]. rewrite Hs. cbn. lia.
  - unfold room in Hr. lia.
  - destruct (push_result playerId s1) as (s' & E' & S' & H');
      [unfold is_s64, playerId; lia|by unfold room in *; rewrite S1, L1|by rewrite H1|].
    exists s'. split; [|by rewrite S', S1]. apply (LuaCall_frame deref _ _ s 1 (mkOutput 1) s' Hu Hf); [|reflexivity].
    unfold getPlayerId. rewrite (M_bind_Ok _ _ _ _ _ E). destruct (Z.eqb_spec player 0); [done|]. cbn [negb].
    rewrite (M_bind_Ok _ _ s1 playerInfo s1); [exact E'|]. unfold mlift, player_at. by rewrite Z.eqb_refl.
Qed.
End Frames.

(** ** The test on an interpreter that runs the scripts *)

Section Run.
Context {L : Lua} {LL : LuaLaws L} {BB : Build} {TO : TestObjects L} {player : Z} {SH : ScriptHost L player}.

Lemma script_call {A} k s m fn ds (cb : IDataCallBackFuncType A) Q : linked (S k) (heap s) ->
  no_nul m -> no_nul fn -> Forall datum_ok ds -> (length ds <= 125)%nat -> room (length ds + 10) s ->
  (forall h vs, heap_ext (heap s) h -> Forall2 (LuaInterchange.holds h) ds vs ->
     exists sc, test_script player h m fn vs = Some sc /\ runs deref (linked k) sc h Q) ->
  exists r, Q r /\ call_gives s (linked (S k)) cb r (CallScriptFunc m fn (Some (fun o => write_all o ds)) cb s).
Proof.
  intros Hk Hm Hf Hd Hl Hr Hs. destruct (linked_call _ _ Hk) as [Hp (f & Hc)].
  apply (call_from_pcall s m fn ds cb f); try done. intros s0 st vs msgh S0 V X.
  destruct (Hs (heap s0) vs X V) as (sc & Hsc & Hrun).
  destruct (X _ Hp) as [_ T]. rewrite (Forall2_length _ _ _ V).
  eapply call_runs; [by eapply linked_ext|by rewrite T|exact S0|exact Hsc|exact Hrun].
Qed.

Lemma int_script {A} k s m fn num (cb : IDataCallBackFuncType A) Q : linked (S k) (heap s) ->
  no_nul m -> no_nul fn -> is_s32 num -> room 11 s ->
  (forall h, heap_ext (heap s) h ->
     exists sc, test_script player h m fn [LInt num] = Some sc /\ runs deref (linked k) sc h Q) ->
  exists r, Q r /\ call_gives s (linked (S k)) cb r (int_call m fn num cb s).
Proof.
  intros Hk Hm Hf Hn Hr Hs. rewrite int_call_writes. apply script_call; try done; [apply Forall_singleton; exact Hn|cbn; lia|].
  intros h vs X (v & vs' & Hv & V & ->)%Forall2_cons_inv_l. apply Forall2_nil_inv_l in V as ->.
  cbn in Hv. subst v. by apply Hs.
Qed.

Lemma frame_room (s : lua_State) args n : stack s = args -> limit s = (length args + 20)%nat -> (n <= 20)%nat -> room n s.
Proof. intros Hs Hl Hn. unfold room. rewrite Hs, Hl. lia. Qed.

(** [num - 2] nested calls of C from Lua are enough. *)
Lemma testFibNumber_ok k : forall s num, linked k (heap s) -> room 11 s -> is_s32 num -> num <= Z.of_nat k + 2 ->
  exists s', testFibNumber num s = Ok (fib_value num, s') /\ same_stack (linked k) s s'.
Proof.
  induction k as [|k IH]; intros s num Hk Hr Hn Hle; (apply testFibNumber_from; [exact Hk|]); intros Hgt; [lia|].
  destruct (int_script k s (lit "test.func") (lit "testFibNum") num (read_s64 0)
    (fun r => r = Some [LInt (fib_value num)])) as (r & -> & H); [done|repeat constructor; done..|exact Hn|exact Hr| |exact H].
  intros h X. eexists. split; [reflexivity|]. unfold testFibNum, is_s32 in *. cbn [runs].
  rewrite !s64_small by (unfold is_s64; lia). intros s1 S1 U1 L1 X1 K1.
  destruct (callFib_frame (linked k) deref s1 (num - 1) [LInt num] S1 (frame_room _ _ 1 S1 L1 ltac:(lia)) U1 deref_fib K1)
    as (s2 & E2 & S2 & K2).
  { rewrite s32_small by (unfold is_s32; lia).
    apply IH; [done|by eapply frame_room; [exact S1|exact L1|lia]|unfold is_s32; lia|lia]. }
  rewrite s32_small in S2 by (unfold is_s32; lia).
  exists 1, s2, (stack s1), [LInt (fib_value (num - 1))]. split_and!; try done. intros s3 S3 U3 L3 X3 K3.
  destruct (callFib_frame (linked k) deref s3 (num - 2) [LInt num] S3 (frame_room _ _ 1 S3 L3 ltac:(lia)) U3 deref_fib K3)
    as (s4 & E4 & S4 & K4).
  { rewrite s32_small by (unfold is_s32; lia).
    apply IH; [done|by eapply frame_room; [exact S3|exact L3|lia]|unfold is_s32; lia|lia]. }
  rewrite s32_small in S4 by (unfold is_s32; lia).
  exists 1, s4, (stack s3), [LInt (fib_value (num - 2))]. split_and!; try done.
  cbn. by rewrite <- fib_value_rec.
Qed.

Lemma check_passes (ok : bool) (s : lua_State) : ok = true -> check_that ok s = Ok ([Success], s).
Proof. by intros ->. Qed.

Lemma compare_fib_ok k n : forall i s, linked k (heap s) -> room 11 s -> 1 <= i ->
  i + Z.of_nat n <= Z.of_nat k + 3 -> i + Z.of_nat n < 2 ^ 16 ->
  exists s', compare_fib n i s = Ok (replicate n Success, s') /\ same_stack (linked k) s s'.
Proof.
  induction n as [|n IH]; intros i s Hk Hr Hi Hb Hu; cbn [compare_fib]; [by exists s|].
  rewrite (M_bind_Ok _ _ s (fib_value i) s) by (unfold mlift, FibNumber; by rewrite fib_loop_value by lia).
  destruct (testFibNumber_ok k s i) as (s1 & E1 & S1 & K1 & L1); [done|done|unfold is_s32; lia|lia|].
  rewrite (M_bind_Ok _ _ _ _ _ E1), (M_bind_Ok _ _ _ _ _ (check_passes _ s1 (Z.eqb_refl _))). unfold u16. rewrite uwrap_small by lia.
  destruct (IH (i + 1) s1) as (s2 & E2 & S2 & K2 & L2); [done|unfold room in *; by rewrite S1, L1|lia..|].
  exists s2. rewrite (M_bind_Ok _ _ _ _ _ E2). split; [done|]. split_and!; congruence || done.
Qed.

Lemma testCallLuaFun_ok k s : linked (S k) (heap s) -> room 11 s ->
  exists s', testCallLuaFun s = Ok ([Success], s') /\ same_stack (linked (S k)) s s'.
Proof.
  intros Hk Hr. unfold testCallLuaFun, testLuaCallEcho. set (content := lit "this is test echo").
  assert (Hc : no_nul content) by (repeat constructor; done).
  destruct (script_call k s (lit "test.func") (lit "testEcho") [DStr content] (Some (fun input =>
    '(_, content) ← ReadStr input None; mret match content with Some c => cstr c | None => [] end))
    (fun r => r = Some [LStr content])) as (r & -> & H); [done|repeat constructor; done..|cbn; lia|exact Hr| |].
  { intros h vs X (v & vs' & Hv & V & ->)%Forall2_cons_inv_l. cbn in Hv. subst v. eexists. split; [reflexivity|done]. }
  destruct (H content (reads_string content [] Hc)) as (s' & E & Hs). exists s'. split; [|exact Hs].
  rewrite (M_bind_Ok _ _ s content s'); [by apply check_passes, bool_decide_eq_true_2|].
  erewrite M_bind_Ok; [|etransitivity; [apply CallScriptFunc_ext; intros o s0; exact (write_one (DStr content) o s0)|exact E]].
  done.
Qed.

(** The pointer the script gets is handed to [getPlayerId] as it is. *)
Lemma testInputPtrToLua_ok k uninit s : player <> 0 -> linked (S k) (heap s) -> room 11 s ->
  exists s', testInputPtrToLua player uninit s = Ok ([Success], s') /\ same_stack (linked (S k)) s s'.
Proof.
  intros Hp Hk Hr. unfold testInputPtrToLua, testLuaPtr. set (ty := lit "PlayerInfo").
  assert (Hty : no_nul ty /\ ty <> []) by (split; [repeat constructor; done|done]).
  destruct (script_call k s (lit "test.func") (lit "testPoint") [DPtr player ty] (read_s32 uninit)
    (fun r => r = Some [LInt playerId])) as (r & -> & H);
    [done|repeat constructor; done..|by apply Forall_singleton|cbn; lia|exact Hr| |].
  { intros h vs X (v & vs' & Hv & V & ->)%Forall2_cons_inv_l. apply Forall2_nil_inv_l in V as ->.
    assert (Hptr : is_pointer player h v = true).
    { destruct Hv as (r & -> & _ & E1 & E2). cbn [is_pointer]. rewrite E1, E2, Z.eqb_refl. by rewrite bool_decide_eq_true_2. }
    exists (testPoint v). split.
    - unfold test_script. cbn [nth_value]. change (nth_value [v] 0) with v. by rewrite Hptr.
    - unfold testPoint. cbn [runs]. intros s1 S1 U1 L1 X1 K1.
      destruct (getPlayerId_frame (linked k) deref player s1 v S1 (frame_room _ _ 1 S1 L1 ltac:(lia))) as (s2 & E2 & S2 & K2);
        [by eapply holds_ext|done|done|exact deref_player|done|].
      by exists 1, s2, (stack s1), [LInt playerId]. }
  destruct (H playerId) as (s' & E & Hs); [exact (reads_integer s32 playerId [] uninit eq_refl)|].
  exists s'. split; [|exact Hs]. rewrite (M_bind_Ok _ _ s playerId s'); [done|].
  erewrite M_bind_Ok; [|etransitivity; [apply CallScriptFunc_ext; intros o s0; exact (write_one (DPtr player ty) o s0)|exact E]].
  done.
Qed.

(** *** Scripts that fail *)

(** A call that raises. *)
Lemma failing_call k s m fn : linked (S k) (heap s) -> room 11 s -> no_nul m -> no_nul fn ->
  (forall h, test_script player h m fn [LInt 1] = Some SRaise) ->
  exists s', int_call m fn 1 (read_s32 0) s = Ok ((false, None), s') /\ same_stack (linked (S k)) s s'.
Proof.
  intros Hk Hr Hm Hf Hs. destruct (int_script k s m fn 1 (read_s32 0) (fun r => r = None)) as (r & -> & H);
    [done..|unfold is_s32; lia|done| |exact H].
  intros h _. exists SRaise. split; [apply Hs|done].
Qed.

(** The inner call raises, the outer one returns what C++ wrote. *)
Lemma testInnerException_ok k s : linked (S (S k)) (heap s) -> room 11 s ->
  exists s', testInnerExceptionLuaFunc s = Ok ([Success], s') /\ same_stack (linked (S (S k))) s s'.
Proof.
  intros Hk Hr. destruct (int_script (S k) s (lit "test.exceptionfunc") (lit "testCallExcptionLuaFunc") 1 (read_s32 0)
    (fun r => r = Some [LInt 0])) as (r & -> & H); [done|repeat constructor; done..|unfold is_s32; lia|exact Hr| |].
  { intros h X. eexists. split; [reflexivity|]. unfold testCallExcptionLuaFunc. cbn [printable runs nth_value].
    intros s1 S1 U1 L1 X1 K1.
    destruct (callException_frame (linked (S k)) deref s1 1 [] S1 (frame_room _ _ 1 S1 L1 ltac:(lia)) U1 deref_exception)
      as (s2 & E2 & S2 & K2).
    { apply failing_call; [done|by eapply frame_room; [exact S1|exact L1|lia]|repeat constructor; done..|done]. }
    by exists 1, s2, (stack s1), [LInt 0]. }
  destruct (H 0) as (s' & E & Hs); [exact (reads_integer s32 0 [] 0 eq_refl)|].
  exists s'. split; [|exact Hs]. unfold testInnerExceptionLuaFunc. unfold int_call in E. by rewrite (M_bind_Ok _ _ _ _ _ E).
Qed.

(** Two tests in a row. *)
Lemma tests_seq {A B} k (f : M lua_State A) (g : A -> M lua_State B) s s1 a b :
  f s = Ok (a, s1) -> same_stack (linked k) s s1 ->
  (linked k (heap s1) -> room 11 s1 -> exists s2, g a s1 = Ok (b, s2) /\ same_stack (linked k) s1 s2) ->
  room 11 s -> exists s2, (f ≫= g) s = Ok (b, s2) /\ same_stack (linked k) s s2.
Proof.
  intros E (S1 & K1 & L1) Hg Hr. destruct Hg as (s2 & E2 & S2 & K2 & L2); [done|unfold room in *; by rewrite S1, L1|].
  exists s2. rewrite (M_bind_Ok _ _ _ _ _ E). split; [exact E2|]. split_and!; congruence || done.
Qed.

(** A test whose call raises. *)
Lemma failing_test k s m fn : linked (S k) (heap s) -> room 11 s -> no_nul m -> no_nul fn ->
  (forall h, test_script player h m fn [LInt 1] = Some SRaise) ->
  exists s', ('(exeRet, _) ← CallScriptFunc m fn (write_s32 1) (read_s32 0); check_that (negb exeRet)) s =
      Ok ([Success], s') /\
    ('(exeRet, ret) ← CallScriptFunc m fn (write_s32 1) (read_s32 0); c ← check_that (negb exeRet);
     mret (match ret with Some _ => [Failure] | None => [] end ++ c)) s = Ok ([Success], s') /\
    same_stack (linked (S k)) s s'.
Proof.
  intros Hk Hr Hm Hf Hs. destruct (failing_call k s m fn Hk Hr Hm Hf Hs) as (s' & E & H).
  exists s'. unfold int_call in E. by rewrite !(M_bind_Ok _ _ _ _ _ E).
Qed.

Lemma run_tests_ok k s uninit : player <> 0 -> linked (S (S k)) (heap s) -> (8 <= k)%nat -> room 11 s ->
  exists s', run_tests player uninit s = Ok (replicate 14 Success, s') /\ same_stack (linked (S (S k))) s s'.
Proof.
  intros Hp Hk Hle Hr. unfold run_tests.
  destruct (testCallLuaFun_ok (S k) s Hk Hr) as (s1 & E1 & H1).
  eapply tests_seq; [exact E1|exact H1| |exact Hr]. intros K1 R1.
  destruct (compare_fib_ok (S (S k)) 9 1 s1 K1 R1) as (s2 & E2 & H2); [lia..|].
  eapply tests_seq; [exact E2|exact H2| |exact R1]. intros K2 R2.
  destruct (testInputPtrToLua_ok (S k) uninit s2 Hp K2 R2) as (s3 & E3 & H3).
  eapply tests_seq; [exact E3|exact H3| |exact R2]. intros K3 R3.
  destruct (failing_test (S k) s3 (lit "test.errorfunc") (lit "testEcho") K3 R3) as (s4 & _ & E4 & H4);
    [repeat constructor; done..|done|].
  eapply tests_seq; [exact E4|exact H4| |exact R3]. intros K4 R4.
  destruct (failing_test (S k) s4 (lit "test.exceptionfunc") (lit "testEcho") K4 R4) as (s5 & E5 & _ & H5);
    [repeat constructor; done..|done|].
  eapply tests_seq; [exact E5|exact H5| |exact R4]. intros K5 R5.
  destruct (testInnerException_ok k s5 K5 R5) as (s6 & E6 & H6).
  exists s6. rewrite (M_bind_Ok _ _ _ _ _ E6). by split.
Qed.

(** *** The three registrations *)

(** One registration. *)
Lemma register_one s p l fn f : engine_tables (heap s) p l -> fn ∈ test_names -> fn <> module_path ->
  no_nul fn -> room 5 s -> exists s' m,
  RegModuleFunc (lit "scripttest") fn f s = Ok (tt, s') /\ stack s' = stack s /\ limit s' = limit s /\
  engine_tables (heap s') p l /\ others_kept (heap s) (heap s') /\
  tab (heap s') l module_path = LTable m /\ plain (heap s') m /\ has_function (heap s') m fn f /\
  forall m' fn' f', tab (heap s) l module_path = LTable m' -> plain (heap s) m' -> fn' <> fn ->
    fn' <> module_path -> has_function (heap s) m' fn' f' -> m' = m /\ has_function (heap s') m fn' f'.
Proof.
  intros [T1 T2 T3 T4 T5 T6] Hin Hfn Hn Hr.
  destruct (RegModuleFunc_step s p l (lit "scripttest") fn f ltac:(repeat constructor; done) Hn
    ltac:(cbn; lia) Hr T1 T2 T3 T4 T5 T6) as (s' & m & c & E & S1 & L1 & T & Pm & Nm & F & U & K & G & O).
  fold module_path in T, K, O.
  assert (Hk : forall r k, plain (heap s) r -> k ∉ test_names -> tab (heap s') r k = tab (heap s) r k).
  { intros r k Hp Hk. apply O; [done|intros [= _ ->]|intros [= _ ->]]; apply Hk; [by left|done]. }
  exists s', m. split_and!; try done.
  - destruct fixed_names. constructor; [by apply G|by rewrite Hk|by apply G|by rewrite Hk|by apply G|right; by exists m].
  - intros r Hp. split; [by apply G|]. intros k. by apply Hk.
  - by exists c.
  - intros m' fn' f' Em Pm' Hne Hne2 (c' & Ef & Ec). rewrite <- (K _ Em). split; [done|].
    exists c'. split; [|by apply G]. rewrite <- (K _ Em) in *. rewrite O; [done|done|intros E'; congruence|intros E'; congruence].
Qed.

(** The registrations of [StartTest]. *)
Lemma registrations_ok k s (A : Type) (g : M lua_State A) : ready k (heap s) -> room 5 s ->
  exists s', (RegModuleFunc (lit "scripttest") (lit "callFibNumer") fib_object;;
    RegModuleFunc (lit "scripttest") (lit "getPlayerId") player_object;;
    RegModuleFunc (lit "scripttest") (lit "callExceptionLuaFunc") exception_object;; g) s = g s' /\
    stack s' = stack s /\ limit s' = limit s /\ linked k (heap s').
Proof.
  intros Hk Hr. destruct (ready_tables _ _ Hk) as (p & l & T0).
  destruct (register_one s p l (lit "callFibNumer") fib_object T0)
    as (s1 & m1 & E1 & S1 & L1 & T1 & O1 & M1 & P1 & F1 & _);
    [by right; left|done|repeat constructor; done|done|].
  destruct (register_one s1 p l (lit "getPlayerId") player_object T1)
    as (s2 & m2 & E2 & S2 & L2 & T2 & O2 & M2 & P2 & F2 & K2);
    [by right; right; left|done|repeat constructor; done|unfold room in *; by rewrite S1, L1|].
  destruct (register_one s2 p l (lit "callExceptionLuaFunc") exception_object T2)
    as (s3 & m3 & E3 & S3 & L3 & T3 & O3 & M3 & P3 & F3 & K3);
    [by right; right; right; left|done|repeat constructor; done|unfold room in *; by rewrite S2, L2, S1, L1|].
  destruct (K2 m1 (lit "callFibNumer") _ M1 P1 ltac:(done) ltac:(done) F1) as [-> G2].
  destruct (K3 m2 (lit "getPlayerId") _ M2 P2 ltac:(done) ltac:(done) F2) as [-> H2].
  destruct (K3 m3 (lit "callFibNumer") _ M2 P2 ltac:(done) ltac:(done) G2) as [_ H1].
  exists s3. rewrite (M_bind_Ok _ _ _ _ _ E1), (M_bind_Ok _ _ _ _ _ E2), (M_bind_Ok _ _ _ _ _ E3).
  split_and!; [done|congruence|congruence|].
  apply (ready_linked k (heap s)); [done|by transitivity (heap s1); [|transitivity (heap s2)]|].
  by exists p, l, m3.
Qed.

(** C20: The script engine's unit test, from its registrations on, on an
    interpreter that runs the test's scripts once the functions they call are
    registered, as long as ten nested calls of C from Lua fit.  [StartTest]
    ends, and each of its fourteen checks logs a success, in a debug build and
    in a release build alike: the echo comes back, the nine numbers computed
    by the mutual recursion of C++ and Lua are those of [FibNumber], the
    script gets the id of the player it is given a pointer to, a script that
    does not load and one that raises make the call fail (and the callback is
    not run), and an exception inside a nested call does not reach the outer
    one.  The Lua stack is left as it was.  (What the engine itself logs about
    the calls that fail is not modelled.) *)
Theorem ScriptEngineTest_passes k s uninit : player <> 0 -> ready k (heap s) -> (10 <= k)%nat -> room 11 s ->
  exists s', StartTest player uninit s = Ok (replicate 14 Success, s') /\ stack s' = stack s /\
    linked k (heap s').
Proof.
  intros Hp Hk Hle Hr. destruct k as [|[|k]]; [lia..|]. unfold StartTest.
  destruct (registrations_ok _ s _ (run_tests player uninit) Hk) as (s1 & E1 & S1 & L1 & K1);
    [unfold room in *; lia|].
  destruct (run_tests_ok k s1 uninit Hp K1) as (s2 & E2 & S2 & K2 & _);
    [lia|unfold room in *; by rewrite S1, L1|].
  exists s2. rewrite E1. split_and!; [exact E2|congruence|done].
Qed.
End Run.

(** ** A concrete interpreter with the scripts *)

Module HostExample.
#[export] Instance debug : Build := {| ndebug := false |}.

Definition player : Z := 4096.

(** Whether a table is the player's pointer. *)
Definition points (tabs : list (list (bytes * lvalue))) (v : lvalue) : bool :=
  match v with
  | LTable r => bool_decide (ScriptedLua.field tabs r PTR_INDEX = LLight player /\
                             ScriptedLua.field tabs r TYPE_INDEX = LStr (lit "PlayerInfo"))
  | _ => false
  end.

(** The result of a script function, with those of the C++ functions it calls
    filled in. *)
Definition host_result (tabs : list (list (bytes * lvalue))) (m fn : bytes) (args : list lvalue)
    : option (list lvalue) :=
  let x := nth_value args 0 in
  if bool_decide (m = lit "test.func") then
    if bool_decide (fn = lit "testEcho") then if printable x then Some [x] else None
    else if bool_decide (fn = lit "testFibNum") then
      match x with
      | LInt z => Some [LInt (s64 (fib_value (s32 (s64 (z - 1))) + fib_value (s32 (s64 (z - 2)))))]
      | _ => None
      end
    else if bool_decide (fn = lit "testPoint") then if points tabs x then Some [LInt playerId] else None
    else None
  else if bool_decide (m = lit "test.exceptionfunc") then
    if bool_decide (fn = lit "testCallExcptionLuaFunc") then Some [LInt 0] else None
  else None.

(** The scripts load when the functions they need are registered. *)
Definition scripts_load (tabs : list (list (bytes * lvalue))) : bool :=
  match ScriptedLua.field tabs 0 PACKAGE with
  | LTable p =>
      match ScriptedLua.field tabs p PKG_MODULE_INDEX with
      | LTable l =>
          match ScriptedLua.field tabs l module_path with
          | LTable m => is_fun (ScriptedLua.field tabs m (lit "callFibNumer")) &&
              is_fun (ScriptedLua.field tabs m (lit "getPlayerId")) &&
              is_fun (ScriptedLua.field tabs m (lit "callExceptionLuaFunc"))
          | _ => false
          end
      | _ => false
      end
  | _ => false
  end.

Definition host_behave (s : ScriptedLua.state) (f : Z) (args : list lvalue) : option (list lvalue) :=
  if (f =? 1) && scripts_load (ScriptedLua.tabs s) then
    match args with LStr m :: LStr fn :: args' => host_result (ScriptedLua.tabs s) m fn args' | _ => None end
  else None.

#[export] Instance lib : Lua := ScriptedLua.lib host_behave.

#[export] Instance objects : TestObjects lib :=
  {| fib_object := (1 : @func_object lib); player_object := (2 : @func_object lib);
     exception_object := (3 : @func_object lib) |}.

Definition host_deref (f : @func_object lib) : option IDataInterchangeFuncType :=
  if f =? 1 then Some callFibNumer else if f =? 2 then Some (getPlayerId player)
  else if f =? 3 then Some callExceptionLuaFunc else None.

(** [call] is there. *)
Definition host_ready (h : @lheap lib _) : Prop :=
  tab h GLOBALS CALL_FUNCTION = LFun 1 /\ exists p l, engine_tables h p l.

(** The functions are bound too. *)
Definition host_linked (h : @lheap lib _) : Prop :=
  plain h GLOBALS /\ tab h GLOBALS CALL_FUNCTION = LFun 1 /\ exists p l m,
  tab h GLOBALS PACKAGE = LTable p /\ plain h p /\ tab h p PKG_MODULE_INDEX = LTable l /\ plain h l /\
  tab h l module_path = LTable m /\ plain h m /\ is_fun (tab h m (lit "callFibNumer")) = true /\
  is_fun (tab h m (lit "getPlayerId")) = true /\ is_fun (tab h m (lit "callExceptionLuaFunc")) = true.

Lemma host_linked_ext h h' : host_linked h -> heap_ext h h' -> host_linked h'.
Proof.
  intros (Hp & Hc & p & l & m & E1 & P1 & E2 & P2 & E3 & P3 & F1 & F2 & F3) X.
  destruct (X _ Hp) as [Hp' T0], (X _ P1) as [P1' T1], (X _ P2) as [P2' T2], (X _ P3) as [P3' T3].
  split; [done|]. rewrite T0. split; [done|]. exists p, l, m. by rewrite T0, T1, T2, !T3.
Qed.

Lemma host_loads (s : @lua_State lib) : host_linked (heap s) -> scripts_load (ScriptedLua.tabs s) = true.
Proof.
  intros (_ & _ & p & l & m & E1 & _ & E2 & _ & E3 & _ & F1 & F2 & F3). unfold scripts_load.
  change (ScriptedLua.field (ScriptedLua.tabs s)) with (tab (heap s)). change 0 with (@GLOBALS lib _).
  by rewrite E1, E2, E3, F1, F2, F3.
Qed.

Lemma host_registered h h' : host_ready h -> others_kept h h' -> registered h' -> host_linked h'.
Proof.
  intros [Hc (p0 & l0 & [Hg _ _ _ _ _])] O (p & l & m & [T1 T2 T3 T4 T5 _] & E & Pm & (c1 & F1 & _) &
    (c2 & F2 & _) & (c3 & F3 & _)).
  split; [done|]. destruct (O _ Hg) as [_ K]. rewrite K; [|apply (bool_decide_unpack _); by vm_compute].
  split; [done|]. exists p, l, m. by rewrite F1, F2, F3.
Qed.

Lemma host_pcall (s : @lua_State lib) st m fn args msgh : host_linked (heap s) ->
  stack s = st ++ LFun 1 :: LStr m :: LStr fn :: args ->
  exists code s1, lua_pcall (Z.of_nat (length args) + 2) LUA_RESULT_COUNT msgh s = (code, s1) /\
    pcall_gives st (host_result (ScriptedLua.tabs s) m fn args) code s1 /\ heap s1 = heap s.
Proof.
  intros Hl Hs. replace (Z.of_nat (length args) + 2) with (Z.of_nat (length (LStr m :: LStr fn :: args))) by (cbn; lia).
  pose proof (ScriptedLua.pcall_call host_behave s st 1 (LStr m :: LStr fn :: args) LUA_RESULT_COUNT msgh Hs) as E.
  assert (Hb : host_behave s 1 (LStr m :: LStr fn :: args) = host_result (ScriptedLua.tabs s) m fn args).
  { unfold host_behave. by rewrite (host_loads s Hl). }
  rewrite Hb in E. do 2 eexists. split; [exact (eq_trans E (surjective_pairing _))|].
  by destruct (host_result _ _ _ _).
Qed.

(** Lua's frame for a call of the object [f]. *)
Definition host_frame (f : Z) (args : list lvalue) (s : @lua_State lib) : @lua_State lib :=
  ScriptedLua.mkState args (ScriptedLua.tabs s) [f] (ScriptedLua.clos s) (length args + 20).

Lemma int_pcall {A} (s : @lua_State lib) m fn num (cb : IDataCallBackFuncType A) :
  host_linked (heap s) -> no_nul m -> no_nul fn -> is_s32 num -> room 11 s ->
  (forall tabs, host_result tabs m fn [LInt num] = host_result [] m fn [LInt num]) ->
  call_gives s host_linked cb (host_result [] m fn [LInt num]) (int_call m fn num cb s).
Proof.
  intros Hl Hm Hf Hn Hr Hres. pose proof Hl as (Hp & Hc & _). rewrite int_call_writes.
  destruct (call_from_pcall s m fn [DInt32 num] cb 1 host_linked (fun r => r = host_result [] m fn [LInt num]))
    as (r & -> & H); try done; [by apply Forall_singleton|cbn; lia|].
  intros s0 st vs msgh S0 (v & vs' & Hv & V & ->)%Forall2_cons_inv_l X. apply Forall2_nil_inv_l in V as ->.
  cbn in Hv. subst v. pose proof (host_linked_ext _ _ Hl X) as Hl0. destruct (host_pcall s0 st m fn [LInt num] msgh Hl0 S0) as (code & s1 & E & G & H1).
  exists code, s1, (host_result [] m fn [LInt num]). rewrite H1. rewrite Hres in G.
  by split_and!.
Qed.

Lemma host_fib (s : @lua_State lib) num : host_linked (heap s) -> is_s32 num -> room 11 s ->
  exists s', testFibNumber num s = Ok (fib_value num, s') /\ same_stack host_linked s s'.
Proof.
  intros Hl Hn Hr. apply testFibNumber_from; [done|]. intros Hgt.
  pose proof (int_pcall s (lit "test.func") (lit "testFibNum") num (read_s64 0) Hl) as H.
  assert (E : host_result [] (lit "test.func") (lit "testFibNum") [LInt num] = Some [LInt (fib_value num)]).
  { unfold is_s32 in Hn. rewrite (fib_value_rec num Hgt). cbn [host_result nth_value].
    assert (E : forall d, 0 < d <= 2 -> s32 (s64 (num - d)) = num - d).
    { intros d Hd. rewrite (s64_small (num - d)) by (unfold is_s64; lia). apply s32_small. unfold is_s32. lia. }
    rewrite <- (E 1), <- (E 2) at 1 by lia. reflexivity. }
  rewrite E in H. apply H; [repeat constructor; done..|done|done|done].
Qed.

(** What a frame of a function returns. *)
Lemma frame_results (s : @lua_State lib) f args v n s' below rs (o : outcome (Z * @lua_State lib)) :
  (exists s1, o = Ok (1, s1) /\ stack s1 = stack (host_frame f args s) ++ [v] /\ host_linked (heap s1)) ->
  o = Ok (n, s') -> stack s' = below ++ rs -> Z.of_nat (length rs) = n -> rs = [v].
Proof.
  intros (s1 & -> & S1 & _) [= <- <-] Hs Hn. rewrite S1 in Hs.
  destruct rs as [|v' [|? ?]]; cbn [length] in Hn; try lia. by apply app_inj_tail in Hs as [_ ->].
Qed.

(** The three functions in the frames the interpreter makes. *)
Lemma fib_results (s : @lua_State lib) y rest n s' below rs : host_linked (heap s) -> (length rest <= 8)%nat ->
  LuaCall host_deref (host_frame 1 (LInt y :: rest) s) = Ok (n, s') -> stack s' = below ++ rs ->
  Z.of_nat (length rs) = n -> rs = [LInt (fib_value (s32 y))].
Proof.
  intros Hl Hr E. eapply (frame_results s 1 (LInt y :: rest)); [|exact E].
  eapply (callFib_frame host_linked host_deref (host_frame 1 (LInt y :: rest) s) y rest); try done.
  - unfold room. cbn. lia.
  - apply host_fib; [done|apply s32_range|unfold room; cbn; lia].
Qed.

Lemma exception_results (s : @lua_State lib) y n s' below rs : host_linked (heap s) ->
  LuaCall host_deref (host_frame 3 [LInt y] s) = Ok (n, s') -> stack s' = below ++ rs ->
  Z.of_nat (length rs) = n -> rs = [LInt 0].
Proof.
  intros Hl E. eapply (frame_results s 3 [LInt y]); [|exact E].
  eapply (callException_frame host_linked host_deref (host_frame 3 [LInt y] s) y []); try done.
  - unfold room. cbn. lia.
  - apply (int_pcall (host_frame 3 [LInt y] s) (lit "test.exceptionfunc") (lit "testEcho") 1);
      [done|repeat constructor; done..|unfold is_s32; lia|unfold room; cbn; lia|done].
Qed.

Lemma player_results (s : @lua_State lib) v n s' below rs : host_linked (heap s) ->
  points (ScriptedLua.tabs s) v = true -> (forall r, v = LTable r -> plain (heap s) r) ->
  LuaCall host_deref (host_frame 2 [v] s) = Ok (n, s') -> stack s' = below ++ rs ->
  Z.of_nat (length rs) = n -> rs = [LInt playerId].
Proof.
  intros Hl Hv Hp E. eapply (frame_results s 2 [v]); [|exact E].
  destruct v as [| | | | | |r| | |]; try done. apply bool_decide_eq_true in Hv as [E1 E2].
  eapply (getPlayerId_frame host_linked host_deref player (host_frame 2 [LTable r] s) (LTable r)); try done.
  - unfold room. cbn. lia.
  - exists r. split_and!; [done|by apply Hp|exact E1|exact E2].
Qed.

Lemma points_plain (s : @lua_State lib) r : points (ScriptedLua.tabs s) (LTable r) = true -> plain (heap s) r.
Proof.
  intros H%bool_decide_eq_true. destruct H as [H _]. cbn. unfold ScriptedLua.exists_tab, ScriptedLua.field in *.
  destruct (Z.ltb_spec r 0); [done|]. destruct (ScriptedLua.tabs s !! Z.to_nat r) eqn:E; [|done].
  apply lookup_lt_Some in E. lia.
Qed.

Lemma pointer_points (s : @lua_State lib) v : is_pointer player (heap s) v = true -> points (ScriptedLua.tabs s) v = true.
Proof.
  destruct v as [| | | | | |r| | |]; try done.
  unfold is_pointer, points. change (tab (heap s) r) with (ScriptedLua.field (ScriptedLua.tabs s) r).
  destruct (ScriptedLua.field (ScriptedLua.tabs s) r PTR_INDEX); try done.
  intros [Hp Ht]%andb_prop. apply Z.eqb_eq in Hp as ->. apply bool_decide_eq_true in Ht as ->.
  by apply bool_decide_eq_true_2.
Qed.

(** A call in a script of a function whose results are known. *)
Lemma runs_call (s : @lua_State lib) (f : @func_object lib) args k Q v : host_linked (heap s) ->
  (forall n s' below rs, LuaCall host_deref (host_frame f args s) = Ok (n, s') -> stack s' = below ++ rs ->
     Z.of_nat (length rs) = n -> rs = [v]) ->
  runs host_deref host_linked (SCall f args k) (heap s) Q ->
  exists s1 : @lua_State lib, host_linked (heap s1) /\ runs host_deref host_linked (k [v]) (heap s1) Q.
Proof.
  intros Hl Hf H. cbn [runs] in H.
  destruct (H (host_frame f args s)) as (n & s' & below & rs & E & S' & Hn & L' & H'); try done.
  exists s'. split; [done|]. by rewrite <- (Hf n s' below rs E S' Hn).
Qed.

(** What [runs] shows of a script is what the interpreter returns. *)
Lemma host_result_runs (s : @lua_State lib) m fn args sc Q : host_linked (heap s) ->
  test_script player (heap s) m fn args = Some sc -> runs host_deref host_linked sc (heap s) Q ->
  Q (host_result (ScriptedLua.tabs s) m fn args).
Proof.
  intros Hl Hsc H. unfold test_script, host_result in *. set (x := nth_value args 0) in *.
  destruct (bool_decide (m = lit "test.func")).
  { destruct (bool_decide (fn = lit "testEcho")).
    { injection Hsc as <-. unfold testEcho in H. by destruct (printable x). }
    destruct (bool_decide (fn = lit "testFibNum")).
    { destruct x as [| |z| | | | | | |]; try done. injection Hsc as <-. unfold testFibNum in H.
      eapply runs_call in H as (s1 & L1 & H); [|exact Hl|intros n s' below rs; by apply fib_results; [|cbn; lia]].
      eapply runs_call in H as (s2 & L2 & H); [|exact L1|intros n s' below rs; by apply fib_results; [|cbn; lia]]. exact H. }
    destruct (bool_decide (fn = lit "testPoint")); [|done].
    destruct (is_pointer player (heap s) x) eqn:Hp; [|done]. injection Hsc as <-.
    apply pointer_points in Hp. rewrite Hp. unfold testPoint in H.
    eapply runs_call in H as (s1 & L1 & H);
      [|exact Hl|intros n s' below rs; apply player_results; [done|done|]].
    - exact H.
    - intros r E. apply points_plain. by rewrite <- E. }
  destruct (bool_decide (m = lit "test.exceptionfunc")).
  { destruct (bool_decide (fn = lit "testEcho")) eqn:Ee.
    { apply bool_decide_eq_true in Ee as ->. injection Hsc as <-. exact H. }
    destruct (bool_decide (fn = lit "testCallExcptionLuaFunc")); [|done].
    destruct x as [| |z| | | | | | |]; try done. injection Hsc as <-. unfold testCallExcptionLuaFunc in H.
    cbn [printable] in H. eapply runs_call in H as (s1 & L1 & H);
      [|exact Hl|intros n s' below rs; by apply exception_results]. exact H. }
  destruct (bool_decide (m = lit "test.errorfunc")); [|done]. by injection Hsc as <-.
Qed.

#[export] Instance host : ScriptHost lib player.
Proof.
  refine {| ScriptEngineTest.deref := host_deref : @func_object lib -> _; ready := fun _ => host_ready;
            linked := fun _ => host_linked |}; try done.
  - by intros _ h [_ H].
  - intros _. exact host_registered.
  - intros _ h (Hp & Hc & _). split; [exact Hp|by exists 1].
  - intros _. exact host_linked_ext.
  - intros k s st f m fn args sc msgh Q Hl Hf Hs Hsc H. pose proof Hl as (_ & Hc & _).
    assert (f = 1) as -> by (rewrite Hc in Hf; by injection Hf).
    destruct (host_pcall s st m fn args msgh Hl Hs) as (code & s1 & E & G & H1).
    exists code, s1, (host_result (ScriptedLua.tabs s) m fn args). rewrite H1.
    split_and!; [exact E|exact G| |done]. by eapply host_result_runs.
Defined.

(** The globals with [call] and [package], [package], and the loaded modules. *)
Definition engine : @lua_State lib := ScriptedLua.mkState []
  [[(lit "call", LFun 1); (PACKAGE, LTable 1)]; [(PKG_MODULE_INDEX, LTable 2)]; []] [] [] 20.

Lemma engine_ready : host_ready (heap engine).
Proof.
  split; [reflexivity|]. exists 1, 2. constructor; try reflexivity; try (cbn; unfold ScriptedLua.exists_tab; cbn; lia).
  by left.
Qed.
End HostExample.

Lemma ScriptEngineTest_passes_witness : exists s',
  @StartTest HostExample.lib HostExample.debug HostExample.objects HostExample.player 77 HostExample.engine =
    Ok (replicate 14 Success, s') /\
  @stack HostExample.lib _ s' = [].
Proof.
  destruct (@ScriptEngineTest_passes HostExample.lib _ HostExample.debug HostExample.objects HostExample.player
    HostExample.host 10 HostExample.engine 77) as (s' & E & S & _).
  - done.
  - exact HostExample.engine_ready.
  - lia.
  - unfold room. cbn. lia.
  - exists s'. split; [exact E|exact S].
Defined.

(** Without the registrations the first check fails: a debug build aborts, and
    a release build logs the failures. *)
Example unregistered_fails :
  @run_tests HostExample.lib HostExample.debug HostExample.player 77 HostExample.engine =
    Fault AssertFailed /\
  match @run_tests HostExample.lib {| ndebug := true |} HostExample.player 77 HostExample.engine with
  | Ok (cs, _) => cs = Failure :: Success :: Success :: replicate 8 Failure ++ [Success; Success; Failure]
  | _ => False
  end.
Proof. split; vm_compute; reflexivity. Qed.
