(* ===== verification/IRedisMgr.v ===== *)
(** * The Redis manager's interface (Interface/IRedisMgr.h)

    [IRedisSyncCall] and [IRedisAsyncCall] are the abstract classes of the
    synchronous and the asynchronous commands, with a field per virtual method,
    [IRedisMgr] is both with the two methods of its own.  [SyncStore] is what it promises a client that
    talks to a Redis server: a call has the command's documented effect on the
    stored data, and returns what the reply says.  [RedisMgr] implements the
    interface and keeps the promise. *)
From Stdlib Require Import ZArith Lia Ascii.
From stdpp Require Import base numbers list list_numbers strings gmap.
From S2P Require Import Prelude Kernel Resp Hiredis RedisHelper RedisWire RedisProfile RedisMgr.
From S2P Require Import RedisMgrProps RedisSync RedisSyncProps RedisAsync RedisStore RedisPeer.
Open Scope Z_scope.
#[local] Open Scope seed_scope.

(** ** The interface *)

(** A reference parameter that is set is an argument and a component of the
    result; the default [threadIdx] is [MAIN_THREAD_IDX]. *)
Class IRedisSyncCall (S : Type) : Type := {
  IDel : bytes -> Z -> M S (Z * bool);
  IGetTTL : bytes -> Z -> Z -> M S (Z * Z);
  ISetExpire : bytes -> Z -> Z -> M S Z;
  IExists : bytes -> Z -> M S (Z * bool);
  ISet : bytes -> bytes -> Z -> M S Z;
  ISetStringWithOption : bytes -> bytes -> SetCmdOptionType -> Z -> Z -> M S (Z * bool);
  IGet : bytes -> bytes -> Z -> M S (Z * bytes);
  IGetSet : bytes -> bytes -> bytes -> Z -> M S (Z * bytes);
  IIncr : bytes -> Z -> Z -> M S (Z * Z);
  IIncrby : bytes -> Z -> Z -> Z -> M S (Z * Z);
  IDecr : bytes -> Z -> Z -> M S (Z * Z);
  IDecrby : bytes -> Z -> Z -> Z -> M S (Z * Z);
  IAppend : bytes -> bytes -> Z -> Z -> M S (Z * Z);
  IMGet : list bytes -> Z -> M S (Z * list bytes);
  IMSet : StringMap -> Z -> M S Z;
  IHSet : bytes -> bytes -> bytes -> Z -> M S Z;
  IHSetNx : bytes -> bytes -> bytes -> Z -> M S Z;
  IHMSet : bytes -> StringMap -> Z -> M S Z;
  IHGet : bytes -> bytes -> bytes -> Z -> M S (Z * bytes);
  IHMGet : bytes -> list bytes -> Z -> M S (Z * list bytes);
  IHGetAll : bytes -> Z -> M S (Z * StringMap);
  IHDel : bytes -> bytes -> Z -> M S Z;
  IHDel_vec : bytes -> list bytes -> Z -> M S Z;
  IHLen : bytes -> Z -> Z -> M S (Z * Z);
  IHExists : bytes -> bytes -> bool -> Z -> M S (Z * bool);
  IHIncrby : bytes -> bytes -> Z -> Z -> Z -> M S (Z * Z);
  IHKeys : bytes -> Z -> M S (Z * list bytes);
  IHVals : bytes -> list bytes -> Z -> M S (Z * list bytes);
  IGetListByRange : bytes -> Z -> Z -> Z -> M S (Z * list bytes);
  ITrimList : bytes -> Z -> Z -> Z -> M S Z;
  ILPush : bytes -> bytes -> Z -> Z -> M S (Z * Z);
  ILPush_vec : bytes -> list bytes -> Z -> Z -> M S (Z * Z);
  ILPushX : bytes -> bytes -> Z -> Z -> M S (Z * Z);
  ILPushX_vec : bytes -> list bytes -> Z -> Z -> M S (Z * Z);
  IRPush : bytes -> bytes -> Z -> Z -> M S (Z * Z);
  IRPush_vec : bytes -> list bytes -> Z -> Z -> M S (Z * Z);
  IRPushX : bytes -> bytes -> Z -> Z -> M S (Z * Z);
  IRPushX_vec : bytes -> list bytes -> Z -> Z -> M S (Z * Z);
  IPushListTail : bytes -> bytes -> Z -> Z -> M S (Z * Z);
  IPushListTailBatch : bytes -> list bytes -> Z -> Z -> M S (Z * Z);
  ISAdd : bytes -> bytes -> Z -> M S Z;
  ISAdd_vec : bytes -> list bytes -> Z -> M S Z;
  ISMembers : bytes -> Z -> M S (Z * list bytes);
  ISRem : bytes -> bytes -> Z -> M S Z;
  ISRem_vec : bytes -> list bytes -> Z -> M S Z
}.

(** The task id comes first.  The methods that take an out parameter never set
    it. *)
Class IRedisAsyncCall (S : Type) : Type := {
  IAsyncDel : Z -> bytes -> M S Z;
  IAsyncSet : Z -> bytes -> bytes -> M S Z;
  IAsyncSetStringWithOption : Z -> bytes -> bytes -> SetCmdOptionType -> Z -> M S Z;
  IAsyncIncr : Z -> bytes -> M S Z;
  IAsyncIncrby : Z -> bytes -> Z -> M S Z;
  IAsyncDecr : Z -> bytes -> M S Z;
  IAsyncDecrby : Z -> bytes -> Z -> M S Z;
  IAsyncHSet : Z -> bytes -> bytes -> bytes -> M S Z;
  IAsyncHSetNx : Z -> bytes -> bytes -> bytes -> M S Z;
  IAsyncHMSet : Z -> bytes -> StringMap -> M S Z;
  IAsyncPushListBack : Z -> bytes -> bytes -> M S Z;
  IAsyncPushListBackBatch : Z -> bytes -> list bytes -> M S Z;
  IAsyncTrimList : Z -> bytes -> Z -> Z -> M S Z;
  IAsyncSAdd : Z -> bytes -> bytes -> M S Z;
  IAsyncSAdd_vec : Z -> bytes -> list bytes -> M S Z;
  IAsyncSRem : Z -> bytes -> bytes -> M S Z
}.

Class IRedisMgr (S : Type) : Type := {
  IRedisMgr_sync :: IRedisSyncCall S;
  IRedisMgr_async :: IRedisAsyncCall S;
  ISetAsyncQueue : bool -> M S ();
  IGetAsyncConnectNum : S -> Z
}.

(** A call by its name. *)
Definition call_sync {S} (I : IRedisSyncCall S) (c : sync_call) (t : Z) : M S (Z * sync_out) :=
  match c with
  | CDel k => ret1 OBool (IDel k t)
  | CGetTTL k s => ret1 OInt (IGetTTL k s t)
  | CSetExpire k s => ret0 (ISetExpire k s t)
  | CExists k => ret1 OBool (IExists k t)
  | CSet k v => ret0 (ISet k v t)
  | CSetStringWithOption k v o ms => ret1 OBool (ISetStringWithOption k v o ms t)
  | CGet k out => ret1 OStr (IGet k out t)
  | CGetSet k v out => ret1 OStr (IGetSet k v out t)
  | CIncr k out => ret1 OInt (IIncr k out t)
  | CIncrby k v out => ret1 OInt (IIncrby k v out t)
  | CDecr k out => ret1 OInt (IDecr k out t)
  | CDecrby k v out => ret1 OInt (IDecrby k v out t)
  | CAppend k v out => ret1 OInt (IAppend k v out t)
  | CMGet ks => ret1 OList (IMGet ks t)
  | CMSet m => ret0 (IMSet m t)
  | CHSet k f v => ret0 (IHSet k f v t)
  | CHSetNx k f v => ret0 (IHSetNx k f v t)
  | CHMSet k m => ret0 (IHMSet k m t)
  | CHGet k f out => ret1 OStr (IHGet k f out t)
  | CHMGet k fs => ret1 OList (IHMGet k fs t)
  | CHGetAll k => ret1 OMap (IHGetAll k t)
  | CHDel k f => ret0 (IHDel k f t)
  | CHDel_vec k fs => ret0 (IHDel_vec k fs t)
  | CHLen k out => ret1 OInt (IHLen k out t)
  | CHExists k f out => ret1 OBool (IHExists k f out t)
  | CHIncrby k f v out => ret1 OInt (IHIncrby k f v out t)
  | CHKeys k => ret1 OList (IHKeys k t)
  | CHVals k out => ret1 OList (IHVals k out t)
  | CPushListTail k v out => ret1 OInt (IPushListTail k v out t)
  | CPushListTailBatch k vs out => ret1 OInt (IPushListTailBatch k vs out t)
  | CGetListByRange k a b => ret1 OList (IGetListByRange k a b t)
  | CTrimList k a b => ret0 (ITrimList k a b t)
  | CLPush k v out => ret1 OInt (ILPush k v out t)
  | CLPush_vec k vs out => ret1 OInt (ILPush_vec k vs out t)
  | CLPushX k v out => ret1 OInt (ILPushX k v out t)
  | CLPushX_vec k vs out => ret1 OInt (ILPushX_vec k vs out t)
  | CRPush k v out => ret1 OInt (IRPush k v out t)
  | CRPush_vec k vs out => ret1 OInt (IRPush_vec k vs out t)
  | CRPushX k v out => ret1 OInt (IRPushX k v out t)
  | CRPushX_vec k vs out => ret1 OInt (IRPushX_vec k vs out t)
  | CSAdd k v => ret0 (ISAdd k v t)
  | CSAdd_vec k vs => ret0 (ISAdd_vec k vs t)
  | CSMembers k => ret1 OList (ISMembers k t)
  | CSRem k v => ret0 (ISRem k v t)
  | CSRem_vec k vs => ret0 (ISRem_vec k vs t)
  end.

Definition call_async {S} (I : IRedisAsyncCall S) (c : async_call) (taskId : Z) : M S Z :=
  match c with
  | ADel k => IAsyncDel taskId k
  | ASet k v => IAsyncSet taskId k v
  | ASetStringWithOption k v o ms => IAsyncSetStringWithOption taskId k v o ms
  | AIncr k => IAsyncIncr taskId k
  | AIncrby k v => IAsyncIncrby taskId k v
  | ADecr k => IAsyncDecr taskId k
  | ADecrby k v => IAsyncDecrby taskId k v
  | AHSet k f v => IAsyncHSet taskId k f v
  | AHSetNx k f v => IAsyncHSetNx taskId k f v
  | AHMSet k m => IAsyncHMSet taskId k m
  | APushListBack k v => IAsyncPushListBack taskId k v
  | APushListBackBatch k vs => IAsyncPushListBackBatch taskId k vs
  | ATrimList k a b => IAsyncTrimList taskId k a b
  | ASAdd k v => IAsyncSAdd taskId k v
  | ASAdd_vec k vs => IAsyncSAdd_vec taskId k vs
  | ASRem k v => IAsyncSRem taskId k v
  end.

(** The methods of [RedisMgr]. *)
Definition RedisMgr_sync {HR : Hiredis} {HE : RedisEnv} (fuel : nat) : IRedisSyncCall RedisMgr := {|
  IDel := Del fuel;
  IGetTTL := GetTTL fuel;
  ISetExpire := SetExpire fuel;
  IExists := Exists fuel;
  ISet := Set_ fuel;
  ISetStringWithOption := SetStringWithOption fuel;
  IGet := Get fuel;
  IGetSet := GetSet fuel;
  IIncr := Incr fuel;
  IIncrby := Incrby fuel;
  IDecr := Decr fuel;
  IDecrby := Decrby fuel;
  IAppend := Append fuel;
  IMGet := MGet fuel;
  IMSet := MSet fuel;
  IHSet := HSet fuel;
  IHSetNx := HSetNx fuel;
  IHMSet := HMSet fuel;
  IHGet := HGet fuel;
  IHMGet := HMGet fuel;
  IHGetAll := HGetAll fuel;
  IHDel := HDel fuel;
  IHDel_vec := HDel_vec fuel;
  IHLen := HLen fuel;
  IHExists := HExists fuel;
  IHIncrby := HIncrby fuel;
  IHKeys := HKeys fuel;
  IHVals := HVals fuel;
  IGetListByRange := GetListByRange fuel;
  ITrimList := TrimList fuel;
  ILPush := LPush fuel;
  ILPush_vec := LPush_vec fuel;
  ILPushX := LPushX fuel;
  ILPushX_vec := LPushX_vec fuel;
  IRPush := RPush fuel;
  IRPush_vec := RPush_vec fuel;
  IRPushX := RPushX fuel;
  IRPushX_vec := RPushX_vec fuel;
  IPushListTail := PushListTail fuel;
  IPushListTailBatch := PushListTailBatch fuel;
  ISAdd := SAdd fuel;
  ISAdd_vec := SAdd_vec fuel;
  ISMembers := SMembers fuel;
  ISRem := SRem fuel;
  ISRem_vec := SRem_vec fuel
|}.

Definition RedisMgr_async {HR : Hiredis} {HE : RedisEnv} : IRedisAsyncCall RedisMgr := {|
  IAsyncDel := AsyncDel;
  IAsyncSet := AsyncSet;
  IAsyncSetStringWithOption := AsyncSetStringWithOption;
  IAsyncIncr := AsyncIncr;
  IAsyncIncrby := AsyncIncrby;
  IAsyncDecr := AsyncDecr;
  IAsyncDecrby := AsyncDecrby;
  IAsyncHSet := AsyncHSet;
  IAsyncHSetNx := AsyncHSetNx;
  IAsyncHMSet := AsyncHMSet;
  IAsyncPushListBack := AsyncPushListBack;
  IAsyncPushListBackBatch := AsyncPushListBackBatch;
  IAsyncTrimList := AsyncTrimList;
  IAsyncSAdd := AsyncSAdd;
  IAsyncSAdd_vec := AsyncSAdd_vec;
  IAsyncSRem := AsyncSRem
|}.

Definition RedisMgr_mgr {HR : Hiredis} {HE : RedisEnv} (fuel : nat) : IRedisMgr RedisMgr := {|
  IRedisMgr_sync := RedisMgr_sync fuel;
  IRedisMgr_async := RedisMgr_async;
  ISetAsyncQueue := SetAsyncQueue;
  IGetAsyncConnectNum := GetAsyncConnectNum
|}.

Lemma call_sync_RedisMgr {HR : Hiredis} {HE : RedisEnv} fuel c t :
  call_sync (RedisMgr_sync fuel) c t = run_sync fuel c t.
Proof. by destruct c. Qed.

Lemma call_async_RedisMgr {HR : Hiredis} {HE : RedisEnv} c taskId :
  call_async RedisMgr_async c taskId = run_async c taskId.
Proof. by destruct c. Qed.

(** ** The promise *)

(** [linked s st]: the server behind the interface stores [st], as the thread
    [t] sees it.  The loops of an implementation run with fuel; enough of it
    always exists.  [pause] is [tools::Sleep] as the system sees it. *)
Class SyncStore {S : Type} (I : nat -> IRedisSyncCall S) (t : Z) : Type := {
  linked : S -> store -> Prop;
  call_law : forall c s st sp st', linked s st -> args_ok (sync_args c) ->
    redis_effect (sync_args c) st = Some (sp, st') ->
    exists r s', matches sp r /\ linked s' st' /\
      exists N, forall fuel, (N <= fuel)%nat ->
        call_sync (I fuel) c t s = (res ← sync_reply c r; Ok (res, s'));
  pause : Z -> M S ();
  pause_law : forall ms s st, linked s st ->
    exists s', pause ms s = Ok (tt, s') /\ linked s' (elapse ms st)
}.

(** ** The implementation keeps it *)

Section Implementation.
Context {HR : Hiredis} {HP : RedisPeer HR} {HE : RedisEnv}.

(** The thread's connection has a server that stores [st]. *)
Definition mgr_linked (t : Z) (m : RedisMgr) (st : store) : Prop :=
  exists i k, GetRedisConnection t m = Ok (i, m) /\ s_vecRedisContext m !! i = Some k /\
    talking (ctx k) (net m) st [].

(** The connection a thread gets depends on the number of connections only. *)
Lemma GetRedisConnection_same t m m' i : s_connectNum m' = s_connectNum m ->
  length (s_vecRedisContext m') = length (s_vecRedisContext m) ->
  GetRedisConnection t m = Ok (i, m) -> GetRedisConnection t m' = Ok (i, m').
Proof.
  intros Hn Hl. unfold GetRedisConnection, vec_at, mget, mlift, mfault, mbind, M_bind, outcome_bind.
  rewrite Hn, Hl.
  destruct (t =? MAIN_THREAD_IDX); [|destruct (u32 (s_connectNum m) =? 0); [done|]]; case_match; naive_solver.
Qed.

Lemma after_linked t m i k c w st : GetRedisConnection t m = Ok (i, m) ->
  s_vecRedisContext m !! i = Some k -> talking c w st [] -> mgr_linked t (after i c w m) st.
Proof.
  intros Hi Hk Ht. exists i, (set_ctx c k). split_and!; [|  |exact Ht].
  { by eapply GetRedisConnection_same; [..|exact Hi]; cbn; rewrite ?length_alter. }
  cbn [s_vecRedisContext after set_net set_vec]. by rewrite list_lookup_alter_eq, Hk.
Qed.

(** One call on the connection [i], whether or not it wants its reply. *)
Lemma exec_at cmd t want m i k st sp st' : GetRedisConnection t m = Ok (i, m) ->
  s_vecRedisContext m !! i = Some k -> talking (ctx k) (net m) st [] -> args_ok cmd ->
  redis_effect cmd st = Some (sp, st') ->
  exists r c2 w2, matches sp r /\ talking c2 w2 st' [] /\
    exists N, forall fuel, (N <= fuel)%nat ->
      exec fuel (builder_new <<* cmd) t want true m =
        Ok ((0, if want then Some r else None), after i c2 (if want then w2 else freeReplyObject r w2) m).
Proof.
  intros Hi Hk Ht Hok He. destruct (commit_args cmd Hok) as (b & Eb & Hb).
  destruct (exchange_peer b cmd (set_obuf (_seek b) (ctx k)) (net m) st sp st')
    as (r & c2 & blk & w2 & Hm & Ht2 & N & E); [done|done|done|by apply talking_obuf|done|].
  exists r, c2, w2. split; [done|]. split; [done|]. exists N. intros fuel Hf.
  unfold exec. rewrite Eb, (M_bind_Ok _ _ m b m) by done.
  unfold mbind, M_bind. rewrite execCmd_unfold, Hi, send_on_unfold, Hk. unfold sendAndGetReply, IsCommit.
  rewrite (com_commit _ _ Hb). cbn [negb]. rewrite (E fuel want Hf). by destruct want.
Qed.

Lemma run_sync_at c t m i k st sp st' : GetRedisConnection t m = Ok (i, m) ->
  s_vecRedisContext m !! i = Some k -> talking (ctx k) (net m) st [] -> args_ok (sync_args c) ->
  redis_effect (sync_args c) st = Some (sp, st') ->
  exists r c2 w2, matches sp r /\ talking c2 w2 st' [] /\
    exists N, forall fuel, (N <= fuel)%nat ->
      run_sync fuel c t m = (res ← sync_reply c r; Ok (res, after i c2 w2 m)).
Proof.
  intros Hi Hk Ht Hok He. destruct (exec_at _ t (sync_wants c) m i k st sp st' Hi Hk Ht Hok He)
    as (r & c2 & w2 & Hm & Ht2 & N & E).
  exists r, c2, (freeReplyObject r w2). split; [done|]. split; [by apply talking_free|].
  exists N. intros fuel Hf. rewrite run_sync_spec. unfold spec_sync. rewrite (M_bind_Ok _ _ _ _ _ (E fuel Hf)).
  destruct (sync_wants c) eqn:Ew.
  - unfold with_result, mlift, mbind, M_bind, outcome_bind. by destruct (sync_reply c r).
  - by destruct c.
Qed.

(** One call on a linked connection. *)
Lemma run_sync_linked c t m st sp st' : mgr_linked t m st -> args_ok (sync_args c) ->
  redis_effect (sync_args c) st = Some (sp, st') ->
  exists r m', matches sp r /\ mgr_linked t m' st' /\
    exists N, forall fuel, (N <= fuel)%nat -> run_sync fuel c t m = (res ← sync_reply c r; Ok (res, m')).
Proof.
  intros (i & k & Hi & Hk & Ht) Hok He.
  destruct (run_sync_at c t m i k st sp st' Hi Hk Ht Hok He) as (r & c2 & w2 & Hm & Ht2 & H).
  exists r, (after i c2 w2 m). split; [done|]. split; [by eapply after_linked|done].
Qed.

#[export] Instance RedisMgr_store t : SyncStore (fun fuel => RedisMgr_sync fuel) t.
Proof.
  refine {| linked := mgr_linked t; pause := fun ms => on_net (fun w => (tt, Sleep ms w)) |}.
  2:{ intros ms m st (i & k & Hi & Hk & Ht). eexists. split; [reflexivity|].
      exists i, k. split_and!; [by eapply GetRedisConnection_same; [..|exact Hi]|exact Hk|]. by apply talking_sleep. }
  intros c m st sp st' Hl Hok He.
  destruct (run_sync_linked c t m st sp st' Hl Hok He) as (r & m' & Hm & Hl' & N & E).
  exists r, m'. split_and!; [done|done|]. exists N. intros fuel Hf. rewrite call_sync_RedisMgr. by apply E.
Defined.

(** *** Sequences of calls *)

(** The calls one after the other. *)
Fixpoint run_calls (fuel : nat) (cs : list sync_call) (t : Z) : M RedisMgr (list (Z * sync_out)) :=
  match cs with
  | [] => mret []
  | c :: cs' => a ← run_sync fuel c t; l ← run_calls fuel cs' t; mret (a :: l)
  end.

(** What the calls read in their replies. *)
Fixpoint readings (cs : list sync_call) (rs : list redisReply) : outcome (list (Z * sync_out)) :=
  match cs, rs with
  | c :: cs', r :: rs' => a ← sync_reply c r; l ← readings cs' rs'; Ok (a :: l)
  | _, _ => Ok []
  end.

(** C4: [RedisMgr] refines the Redis store.  A thread whose connection has a
    server behind it makes any sequence of calls whose commands are
    described: with enough fuel the calls have exactly the effect of those
    commands, in order, on the stored data, and return what they read in
    replies the documentation allows (a reading that faults is the only
    fault); afterwards the connection is ready for the next call. *)
Theorem sync_calls_refine_store cs t m st sps st' : mgr_linked t m st ->
  Forall (fun c => args_ok (sync_args c)) cs -> effects (map sync_args cs) st = Some (sps, st') ->
  exists rs m', Forall2 matches sps rs /\ mgr_linked t m' st' /\
    exists N, forall fuel, (N <= fuel)%nat ->
      run_calls fuel cs t m = (l ← readings cs rs; Ok (l, m')).
Proof.
  intros Hl Hok. revert m st sps Hl. induction Hok as [|c cs Hc Hok IH]; intros m st sps Hl He.
  { injection He as <- <-. exists [], m. split_and!; [constructor|done|]. by exists 0%nat. }
  apply effects_cons in He as (sp & st1 & sps1 & E1 & E2 & ->). destruct (run_sync_linked c t m st sp st1 Hl Hc E1) as (r & m1 & Hm & Hl1 & N1 & R1).
  destruct (IH m1 st1 sps1 Hl1 E2) as (rs & m2 & Hms & Hl2 & N2 & R2).
  exists (r :: rs), m2. split_and!; [by constructor|done|]. exists (Nat.max N1 N2). intros fuel Hf.
  cbn [run_calls readings]. unfold mbind, M_bind, outcome_bind in R1, R2 |- *. rewrite R1 by lia.
  destruct (sync_reply c r) as [a| |]; [|done..]. rewrite R2 by lia. by destruct (readings cs rs).
Qed.
End Implementation.

(** ** A manager with a server *)

Module StoreExample.
#[export] Instance env : RedisEnv := ScriptedEnv.env 2 [].
#[export] Instance lib : Hiredis := StoreServer.lib.
#[export] Instance peer : RedisPeer lib := StoreServer.peer.

Definition mgr0 : RedisMgr := mgr_start StoreServer.empty.
Definition mgr : RedisMgr := state_of mgr0 (Initialize mgr0).

(** A connection that has just been made. *)
Lemma mgr_linked_empty : mgr_linked 0 mgr ∅.
Proof.
  exists 0%nat, (new_connection (StoreServer.connection 3 : redisContext (@reader lib))).
  split_and!; [reflexivity|reflexivity|]. split_and!; try done; constructor.
Qed.

Definition calls : list sync_call :=
  [CSet (lit "k") (lit "5"); CIncrby (lit "k") 10 0; CGet (lit "k") []; CHSet (lit "h") (lit "f") (lit "v");
   CHGet (lit "h") (lit "g") []; CSAdd (lit "s") (lit "m"); CSAdd (lit "s") (lit "m"); CDel (lit "k");
   CSetExpire (lit "h") 60; CMSet [(lit "a", lit "1"); (lit "b", lit "2")]; CMGet [lit "b"; lit "h"; lit "a"];
   CLPush_vec (lit "l") [lit "x"; lit "y"] 0; CRPushX (lit "none") (lit "z") 0; CGetListByRange (lit "l") 0 (-1);
   CGetTTL (lit "a") 0; CHDel (lit "h") (lit "f"); CExists (lit "h")].

Definition expected : list (Z * sync_out) :=
  [(0, ONone); (0, OInt 15); (0, OStr (lit "15")); (0, ONone); (REDIS_RESULT_NODATA, OStr []);
   (0, ONone); (REDIS_ERR_OTHER, ONone); (0, OBool true);
   (0, ONone); (0, ONone); (0, OList [lit "2"; []; lit "1"]);
   (0, OInt 2); (0, OInt 0); (0, OList [lit "y"; lit "x"]); (0, OInt (-1)); (0, ONone); (0, OBool false)].

Definition specs : list reply_spec :=
  [Exactly OK_reply; Exactly (integer_reply 15); Exactly (string_reply (lit "15")); Exactly (flag true);
   Exactly nil_reply; Exactly (integer_reply 1); Exactly (integer_reply 0); Exactly (flag true);
   AnyError; Exactly OK_reply; Exactly (array_reply [string_reply (lit "2"); nil_reply; string_reply (lit "1")]);
   Exactly (integer_reply 2); Exactly (integer_reply 0); Exactly (strings [lit "y"; lit "x"]);
   Exactly (integer_reply (-1)); Exactly (integer_reply 1); Exactly (flag false)].
Definition final : store := from_option snd ∅ (effects (map sync_args calls) ∅).

Lemma effects_calls : effects (map sync_args calls) ∅ = Some (specs, final).
Proof. vm_compute. reflexivity. Qed.
End StoreExample.
Import StoreExample.

Lemma sync_calls_refine_store_witness : exists m' N, forall fuel, (N <= fuel)%nat ->
  run_calls fuel calls 0 mgr = Ok (expected, m').
Proof.
  destruct (sync_calls_refine_store calls 0 mgr ∅ specs final) as (rs & m' & Hm & _ & N & H).
  - exact mgr_linked_empty.
  - apply (bool_decide_unpack _). vm_compute. reflexivity.
  - exact effects_calls.
  - exists m', N. intros fuel Hf. rewrite (H fuel Hf). unfold specs in Hm.
    repeat match goal with
           | H : Forall2 _ (_ :: _) _ |- _ => apply Forall2_cons_inv_l in H as (? & ? & Hr & H & ->); inversion Hr; subst; clear Hr
           | H : Forall2 _ [] _ |- _ => apply Forall2_nil_inv_l in H as ->
           end.
    reflexivity.
Defined.
