(* ===== verification/RedisAsyncStore.v ===== *)
(** * Asynchronous calls and the Redis store

    An asynchronous call only queues its command (RedisAsync).  Here is what
    the commands do when the task of their connection runs: pipelines of at
    most sixteen, each with a server at the other end ([RedisPeer]), have the
    effect of the queued commands on the stored data. *)
From Stdlib Require Import ZArith Lia Ascii Permutation.
From stdpp Require Import base numbers list list_numbers strings gmap.
From S2P Require Import Prelude Kernel Resp Hiredis RedisHelper RedisWire RedisMgr RedisMgrProps.
From S2P Require Import RedisSync RedisSyncProps RedisAsync RedisStore RedisPeer IRedisMgr.
Open Scope Z_scope.
#[local] Open Scope seed_scope.

(** A builder that holds a command. *)
Definition carries (b : RedisCmdBuilder) (cmd : list bytes) : Prop := committed b (resp_encode cmd).

Section Batches.
Context {HR : Hiredis} {HP : RedisPeer HR} {HE : RedisEnv}.

(** The pending commands of every connection. *)
Definition queues (m : RedisMgr) : list (list RedisCmdBuilder) := map _threadCmdList (s_vecRedisContext m).

Lemma map_alter {A B} (g : A -> B) (f : A -> A) i (l : list A) : (forall a, g (f a) = g a) ->
  map g (alter f i l) = map g l.
Proof.
  intros Hf. apply list_eq. intros j. change (map g) with (fmap (M := list) g). rewrite !list_lookup_fmap.
  destruct (decide (i = j)) as [->|Hne]; [|by rewrite list_lookup_alter_ne].
  rewrite list_lookup_alter_eq. destruct (l !! j) as [a|]; [|done]. exact (f_equal Some (Hf a)).
Qed.

Lemma queues_after i c w m : queues (after i c w m) = queues m.
Proof. by apply map_alter. Qed.

Lemma after_twice i c1 w1 c2 w2 m : after i c2 w2 (after i c1 w1 m) = after i c2 w2 m.
Proof.
  unfold after. cbn [s_vecRedisContext set_net set_vec]. rewrite list_alter_alter_eq. reflexivity.
Qed.

Lemma after_self i k m : s_vecRedisContext m !! i = Some k -> after i (ctx k) (net m) m = m.
Proof.
  intros Hk. unfold after. replace (alter _ i (s_vecRedisContext m)) with (s_vecRedisContext m); [by destruct m|].
  apply list_eq. intros j. destruct (decide (i = j)) as [<-|Hne]; [|by rewrite list_lookup_alter_ne].
  rewrite list_lookup_alter_eq, Hk. by destruct k.
Qed.

(** One batch, and several, on the connection [i]. *)
Lemma run_batch_at t m i k bs cmds st sps st' : GetRedisConnection t m = Ok (i, m) ->
  s_vecRedisContext m !! i = Some k -> talking (ctx k) (net m) st [] -> Forall2 carries bs cmds ->
  Forall args_ok cmds -> Z.of_nat (length bs) < 2 ^ 31 -> effects cmds st = Some (sps, st') ->
  exists c w, talking c w st' [] /\
    exists N, forall fuel, (N <= fuel)%nat -> run_batch fuel t bs m = Ok (tt, after i c w m).
Proof.
  intros Hi Hk Ht Hb Hok Hlen He.
  destruct (pipeline_peer bs cmds (ctx k) (net m) st sps st' Hb Hok Hlen Ht He)
    as (rs & c2 & bs2 & w2 & _ & Ht2 & N & E).
  exists c2, (foldl (fun w r => freeReplyObject r w) w2 rs). split; [by apply talking_free_all|].
  exists N. intros fuel Hf. unfold run_batch, mbind at 1, M_bind at 1.
  rewrite batchExecCmd_unfold, Hi, pipeline_on_unfold, Hk, (E fuel Hf). reflexivity.
Qed.

Lemma run_batches_at t css i : forall m k cmds st sps st', GetRedisConnection t m = Ok (i, m) ->
  s_vecRedisContext m !! i = Some k -> talking (ctx k) (net m) st [] ->
  Forall2 carries (concat css) cmds -> Forall args_ok cmds ->
  Forall (fun bs => (0 < length bs <= 16)%nat) css -> effects cmds st = Some (sps, st') ->
  exists c w, talking c w st' [] /\
    exists N, forall fuel, (N <= fuel)%nat -> run_batches fuel t css m = Ok (tt, after i c w m).
Proof.
  induction css as [|bs css IH]; intros m k cmds st sps st' Hi Hk Ht Hb Hok Hcss He; cbn [concat] in Hb.
  { apply Forall2_nil_inv_l in Hb as ->. injection He as <- <-. exists (ctx k), (net m).
    rewrite (after_self i k m Hk). split; [done|]. by exists 0%nat. }
  apply Forall_cons in Hcss as [Hlen Hcss]. apply Forall2_app_inv_l in Hb as (cmds1 & cmds2 & Hb1 & Hb2 & ->).
  apply Forall_app in Hok as [Hok1 Hok2]. apply effects_app in He as (sps1 & st1 & sps2 & E1 & E2).
  destruct (run_batch_at t m i k bs cmds1 st sps1 st1) as (c1 & w1 & Ht1 & N1 & R1); [done..|lia|done|].
  destruct (IH (after i c1 w1 m) (set_ctx c1 k) cmds2 st1 sps2 st') as (c2 & w2 & Ht2 & N2 & R2); try done.
  { eapply GetRedisConnection_same; [..|exact Hi]; [done|]. cbn. by rewrite length_alter. }
  { cbn. by rewrite list_lookup_alter_eq, Hk. }
  exists c2, w2. split; [done|]. exists (N1 + N2)%nat. intros fuel Hf. cbn [run_batches].
  rewrite (M_bind_Ok _ _ _ _ _ (R1 fuel ltac:(lia))), <- (after_twice i c1 w1 c2 w2 m). apply R2. lia.
Qed.

(** What a thread's server stores depends on the contexts only. *)
Lemma mgr_linked_same t m m' st : s_connectNum m' = s_connectNum m -> net m' = net m ->
  map ctx (s_vecRedisContext m') = map ctx (s_vecRedisContext m) -> mgr_linked t m st -> mgr_linked t m' st.
Proof.
  intros Hn Hw Hc (i & k & Hi & Hk & Ht).
  assert (Hl : length (s_vecRedisContext m') = length (s_vecRedisContext m)).
  { by rewrite <- (length_map ctx), Hc, length_map. }
  apply (f_equal (fun l => l !! i)) in Hc. change (map ctx) with (fmap (M := list) ctx) in Hc.
  rewrite !list_lookup_fmap, Hk in Hc. destruct (s_vecRedisContext m' !! i) as [k'|] eqn:Ek; [|done].
  injection Hc as Hc. exists i, k'. rewrite Hw, Hc. split_and!; [by eapply GetRedisConnection_same|done|done].
Qed.

Lemma upd_conn_Ok i f m : upd_conn i f m = Ok (tt, set_vec (alter f i (s_vecRedisContext m)) m).
Proof. done. Qed.

(** What the task of the connection [i] leaves, when its commands ran on the
    connection [j]. *)
Definition task_done (i j : nat) (c : redisContext reader) (w : world) (m : RedisMgr) : RedisMgr :=
  let m := after j c w (set_vec (alter (set_cmds []) i (s_vecRedisContext m)) m) in
  set_vec (alter (set_post false) i (s_vecRedisContext m)) m.

Lemma task_done_queues i j c w m : queues (task_done i j c w m) = alter (fun _ => []) i (queues m).
Proof.
  unfold task_done. transitivity (queues (set_vec (alter (set_cmds []) i (s_vecRedisContext m)) m)).
  - etransitivity; [by apply map_alter|]. apply queues_after.
  - unfold queues. cbn [s_vecRedisContext set_vec]. change (map _threadCmdList) with (fmap (M := list) _threadCmdList).
    apply list_eq. intros l. rewrite list_lookup_fmap. destruct (decide (i = l)) as [<-|Hne].
    + rewrite !list_lookup_alter_eq, list_lookup_fmap. by destruct (s_vecRedisContext m !! i).
    + by rewrite !list_lookup_alter_ne, list_lookup_fmap.
Qed.

Lemma map_alter_comm {A B} (g : A -> B) (f : A -> A) (h : B -> B) i (l : list A) :
  (forall a, g (f a) = h (g a)) -> map g (alter f i l) = alter h i (map g l).
Proof.
  intros Hf. apply list_eq. intros j. change (map g) with (fmap (M := list) g). rewrite list_lookup_fmap.
  destruct (decide (i = j)) as [->|Hne].
  - rewrite !list_lookup_alter_eq, list_lookup_fmap. destruct (l !! j) as [a|]; [|done]. exact (f_equal Some (Hf a)).
  - by rewrite !list_lookup_alter_ne, list_lookup_fmap.
Qed.

(** The contexts, of which one has changed. *)
Lemma task_done_ctx i j c w m :
  map ctx (s_vecRedisContext (task_done i j c w m)) = alter (fun _ => c) j (map ctx (s_vecRedisContext m)).
Proof.
  unfold task_done. cbn [s_vecRedisContext set_vec after set_net]. rewrite map_alter by done.
  rewrite (map_alter_comm ctx (set_ctx c) (fun _ => c)) by done. by rewrite map_alter.
Qed.

(** The task of a connection: its commands take effect on the data of the
    server of the thread it names. *)
Lemma OnExecRedisTask_at i k j k' m cmds st sps st' : s_vecRedisContext m !! i = Some k ->
  GetRedisConnection (_threadIdx k) m = Ok (j, m) -> s_vecRedisContext m !! j = Some k' ->
  talking (ctx k') (net m) st [] -> Forall2 carries (cutList (_threadCmdList k)) cmds ->
  Forall args_ok cmds -> effects cmds st = Some (sps, st') ->
  exists c w, talking c w st' [] /\
    exists N, forall fuel, (N <= fuel)%nat -> OnExecRedisTask fuel i m = Ok (tt, task_done i j c w m).
Proof.
  intros Hk Hj Hk' Ht Hb Hok He.
  destruct (exec_batches_chunks (_threadIdx k) (cutList (_threadCmdList k)) [])
    as (css & E1 & E2 & _ & E4); [cbn; lia|done|].
  set (m0 := set_vec (alter (set_cmds []) i (s_vecRedisContext m)) m).
  assert (Hk0 : exists k0, s_vecRedisContext m0 !! j = Some k0 /\ ctx k0 = ctx k').
  { unfold m0. cbn [s_vecRedisContext set_vec]. destruct (decide (i = j)) as [<-|Hne].
    - rewrite list_lookup_alter_eq, Hk'. by eexists.
    - rewrite list_lookup_alter_ne by done. by exists k'. }
  destruct Hk0 as (k0 & Hk0 & Hc0).
  destruct (run_batches_at (_threadIdx k) css j m0 k0 cmds st sps st') as (c & w & Ht2 & N & R); try done.
  { eapply GetRedisConnection_same; [..|exact Hj]; [done|]. cbn. by rewrite length_alter. }
  { by rewrite Hc0. }
  { by rewrite E1. }
  exists c, w. split; [done|]. exists N. intros fuel Hf. unfold OnExecRedisTask. rewrite (M_bind_Ok _ _ m k m).
  2:{ unfold get_conn, mget, mlift, mbind, M_bind. by rewrite Hk. }
  rewrite (M_bind_Ok _ _ _ _ _ (upd_conn_Ok i (set_cmds []) m)). fold m0.
  unfold mbind, M_bind. by rewrite E4, (R fuel Hf).
Qed.

Lemma OnExecRedisTask_linked i k m cmds st sps st' : s_vecRedisContext m !! i = Some k ->
  mgr_linked (_threadIdx k) m st -> Forall2 carries (cutList (_threadCmdList k)) cmds ->
  Forall args_ok cmds -> effects cmds st = Some (sps, st') ->
  exists m', mgr_linked (_threadIdx k) m' st' /\ queues m' = alter (fun _ => []) i (queues m) /\
    exists N, forall fuel, (N <= fuel)%nat -> OnExecRedisTask fuel i m = Ok (tt, m').
Proof.
  intros Hk (j & k' & Hj & Hk' & Ht) Hb Hok He.
  destruct (OnExecRedisTask_at i k j k' m cmds st sps st' Hk Hj Hk' Ht Hb Hok He) as (c & w & Ht2 & H).
  exists (task_done i j c w m). split; [|split; [apply task_done_queues|done]].
  assert (Hc : map ctx (s_vecRedisContext (task_done i j c w m)) !! j = Some c).
  { rewrite task_done_ctx, list_lookup_alter_eq. change (map ctx) with (fmap (M := list) ctx).
    by rewrite list_lookup_fmap, Hk'. }
  change (map ctx) with (fmap (M := list) ctx) in Hc. rewrite list_lookup_fmap in Hc.
  destruct (s_vecRedisContext (task_done i j c w m) !! j) as [k2|] eqn:E2; [|done]. injection Hc as Hc.
  exists j, k2. split_and!; [|done|by rewrite Hc]. eapply GetRedisConnection_same; [..|exact Hj]; [done|].
  unfold task_done. cbn. by rewrite !length_alter.
Qed.
End Batches.

(** ** Queueing *)

Section Queueing.
Context {HR : Hiredis} {HP : RedisPeer HR} {HE : RedisEnv} {HEL : RedisEnvLaws HE}.

(** The connection of a task id. *)
Definition async_connection (n taskId : Z) : nat := Z.to_nat ((taskId mod 2 ^ 64) mod n + 1).

(** The connection [i], of the thread [t], has these commands waiting, in
    some order. *)
Definition pending (i : nat) (t : Z) (cmds : list (list bytes)) (m : RedisMgr) : Prop :=
  exists k bs, s_vecRedisContext m !! i = Some k /\ _threadIdx k = t /\
    _threadCmdList k ≡ₚ bs /\ Forall2 carries bs cmds.

(** Asynchronous calls, each with its task id. *)
Fixpoint queue_calls (cs : list (Z * async_call)) : M RedisMgr (list Z) :=
  match cs with
  | [] => mret []
  | (taskId, c) :: cs' => a ← run_async c taskId; l ← queue_calls cs'; mret (a :: l)
  end.

(** Those for the connection [i]. *)
Definition calls_for (n : Z) (i : nat) (cs : list (Z * async_call)) : list (list bytes) :=
  map (fun p => async_args (snd p)) (filter (fun p => async_connection n (fst p) = i) cs).

(** Two states that differ in what is queued only. *)
Record only_queued (m m' : RedisMgr) : Prop := {
  oq_num : s_connectNum m' = s_connectNum m;
  oq_net : net m' = net m;
  oq_started : started m' = started m;
  oq_ctx : map ctx (s_vecRedisContext m') = map ctx (s_vecRedisContext m)
}.

#[export] Instance only_queued_preorder : PreOrder only_queued.
Proof. split; [by constructor|]. intros s1 s2 s3 [] []. constructor; congruence. Qed.

Lemma only_queued_ok m m' : only_queued m m' -> mgr_ok m -> mgr_ok m'.
Proof.
  intros [Hn _ _ Hc] [H1 H2]. apply (f_equal length) in Hc. rewrite !length_map in Hc.
  split; rewrite Hn, ?Hc; done.
Qed.

Lemma only_queued_linked t m m' st : only_queued m m' -> mgr_linked t m st -> mgr_linked t m' st.
Proof. intros []. by apply mgr_linked_same. Qed.

(** One call. *)
Lemma run_async_pending c taskId i t cmds m : mgr_ok m -> args_ok (async_args c) -> pending i t cmds m ->
  exists m', run_async c taskId m = Ok (REDIS_RESULT_OK, m') /\ only_queued m m' /\
    pending i t (if decide (async_connection (s_connectNum m) taskId = i) then async_args c :: cmds else cmds) m'.
Proof.
  intros Hm Hok (k & bs & Hk & Ht & Hp & Hb). destruct (commit_args _ Hok) as (b & Eb & Hcb).
  destruct (addAsyncTask_effect taskId b m Hm) as (k0 & m' & Hk0 & E & Hv & Hs & Hn).
  fold (async_connection (s_connectNum m) taskId) in *. set (j := async_connection (s_connectNum m) taskId) in *.
  exists m'. split_and!.
  - rewrite run_async_spec, Eb. unfold mlift, mbind, M_bind, outcome_bind. by rewrite E.
  - constructor; [|done|done|].
    + eapply fr_num. by apply (preserves_addAsyncTask taskId b m tt m').
    + rewrite Hv. change (map ctx) with (fmap (M := list) ctx). rewrite list_fmap_insert.
      apply list_insert_id. by rewrite list_lookup_fmap, Hk0.
  - destruct (decide (j = i)) as [<-|Hne].
    + rewrite Hk in Hk0. injection Hk0 as <-.
      eexists _, (b :: bs). rewrite Hv, list_lookup_insert_eq by (by eapply lookup_lt_Some).
      split_and!; [reflexivity|done| |by constructor].
      etransitivity; [apply insertHead_perm|by rewrite Hp].
    + exists k, bs. by rewrite Hv, list_lookup_insert_ne.
Qed.

(** Several calls. *)
Lemma queue_calls_pending cs i t cmds m : mgr_ok m ->
  Forall (fun p => args_ok (async_args (snd p))) cs -> pending i t cmds m ->
  exists m' cmds', queue_calls cs m = Ok (replicate (length cs) REDIS_RESULT_OK, m') /\ only_queued m m' /\
    pending i t cmds' m' /\ cmds' ≡ₚ calls_for (s_connectNum m) i cs ++ cmds.
Proof.
  intros Hm Hok. revert m cmds Hm. induction Hok as [|[taskId c] cs Hc _ IH]; intros m cmds Hm Hp.
  { by exists m, cmds. }
  destruct (run_async_pending c taskId i t cmds m Hm Hc Hp) as (m1 & E1 & Hq1 & Hp1).
  destruct (IH m1 _ (only_queued_ok _ _ Hq1 Hm) Hp1) as (m2 & cmds2 & E2 & Hq2 & Hp2 & Hperm).
  exists m2, cmds2. split_and!; [|by etransitivity|done|].
  - cbn [queue_calls length replicate]. rewrite (M_bind_Ok _ _ _ _ _ E1), (M_bind_Ok _ _ _ _ _ E2). done.
  - rewrite Hperm, (oq_num _ _ Hq1). unfold calls_for. rewrite filter_cons. cbn [fst].
    destruct (decide _); cbn [map snd app]; [symmetry; apply Permutation_middle|done].
Qed.

(** C5: Asynchronous calls on a manager whose connection [i] has nothing
    waiting: they all return [REDIS_RESULT_OK], nothing is sent and no task
    is started.  The commands that wait at connection [i] are exactly those of
    the calls whose task id selects it (the order is the list's).  When the
    task of that connection runs and the thread the connection names has a
    server behind it, then with enough fuel the task ends, the commands have
    had their effect, one after the other, on the stored data, the list of
    the connection is empty and the other lists are as they were. *)
Theorem async_calls_refine_store cs m i k st : mgr_ok m ->
  s_vecRedisContext m !! i = Some k -> _threadCmdList k = [] -> mgr_linked (_threadIdx k) m st ->
  Forall (fun p => args_ok (async_args (snd p))) cs ->
  exists m1 cmds, queue_calls cs m = Ok (replicate (length cs) REDIS_RESULT_OK, m1) /\
    net m1 = net m /\ started m1 = started m /\ cmds ≡ₚ calls_for (s_connectNum m) i cs /\
    forall sps st', effects cmds st = Some (sps, st') ->
    exists m2, mgr_linked (_threadIdx k) m2 st' /\ queues m2 = alter (fun _ => []) i (queues m1) /\
      exists N, forall fuel, (N <= fuel)%nat -> OnExecRedisTask fuel i m1 = Ok (tt, m2).
Proof.
  intros Hm Hk Hq Hl Hok.
  destruct (queue_calls_pending cs i (_threadIdx k) [] m Hm Hok) as (m1 & cmds & E & Hoq & Hp & Hperm).
  { exists k, []. rewrite Hq. by split_and!. }
  rewrite app_nil_r in Hperm. destruct Hp as (k1 & bs & Hk1 & Ht & Hbs & Hb).
  assert (Hcut : bs ≡ₚ cutList (_threadCmdList k1)) by (by rewrite cutList_perm).
  destruct (Permutation_Forall2 Hcut Hb) as (cmds1 & Hc1 & Hb1). exists m1, cmds1.
  split_and!; [done|by apply oq_net|by apply oq_started|by rewrite <- Hc1|]. intros sps st' He. rewrite <- Ht.
  eapply OnExecRedisTask_linked; [done| |done| |done].
  - rewrite Ht. by eapply only_queued_linked.
  - rewrite <- Hc1, Hperm. unfold calls_for. apply List.Forall_map, Forall_forall.
    intros p [_ Hp]%list_elem_of_filter. by apply (proj1 (Forall_forall _ _) Hok).
Qed.
End Queueing.

(** ** A manager with a server *)

Import StoreExample.

(** Connection 2 has nothing waiting; its task runs on the connection of
    thread 1, which is connection 2 of a manager with two. *)
Definition waiting : RedisConnection :=
  new_connection (StoreServer.connection 5 : redisContext (@reader lib)).

Definition two_incr : list (Z * async_call) := [(1, AIncr (lit "k")); (4, ADel (lit "other")); (7, AIncrby (lit "k") 10)].

Definition counted : store := {[lit "k" := RStr (lit "11")]}.

Lemma async_calls_refine_store_witness : exists m1 m2 (N : nat),
  queue_calls two_incr mgr = Ok ([0; 0; 0], m1) /\ mgr_linked 1 m2 counted /\
  forall fuel, (N <= fuel)%nat -> OnExecRedisTask fuel 2 m1 = Ok (tt, m2).
Proof.
  destruct (async_calls_refine_store two_incr mgr 2 waiting ∅) as (m1 & cmds & E & _ & _ & Hp & H).
  - split; [split; by vm_compute|by vm_compute].
  - reflexivity.
  - reflexivity.
  - exists 2%nat, waiting. split_and!; [reflexivity|reflexivity|].
    split_and!; try done; constructor.
  - apply (bool_decide_unpack _). vm_compute. reflexivity.
  - assert (Hc : calls_for (s_connectNum mgr) 2 two_incr = [[lit "INCR"; lit "k"]; [lit "INCRBY"; lit "k"; lit "10"]])
      by reflexivity.
    rewrite Hc in Hp. symmetry in Hp.
    assert (He : exists sps, effects cmds ∅ = Some (sps, counted)).
    { apply Permutation_length_2_inv in Hp as [-> | ->]; eexists; vm_compute; reflexivity. }
    destruct He as [sps He]. destruct (H sps _ He) as (m2 & Hl & _ & N & HN).
    exists m1, m2, N. split_and!; [exact E|exact Hl|exact HN].
Defined.
