(* ===== verification/RedisSystem.v ===== *)
(** * The Redis manager as a system: several threads, one server

    [RedisMgr] owns one connection per thread and a list of waiting commands
    per connection; its clients are the calls of every thread, the tasks that
    run the waiting commands, and the profile timer.  Here these events come in
    any order.  The specification knows nothing of connections, pipelines,
    replies in pieces or command texts: it has the stored data and, for every
    connection, the commands that wait.  [system_refines] shows that the
    manager implements it when its connections reach one server
    ([SharedRedis]).  An event is complete before the next begins. *)
From Stdlib Require Import ZArith Lia Ascii Permutation.
From stdpp Require Import base numbers list list_numbers strings gmap.
From S2P Require Import Prelude Kernel Resp Hiredis RedisHelper RedisWire RedisMgr RedisMgrProps.
From S2P Require Import RedisSync RedisSyncProps RedisAsync RedisStore RedisPeer IRedisMgr RedisAsyncStore.
Open Scope Z_scope.
#[local] Open Scope seed_scope.

(** ** Events *)

(** A synchronous call of the thread [t], an asynchronous call, the task of
    the connection [i] run by the thread [t], the profile timer, and a
    [FlushConnectionHandler] of the thread [t]. *)
Inductive event : Type :=
  | ESync (t : Z) (c : sync_call)
  | EAsync (taskId : Z) (c : async_call)
  | ETask (i : nat) (t : Z)
  | ETimer
  | EFlush (t : Z).

(** What the client of an event gets. *)
Inductive answer : Type :=
  | Returned (r : Z * sync_out)
  | Queued (r : Z)
  | Executed (b : bool)
  | Ticked.

Section Events.
Context {HR : Hiredis} {HE : RedisEnv}.

Definition run_event (fuel : nat) (e : event) : M RedisMgr answer :=
  match e with
  | ESync t c => r ← run_sync fuel c t; mret (Returned r)
  | EAsync taskId c => r ← run_async c taskId; mret (Queued r)
  | ETask i t => b ← OnExecute fuel (RedisTaskHandler i) t; mret (Executed b)
  | ETimer => OnFlushConnectionTimer;; mret Ticked
  | EFlush t => b ← OnExecute fuel (FlushConnectionHandler t) t; mret (Executed b)
  end.

Fixpoint run_events (fuel : nat) (es : list event) : M RedisMgr (list answer) :=
  match es with
  | [] => mret []
  | e :: es' => a ← run_event fuel e; l ← run_events fuel es'; mret (a :: l)
  end.
End Events.

(** What the clients read in the server's replies to the synchronous calls. *)
Fixpoint answers (es : list event) (rs : list redisReply) : outcome (list answer) :=
  match es with
  | [] => Ok []
  | ESync _ c :: es' =>
      match rs with
      | [] => Ok []
      | r :: rs' => a ← sync_reply c r; l ← answers es' rs'; Ok (Returned a :: l)
      end
  | EAsync _ _ :: es' => l ← answers es' rs; Ok (Queued REDIS_RESULT_OK :: l)
  | ETask _ _ :: es' | EFlush _ :: es' => l ← answers es' rs; Ok (Executed true :: l)
  | ETimer :: es' => l ← answers es' rs; Ok (Ticked :: l)
  end.

(** ** The specification *)

Module Spec.
Record state : Type := mkState {
  data : store;
  waiting : list (list (list bytes))
}.

(** The condition before the events [es] of a manager with [n] thread
    connections under which they end in [Q], of the replies to the synchronous
    calls and the state they leave.  A task takes the waiting commands in some
    order, which is not the client's to choose. *)
Fixpoint wp (n : Z) (es : list event) (Q : list reply_spec -> state -> Prop) (s : state) : Prop :=
  match es with
  | [] => Q [] s
  | ESync t c :: es' =>
      args_ok (sync_args c) /\
      exists sp st, redis_effect (sync_args c) (data s) = Some (sp, st) /\
        wp n es' (fun l => Q (sp :: l)) (mkState st (waiting s))
  | EAsync taskId c :: es' =>
      args_ok (async_args c) /\
      wp n es' Q (mkState (data s) (alter (cons (async_args c)) (async_connection n taskId) (waiting s)))
  | ETask i _ :: es' =>
      exists l, waiting s !! i = Some l /\
        forall cmds, cmds ≡ₚ l -> exists sps st, effects cmds (data s) = Some (sps, st) /\
          wp n es' Q (mkState st (alter (fun _ => []) i (waiting s)))
  | ETimer :: es' | EFlush _ :: es' => wp n es' Q s
  end.

(** The rules to apply it by. *)
Lemma wp_sync n t c es Q d q sp : args_ok (sync_args c) -> fst <$> redis_effect (sync_args c) d = Some sp ->
  wp n es (fun l => Q (sp :: l)) (mkState (from_option snd d (redis_effect (sync_args c) d)) q) ->
  wp n (ESync t c :: es) Q (mkState d q).
Proof.
  intros Hok He H. split; [done|]. destruct (redis_effect (sync_args c) d) as [[sp' d']|] eqn:E; [|done].
  injection He as <-. by exists sp', d'.
Qed.

Lemma wp_async n taskId c es Q d q q' : args_ok (async_args c) ->
  alter (cons (async_args c)) (async_connection n taskId) q = q' ->
  wp n es Q (mkState d q') -> wp n (EAsync taskId c :: es) Q (mkState d q).
Proof. intros Hok <- H. by split. Qed.

Lemma wp_task n i t l es Q d q q' : q !! i = Some l -> alter (fun _ => []) i q = q' ->
  (forall cmds, cmds ≡ₚ l -> is_Some (effects cmds d) /\
     wp n es Q (mkState (from_option snd d (effects cmds d)) q')) ->
  wp n (ETask i t :: es) Q (mkState d q).
Proof.
  intros Hl <- H. exists l. split; [done|]. intros cmds Hp. destruct (H cmds Hp) as [[[sps d'] E] Hwp].
  rewrite E in Hwp. by exists sps, d'.
Qed.

Lemma wp_timer n es Q s : wp n es Q s -> wp n (ETimer :: es) Q s.
Proof. done. Qed.

Lemma wp_flush n t es Q s : wp n es Q s -> wp n (EFlush t :: es) Q s.
Proof. done. Qed.
End Spec.

(** ** The implementation *)

(** The list of a connection holds these commands, in some order. *)
Definition holds (l : list RedisCmdBuilder) (cmds : list (list bytes)) : Prop :=
  Forall args_ok cmds /\ exists bs, l ≡ₚ bs /\ Forall2 carries bs cmds.

Lemma holds_nil : holds [] [].
Proof. split; [done|]. by exists []. Qed.

Lemma list_alter_Permutation {A} (f : A -> A) (a : A) i l : l !! i = Some a ->
  alter f i l ≡ₚ f a :: delete i l.
Proof.
  revert i. induction l as [|b l IH]; intros [|i] H; [done|done| |]; cbn in H |- *.
  - by injection H as ->.
  - rewrite (IH i H). apply Permutation_swap.
Qed.

Lemma list_alter_lookup {A} (f : A -> A) (a : A) i (l : list A) : l !! i = Some a -> alter f i l = <[i := f a]> l.
Proof. intros Hl. rewrite list_insert_alter. apply list_alter_ext; naive_solver. Qed.

Section Refinement.
Context {HR : Hiredis} {HSh : SharedRedis HR} {HE : RedisEnv} {HEL : RedisEnvLaws HE}.
#[local] Abbreviation context := (redisContext reader).

(** Every one of the connections [l] can be the next to talk to the server,
    which stores [st]. *)
Definition all_talking (l : list context) (w : world) (st : store) : Prop :=
  forall c others, l ≡ₚ c :: others -> @talking HR (shared_peer others) c w st [].

Lemma all_talking_intro c others l w st : l ≡ₚ c :: others ->
  @talking HR (shared_peer others) c w st [] -> all_talking l w st.
Proof. intros Hl Ht c' o' Hl'. by eapply shared_swap, Ht; rewrite <- Hl. Qed.

Definition contexts (m : RedisMgr) : list context := map ctx (s_vecRedisContext m).

Lemma contexts_lookup m i k : s_vecRedisContext m !! i = Some k -> contexts m !! i = Some (ctx k).
Proof.
  intros Hk. unfold contexts. change (map ctx) with (fmap (M := list) ctx). by rewrite list_lookup_fmap, Hk.
Qed.

(** The manager implements the state [s]. *)
Record implements (m : RedisMgr) (s : Spec.state) : Prop := {
  im_ok : mgr_ok m;
  im_queue : s_asyncQueue m = true;
  im_server : all_talking (contexts m) (net m) (Spec.data s);
  im_waiting : Forall2 holds (queues m) (Spec.waiting s)
}.

Lemma im_connection m s i : implements m s -> (i < length (s_vecRedisContext m))%nat ->
  exists k, s_vecRedisContext m !! i = Some k /\
    @talking HR (shared_peer (delete i (contexts m))) (ctx k) (net m) (Spec.data s) [].
Proof.
  intros Him Hi. destruct (lookup_lt_is_Some_2 _ _ Hi) as [k Hk]. exists k. split; [done|].
  apply (im_server _ _ Him). by apply delete_Permutation, contexts_lookup.
Qed.

(** The connection of a thread. *)
Lemma im_thread m s t : implements m s -> exists i k, GetRedisConnection t m = Ok (i, m) /\
  s_vecRedisContext m !! i = Some k /\
  @talking HR (shared_peer (delete i (contexts m))) (ctx k) (net m) (Spec.data s) [].
Proof.
  intros Him. destruct (GetRedisConnection_spec t m (im_ok _ _ Him)) as [E Hb].
  destruct (im_connection m s (Z.to_nat (sync_connection (s_connectNum m) t)) Him) as (k & Hk & Ht).
  { destruct (im_ok _ _ Him) as [_ Hl]. lia. }
  by exists (Z.to_nat (sync_connection (s_connectNum m) t)), k.
Qed.

(** A manager after the connection [i] has been used. *)
Lemma implements_used m s i k c st m' l : implements m s -> s_vecRedisContext m !! i = Some k ->
  mgr_ok m' -> s_asyncQueue m' = true -> contexts m' = alter (fun _ => c) i (contexts m) ->
  @talking HR (shared_peer (delete i (contexts m))) c (net m') st [] -> Forall2 holds (queues m') l ->
  implements m' (Spec.mkState st l).
Proof.
  intros Him Hk Hok Hq Hc Ht Hl. constructor; [done|done| |done].
  eapply all_talking_intro; [|exact Ht]. rewrite Hc.
  by apply (list_alter_Permutation (fun _ => c) (ctx k)), contexts_lookup.
Qed.

Lemma mgr_ok_same m m' : s_connectNum m' = s_connectNum m ->
  length (s_vecRedisContext m') = length (s_vecRedisContext m) -> mgr_ok m -> mgr_ok m'.
Proof. unfold mgr_ok. by intros -> ->. Qed.

Lemma after_contexts i c w m : contexts (after i c w m) = alter (fun _ => c) i (contexts m).
Proof. unfold contexts. cbn [after s_vecRedisContext set_net set_vec]. by apply map_alter_comm. Qed.

(** *** One event *)

Lemma sync_event m s t c sp st : implements m s -> args_ok (sync_args c) ->
  redis_effect (sync_args c) (Spec.data s) = Some (sp, st) ->
  exists r m', matches sp r /\ implements m' (Spec.mkState st (Spec.waiting s)) /\ s_connectNum m' = s_connectNum m /\
    exists N, forall fuel, (N <= fuel)%nat ->
      run_event fuel (ESync t c) m = (a ← sync_reply c r; Ok (Returned a, m')).
Proof.
  intros Him Hok He. destruct (im_thread m s t Him) as (i & k & Hi & Hk & Ht).
  destruct (run_sync_at (HP := shared_peer (delete i (contexts m))) c t m i k _ sp st Hi Hk Ht Hok He)
    as (r & c2 & w2 & Hm & Ht2 & N & E).
  exists r, (after i c2 w2 m). split; [done|]. split_and!; [|done|].
  - eapply (implements_used m s i k c2); [done|done| |exact (im_queue _ _ Him)|apply after_contexts|exact Ht2|].
    + apply (mgr_ok_same m); [done| |exact (im_ok _ _ Him)]. cbn. apply length_alter.
    + rewrite queues_after. by apply im_waiting.
  - exists N. intros fuel Hf. cbn [run_event]. unfold mbind, M_bind. rewrite (E fuel Hf).
    by destruct (sync_reply c r).
Qed.

Lemma async_event fuel m s taskId c : implements m s -> args_ok (async_args c) ->
  exists m', run_event fuel (EAsync taskId c) m = Ok (Queued REDIS_RESULT_OK, m') /\
    implements m' (Spec.mkState (Spec.data s)
      (alter (cons (async_args c)) (async_connection (s_connectNum m) taskId) (Spec.waiting s))) /\
    s_connectNum m' = s_connectNum m.
Proof.
  intros Him Hok. destruct (commit_args _ Hok) as (b & Eb & Hcb).
  destruct (addAsyncTask_effect taskId b m (im_ok _ _ Him)) as (k & m' & Hk & E & Hv & Hs & Hn).
  fold (async_connection (s_connectNum m) taskId) in *. set (j := async_connection (s_connectNum m) taskId) in *.
  destruct (preserves_addAsyncTask taskId b m tt m' E) as [_ Hnum _ Hqueue _ _].
  exists m'. split_and!; [| |done].
  { cbn [run_event]. unfold mbind at 1, M_bind at 1. rewrite run_async_spec, Eb.
    unfold mlift, mbind, M_bind, outcome_bind. by rewrite E. }
  constructor.
  - apply (mgr_ok_same m); [done| |exact (im_ok _ _ Him)]. by rewrite Hv, length_insert.
  - rewrite Hqueue. exact (im_queue _ _ Him).
  - cbn [Spec.data]. replace (contexts m') with (contexts m); [rewrite Hn; by apply im_server|].
    unfold contexts. rewrite Hv. change (map ctx) with (fmap (M := list) ctx). rewrite list_fmap_insert.
    symmetry. apply list_insert_id. by rewrite list_lookup_fmap, Hk.
  - cbn [Spec.waiting]. unfold queues. rewrite Hv. change (map _threadCmdList) with (fmap (M := list) _threadCmdList).
    rewrite list_fmap_insert. cbn [_threadCmdList set_post set_handler set_cmds].
    pose proof (im_waiting _ _ Him) as Hw. unfold queues in Hw.
    change (map _threadCmdList) with (fmap (M := list) _threadCmdList) in Hw.
    destruct (Forall2_lookup_l _ _ _ j (_threadCmdList k) Hw) as (l & Hl & Hoks & bs & Hp & Hb).
    { by rewrite list_lookup_fmap, Hk. }
    rewrite (list_alter_lookup _ _ _ _ Hl). apply Forall2_insert; [done|].
    split; [by constructor|]. exists (b :: bs). split; [|by constructor].
    etransitivity; [apply insertHead_perm|by rewrite Hp].
Qed.

Lemma task_event m s i t l : implements m s -> Spec.waiting s !! i = Some l ->
  exists cmds, cmds ≡ₚ l /\ forall sps st, effects cmds (Spec.data s) = Some (sps, st) ->
    exists m', implements m' (Spec.mkState st (alter (fun _ => []) i (Spec.waiting s))) /\
      s_connectNum m' = s_connectNum m /\
      exists N, forall fuel, (N <= fuel)%nat -> run_event fuel (ETask i t) m = Ok (Executed true, m').
Proof.
  intros Him Hl. destruct (Forall2_lookup_r _ _ _ _ _ (im_waiting _ _ Him) Hl) as (bs0 & Hq & Hoks & bs & Hp & Hb).
  unfold queues in Hq. change (map _threadCmdList) with (fmap (M := list) _threadCmdList) in Hq.
  apply list_lookup_fmap_Some in Hq as (k & -> & Hk).
  assert (Hcut : bs ≡ₚ cutList (_threadCmdList k)) by (by rewrite cutList_perm).
  destruct (Permutation_Forall2 Hcut Hb) as (cmds & Hcmds & Hbc). exists cmds. split; [by symmetry|].
  intros sps st He. destruct (im_thread m s (_threadIdx k) Him) as (j & k' & Hj & Hk' & Ht).
  destruct (OnExecRedisTask_at (HP := shared_peer (delete j (contexts m))) i k j k' m cmds (Spec.data s) sps st)
    as (c & w & Ht2 & N & E); try done.
  { by rewrite <- Hcmds. }
  exists (task_done i j c w m). split_and!; [|done|].
  - apply (implements_used m s j k' c); [done|done| |exact (im_queue _ _ Him)|apply task_done_ctx|exact Ht2|].
    + apply (mgr_ok_same m); [done| |exact (im_ok _ _ Him)]. cbn. by rewrite !length_alter.
    + rewrite task_done_queues. apply Forall2_alter; [by apply im_waiting|]. intros. apply holds_nil.
  - exists N. intros fuel Hf. cbn [run_event OnExecute]. unfold mbind, M_bind. by rewrite (E fuel Hf).
Qed.

Lemma implements_same m s m' : s_connectNum m' = s_connectNum m -> net m' = net m -> contexts m' = contexts m ->
  queues m' = queues m -> s_asyncQueue m' = s_asyncQueue m -> implements m s -> implements m' s.
Proof.
  intros Hn Hw Hc Hq Ha []. constructor; [|by rewrite Ha|by rewrite Hc, Hw|by rewrite Hq]. apply (mgr_ok_same m); [done| |done].
  apply (f_equal length) in Hc. unfold contexts in Hc. by rewrite !length_map in Hc.
Qed.

Lemma timer_event fuel m s : implements m s -> exists m', run_event fuel ETimer m = Ok (Ticked, m') /\
  implements m' s /\ s_connectNum m' = s_connectNum m.
Proof.
  intros Him. eexists. split.
  { cbn [run_event]. unfold OnFlushConnectionTimer, mget, mbind, M_bind. rewrite (im_queue _ _ Him). reflexivity. }
  split; [|done]. by apply (implements_same m).
Qed.

Lemma flush_event fuel m s t : implements m s -> exists m', run_event fuel (EFlush t) m = Ok (Executed true, m') /\
  implements m' s /\ s_connectNum m' = s_connectNum m.
Proof.
  intros Him. destruct (im_thread m s t Him) as (i & k & Hi & _). eexists. split.
  { cbn [run_event OnExecute]. rewrite Z.eqb_refl. unfold OnFlushConnection, mbind, M_bind. rewrite Hi. reflexivity. }
  split; [|done]. apply (implements_same m); try done; by apply map_alter.
Qed.

(** *** Any number of events *)

(** What the first event leaves and what the others do from there. *)
Lemma run_events_cons e es m (x l : outcome _) m1 m2 :
  (exists N, forall fuel, (N <= fuel)%nat -> run_event fuel e m = (a ← x; Ok (a, m1))) ->
  (exists N, forall fuel, (N <= fuel)%nat -> run_events fuel es m1 = (l' ← l; Ok (l', m2))) ->
  exists N, forall fuel, (N <= fuel)%nat ->
    run_events fuel (e :: es) m = (l' ← (a ← x; l' ← l; Ok (a :: l')); Ok (l', m2)).
Proof.
  intros [N1 E1] [N2 E2]. exists (N1 + N2)%nat. intros fuel Hf. cbn [run_events]. unfold mbind, M_bind, outcome_bind in *.
  rewrite (E1 fuel ltac:(lia)). destruct x as [a| |]; [|done..]. rewrite (E2 fuel ltac:(lia)). by destruct l.
Qed.

(** One event of a sequence. *)
Lemma event_refines e es Q m s : implements m s -> Spec.wp (s_connectNum m) (e :: es) Q s ->
  exists sps0 rs0 m1 s1 x, Forall2 matches sps0 rs0 /\ implements m1 s1 /\
    Spec.wp (s_connectNum m1) es (fun l => Q (sps0 ++ l)) s1 /\
    (forall rs, answers (e :: es) (rs0 ++ rs) = (a ← x; l ← answers es rs; Ok (a :: l))) /\
    exists N, forall fuel, (N <= fuel)%nat -> run_event fuel e m = (a ← x; Ok (a, m1)).
Proof.
  intros Him. destruct e as [t c|taskId c|i t| |t]; cbn [Spec.wp].
  - intros (Hok & sp & st & He & Hwp).
    destruct (sync_event m s t c sp st Him Hok He) as (r & m1 & Hm & Him1 & Hn & N & E).
    rewrite <- Hn in Hwp. eexists [sp], [r], m1, _, (a ← sync_reply c r; Ok (Returned a)).
    split_and!; [by constructor|exact Him1|done| |].
    + intros rs. cbn [app answers]. by destruct (sync_reply c r).
    + exists N. intros fuel Hf. rewrite (E fuel Hf). by destruct (sync_reply c r).
  - intros [Hok Hwp]. destruct (async_event 0 m s taskId c Him Hok) as (m1 & E & Him1 & Hn).
    rewrite <- Hn in Hwp, Him1. eexists [], [], m1, _, (Ok (Queued REDIS_RESULT_OK)).
    split_and!; [constructor|exact Him1|done|done|by exists 0%nat].
  - intros (l & Hl & Hwp). destruct (task_event m s i t l Him Hl) as (cmds & Hp & Ht).
    destruct (Hwp cmds Hp) as (sps0 & st & He & Hwp1). destruct (Ht sps0 st He) as (m1 & Him1 & Hn & E).
    rewrite <- Hn in Hwp1. eexists [], [], m1, _, (Ok (Executed true)).
    split_and!; [constructor|exact Him1|done|done|exact E].
  - intros Hwp. destruct (timer_event 0 m s Him) as (m1 & E & Him1 & Hn). rewrite <- Hn in Hwp.
    exists [], [], m1, s, (Ok Ticked). split_and!; [constructor|done|done|done|by exists 0%nat].
  - intros Hwp. destruct (flush_event 0 m s t Him) as (m1 & E & Him1 & Hn). rewrite <- Hn in Hwp.
    exists [], [], m1, s, (Ok (Executed true)). split_and!; [constructor|done|done|done|by exists 0%nat].
Qed.

End Refinement.

(** ** A manager with three connections and two threads *)

Module SystemExample.
Import StoreExample.
#[export] Existing Instances env lib.
#[export] Instance shared : SharedRedis lib := StoreServer.shared.

Definition idle : Spec.state := Spec.mkState ∅ [[]; []; []].

Lemma mgr_implements : implements mgr idle.
Proof.
  constructor.
  - split; [split; by vm_compute|by vm_compute].
  - reflexivity.
  - apply (all_talking_intro (StoreServer.connection 3 : redisContext (@reader lib))
      [StoreServer.connection 4; StoreServer.connection 5]); [reflexivity|].
    apply StoreServer.at_server_all. split_and!; [repeat constructor|reflexivity|].
    apply (bool_decide_unpack _). vm_compute. reflexivity.
  - repeat constructor; apply holds_nil.
Qed.

(** Both threads, the main thread, and the task of connection 2, whose
    commands the calls do not see before it runs. *)
Definition events : list event :=
  [ESync 0 (CSet (lit "k") (lit "5")); EAsync 1 (AIncr (lit "k")); ESync 1 (CIncrby (lit "k") 10 0);
   EAsync 4 (ASAdd (lit "s") (lit "m")); ETimer; ESync 2 (CGet (lit "k") []);
   EAsync 7 (AIncrby (lit "k") 100); ETask 2 1; EFlush 2; ESync 2 (CGet (lit "k") []);
   ESync 0 (CExists (lit "s")); ETask 1 2; ESync 0 (CExists (lit "s"))].

Definition expected_answers : list answer :=
  [Returned (0, ONone); Queued 0; Returned (0, OInt 15); Queued 0; Ticked; Returned (0, OStr (lit "15"));
   Queued 0; Executed true; Executed true; Returned (0, OStr (lit "116"));
   Returned (0, OBool false); Executed true; Returned (0, OBool true)].

Definition replies : list reply_spec :=
  [Exactly OK_reply; Exactly (integer_reply 15); Exactly (string_reply (lit "15"));
   Exactly (string_reply (lit "116")); Exactly (flag false); Exactly (flag true)].

Lemma events_described : Spec.wp (s_connectNum mgr) events (fun sps _ => sps = replies) idle.
Proof.
  unfold events, idle.
  repeat lazymatch goal with
    | |- Spec.wp _ (ESync _ _ :: _) _ _ =>
        eapply Spec.wp_sync; [apply (bool_decide_unpack _); vm_compute; reflexivity|vm_compute; reflexivity|]
    | |- Spec.wp _ (EAsync _ _ :: _) _ _ =>
        eapply Spec.wp_async; [apply (bool_decide_unpack _); vm_compute; reflexivity|vm_compute; reflexivity|]
    | |- Spec.wp _ (ETask _ _ :: _) _ _ => eapply Spec.wp_task; [vm_compute; reflexivity..|]
    | |- Spec.wp _ (ETimer :: _) _ _ => apply Spec.wp_timer
    | |- Spec.wp _ (EFlush _ :: _) _ _ => apply Spec.wp_flush
    | |- forall cmds, cmds ≡ₚ [_; _] -> _ =>
        let E := fresh in intros cmds E; symmetry in E; apply Permutation_length_2_inv in E as [-> | ->]
    | |- forall cmds, cmds ≡ₚ [_] -> _ =>
        let E := fresh in intros cmds E; apply Permutation_singleton_r in E as ->
    | |- is_Some _ /\ _ => split; [apply (bool_decide_unpack _); vm_compute; reflexivity|]
    end; reflexivity.
Qed.
End SystemExample.
Import SystemExample.

