(* ===== verification/RedisLedger.v ===== *)
(** * Who owns replies and connections

    hiredis hands out replies and contexts that the program has to free, once
    each.  [Accounts] is a library whose world tells what was handed out and
    what was freed; [Ledger] keeps such a record beside any library.  [books]
    is the state of the accounts: every reply handed out has been freed once,
    except those the running code still holds and the replies to AUTH, which
    [RedisMgr::CreateRedisContext] drops; every context opened has been closed
    once, except the manager's connections, what the running code holds, and
    the contexts that came with an error, which [CreateRedisContext] drops
    too. *)
From Stdlib Require Import ZArith Lia Ascii Permutation.
From stdpp Require Import base numbers list list_numbers strings.
From S2P Require Import Prelude Kernel Resp Hiredis RedisHelper RedisWire RedisMgr RedisMgrProps.
From S2P Require Import RedisSync RedisSyncProps RedisAsync RedisStore RedisPeer IRedisMgr RedisAsyncStore RedisSystem.
Open Scope Z_scope.
#[local] Open Scope seed_scope.

(** ** The ledger *)

Record ledger : Type := mkLedger {
  handed : list redisReply;
  freed : list redisReply;
  auths : list redisReply;
  opened : nat;
  closed : nat;
  broken : nat
}.

Definition no_entries : ledger := mkLedger [] [] [] 0 0 0.

(** A reply that comes with an error code is not handed out. *)
Definition note_reply (e : Z) (r : option redisReply) (l : ledger) : ledger :=
  mkLedger (handed l ++ (if e =? REDIS_ERR then [] else option_list r)) (freed l) (auths l)
    (opened l) (closed l) (broken l).
Definition note_auth (r : option redisReply) (l : ledger) : ledger :=
  mkLedger (handed l ++ option_list r) (freed l) (auths l ++ option_list r) (opened l) (closed l) (broken l).
Definition note_freed (r : redisReply) (l : ledger) : ledger :=
  mkLedger (handed l) (freed l ++ [r]) (auths l) (opened l) (closed l) (broken l).
Definition note_opened {R} (c : option (redisContext R)) (l : ledger) : ledger :=
  match c with
  | None => l
  | Some c => mkLedger (handed l) (freed l) (auths l) (S (opened l)) (closed l)
                (if err c =? 0 then broken l else S (broken l))
  end.
Definition note_closed (l : ledger) : ledger :=
  mkLedger (handed l) (freed l) (auths l) (opened l) (S (closed l)) (broken l).

(** What each call of the library adds to the ledger. *)
Class Accounts (H : Hiredis) : Type := {
  account : world -> ledger;
  account_send : forall fd d w n e w', send fd d w = (n, e, w') -> account w' = account w;
  account_read : forall c w e c' w', redisBufferRead c w = (e, c', w') -> account w' = account w;
  account_reply : forall c w e r c' w', redisGetReplyFromReader c w = (e, r, c', w') ->
    account w' = note_reply e r (account w);
  account_connect : forall ip port tv w c w', redisConnectWithTimeout ip port tv w = (c, w') ->
    account w' = note_opened c (account w);
  account_command : forall c f a w r c' w', redisCommand c f a w = (r, c', w') ->
    account w' = note_auth r (account w);
  account_close : forall c w, account (redisFree c w) = note_closed (account w);
  account_free : forall r w, account (freeReplyObject r w) = note_freed r (account w);
  account_time : forall w, account (snd (GetTimeMillisecond w)) = account w;
  account_sleep : forall ms w, account (Sleep ms w) = account w
}.

(** Any library with a ledger beside it. *)
Definition Ledger (H : Hiredis) : Hiredis := {|
  world := @world H * ledger;
  reader := @reader H;
  send := fun fd d '(w, l) => let '(n, e, w) := send fd d w in (n, e, (w, l));
  redisBufferRead := fun c '(w, l) => let '(n, c, w) := redisBufferRead c w in (n, c, (w, l));
  redisGetReplyFromReader := fun c '(w, l) =>
    let '(e, r, c, w) := redisGetReplyFromReader c w in (e, r, c, (w, note_reply e r l));
  redisConnectWithTimeout := fun ip port tv '(w, l) =>
    let '(c, w) := redisConnectWithTimeout ip port tv w in (c, (w, note_opened c l));
  redisCommand := fun c f a '(w, l) => let '(r, c, w) := redisCommand c f a w in (r, c, (w, note_auth r l));
  redisFree := fun c '(w, l) => (redisFree c w, note_closed l);
  freeReplyObject := fun r '(w, l) => (freeReplyObject r w, note_freed r l);
  strerror_r := strerror_r;
  GetTimeMillisecond := fun '(w, l) => let '(t, w) := GetTimeMillisecond w in (t, (w, l));
  Sleep := fun ms '(w, l) => (Sleep ms w, l)
|}.

#[export] Instance Ledger_accounts H : Accounts (Ledger H).
Proof.
  refine {| account := snd : @world (Ledger H) -> ledger |}; cbn.
  - intros fd d [w l] n e w'. destruct (send fd d w) as [[? ?] ?]. by intros [= _ _ <-].
  - intros c [w l] e c' w'. destruct (redisBufferRead c w) as [[? ?] ?]. by intros [= _ _ <-].
  - intros c [w l] e r c' w'. destruct (redisGetReplyFromReader c w) as [[[? ?] ?] ?]. by intros [= <- <- _ <-].
  - intros ip port tv [w l] c w'. destruct (redisConnectWithTimeout ip port tv w) as [? ?]. by intros [= <- <-].
  - intros c f a [w l] r c' w'. destruct (redisCommand c f a w) as [[? ?] ?]. by intros [= <- _ <-].
  - by intros c [w l].
  - by intros r [w l].
  - intros [w l]. by destruct (GetTimeMillisecond w).
  - by intros ms [w l].
Defined.

(** ** The accounts *)

Section Books.
Context {HR : Hiredis} {HA : Accounts HR} {HE : RedisEnv}.

(** The code holds the replies [rs] and [n] contexts, and [ats] have been
    the replies to AUTH. *)
Record books (ats rs : list redisReply) (n : nat) (w : world) : Prop := {
  bk_auths : auths (account w) = ats;
  bk_replies : handed (account w) ≡ₚ freed (account w) ++ ats ++ rs;
  bk_contexts : opened (account w) = (closed (account w) + broken (account w) + n)%nat
}.

#[export] Instance books_perm ats : Proper ((≡ₚ) ==> eq ==> eq ==> iff) (books ats).
Proof.
  intros rs rs' E n ? <- w ? <-. split; intros [H1 H2 H3]; constructor; try done;
    [by rewrite <- E|by rewrite E].
Qed.

Lemma books_same ats rs n w w' : books ats rs n w -> account w' = account w -> books ats rs n w'.
Proof. intros [H1 H2 H3] E. constructor; by rewrite E. Qed.

Lemma books_free ats rs n r w : books ats (r :: rs) n w -> books ats rs n (freeReplyObject r w).
Proof.
  intros [H1 H2 H3]. constructor; rewrite account_free; cbn; [done| |done]. rewrite H2. solve_Permutation.
Qed.

Lemma books_free_all ats rs n w : books ats rs n w ->
  books ats [] n (foldl (fun w r => freeReplyObject r w) w rs).
Proof. revert w. induction rs as [|r rs IH]; intros w Hw; [done|]. apply IH, books_free, Hw. Qed.

Lemma books_reply ats rs n c w e r c' w' : books ats rs n w ->
  redisGetReplyFromReader c w = (e, r, c', w') ->
  books ats (rs ++ if e =? REDIS_ERR then [] else option_list r) n w'.
Proof.
  intros [H1 H2 H3] E%account_reply. constructor; rewrite E; cbn; [done| |done]. rewrite H2. solve_Permutation.
Qed.

(** ** The wire *)

Lemma books_write_loop fuel len_at ats rs n c blk w e c' blk' w' : books ats rs n w ->
  write_loop fuel len_at c blk w = Ok (e, c', blk', w') -> books ats rs n w'.
Proof.
  revert c blk w. induction fuel as [|fuel IH]; intros c blk w Hw; [done|]. cbn [write_loop].
  destruct (of_option _ (mem_read blk len_at 4)) as [word| |]; [|done..]. cbn [mbind outcome_bind].
  destruct (0 <? unle32 word); [|by intros [= _ _ _ <-]].
  destruct (of_option _ (mem_read blk (obuf c) _)) as [data| |]; [|done..]. cbn [mbind outcome_bind].
  destruct (send _ data w) as [[k er] w1] eqn:Es. apply account_send in Es.
  destruct (_ && _).
  - destruct (__redisSetErrorInner _ _ _ _); cbn [mbind outcome_bind]; [|done..].
    intros [= _ _ _ <-]. by eapply books_same.
  - destruct (of_option _ (mem_write blk len_at _)); cbn [mbind outcome_bind]; [|done..].
    apply IH. by eapply books_same.
Qed.

Lemma books_writeInner fuel ats rs n c blk w e c' blk' w' : books ats rs n w ->
  redisBufferWriteInner fuel c blk w = Ok (e, c', blk', w') -> books ats rs n w'.
Proof.
  unfold redisBufferWriteInner. destruct (negb _); [by intros ? [= _ _ _ <-]|]. by apply books_write_loop.
Qed.

Lemma books_read_loop fuel ats rs n c w e r c' w' : books ats rs n w ->
  read_loop fuel c w = Ok (e, r, c', w') -> books ats (rs ++ option_list r) n w'.
Proof.
  revert c w. induction fuel as [|fuel IH]; intros c w Hw; [done|]. cbn [read_loop].
  destruct (redisBufferRead c w) as [[e1 c1] w1] eqn:E1. apply account_read in E1.
  pose proof (books_same _ _ _ _ _ Hw E1) as Hw1.
  destruct (e1 =? REDIS_ERR); [intros [= _ <- _ <-]; by rewrite app_nil_r|].
  destruct (redisGetReplyFromReader c1 w1) as [[[e2 aux] c2] w2] eqn:E2.
  pose proof (books_reply _ _ _ _ _ _ _ _ _ Hw1 E2) as Hw2.
  destruct (e2 =? REDIS_ERR); [by intros [= _ <- _ <-]|].
  destruct aux as [a|]; [by intros [= _ <- _ <-]|]. apply IH. by rewrite app_nil_r in Hw2.
Qed.

Lemma books_getReply fuel ats rs n c blk want w e r c' blk' w' : books ats rs n w ->
  redisGetReplyInner fuel c blk want w = Ok (e, r, c', blk', w') -> books ats (rs ++ option_list r) n w'.
Proof.
  intros Hw. unfold redisGetReplyInner.
  destruct (redisBufferWriteInner fuel c blk w) as [[[[e1 c1] blk1] w1]| |] eqn:E1; cbn [mbind outcome_bind]; [|done..].
  pose proof (books_writeInner _ _ _ _ _ _ _ _ _ _ _ Hw E1) as Hw1.
  destruct (e1 =? REDIS_ERR); [intros [= _ <- _ _ <-]; by rewrite app_nil_r|].
  destruct (read_loop fuel c1 w1) as [[[[e2 aux] c2] w2]| |] eqn:E2; cbn [mbind outcome_bind]; [|done..].
  pose proof (books_read_loop _ _ _ _ _ _ _ _ _ _ Hw1 E2) as Hw2.
  destruct aux as [a|]; [|by intros [= _ <- _ _ <-]].
  destruct want; intros [= _ <- _ _ <-]; [done|]. cbn [option_list] in *. rewrite app_nil_r.
  apply books_free. by rewrite Permutation_cons_append.
Qed.

Lemma books_pipeline_write fuel ats rs n c bs w ok c' bs' w' : books ats rs n w ->
  pipeline_write fuel c bs w = Ok (ok, c', bs', w') -> books ats rs n w'.
Proof.
  revert c w ok c' bs' w'. induction bs as [|b bs IH]; intros c w ok c' bs' w' Hw; cbn [pipeline_write];
    [by intros [= _ _ _ <-]|].
  destruct (negb (IsCommit b)); [done|].
  destruct (redisBufferWriteInner _ _ _ _) as [[[[e1 c1] blk1] w1]| |] eqn:E1; cbn [mbind outcome_bind]; [|done..].
  apply (books_writeInner _ _ _ _ _ _ _ _ _ _ _ Hw) in E1. destruct (e1 =? REDIS_ERR); [by intros [= _ _ _ <-]|].
  destruct (pipeline_write fuel c1 bs w1) as [[[[ok2 c2] bs2] w2]| |] eqn:E2; cbn [mbind outcome_bind]; [|done..].
  intros [= _ _ _ <-]. by eapply IH.
Qed.

Lemma books_pipeline_read fuel k ats n c rs w e rs' c' w' : books ats rs n w ->
  pipeline_read fuel k c rs w = Ok (e, rs', c', w') -> books ats rs' n w'.
Proof.
  revert c rs w. induction k as [|k IH]; intros c rs w Hw; cbn [pipeline_read]; [by intros [= _ <- _ <-]|].
  destruct (redisGetReplyFromReader c w) as [[[e1 aux] c1] w1] eqn:E1.
  pose proof (books_reply _ _ _ _ _ _ _ _ _ Hw E1) as Hw1.
  destruct (e1 =? REDIS_ERR); [intros [= _ <- _ <-]; by rewrite app_nil_r in Hw1|].
  destruct aux as [a|]; [by apply IH|]. cbn [option_list] in Hw1. rewrite app_nil_r in Hw1.
  destruct (read_loop fuel c1 w1) as [[[[e2 aux] c2] w2]| |] eqn:E2; cbn [mbind outcome_bind]; [|done..].
  pose proof (books_read_loop _ _ _ _ _ _ _ _ _ _ Hw1 E2) as Hw2.
  apply read_loop_code in E2 as [[-> [a ->]]|[-> ->]]; cbn.
  - by apply IH.
  - intros [= _ <- _ <-]. by rewrite app_nil_r in Hw2.
Qed.
End Books.

(** ** The manager *)

Section Owns.
Context {HR : Hiredis} {HA : Accounts HR} {HE : RedisEnv}.

(** The running code holds the replies [rs] and [n] contexts besides the
    manager's connections.  Without a password there has been no AUTH. *)
Definition owns (rs : list redisReply) (n : nat) (m : RedisMgr) : Prop :=
  exists ats, books ats rs (length (s_vecRedisContext m) + n) (net m) /\
    (passWord (s_connectionConfig m) = [] -> ats = []).

Lemma owns_mono rs n m w' m' rs' n' : owns rs n m -> net m' = w' ->
  s_connectionConfig m' = s_connectionConfig m ->
  (forall ats, books ats rs (length (s_vecRedisContext m) + n) (net m) ->
     books ats rs' (length (s_vecRedisContext m') + n') w') -> owns rs' n' m'.
Proof. intros (ats & Hb & Hp) <- Hc Hk. exists ats. split; [by apply Hk|by rewrite Hc]. Qed.

Lemma owns_same rs n m m' : owns rs n m -> net m' = net m -> s_connectionConfig m' = s_connectionConfig m ->
  length (s_vecRedisContext m') = length (s_vecRedisContext m) -> owns rs n m'.
Proof. intros Ho Hn Hc Hl. eapply owns_mono; [exact Ho|exact Hn|exact Hc|]. by rewrite Hl. Qed.

Lemma owns_perm rs rs' n m : owns rs n m -> rs ≡ₚ rs' -> owns rs' n m.
Proof. intros (ats & Hb & Hp) E. exists ats. by rewrite <- E. Qed.

(** A computation that leaves the world, the configuration and the number of
    connections. *)
Record still (m m' : RedisMgr) : Prop := {
  st_net : net m' = net m;
  st_cfg : s_connectionConfig m' = s_connectionConfig m;
  st_len : length (s_vecRedisContext m') = length (s_vecRedisContext m)
}.

#[export] Instance still_preorder : PreOrder still.
Proof. split; [by constructor|]. intros s1 s2 s3 [] []. constructor; congruence. Qed.

Lemma still_upd i f : preserves still (upd_conn i f).
Proof. apply preserves_modify. intros s. constructor; cbn; [done..|by rewrite length_alter]. Qed.

Lemma still_get_conn i : preserves still (get_conn i).
Proof. unfold get_conn. preserve_tac. Qed.

Lemma still_GetRedisConnection t : preserves still (GetRedisConnection t).
Proof. unfold GetRedisConnection. preserve_tac. Qed.

Lemma still_GetRedisConnectionInAsync t : preserves still (GetRedisConnectionInAsync t).
Proof. unfold GetRedisConnectionInAsync. preserve_tac. Qed.

Hint Resolve still_upd still_get_conn still_GetRedisConnection still_GetRedisConnectionInAsync : preserve.

Lemma still_owns {A} (f : M RedisMgr A) rs n : preserves still f -> triple (owns rs n) f (fun _ => owns rs n).
Proof. intros Hf. eapply triple_preserves; [exact Hf|]. intros s s' Ho []. by eapply owns_same. Qed.

Lemma triple_on_net {A} (f : world -> A * world) P (Q : A -> RedisMgr -> Prop) :
  (forall m a w', P m -> f (net m) = (a, w') -> Q a (set_net w' m)) -> triple P (on_net f) Q.
Proof.
  intros Hf m a m' Hm. unfold on_net, mget, mput, mbind, M_bind. destruct (f (net m)) as [a1 w1] eqn:E.
  intros [= <- <-]. by apply Hf.
Qed.

Definition held (n : nat) {R} (c : option (redisContext R)) : nat := match c with Some _ => S n | None => n end.

(** Connecting: the caller holds the context it gets. *)
Lemma owns_connect rs n tv : triple (owns rs n) (CreateRedisContext tv) (fun c => owns rs (held n c)).
Proof.
  unfold CreateRedisContext. apply triple_get. intros m0 H0.
  eapply triple_bind with (R := fun c m => s_connectionConfig m = s_connectionConfig m0 /\
    owns rs (match c with Some c => if err c =? 0 then S n else n | None => n end) m).
  { apply triple_on_net. intros m c w' <- E%account_connect. split; [done|].
    destruct H0 as (ats & [B1 B2 B3] & Hp). exists ats. split; [|done].
    destruct c as [c|]; [|cbn in E; constructor; cbn; rewrite E; done]. cbn in E. constructor; cbn; rewrite E; cbn; [done..|].
    destruct (err c =? 0); cbn; lia. }
  intros [c|]; [|apply triple_ret; by intros m [_ Ho]].
  destruct (err c =? 0); cbn [negb]; [|apply triple_ret; by intros m [_ Ho]].
  case_bool_decide as Hpw; [apply triple_ret; by intros m [_ Ho]|].
  eapply triple_bind with (R := fun _ => owns rs (S n)).
  { apply triple_on_net. intros m [r c1] w' [Hc (ats & [B1 B2 B3] & Hp)] E%account_command.
    exists (ats ++ option_list r). split; [|cbn; rewrite Hc; by intros ?%Hpw].
    constructor; cbn; rewrite E; cbn; [by rewrite B1| |done]. rewrite B2. solve_Permutation. }
  intros [reply c1]. destruct (match reply with Some r => _ | None => _ end).
  - eapply triple_bind with (R := fun _ => owns rs n); [|intros []; by apply triple_ret].
    apply triple_on_net. intros m [] w' (ats & [B1 B2 B3] & Hp) [= <-]. exists ats. split; [|done].
    constructor; cbn; rewrite account_close; cbn; [done..|]. lia.
  - by apply triple_ret.
Qed.

(** One exchange: the caller holds the reply it gets. *)
Lemma owns_send_on fuel i b want rs n :
  triple (owns rs n) (send_on fuel i b want) (fun '(_, r, _) => owns (rs ++ option_list r) n).
Proof.
  intros m [[ret r] b'] m' Ho. rewrite send_on_unfold. destruct (s_vecRedisContext m !! i) as [k|]; [|done].
  unfold sendAndGetReply. destruct (negb (IsCommit b)); [done|]. cbn [mbind outcome_bind].
  destruct (redisGetReplyInner _ _ _ _ _) as [[[[[ret1 r1] c1] blk1] w1]| |] eqn:E; cbn [mbind outcome_bind]; [|done..].
  intros [= <- <- <- <-]. eapply owns_mono; [exact Ho|done..|]. intros ats Hb. cbn.
  rewrite length_alter. by eapply books_getReply.
Qed.

Lemma owns_pipeline_on fuel i bs rs n :
  triple (owns rs n) (pipeline_on fuel i bs rs) (fun '(_, rs', _) => owns rs' n).
Proof.
  intros m [[ret rs'] bs'] m' Ho. rewrite pipeline_on_unfold. destruct (s_vecRedisContext m !! i) as [k|]; [|done].
  unfold pipelineSendAndGetReply.
  destruct (pipeline_write _ _ _ _) as [[[[ok c1] bs1] w1]| |] eqn:E1; cbn [mbind outcome_bind]; [|done..].
  destruct ok; cbn [negb].
  - destruct (pipeline_read _ _ _ _ _) as [[[[e2 rs2] c2] w2]| |] eqn:E2; cbn [mbind outcome_bind]; [|done..].
    intros [= <- <- <- <-]. eapply owns_mono; [exact Ho|done..|]. intros ats Hb. cbn. rewrite length_alter.
    eapply books_pipeline_read; [|exact E2]. by eapply books_pipeline_write.
  - intros [= <- <- <- <-]. eapply owns_mono; [exact Ho|done..|]. intros ats Hb. cbn. rewrite length_alter.
    by eapply books_pipeline_write.
Qed.

Lemma owns_execCmd fuel t b want reSend rs n :
  triple (owns rs n) (execCmd fuel t b want reSend) (fun '(_, r, _) => owns (rs ++ option_list r) n).
Proof.
  intros m [[code r] b'] m' Ho. rewrite execCmd_unfold.
  destruct (GetRedisConnection t m) as [[i m1]| |] eqn:E; [|done..].
  pose proof (still_owns _ _ _ (still_GetRedisConnection t) _ _ _ Ho E) as Ho1.
  destruct (send_on fuel i b want m1) as [[[[? r1] b1] m2]| |] eqn:E1; [|done..].
  intros [= _ <- _ <-]. exact (owns_send_on _ _ _ _ _ _ _ _ _ Ho1 E1).
Qed.

Lemma owns_batchExecCmd fuel t bs rs reSend n :
  triple (owns rs n) (batchExecCmd fuel t bs rs reSend) (fun '(_, rs', _) => owns rs' n).
Proof.
  intros m [[code rs'] bs'] m' Ho. rewrite batchExecCmd_unfold.
  destruct (GetRedisConnection t m) as [[i m1]| |] eqn:E; [|done..].
  pose proof (still_owns _ _ _ (still_GetRedisConnection t) _ _ _ Ho E) as Ho1.
  destruct (pipeline_on fuel i bs rs m1) as [[[[? rs1] bs1] m2]| |] eqn:E1; [|done..].
  intros [= _ <- _ <-]. exact (owns_pipeline_on _ _ _ _ _ _ _ _ Ho1 E1).
Qed.

(** Connecting anew: the old context is closed. *)
Lemma owns_execTaskByTimeOut {L} fuel i (callFunc : L -> M RedisMgr (bool * L)) l (rs : L -> list redisReply) n :
  (forall l, triple (owns (rs l) n) (callFunc l) (fun '(_, l') => owns (rs l') n)) ->
  triple (owns (rs l) n) (execTaskByTimeOut fuel i callFunc l) (fun l' => owns (rs l') n).
Proof.
  intros Hf. assert (Ht : forall l, triple (owns (rs l) n) (on_net GetTimeMillisecond) (fun _ => owns (rs l) n)).
  { intros l1. apply triple_on_net. intros m a w' Ho E. eapply owns_mono; [exact Ho|done..|]. intros ats Hb.
    eapply books_same; [exact Hb|]. pose proof (account_time (net m)) as Ha. by rewrite E in Ha. }
  eapply triple_bind; [apply Ht|]. intros enterTime. revert l.
  induction fuel as [|fuel IH]; intros l; cbn [reattempt_loop]; [apply triple_fuel|].
  apply triple_read. intros m Ho.
  eapply triple_bind; [apply owns_connect|]. intros c.
  eapply triple_bind with (R := fun '(_, l') => owns (rs l') n).
  { destruct c as [c|]; cbn [held]; [|by apply triple_ret].
    eapply triple_bind; [apply still_owns, still_get_conn|]. intros k. cbn beta.
    eapply triple_bind with (R := fun _ => owns (rs l) n).
    - apply triple_on_net. intros m1 [] w' Ho1 [= <-]. eapply owns_mono; [exact Ho1|done..|]. intros ats [B1 B2 B3].
      constructor; cbn; rewrite account_close; cbn; [done..|]. lia.
    - intros []. eapply triple_bind; [apply still_owns, still_upd|]. intros []. apply Hf. }
  intros [stop l']. destruct stop; [by apply triple_ret|]. eapply triple_bind; [apply Ht|]. intros now. cbn beta.
  apply triple_read. intros m1 Ho1.
  destruct (_ <? _); [by apply triple_ret|].
  eapply triple_bind with (R := fun _ => owns (rs l') n); [|intros []; apply IH].
  apply triple_on_net. intros m2 [] w' Ho2 [= <-]. eapply owns_mono; [exact Ho2|done..|]. intros ats Hb.
  eapply books_same; [exact Hb|]. apply account_sleep.
Qed.
End Owns.

(** ** Calls and tasks *)

Section Calls.
Context {HR : Hiredis} {HA : Accounts HR} {HE : RedisEnv}.
#[local] Hint Resolve still_upd still_get_conn still_GetRedisConnection still_GetRedisConnectionInAsync : preserve.

Lemma owns_exec fuel b t want reSend rs n :
  triple (owns rs n) (exec fuel b t want reSend) (fun '(_, r) => owns (rs ++ option_list r) n).
Proof.
  unfold exec. eapply triple_bind with (R := fun _ => owns rs n); [by apply triple_lift|]. intros b'.
  eapply triple_bind; [apply owns_execCmd|]. intros [[ret r] b'']. by apply triple_ret.
Qed.

(** The destructor of [RedisResult] frees the reply. *)
Lemma owns_with_result {A} r (f : redisReply -> outcome A) none n :
  triple (owns (option_list r) n) (with_result r f none) (fun _ => owns [] n).
Proof.
  unfold with_result. destruct r as [r|]; cbn [option_list]; [|by apply triple_ret].
  eapply triple_bind with (R := fun _ => owns [r] n); [by apply triple_lift|]. intros a.
  eapply triple_bind with (R := fun _ => owns [] n); [|intros []; by apply triple_ret].
  apply triple_on_net. intros m [] w' Ho [= <-]. eapply owns_mono; [exact Ho|done..|]. intros ats. apply books_free.
Qed.

Lemma owns_run_sync fuel c t n : triple (owns [] n) (run_sync fuel c t) (fun _ => owns [] n).
Proof.
  intros m a m' Ho. rewrite run_sync_spec. revert m a m' Ho. unfold spec_sync.
  eapply triple_bind; [apply owns_exec|]. intros [ret r]. apply owns_with_result.
Qed.

Lemma owns_run_async c taskId n : triple (owns [] n) (run_async c taskId) (fun _ => owns [] n).
Proof.
  intros m a m' Ho. rewrite run_async_spec. revert m a m' Ho. apply still_owns. unfold addAsyncTask. preserve_tac.
Qed.

Lemma owns_exec_batches fuel t head vec n : triple (owns [] n) (exec_batches fuel t head vec) (fun _ => owns [] n).
Proof.
  revert vec. induction head as [|b head IH]; intros vec; cbn [exec_batches]; [by apply triple_ret|].
  destruct (_ || _); [|apply IH]. eapply triple_bind; [apply owns_batchExecCmd|]. intros [[code rs] bs].
  eapply triple_bind with (R := fun _ => owns [] n); [|intros []; apply IH].
  apply triple_on_net. intros m [] w' Ho [= <-]. eapply owns_mono; [exact Ho|done..|]. intros ats. apply books_free_all.
Qed.

Lemma owns_OnExecRedisTask fuel i n : triple (owns [] n) (OnExecRedisTask fuel i) (fun _ => owns [] n).
Proof.
  unfold OnExecRedisTask. eapply triple_bind; [apply still_owns, still_get_conn|]. intros k. cbn beta.
  eapply triple_bind; [apply still_owns, still_upd|]. intros []. cbn beta.
  eapply triple_bind; [apply owns_exec_batches|]. intros []. cbn beta. apply still_owns, still_upd.
Qed.

Lemma owns_run_event fuel e n : triple (owns [] n) (run_event fuel e) (fun _ => owns [] n).
Proof.
  destruct e as [t c|taskId c|i t| |t]; cbn [run_event].
  - eapply triple_bind; [apply owns_run_sync|]. intros r. by apply triple_ret.
  - eapply triple_bind; [apply owns_run_async|]. intros r. by apply triple_ret.
  - eapply triple_bind; [|intros b; by apply (triple_ret (owns [] n))]. unfold OnExecute.
    eapply triple_bind; [apply owns_OnExecRedisTask|]. intros []. by apply triple_ret.
  - apply still_owns. unfold OnFlushConnectionTimer. preserve_tac. by constructor.
  - apply still_owns. unfold OnExecute, OnFlushConnection. preserve_tac.
Qed.

Lemma owns_run_events fuel es n : triple (owns [] n) (run_events fuel es) (fun _ => owns [] n).
Proof.
  induction es as [|e es IH]; cbn [run_events]; [by apply triple_ret|].
  eapply triple_bind; [apply owns_run_event|]. intros a. cbn beta.
  eapply triple_bind; [exact IH|]. intros l. by apply triple_ret.
Qed.

(** ** Start-up *)

Lemma owns_connect_all k n : triple (owns [] n) (connect_all k) (fun _ => owns [] n).
Proof.
  induction k as [|k IH]; cbn [connect_all]; [by apply triple_ret|]. apply triple_read. intros m0 _.
  eapply triple_bind; [apply owns_connect|]. intros [c|]; cbn [held]; [|by apply triple_ret].
  eapply triple_bind with (R := fun _ => owns [] n); [|intros []; apply IH].
  apply triple_modify. intros m Ho. eapply owns_mono; [exact Ho|done..|]. intros ats. cbn.
  rewrite length_app. cbn. by replace (length (s_vecRedisContext m) + 1 + n)%nat
    with (length (s_vecRedisContext m) + S n)%nat by lia.
Qed.

Lemma owns_start w : account w = no_entries -> owns [] 0 (mgr_start w).
Proof. intros E. exists []. split; [|done]. constructor; cbn; by rewrite E. Qed.

Lemma owns_Initialize w : account w = no_entries ->
  triple (eq (mgr_start w)) Initialize (fun _ => owns [] 0).
Proof.
  intros E. unfold Initialize. eapply triple_bind with (R := fun _ => owns [] 0).
  { unfold LoadConfigFile. destruct LoadFile as [root|]; [|apply triple_fault].
    destruct (GetFirstChrild root (lit "redis")) as [x|]; [|apply triple_fault].
    eapply triple_bind with (R := fun _ => owns [] 0); [|intros []; by apply triple_ret].
    apply triple_modify. intros m <-. exists []. split; [|done]. constructor; cbn; by rewrite E. }
  intros loaded. destruct (negb loaded); [by apply triple_ret|]. apply triple_read. intros m _.
  eapply triple_bind; [apply owns_connect_all|]. intros ok. destruct (negb ok); [by apply triple_ret|].
  eapply triple_bind with (R := fun _ => owns [] 0).
  { apply triple_modify. intros m1 Ho. by eapply owns_same. }
  intros []. eapply triple_bind with (R := fun _ => owns [] 0); [|intros []; by apply triple_ret].
  apply triple_modify. intros m1 Ho. by eapply owns_same.
Qed.

(** C7: After start-up, whether it succeeds or not, and any sequence of
    calls, tasks and timers: every reply the library has handed out has been
    freed exactly once, apart from the replies to AUTH, of which there are
    none without a password; and every context it has opened has been closed
    exactly once, apart from one per connection of the manager and those that
    came with an error. *)
Theorem replies_freed_once fuel w b m0 es as_ m : account w = no_entries ->
  Initialize (mgr_start w) = Ok (b, m0) -> run_events fuel es m0 = Ok (as_, m) ->
  let l := account (net m) in
  handed l ≡ₚ freed l ++ auths l /\
  (passWord (s_connectionConfig m) = [] -> auths l = []) /\
  opened l = (closed l + broken l + length (s_vecRedisContext m))%nat.
Proof.
  intros Hw Hi He. pose proof (owns_Initialize w Hw _ _ _ eq_refl Hi) as H0.
  destruct (owns_run_events _ _ _ _ _ _ H0 He) as (ats & [<- H2 H3] & Hp). cbn zeta.
  rewrite app_nil_r in H2. split_and!; [done|done|lia].
Qed.
End Calls.

(** ** A manager with a password *)

Module LedgerExample.
Definition lib : Hiredis := Ledger (Scripted.lib false).
Definition env : RedisEnv := ScriptedEnv.env 2 (lit "secret").

(** The server refuses the password of all three connections, which the
    manager takes for success; then it has three replies. *)
Definition start : @world lib :=
  (Scripted.mkState [] []
     [Some (string_reply (lit "v")); Some (integer_reply 1); Some OK_reply]
     (repeat (Some (error_reply (lit "ERR"))) 3) 0 0 1, no_entries).

Definition events : list event :=
  [ESync 0 (CGet (lit "k") []); EAsync 1 (ADel (lit "k")); ETask 2 1; ESync 0 (CSet (lit "k") (lit "w")); ETimer].

Abbreviation initial := (@Initialize lib env (@mgr_start lib env start)).
Definition mgr : @RedisMgr lib env := state_of (@mgr_start lib env start) initial.

Lemma initial_ok : initial = Ok (true, mgr).
Proof. unfold mgr. refine (is_true_result_state _ _ _). vm_compute. reflexivity. Qed.

Definition totals (w : @world lib) : nat * nat * nat * nat :=
  let l := @account lib _ w in (length (handed l), length (auths l), opened l, closed l).
Lemma events_ok : exists as_ m', @run_events lib env 20 events mgr = Ok (as_, m') /\
  totals (@net lib env m') = (6, 3, 3, 0)%nat.
Proof.
  assert (H : match @run_events lib env 20 events mgr with
              | Ok (_, m') => totals (@net lib env m') = (6, 3, 3, 0)%nat
              | _ => False
              end) by (vm_compute; reflexivity).
  destruct (@run_events lib env 20 events mgr) as [[as_ m']| |]; [by exists as_, m'|destruct H..].
Qed.
End LedgerExample.
Import LedgerExample.

Lemma replies_freed_once_witness : exists m',
  (let l := @account lib _ (@net lib env m') in
   handed l ≡ₚ freed l ++ auths l /\
   (passWord (s_connectionConfig m') = [] -> auths l = []) /\
   opened l = (closed l + broken l + length (s_vecRedisContext m'))%nat) /\
  totals (@net lib env m') = (6, 3, 3, 0)%nat.
Proof.
  destruct events_ok as (as_ & m' & Ee & Ht). exists m'. split; [|exact Ht].
  exact (@replies_freed_once lib _ env 20 start true mgr events as_ m' eq_refl initial_ok Ee).
Defined.
