(* ===== verification/RedisFailure.v ===== *)
(** * After a connection has failed

    IRedisMgr.h promises that the manager reconnects and sends the command
    again.  [execCmd] and [batchExecCmd] would do so on [REDIS_ERR_IO], a code
    that the exchange never returns, so the context of a failed connection
    stays where it is.  This file follows such a connection through any
    sequence of events. *)
From Stdlib Require Import ZArith Lia Ascii.
From stdpp Require Import base numbers list list_numbers strings.
From S2P Require Import Prelude Kernel Resp Hiredis RedisHelper RedisWire RedisMgr RedisMgrProps.
From S2P Require Import RedisSync RedisSyncProps RedisAsync RedisStore RedisPeer IRedisMgr RedisAsyncStore RedisSystem.
Open Scope Z_scope.
#[local] Open Scope seed_scope.

Section Failure.
Context {HR : Hiredis} {HE : RedisEnv}.

(** The context of the connection [i] has seen an error. *)
Definition failed (i : nat) (m : RedisMgr) : Prop :=
  exists k, s_vecRedisContext m !! i = Some k /\ err (ctx k) <> 0.

(** What an operation does to a failed connection and to the shape of the
    manager. *)
Definition stays (i : nat) (m m' : RedisMgr) : Prop := frame m m' /\ (failed i m -> failed i m').

#[export] Instance stays_preorder i : PreOrder (stays i).
Proof.
  split; [by split|]. intros m1 m2 m3 [F1 S1] [F2 S2]. split; [by etrans|auto].
Qed.

Lemma stays_same i m m' : frame m m' -> s_vecRedisContext m' = s_vecRedisContext m -> stays i m m'.
Proof. intros F E. split; [done|]. unfold failed. by rewrite E. Qed.

(** A connection changes in place and keeps its error. *)
Lemma failed_alter (i j : nat) f (v : list RedisConnection) k : v !! i = Some k -> err (ctx k) <> 0 ->
  (forall k, err (ctx k) <> 0 -> err (ctx (f k)) <> 0) ->
  exists k', alter f j v !! i = Some k' /\ err (ctx k') <> 0.
Proof.
  intros Hk He Hf. destruct (decide (j = i)) as [->|Hne].
  - exists (f k). rewrite list_lookup_alter_eq, Hk. split; [done|]. by apply Hf.
  - exists k. by rewrite list_lookup_alter_ne.
Qed.

Lemma stays_upd i j f : (forall k, _threadIdx (f k) = _threadIdx k) ->
  (forall k, _postTask k = false -> _postTask (f k) = false) -> (forall k, ctx (f k) = ctx k) ->
  preserves (stays i) (upd_conn j f).
Proof.
  intros H1 H2 H3. apply preserves_modify. intros m. split; [by apply frame_upd|].
  intros (k & Hk & He). apply (failed_alter _ _ _ _ _ Hk He). intros k'. by rewrite H3.
Qed.

Lemma stays_get_conn i j : preserves (stays i) (get_conn j).
Proof. unfold get_conn. preserve_tac. Qed.

Lemma stays_on_net i {A} (f : world -> A * world) : preserves (stays i) (on_net f).
Proof.
  intros s a s' Hs. apply stays_same; [by eapply preserves_on_net|].
  revert Hs. unfold on_net, mget, mput, mbind, M_bind. destruct (f (net s)) as [a' w]. by intros [= _ <-].
Qed.

Lemma stays_GetRedisConnection i t : preserves (stays i) (GetRedisConnection t).
Proof. unfold GetRedisConnection. preserve_tac. Qed.

Lemma stays_GetRedisConnectionInAsync i t : preserves (stays i) (GetRedisConnectionInAsync t).
Proof. unfold GetRedisConnectionInAsync. preserve_tac. Qed.

(** The first test of the exchange. *)
Lemma getReply_failed fuel c blk want w : err c <> 0 ->
  redisGetReplyInner fuel c blk want w = Ok (REDIS_ERR, None, c, blk, w).
Proof.
  intros He. unfold redisGetReplyInner, redisBufferWriteInner.
  by destruct (Z.eqb_spec (err c) 0).
Qed.

Lemma stays_send_on i fuel j b want : preserves (stays i) (send_on fuel j b want).
Proof.
  intros m a m' E. split; [by eapply preserves_send_on|]. intros (k & Hk & He).
  rewrite send_on_unfold in E. destruct (s_vecRedisContext m !! j) as [kj|] eqn:Ej; [|done].
  unfold sendAndGetReply in E. destruct (negb (IsCommit b)); [done|]. destruct (decide (j = i)) as [->|Hne].
  - rewrite Hk in Ej. injection Ej as ->. rewrite getReply_failed in E by done.
    cbn [mbind outcome_bind] in E. injection E as <- <-.
    eexists. cbn. by rewrite list_lookup_alter_eq, Hk.
  - cbn [mbind outcome_bind] in E.
    destruct (redisGetReplyInner _ _ _ _ _) as [[[[[? ?] ?] ?] ?]| |]; cbn [mbind outcome_bind] in E; [|done..].
    injection E as <- <-. exists k. cbn. by rewrite list_lookup_alter_ne.
Qed.

(** A batch on a failed connection: nothing is sent, nothing is read. *)
Lemma pipeline_failed fuel c b bs rs w : err c <> 0 -> IsCommit b = true ->
  pipelineSendAndGetReply fuel c (b :: bs) rs w = Ok (REDIS_ERR, rs, set_obuf (_seek b) c, b :: bs, w).
Proof.
  intros He Hb. unfold pipelineSendAndGetReply. cbn [pipeline_write]. rewrite Hb. cbn [negb].
  unfold redisBufferWriteInner. cbn [err set_obuf]. destruct (Z.eqb_spec (err c) 0); [done|].
  cbn. unfold set_cmd. by destruct b.
Qed.

Lemma pipeline_read_none fuel c rs w : pipelineSendAndGetReply fuel c [] rs w = Ok (REDIS_OK, rs, c, [], w).
Proof. done. Qed.

Lemma stays_pipeline_on i fuel j bs rs : preserves (stays i) (pipeline_on fuel j bs rs).
Proof.
  intros m a m' E. split; [by eapply preserves_pipeline_on|]. intros (k & Hk & He).
  rewrite pipeline_on_unfold in E. destruct (s_vecRedisContext m !! j) as [kj|] eqn:Ej; [|done].
  destruct (decide (j = i)) as [->|Hne].
  - rewrite Hk in Ej. injection Ej as ->. destruct bs as [|b bs].
    + rewrite pipeline_read_none in E. cbn [mbind outcome_bind] in E. injection E as <- <-.
      eexists. cbn. by rewrite list_lookup_alter_eq, Hk.
    + destruct (IsCommit b) eqn:Hb.
      * rewrite pipeline_failed in E by done. cbn [mbind outcome_bind] in E. injection E as <- <-.
        eexists. cbn. by rewrite list_lookup_alter_eq, Hk.
      * unfold pipelineSendAndGetReply in E. cbn [pipeline_write] in E. by rewrite Hb in E.
  - destruct (pipelineSendAndGetReply _ _ _ _ _) as [[[[[? ?] ?] ?] ?]| |]; cbn [mbind outcome_bind] in E; [|done..].
    injection E as <- <-. exists k. cbn. by rewrite list_lookup_alter_ne.
Qed.

(** No resend, no new context. *)
Lemma stays_execCmd i fuel t b want reSend : preserves (stays i) (execCmd fuel t b want reSend).
Proof.
  intros m a m' E. rewrite execCmd_unfold in E. destruct (GetRedisConnection t m) as [[j m1]| |] eqn:E1; [|done..].
  destruct (send_on fuel j b want m1) as [[[[? ?] ?] m2]| |] eqn:E2; [|done..]. injection E as _ <-.
  etrans; [by eapply stays_GetRedisConnection|by eapply stays_send_on].
Qed.

Lemma stays_batchExecCmd i fuel t bs rs reSend : preserves (stays i) (batchExecCmd fuel t bs rs reSend).
Proof.
  intros m a m' E. rewrite batchExecCmd_unfold in E.
  destruct (GetRedisConnection t m) as [[j m1]| |] eqn:E1; [|done..].
  destruct (pipeline_on fuel j bs rs m1) as [[[[? ?] ?] m2]| |] eqn:E2; [|done..]. injection E as _ <-.
  etrans; [by eapply stays_GetRedisConnection|by eapply stays_pipeline_on].
Qed.

#[local] Hint Resolve stays_get_conn stays_on_net stays_GetRedisConnection stays_GetRedisConnectionInAsync
  stays_send_on stays_pipeline_on stays_execCmd stays_batchExecCmd : preserve.

Lemma stays_run_sync i fuel c t : preserves (stays i) (run_sync fuel c t).
Proof.
  assert (Hs : preserves (stays i) (spec_sync fuel c t)) by (unfold spec_sync, exec, with_result; preserve_tac).
  intros m a m'. rewrite run_sync_spec. apply Hs.
Qed.

Lemma stays_run_async i c taskId : preserves (stays i) (run_async c taskId).
Proof.
  intros m a m'. rewrite run_async_spec.
  set (f := mlift _ ≫= _). revert m a m'. change (preserves (stays i) f). subst f. unfold addAsyncTask. preserve_tac.
  all: apply stays_upd; intros k; by try destruct (_redisTaskHandler k).
Qed.

Lemma stays_exec_batches i fuel t head vec : preserves (stays i) (exec_batches fuel t head vec).
Proof.
  revert vec. induction head as [|b head IH]; intros vec; cbn [exec_batches]; preserve_tac.
Qed.

#[local] Hint Resolve stays_run_sync stays_run_async stays_exec_batches : preserve.

Lemma stays_run_event i fuel e : preserves (stays i) (run_event fuel e).
Proof.
  destruct e; cbn [run_event]; unfold OnExecute, OnExecRedisTask, OnFlushConnection; preserve_tac.
  all: try by apply stays_upd.
  intros m a m' E. apply stays_same.
  - by eapply preserves_OnFlushConnectionTimer.
  - revert E. unfold OnFlushConnectionTimer, mget, mbind, M_bind, mmodify. destruct (s_asyncQueue m); [|done].
    by intros [= _ <-].
Qed.

Lemma stays_run_events i fuel es : preserves (stays i) (run_events fuel es).
Proof.
  induction es as [|e es IH]; cbn [run_events]; [preserve_tac|].
  apply preserves_bind; [apply _|apply stays_run_event|]. intros a. preserve_tac.
Qed.

Lemma mgr_ok_frame m m' : frame m m' -> mgr_ok m -> mgr_ok m'.
Proof. intros F [H1 H2]. unfold mgr_ok. by rewrite (fr_num _ _ F), (frame_len _ _ F). Qed.

(** The manager after a call on the failed connection [i]: only the builder's
    address is left in the context. *)
Definition touched (i : nat) (o : Z) (m : RedisMgr) : RedisMgr :=
  set_vec (alter (fun k => set_ctx (set_obuf o (ctx k)) k) i (s_vecRedisContext m)) m.

Lemma touched_eq (i : nat) o m k : s_vecRedisContext m !! i = Some k ->
  set_net (net m) (set_vec (alter (set_ctx (set_obuf o (ctx k))) i (s_vecRedisContext m)) m) = touched i o m.
Proof.
  intros Hk. unfold touched, set_net, set_vec. cbn. f_equal. apply list_eq. intros j.
  destruct (decide (i = j)) as [->|Hne]; [by rewrite !list_lookup_alter_eq, Hk|by rewrite !list_lookup_alter_ne].
Qed.

(** C6: A connection that has failed is never repaired.  Whatever events
    follow, it is still failed; and from then on every call of a thread it
    serves returns [REDIS_RESULT_OK] at once, with the reference parameters
    unchanged or reset, and every batch of asynchronous commands on it is
    dropped with success: nothing is sent, nothing is read, no attempt to
    connect is made. *)
Theorem failed_connection_stays fuel es m t as_ m' : mgr_ok m ->
  let i := Z.to_nat (sync_connection (s_connectNum m) t) in
  failed i m -> run_events fuel es m = Ok (as_, m') ->
  failed i m' /\
  (forall fuel' c, args_ok (sync_args c) -> exists o,
     run_sync fuel' c t m' = Ok ((REDIS_RESULT_OK, sync_lost c), touched i o m')) /\
  (forall fuel' b bs rs reSend, IsCommit b = true ->
     batchExecCmd fuel' t (b :: bs) rs reSend m' = Ok ((REDIS_OK, rs, b :: bs), touched i (_seek b) m')) /\
  (forall o, net (touched i o m') = net m').
Proof.
  intros Hm i Hf He. destruct (stays_run_events i _ _ _ _ _ He) as [F S]. specialize (S Hf).
  pose proof (mgr_ok_frame _ _ F Hm) as Hm'. destruct (GetRedisConnection_spec t m' Hm') as [Hi _].
  rewrite (fr_num _ _ F) in Hi. fold i in Hi. destruct S as (k & Hk & Hek). split_and!; [by exists k| | |done].
  - intros fuel' c Hok. destruct (commit_args _ Hok) as (b & Eb & Hb). exists (_seek b). rewrite run_sync_spec.
    unfold spec_sync, exec, mlift, mbind, M_bind, outcome_bind. rewrite Eb, execCmd_unfold, Hi, send_on_unfold, Hk.
    unfold sendAndGetReply, IsCommit. rewrite (com_commit _ _ Hb). cbn [negb].
    rewrite getReply_failed by done. cbn [mbind outcome_bind]. by rewrite touched_eq.
  - intros fuel' b bs rs reSend Hb. rewrite batchExecCmd_unfold, Hi, pipeline_on_unfold, Hk.
    rewrite pipeline_failed by done. cbn [mbind outcome_bind]. by rewrite touched_eq.
Qed.
End Failure.

(** ** The server closes one connection *)

Import MgrExample.

Module FailureExample.

(** Thread 1 finds the server gone; afterwards there are replies again. *)
Definition broken : @RedisMgr lib env3 :=
  match @run_sync lib env3 20 (CGet (lit "k") []) 1 mgr3 with
  | Ok (_, m) => @set_net lib env3 (Scripted.mkState [] [] [Some (string_reply (lit "v"))] [None] 0 0 1) m
  | _ => mgr3
  end.

Definition events : list event :=
  [ESync 2 (CGet (lit "k") []); ESync 1 (CSet (lit "k") (lit "w")); EAsync 0 (ADel (lit "k")); ETask 1 1; ETimer].

Lemma broken_failed : @failed lib env3 (Z.to_nat (sync_connection (s_connectNum broken) 1)) broken.
Proof.
  unfold failed. assert (H : match @s_vecRedisContext lib env3 broken !! Z.to_nat (sync_connection (s_connectNum broken) 1) with
                             | Some k => err (ctx k) <> 0
                             | None => False
                             end) by (vm_compute; discriminate).
  destruct (_ !! _) as [k|]; [by exists k|destruct H].
Qed.

Lemma broken_ok : @mgr_ok lib env3 broken.
Proof. vm_compute. repeat split; discriminate || reflexivity. Qed.

Lemma events_run : exists as_ m', @run_events lib env3 20 events broken = Ok (as_, m').
Proof.
  assert (H : is_ok (@run_events lib env3 20 events broken) = true) by (vm_compute; reflexivity).
  destruct (is_ok_ex _ H) as [[as_ m'] E]. by exists as_, m'.
Qed.
End FailureExample.

Lemma failed_connection_stays_witness : exists as_ m' o,
  @run_events lib env3 20 FailureExample.events FailureExample.broken = Ok (as_, m') /\
  @run_sync lib env3 20 (CGet (lit "k") (lit "old")) 1 m' =
    Ok ((REDIS_RESULT_OK, OStr (lit "old")),
        touched (Z.to_nat (sync_connection (s_connectNum FailureExample.broken) 1)) o m').
Proof.
  destruct FailureExample.events_run as (as_ & m' & E).
  destruct (@failed_connection_stays lib env3 20 FailureExample.events FailureExample.broken 1 as_ m'
    FailureExample.broken_ok FailureExample.broken_failed E) as (_ & H & _).
  destruct (H 20%nat (CGet (lit "k") (lit "old"))) as [o Ho].
  - apply (bool_decide_unpack _). vm_compute. reflexivity.
  - exists as_, m', o. split; [exact E|exact Ho].
Defined.
