(* ===== verification/RedisShape.v ===== *)
(** * The shape of the manager under all its operations

    The public interface of [RedisMgr] (RedisMgr.h, IRedisMgr.h) and what the
    kernel and the queue call: synchronous and asynchronous calls, commands and
    batches handed over ready-made, the tasks of the queue, the profile timer,
    [Launched], [SetAsyncQueue] and [TestPipeline].  Whatever sequence of them
    follows [Initialize], the connections, the threads they name, the tasks
    given to the queue and the resend time limit stay as they are. *)
From Stdlib Require Import ZArith Lia Ascii.
From stdpp Require Import base numbers list list_numbers strings.
From S2P Require Import Prelude Kernel Resp Hiredis RedisHelper RedisWire RedisMgr RedisMgrProps.
From S2P Require Import RedisSync RedisSyncProps RedisAsync RedisFailure.
Open Scope Z_scope.
#[local] Open Scope seed_scope.

Section Shape.
Context {HR : Hiredis} {HE : RedisEnv}.

(** The operations after [Initialize], with their arguments. *)
Inductive operation : Type :=
  | OpLaunched
  | OpSync (c : sync_call) (t : Z)
  | OpAsync (c : async_call) (taskId : Z)
  | OpExecCmd (t : Z) (b : RedisCmdBuilder) (want reSend : bool)
  | OpBatchExecCmd (t : Z) (bs : list RedisCmdBuilder) (rs : list redisReply) (reSend : bool)
  | OpAddAsyncTask (taskId : Z) (b : RedisCmdBuilder)
  | OpExecute (h : IAsyncHandler) (t : Z)
  | OpFlushTimer
  | OpRecordExecKey (t : Z) (key : bytes)
  | OpSetAsyncQueue (q : bool)
  | OpTestPipeline.

Definition run_operation (fuel : nat) (o : operation) : M RedisMgr () :=
  match o with
  | OpLaunched => Launched;; mret tt
  | OpSync c t => run_sync fuel c t;; mret tt
  | OpAsync c taskId => run_async c taskId;; mret tt
  | OpExecCmd t b want reSend => execCmd fuel t b want reSend;; mret tt
  | OpBatchExecCmd t bs rs reSend => batchExecCmd fuel t bs rs reSend;; mret tt
  | OpAddAsyncTask taskId b => addAsyncTask taskId b
  | OpExecute h t => OnExecute fuel h t;; mret tt
  | OpFlushTimer => OnFlushConnectionTimer
  | OpRecordExecKey t key => RecordExecKey t key
  | OpSetAsyncQueue q => SetAsyncQueue q
  | OpTestPipeline => TestPipeline fuel;; mret tt
  end.

Fixpoint run_operations (fuel : nat) (os : list operation) : M RedisMgr () :=
  match os with
  | [] => mret tt
  | o :: os' => run_operation fuel o;; run_operations fuel os'
  end.

(** The frame without the queue's pointer, which [SetAsyncQueue] sets. *)
Record shape (s s' : RedisMgr) : Prop := {
  sh_idx : map _threadIdx (s_vecRedisContext s') = map _threadIdx (s_vecRedisContext s);
  sh_num : s_connectNum s' = s_connectNum s;
  sh_cfg : s_connectionConfig s' = s_connectionConfig s;
  sh_post : Forall (fun k => _postTask k = false) (s_vecRedisContext s) ->
            Forall (fun k => _postTask k = false) (s_vecRedisContext s');
  sh_started : Forall is_flush (started s) -> Forall is_flush (started s')
}.

#[export] Instance shape_preorder : PreOrder shape.
Proof. split; [by constructor|]. intros s1 s2 s3 [] []. constructor; try congruence; eauto. Qed.

Lemma frame_shape s s' : frame s s' -> shape s s'.
Proof. intros []. by constructor. Qed.

Lemma preserves_shape {A} (m : M RedisMgr A) : preserves frame m -> preserves shape m.
Proof. intros H s a s' E. apply frame_shape. by eapply H. Qed.

(** [RedisFailure] has the frame of the calls. *)
Lemma shape_run_sync fuel c t : preserves shape (run_sync fuel c t).
Proof. apply preserves_shape. intros m a m' E. by destruct (stays_run_sync 0 fuel c t m a m' E). Qed.

Lemma shape_run_async c taskId : preserves shape (run_async c taskId).
Proof. apply preserves_shape. intros m a m' E. by destruct (stays_run_async 0 c taskId m a m' E). Qed.

Lemma shape_OnExecute fuel h t : preserves shape (OnExecute fuel h t).
Proof.
  apply preserves_shape. destruct h; cbn [OnExecute]; preserve_tac;
    [by apply preserves_OnFlushConnection|by apply preserves_OnExecRedisTask].
Qed.

Lemma shape_Launched : preserves shape Launched.
Proof. unfold Launched. preserve_tac. by constructor. Qed.

Lemma shape_SetAsyncQueue q : preserves shape (SetAsyncQueue q).
Proof. apply preserves_modify. intros s. by constructor. Qed.

#[local] Hint Resolve shape_run_sync shape_run_async shape_OnExecute shape_Launched shape_SetAsyncQueue : preserve.

Lemma shape_run_operation fuel o : preserves shape (run_operation fuel o).
Proof.
  destruct o; cbn [run_operation]; unfold RecordExecKey; preserve_tac; apply preserves_shape.
  - apply preserves_execCmd.
  - apply preserves_batchExecCmd.
  - apply preserves_addAsyncTask.
  - apply preserves_OnFlushConnectionTimer.
  - apply preserves_TestPipeline.
Qed.

Lemma shape_run_operations fuel os : preserves shape (run_operations fuel os).
Proof.
  induction os as [|o os IH]; cbn [run_operations]; [preserve_tac|].
  apply preserves_bind; [apply _|apply shape_run_operation|done].
Qed.

(** C22: After [Initialize] has succeeded and whatever sequence of the
    manager's operations has been run: the manager has exactly
    [connectnum + 1] connections and [s_connectNum] is the configured number;
    every connection still names thread 1; no asynchronous task has ever been
    handed to the queue or marked as posted; and the resend time limit is 0,
    because the configuration file's value is never read. *)
Theorem reachable_shape fuel w m0 os m x : redis_xml = Some x ->
  Initialize (mgr_start w) = Ok (true, m0) -> run_operations fuel os m0 = Ok (tt, m) ->
  let n := GetAttribute_S32 x (lit "connectnum") in
  length (s_vecRedisContext m) = Z.to_nat (s32 (n + 1)) /\ s_connectNum m = n /\
  Forall (fun k => _threadIdx k = 1 /\ _postTask k = false) (s_vecRedisContext m) /\
  Forall is_flush (started m) /\ reattemptTime (s_connectionConfig m) = 0.
Proof.
  intros Hx Hi Hr n. destruct (Initialize_initialized _ _ _ Hx Hi) as [H1 H2 H3 H4 H5 H6].
  apply shape_run_operations in Hr as [F1 F2 F3 F4 F5].
  pose proof (f_equal length F1) as Fl. rewrite !length_map in Fl.
  rewrite Fl, F2, F3. split_and!; [done|done| |by apply F5|done].
  apply Forall_and. split; [|by apply F4]. rewrite <- F1 in H3.
  apply (proj1 (List.Forall_map _ _ _)) in H3. eapply Forall_impl; [exact H3|]. intros k Hk. by symmetry.
Qed.
End Shape.

(** ** A run of all the operations *)

Import MgrExample.

Module ShapeExample.
(** A server that answers seven times. *)
Definition server : @world lib := ScriptedEnv.accepting
  (replicate 7 (Some (string_reply (lit "v")))).

Definition mgr : @RedisMgr lib env3 :=
  state_of (@mgr_start lib env3 server) (@Initialize lib env3 (@mgr_start lib env3 server)).

Definition operations : list operation :=
  [OpLaunched; OpSync (CGet (lit "k") []) 2; OpAsync (ADel (lit "k")) 7; OpExecute (RedisTaskHandler 2) 1;
   OpExecCmd 0 WireExample.sent_cmd true true; OpBatchExecCmd 1 [WireExample.sent_cmd] [] true;
   OpAddAsyncTask (-1) WireExample.sent_cmd; OpFlushTimer; OpExecute (FlushConnectionHandler 1) 1;
   OpRecordExecKey 0 (lit "k"); OpTestPipeline; OpSetAsyncQueue false].

Lemma mgr_init : @Initialize lib env3 (@mgr_start lib env3 server) = Ok (true, mgr).
Proof. apply is_true_result_state. vm_compute. reflexivity. Qed.

Lemma operations_run : exists m, @run_operations lib env3 60 operations mgr = Ok (tt, m) /\
  length (started m) = 2%nat /\ length (timers m) = 1%nat /\ Scripted.inbox (net m) = [].
Proof.
  assert (H : match @run_operations lib env3 60 operations mgr with
    | Ok (tt, m) => length (started m) = 2%nat /\ length (timers m) = 1%nat /\ Scripted.inbox (net m) = []
    | _ => False
    end) by (vm_compute; by split_and!).
  destruct (run_operations _ _ _) as [[[] m]| |]; [by exists m|done..].
Qed.
End ShapeExample.

Lemma reachable_shape_witness : exists m,
  @run_operations lib env3 60 ShapeExample.operations ShapeExample.mgr = Ok (tt, m) /\
  length (s_vecRedisContext m) = 4%nat /\ Forall is_flush (started m).
Proof.
  destruct ShapeExample.operations_run as (m & E & _).
  destruct (@reachable_shape lib env3 60 ShapeExample.server ShapeExample.mgr ShapeExample.operations m tt)
    as (H1 & _ & _ & H4 & _).
  - reflexivity.
  - exact ShapeExample.mgr_init.
  - exact E.
  - exists m. split; [exact E|]. split; [exact H1|exact H4].
Defined.
