(* ===== verification/RedisThreads.v ===== *)
(** * Calls that overlap: threads on one server

    [RedisSystem] takes calls one after the other.  Here the calls of several
    threads overlap: every thread runs its commands on its own connection, and
    between any two calls of the network library the other threads may run.
    [turn] is the exchange of RedisHelper.cpp ([RedisWraaper], as [execCmd]
    enters it) cut at its library calls; [exchange_turns] shows that a thread
    that runs alone does what [redisGetReplyInner] does.  [ConcurrentRedis]
    is the server: it executes a command at some time between its last byte
    and its reply.  [threads_linearize] shows that whatever the schedule, the
    calls look as if they had been executed one at a time. *)
From Stdlib Require Import ZArith Lia Ascii Permutation.
From stdpp Require Import base numbers list list_numbers strings gmap relations.
From S2P Require Import Prelude Kernel Resp Hiredis RedisHelper RedisWire RedisMgr RedisMgrProps.
From S2P Require Import RedisSync RedisSyncProps RedisStore RedisPeer.
Open Scope Z_scope.
#[local] Open Scope seed_scope.

(** ** The exchange in turns *)

(** Where a thread is: between two calls; in the loop of
    [redisBufferWriteInner], with the address of [*len] and the builder's
    block; before [redisBufferRead]; before [redisGetReplyFromReader]; with
    its reply; or returned with an error. *)
Inductive phase : Type :=
  | Idle
  | Writing (len_at : Z) (blk : bytes)
  | Reading
  | Parsing
  | Holding (r : redisReply)
  | Failed (e : Z).

Record thread {H : Hiredis} : Type := mkThread {
  conn : redisContext reader;
  todo : list (list bytes);
  replies : list redisReply;
  at_ : phase
}.
Arguments mkThread {H}.

Section Turns.
Context {HR : Hiredis}.

Definition go (p : phase) (c : redisContext reader) (th : thread) : thread := mkThread c (todo th) (replies th) p.

(** [redisGetReplyInner] of a builder: the test of [c->err] comes first. *)
Definition enter (b : RedisCmdBuilder) (th : thread) : thread :=
  let c := set_obuf (_seek b) (conn th) in
  if negb (err c =? 0) then go (Failed REDIS_ERR) c th else go (Writing (obuf c - 4) (_cmd b)) c th.

(** One turn: at most one call of the library.  With the reply in hand the
    thread keeps its content and frees it. *)
Definition turn (th : thread) (w : world) : outcome (thread * world) :=
  let c := conn th in
  match at_ th with
  | Idle =>
      match todo th with
      | [] => Ok (th, w)
      | cmd :: _ => b ← Commit (builder_new <<* cmd); Ok (enter b th, w)
      end
  | Writing len_at blk =>
      word ← of_option OutOfBounds (mem_read blk len_at 4);
      let len := unle32 word in
      if 0 <? len then
        data ← of_option OutOfBounds (mem_read blk (obuf c) len);
        let '(n, errno, w) := send (fd c) data w in
        let nwritten := s32 n in
        if (nwritten <? 0) && negb (retryable c errno) then
          c ← __redisSetErrorInner c REDIS_ERR_IO None errno;
          Ok (go (Failed REDIS_ERR) c th, w)
        else
          blk ← of_option OutOfBounds (mem_write blk len_at (le32 (s32 (len - nwritten))));
          Ok (go (Writing len_at blk) (set_obuf (obuf c + nwritten) c) th, w)
      else Ok (go Reading c th, w)
  | Reading =>
      let '(e, c, w) := redisBufferRead c w in
      Ok (go (if e =? REDIS_ERR then Failed REDIS_ERR else Parsing) c th, w)
  | Parsing =>
      let '(e, aux, c, w) := redisGetReplyFromReader c w in
      Ok (go (if e =? REDIS_ERR then Failed REDIS_ERR
              else match aux with Some r => Holding r | None => Reading end) c th, w)
  | Holding r => Ok (mkThread c (tail (todo th)) (replies th ++ [r]) Idle, freeReplyObject r w)
  | Failed _ => Ok (th, w)
  end.

(** A thread alone. *)
Fixpoint turns (n : nat) (th : thread) (w : world) : outcome (thread * world) :=
  match n with
  | O => Ok (th, w)
  | S n' => '(th, w) ← turn th w; turns n' th w
  end.

Lemma turns_S n th w th1 w1 : turn th w = Ok (th1, w1) -> turns (S n) th w = turns n th1 w1.
Proof. intros E. cbn [turns]. by rewrite E. Qed.

Lemma turns_app n k th w : turns (n + k) th w = ('(th, w) ← turns n th w; turns k th w).
Proof.
  revert th w. induction n as [|n IH]; intros th w; [done|]. cbn [turns Nat.add].
  destruct (turn th w) as [[th1 w1]| |]; cbn [mbind outcome_bind]; [apply IH|done..].
Qed.

Definition write_end (e : Z) : phase := if e =? REDIS_ERR then Failed REDIS_ERR else Reading.

Lemma write_turns fuel len_at c blk w e c' blk' w' th :
  write_loop fuel len_at c blk w = Ok (e, c', blk', w') ->
  exists n, turns n (go (Writing len_at blk) c th) w = Ok (go (write_end e) c' th, w').
Proof.
  revert c blk w. induction fuel as [|fuel IH]; intros c blk w; [done|]. cbn [write_loop].
  destruct (mem_read blk len_at 4) as [word|] eqn:Ew; [|done]. cbn [of_option mbind outcome_bind].
  destruct (0 <? unle32 word) eqn:El.
  2:{ intros [= <- <- <- <-]. exists 1%nat. cbn [turns turn at_ go conn]. rewrite Ew. cbn [of_option mbind outcome_bind].
      by rewrite El. }
  destruct (mem_read blk (obuf c) (unle32 word)) as [data|] eqn:Ed; [|done]. cbn [of_option mbind outcome_bind].
  destruct (send (fd c) data w) as [[n errno] w1] eqn:Es.
  destruct ((s32 n <? 0) && negb (retryable c errno)) eqn:Et.
  - destruct (__redisSetErrorInner c REDIS_ERR_IO None errno) as [c1| |] eqn:Ee; [|done..].
    intros [= <- <- <- <-]. exists 1%nat. cbn [turns turn at_ go conn]. rewrite Ew. cbn [of_option mbind outcome_bind].
    rewrite El, Ed. cbn [of_option mbind outcome_bind]. by rewrite Es, Et, Ee.
  - destruct (mem_write blk len_at _) as [blk1|] eqn:Eb; [|done]. cbn [of_option mbind outcome_bind]. intros H.
    destruct (IH _ _ _ H) as [k E]. exists (S k). erewrite turns_S; [exact E|].
    cbn [turn at_ go conn]. rewrite Ew. cbn [of_option mbind outcome_bind].
    rewrite El, Ed. cbn [of_option mbind outcome_bind]. by rewrite Es, Et, Eb.
Qed.

Definition read_end (e : Z) (aux : option redisReply) : phase :=
  if e =? REDIS_ERR then Failed REDIS_ERR else from_option Holding Idle aux.

Lemma read_turns fuel c w e aux c' w' th : read_loop fuel c w = Ok (e, aux, c', w') ->
  exists n, turns n (go Reading c th) w = Ok (go (read_end e aux) c' th, w').
Proof.
  revert c w. induction fuel as [|fuel IH]; intros c w; [done|]. cbn [read_loop].
  destruct (redisBufferRead c w) as [[e1 c1] w1] eqn:E1. destruct (e1 =? REDIS_ERR) eqn:Ee1.
  { intros [= <- <- <- <-]. exists 1%nat. cbn [turns turn at_ go conn]. by rewrite E1, Ee1. }
  destruct (redisGetReplyFromReader c1 w1) as [[[e2 aux2] c2] w2] eqn:E2.
  assert (Ht : forall k, turns (S (S k)) (go Reading c th) w = turns k (go (if e2 =? REDIS_ERR then Failed REDIS_ERR
    else match aux2 with Some r => Holding r | None => Reading end) c2 th) w2).
  { intros k. erewrite turns_S by (cbn [turn at_ go conn]; rewrite E1, Ee1; reflexivity).
    erewrite turns_S by (cbn [turn at_ go conn]; rewrite E2; reflexivity). done. }
  destruct (e2 =? REDIS_ERR) eqn:Ee2.
  { intros [= <- <- <- <-]. exists 2%nat. by rewrite Ht. }
  destruct aux2 as [r|].
  - intros [= <- <- <- <-]. exists 2%nat. by rewrite Ht.
  - intros H. destruct (IH _ _ H) as [k E]. exists (S (S k)). by rewrite Ht.
Qed.

(** C14: A thread that is not interrupted does in its turns what
    [redisGetReplyInner] does in one: whenever that returns for the committed
    command on the thread's connection, the turns lead from the start of the
    call to the same context and world, with the same reply in hand, or to the
    same error. *)
Theorem exchange_turns fuel b th w e aux c blk w' :
  redisGetReplyInner fuel (set_obuf (_seek b) (conn th)) (_cmd b) true w = Ok (e, aux, c, blk, w') ->
  exists n, turns n (enter b th) w = Ok (go (read_end e aux) c th, w').
Proof.
  unfold redisGetReplyInner, redisBufferWriteInner, enter. set (c0 := set_obuf _ _).
  destruct (negb (err c0 =? 0)).
  { intros [= <- <- <- <- <-]. by exists 0%nat. }
  destruct (write_loop fuel (obuf c0 - 4) c0 (_cmd b) w) as [[[[e1 c1] blk1] w1]| |] eqn:Ew; [|done..].
  cbn [mbind outcome_bind]. destruct (write_turns _ _ _ _ _ _ _ _ _ th Ew) as [n1 T1]. unfold write_end in T1.
  destruct (e1 =? REDIS_ERR) eqn:Ee1.
  { intros [= <- <- <- <- <-]. exists n1. exact T1. }
  destruct (read_loop fuel c1 w1) as [[[[e2 aux2] c2] w2]| |] eqn:Er; [|done..]. cbn [mbind outcome_bind].
  destruct (read_turns _ _ _ _ _ _ _ th Er) as [n2 T2].
  intros H. exists (n1 + n2)%nat. rewrite turns_app, T1. cbn [mbind outcome_bind]. rewrite T2.
  destruct aux2 as [r|]; injection H as <- <- <- <- <-; [|done].
  by destruct (read_loop_code _ _ _ _ _ _ _ Er) as [[-> _]|[_ ?]].
Qed.
End Turns.

(** ** The server *)

(** What the server has of a connection: part of a command, or the reply to a
    command it has executed, and whether that reply is in the reader. *)
Inductive inflight : Type :=
  | Receiving (buf : bytes)
  | Executed (sp : reply_spec)
  | Delivered (sp : reply_spec).

Section Server.
Context {HR : Hiredis}.

Abbreviation service := (list (redisContext reader * inflight))%type.

(** The server executes one of the commands it has received whole. *)
Inductive executes : service * store -> service * store -> Prop :=
  | executes_one l st j c cmd sp st' : l !! j = Some (c, Receiving (resp_encode cmd)) -> args_ok cmd ->
      redis_effect cmd st = Some (sp, st') -> executes (l, st) (<[j := (c, Executed sp)]> l, st').

(** Whatever it executes now, every command it has received is described. *)
Definition described (l : service) (st : store) : Prop := forall l' st', rtc executes (l, st) (l', st') ->
  forall j c cmd, l' !! j = Some (c, Receiving (resp_encode cmd)) -> args_ok cmd -> is_Some (redis_effect cmd st').
End Server.

Abbreviation service := (list (redisContext reader * inflight))%type.

(** [serving l w st]: in the world [w] the connections [l] reach one server that
    stores [st].  During a call the server may execute commands of any
    connection.  It delivers a reply only after it has executed the command;
    how often a reader has to read before a reply is complete is open. *)
Class ConcurrentRedis (H : Hiredis) : Type := {
  serving : service -> world -> store -> Prop;
  serving_ready : forall l w st i c f, serving l w st -> l !! i = Some (c, f) -> no_interrupt c /\ err c = 0;
  serving_obuf : forall l w st i c f o, serving l w st -> l !! i = Some (c, f) ->
    serving (<[i := (set_obuf o c, f)]> l) w st;
  serving_send : forall l w st i c buf data n e w', serving l w st -> l !! i = Some (c, Receiving buf) ->
    data <> [] -> send (fd c) data w = (n, e, w') ->
    0 < n <= Z.of_nat (length data) /\
    let l1 := <[i := (c, Receiving (buf ++ take (Z.to_nat n) data))]> l in
    (described l1 st -> exists l' st', rtc executes (l1, st) (l', st') /\ serving l' w' st');
  serving_read : forall l w st i c f e c' w', serving l w st -> l !! i = Some (c, f) ->
    (exists cmd, args_ok cmd /\ f = Receiving (resp_encode cmd)) \/ (exists sp, f = Executed sp) ->
    described l st -> redisBufferRead c w = (e, c', w') ->
    e <> REDIS_ERR /\ exists l' st', rtc executes (<[i := (c', f)]> l, st) (l', st') /\
      (serving l' w' st' \/
       exists sp, l' !! i = Some (c', Executed sp) /\ serving (<[i := (c', Delivered sp)]> l') w' st');
  serving_parse : forall l w st i c f e aux c' w', serving l w st -> l !! i = Some (c, f) ->
    redisGetReplyFromReader c w = (e, aux, c', w') ->
    e <> REDIS_ERR /\
    match aux with
    | None => serving (<[i := (c', f)]> l) w' st /\ forall sp, f <> Delivered sp
    | Some r => exists sp, f = Delivered sp /\ matches sp r /\ serving (<[i := (c', Receiving [])]> l) w' st
    end;
  serving_free : forall l w st r, serving l w st -> serving l (freeReplyObject r w) st
}.

(** ** Threads on the server *)

Section Threads.
Context {HR : Hiredis}.

(** The schedule: the thread whose turn it is. *)
Fixpoint run (sched : list nat) (ts : list thread) (w : world) : outcome (list thread * world) :=
  match sched with
  | [] => Ok (ts, w)
  | i :: sched' =>
      match ts !! i with
      | None => run sched' ts w
      | Some th => '(th, w) ← turn th w; run sched' (<[i := th]> ts) w
      end
  end.

(** Executed commands, each with its thread and the reply it is owed. *)
Abbreviation history := (list (nat * list bytes * reply_spec)).

Definition by_thread {A} (i : nat) (o : list (nat * A)) : list A := map snd (filter (fun e => fst e = i) o).
Definition commands (o : history) : list (nat * list bytes) := map fst o.
Definition mine (i : nat) (o : history) : history := filter (fun e => fst (fst e) = i) o.

(** The commands of the threads, each thread's in its own order. *)
Definition interleaving (progs : list (list (list bytes))) (o : list (nat * list bytes)) : Prop :=
  Forall (fun e => (fst e < length progs)%nat) o /\
  forall i prog, progs !! i = Some prog -> by_thread i o `prefix_of` prog.

(** The replies a thread has seen. *)
Definition got (th : thread) : list redisReply :=
  replies th ++ match at_ th with Holding r => [r] | _ => [] end.

(** [o] explains what the threads have seen: executed one at a time and in
    this order from the stored data [st], the commands leave [st'], and the
    replies are those each thread has got, except that one more command of a
    thread in the middle of a call may have been executed.  No thread has
    failed. *)
Record explains (progs : list (list (list bytes))) (st : store) (o : history) (ts : list thread) (st' : store) : Prop := {
  ex_order : interleaving progs (commands o);
  ex_effects : effects (map snd (commands o)) st = Some (map snd o, st');
  ex_replies : forall i th, ts !! i = Some th -> exists sps more,
    map snd (mine i o) = sps ++ more /\ Forall2 matches sps (got th) /\ (length more <= 1)%nat /\
    (at_ th = Idle -> more = []);
  ex_todo : forall i th prog, ts !! i = Some th -> progs !! i = Some prog -> at_ th = Idle ->
    by_thread i (commands o) ++ todo th = prog;
  ex_alive : Forall (fun th => forall e, at_ th <> Failed e) ts
}.

(** *** The invariant of one thread *)

Definition owed (f : inflight) : list reply_spec :=
  match f with Receiving _ => [] | Executed sp | Delivered sp => [sp] end.

(** The commands of the thread that have not been executed. *)
Definition remaining (th : thread) (f : inflight) : list (list bytes) :=
  match at_ th, owed f with
  | Holding _, _ | _, _ :: _ => tail (todo th)
  | _, [] => todo th
  end.

(** The server has all of the command, or has executed it. *)
Definition underway (cmd : list bytes) (f : inflight) : Prop :=
  f = Receiving (resp_encode cmd) \/ exists sp, f = Executed sp.

Definition phase_ok (th : thread) (f : inflight) : Prop :=
  match at_ th with
  | Idle => f = Receiving []
  | Writing len_at blk => exists cmd rest pre k, todo th = cmd :: rest /\ len_at = Z.of_nat (length pre) /\
      0 <= k <= Z.of_nat (length (resp_encode cmd)) /\
      sending blk pre (resp_encode cmd) (Z.of_nat (length (resp_encode cmd)) - k) /\
      obuf (conn th) = len_at + 4 + k /\
      (f = Receiving (take (Z.to_nat k) (resp_encode cmd)) \/
       k = Z.of_nat (length (resp_encode cmd)) /\ exists sp, f = Executed sp)
  | Reading => exists cmd rest, todo th = cmd :: rest /\ underway cmd f
  | Parsing => exists cmd rest, todo th = cmd :: rest /\ (underway cmd f \/ exists sp, f = Delivered sp)
  | Holding _ => f = Receiving [] /\ todo th <> []
  | Failed _ => False
  end.

Record thread_ok (i : nat) (prog : list (list bytes)) (o : history) (th : thread) (f : inflight) : Prop := {
  to_prog : map snd (commands (mine i o)) ++ remaining th f = prog;
  to_replies : exists sps, map snd (mine i o) = sps ++ owed f /\ Forall2 matches sps (got th);
  to_args : Forall args_ok (todo th);
  to_phase : phase_ok th f
}.

(** *** Executing a command *)

Lemma Receiving_inj a b : Receiving a = Receiving b -> a = b.
Proof. by intros [=]. Qed.

(** No command is the beginning of another. *)
Lemma resp_prefix cmd cmd' rest : args_ok cmd -> args_ok cmd' ->
  resp_encode cmd' ++ rest = resp_encode cmd -> cmd' = cmd /\ rest = [].
Proof.
  intros Hok Hok' E.
  assert (D : forall c r, args_ok c -> resp_decode (resp_encode c ++ r) = Some (c, r)).
  { intros c r Hc. apply resp_decode_encode; [destruct Hc; lia|].
    apply Forall_forall. intros a Ha. pose proof (args_ok_arg c a Hc ltac:(by apply list_elem_of_In)). lia. }
  pose proof (D cmd' rest Hok') as D1. rewrite E in D1. rewrite <- (app_nil_r (resp_encode cmd)) in D1.
  rewrite (D cmd [] Hok) in D1. by injection D1 as -> ->.
Qed.

Lemma resp_encode_nonempty cmd : resp_encode cmd <> [].
Proof. unfold resp_encode, resp_head. done. Qed.

Lemma mine_app i o o' : mine i (o ++ o') = mine i o ++ mine i o'.
Proof. apply filter_app. Qed.

Lemma mine_self i cmd sp : mine i [(i, cmd, sp)] = [(i, cmd, sp)].
Proof. unfold mine. rewrite filter_cons_True by done. done. Qed.

Lemma mine_other i j cmd sp : i <> j -> mine i [(j, cmd, sp)] = [].
Proof. intros Hij. unfold mine. by rewrite filter_cons_False by (cbn; congruence). Qed.

(** The command a thread is underway with is the first of its list. *)
Lemma executes_head i prog o th cmd : thread_ok i prog o th (Receiving (resp_encode cmd)) -> args_ok cmd ->
  exists rest, todo th = cmd :: rest /\ remaining th (Receiving (resp_encode cmd)) = cmd :: rest /\
    match at_ th with Writing _ _ | Reading | Parsing => True | _ => False end.
Proof.
  intros [_ _ Ha Hp] Hok. unfold phase_ok, remaining in *. destruct (at_ th) as [|len_at blk| | |r|e]; try done.
  - destruct Hp as (cmd1 & rest & pre & k & Ht & _ & Hk & _ & _ & [Hf|[_ [sp [=]]]]).
    apply Receiving_inj in Hf. rewrite Ht in Ha |- *. apply Forall_cons in Ha as [Ha _].
    assert (E : resp_encode cmd ++ drop (Z.to_nat k) (resp_encode cmd1) = resp_encode cmd1) by (rewrite Hf; apply take_drop).
    destruct (resp_prefix cmd1 cmd _ Ha Hok E) as [-> _]. by exists rest.
  - destruct Hp as (cmd1 & rest & Ht & [Hf|[sp [=]]]). apply Receiving_inj in Hf. rewrite Ht in Ha |- *.
    apply Forall_cons in Ha as [Ha _]. destruct (resp_prefix cmd1 cmd [] Ha Hok) as [-> _]; [by rewrite app_nil_r|].
    by exists rest.
  - destruct Hp as (cmd1 & rest & Ht & [[Hf|[sp [=]]]|[sp [=]]]). apply Receiving_inj in Hf. rewrite Ht in Ha |- *.
    apply Forall_cons in Ha as [Ha _]. destruct (resp_prefix cmd1 cmd [] Ha Hok) as [-> _]; [by rewrite app_nil_r|].
    by exists rest.
  - by destruct Hp as [[=] _].
Qed.

Lemma executes_self i prog o th cmd sp : thread_ok i prog o th (Receiving (resp_encode cmd)) -> args_ok cmd ->
  thread_ok i prog (o ++ [(i, cmd, sp)]) th (Executed sp).
Proof.
  intros Hth Hok. destruct (executes_head _ _ _ _ _ Hth Hok) as (rest & Ht & Hr & Hat). destruct Hth as [Hp Hs Ha Hph].
  constructor; [| |done|].
  - rewrite mine_app, mine_self. unfold commands. rewrite !map_app, <- Hp, Hr, <- app_assoc. cbn [map fst snd app].
    f_equal. f_equal. unfold remaining. rewrite Ht. by destruct (at_ th).
  - destruct Hs as (sps & E & Hm). exists sps. split; [|done].
    rewrite mine_app, mine_self, map_app, E. cbn [owed map snd]. by rewrite app_nil_r.
  - unfold phase_ok in *. destruct (at_ th) as [|len_at blk| | |r|e]; try done.
    + destruct Hph as (cmd1 & rest1 & pre & k & Ht1 & Hl & Hk & Hb & Hob & [Hf|[_ [sp' [=]]]]).
      rewrite Ht in Ht1. injection Ht1 as <- <-. apply Receiving_inj in Hf.
      exists cmd, rest, pre, k. split_and!; try done; try lia. right. split; [|by exists sp].
      apply (f_equal length) in Hf. rewrite length_take in Hf. lia.
    + exists cmd, rest. split; [done|]. right. by exists sp.
    + exists cmd, rest. split; [done|]. left. right. by exists sp.
Qed.

Lemma executes_other i j prog o th f cmd sp : i <> j -> thread_ok i prog o th f ->
  thread_ok i prog (o ++ [(j, cmd, sp)]) th f.
Proof. intros Hij [H1 H2 H3 H4]. constructor; rewrite ?mine_app, ?(mine_other i j), ?app_nil_r; done. Qed.

(** A thread that goes on without a reply in hand. *)
Lemma thread_ok_go i prog o th f f' p c : thread_ok i prog o th f -> (forall r, at_ th <> Holding r) ->
  (forall r, p <> Holding r) -> owed f' = owed f -> phase_ok (go p c th) f' -> thread_ok i prog o (go p c th) f'.
Proof.
  intros [H1 H2 H3 _] Hth Hp Hf Hph. constructor; [| |done|done].
  - rewrite <- H1. f_equal. unfold remaining. rewrite Hf. cbn [at_ go todo].
    destruct p; destruct (at_ th); first [done|by destruct (Hp _ eq_refl)|by destruct (Hth _ eq_refl)].
  - rewrite Hf. destruct H2 as (sps & E & Hm). exists sps. split; [done|]. unfold got in *. cbn [at_ go replies].
    destruct p; destruct (at_ th); first [done|by destruct (Hp _ eq_refl)|by destruct (Hth _ eq_refl)].
Qed.

(** *** The invariant of the system *)

Section System.
Variable progs : list (list (list bytes)).
Variable st0 : store.
(** Whatever the order, the threads' commands are described. *)
Hypothesis orders_described : forall o, interleaving progs o -> is_Some (effects (map snd o) st0).

Record linked (o : history) (ts : list thread) (l : service) (st : store) : Prop := {
  li_threads : length ts = length progs;
  li_service : length l = length progs;
  li_ok : forall i prog th, progs !! i = Some prog -> ts !! i = Some th ->
    exists f, l !! i = Some (conn th, f) /\ thread_ok i prog o th f;
  li_owners : Forall (fun e => (fst (fst e) < length progs)%nat) o;
  li_effects : effects (map snd (commands o)) st0 = Some (map snd o, st)
}.

Lemma by_thread_commands i (o : history) : by_thread i (commands o) = map snd (commands (mine i o)).
Proof.
  unfold by_thread, mine, commands. induction o as [|[[j cmd] sp] o IH]; [done|]. cbn [map].
  rewrite !filter_cons. cbn [fst]. destruct (decide (j = i)); cbn [map]; by rewrite IH.
Qed.

Lemma linked_thread o ts l st i th : linked o ts l st -> ts !! i = Some th ->
  exists prog f, progs !! i = Some prog /\ l !! i = Some (conn th, f) /\ thread_ok i prog o th f.
Proof.
  intros H Hi. destruct (lookup_lt_is_Some_2 progs i) as [prog Hp].
  { rewrite <- (li_threads _ _ _ _ H). by eapply lookup_lt_Some. }
  destruct (li_ok _ _ _ _ H _ _ _ Hp Hi) as (f & Hl & Hok). by exists prog, f.
Qed.

Lemma linked_interleaving o ts l st : linked o ts l st -> interleaving progs (commands o).
Proof.
  intros H. split.
  - apply List.Forall_map. exact (li_owners _ _ _ _ H).
  - intros i prog Hp. destruct (lookup_lt_is_Some_2 ts i) as [th Hi].
    { rewrite (li_threads _ _ _ _ H). by eapply lookup_lt_Some. }
    destruct (li_ok _ _ _ _ H _ _ _ Hp Hi) as (f & _ & Hok). rewrite by_thread_commands, <- (to_prog _ _ _ _ _ Hok).
    by apply prefix_app_r.
Qed.

(** A command the server has received is the next of its thread, so it is
    described. *)
Lemma linked_pending o ts l st j c cmd : linked o ts l st -> l !! j = Some (c, Receiving (resp_encode cmd)) ->
  args_ok cmd -> exists th prog, progs !! j = Some prog /\ ts !! j = Some th /\ c = conn th /\
    thread_ok j prog o th (Receiving (resp_encode cmd)) /\ is_Some (redis_effect cmd st).
Proof.
  intros H Hl Hok. assert (Hj : (j < length progs)%nat).
  { rewrite <- (li_service _ _ _ _ H). by eapply lookup_lt_Some. }
  destruct (lookup_lt_is_Some_2 _ _ Hj) as [prog Hp].
  destruct (lookup_lt_is_Some_2 ts j) as [th Hi]; [by rewrite (li_threads _ _ _ _ H)|].
  destruct (li_ok _ _ _ _ H _ _ _ Hp Hi) as (f & Hf & Hth). rewrite Hl in Hf. injection Hf as -> <-.
  exists th, prog. split_and!; try done.
  destruct (executes_head _ _ _ _ _ Hth Hok) as (rest & _ & Hr & _).
  destruct (orders_described (commands o ++ [(j, cmd)])) as [[sps st'] E].
  { destruct (linked_interleaving _ _ _ _ H) as [H1 H2]. split; [apply Forall_app; split; [done|by constructor]|].
    intros i prog' Hp'. unfold by_thread. rewrite filter_app, map_app. fold (by_thread i (commands o)).
    destruct (decide (i = j)) as [->|Hij].
    - rewrite filter_cons_True by done. rewrite Hp in Hp'. injection Hp' as <-.
      rewrite by_thread_commands, <- (to_prog _ _ _ _ _ Hth), Hr. cbn [map snd filter]. exists rest. by rewrite <- app_assoc.
    - rewrite filter_cons_False by (cbn; congruence). cbn [map]. rewrite app_nil_r. by apply H2. }
  rewrite map_app in E. apply effects_app in E as (sps1 & st1 & sps2 & E1 & E2).
  rewrite (li_effects _ _ _ _ H) in E1. injection E1 as <- <-. cbn [map snd] in E2.
  apply effects_cons in E2 as (sp & st2 & _ & E2 & _). by rewrite E2.
Qed.

Lemma linked_executes o ts l st l' st' : linked o ts l st -> executes (l, st) (l', st') ->
  exists o', linked (o ++ o') ts l' st'.
Proof.
  intros H He. inversion He as [? ? j c cmd sp ? Hl Hok E]; subst.
  destruct (linked_pending _ _ _ _ _ _ _ H Hl Hok) as (th & prog & Hp & Hi & -> & Hth & _).
  exists [(j, cmd, sp)]. constructor.
  - exact (li_threads _ _ _ _ H).
  - rewrite length_insert. exact (li_service _ _ _ _ H).
  - intros i prog' th' Hp' Hi'. destruct (decide (i = j)) as [->|Hij].
    + rewrite Hp in Hp'. rewrite Hi in Hi'. injection Hp' as <-. injection Hi' as <-. exists (Executed sp).
      split; [by apply list_lookup_insert_eq; eapply lookup_lt_Some|by apply executes_self].
    + destruct (li_ok _ _ _ _ H _ _ _ Hp' Hi') as (f & Hf & Hth'). exists f.
      split; [by rewrite list_lookup_insert_ne|by apply executes_other].
  - apply Forall_app. split; [exact (li_owners _ _ _ _ H)|]. constructor; [|done]. by eapply lookup_lt_Some.
  - unfold commands. rewrite !map_app. cbn [map snd fst].
    eapply effects_snoc; [exact (li_effects _ _ _ _ H)|exact E].
Qed.

Lemma linked_rtc o ts l st l' st' : linked o ts l st -> rtc executes (l, st) (l', st') ->
  exists o', linked (o ++ o') ts l' st'.
Proof.
  intros H Hr. remember (l, st) as a eqn:Ea. remember (l', st') as b eqn:Eb. revert o l st H Ea.
  induction Hr as [|a [l1 st1] b He _ IH]; intros o l st H ->.
  { injection Eb as <- <-. exists []. by rewrite app_nil_r. }
  destruct (linked_executes _ _ _ _ _ _ H He) as [o1 H1]. destruct (IH Eb _ _ _ H1 eq_refl) as [o2 H2].
  exists (o1 ++ o2). by rewrite app_assoc.
Qed.

Lemma linked_described o ts l st : linked o ts l st -> described l st.
Proof.
  intros H l' st' Hr j c cmd Hl Hok. destruct (linked_rtc _ _ _ _ _ _ H Hr) as [o' H'].
  by destruct (linked_pending _ _ _ _ _ _ _ H' Hl Hok) as (_ & _ & _ & _ & _ & _ & E).
Qed.

Lemma linked_update o ts l st i prog th f : linked o ts l st -> progs !! i = Some prog -> thread_ok i prog o th f ->
  linked o (<[i := th]> ts) (<[i := (conn th, f)]> l) st.
Proof.
  intros [H1 H2 H3 H4 H5] Hp Hok. constructor; rewrite ?length_insert; try done.
  intros j prog' th' Hp' Hj. destruct (decide (j = i)) as [->|Hij].
  - rewrite Hp in Hp'. injection Hp' as <-.
    rewrite list_lookup_insert_eq in Hj by (rewrite H1; by eapply lookup_lt_Some). injection Hj as <-.
    exists f. split; [|done]. apply list_lookup_insert_eq. rewrite H2. by eapply lookup_lt_Some.
  - rewrite list_lookup_insert_ne in Hj by done. rewrite list_lookup_insert_ne by done. by apply H3.
Qed.

Context {HC : ConcurrentRedis HR}.

(** *** One turn *)

(** What a turn of the thread [i] leaves. *)
Definition steps_to (o : history) (ts : list thread) (i : nat) (th : thread) (w : world) : Prop :=
  exists th' w' o' l' st', turn th w = Ok (th', w') /\ linked (o ++ o') (<[i := th']> ts) l' st' /\ serving l' w' st'.

(** A turn after which the server has executed nothing. *)
Lemma steps_quiet o ts l st i prog th w th' f w' : linked o ts l st -> progs !! i = Some prog ->
  turn th w = Ok (th', w') -> thread_ok i prog o th' f -> serving (<[i := (conn th', f)]> l) w' st ->
  steps_to o ts i th w.
Proof.
  intros H Hp Ht Hok Hs. exists th', w', [], (<[i := (conn th', f)]> l), st. rewrite app_nil_r.
  split_and!; [done|by eapply linked_update|done].
Qed.

Lemma idle_turn o ts l st i th w prog f : linked o ts l st -> serving l w st -> progs !! i = Some prog ->
  l !! i = Some (conn th, f) -> thread_ok i prog o th f -> at_ th = Idle -> steps_to o ts i th w.
Proof.
  intros H Hs Hp Hl Hok Ha. pose proof (to_phase _ _ _ _ _ Hok) as Hf. unfold phase_ok in Hf. rewrite Ha in Hf. subst f.
  destruct (todo th) as [|cmd rest] eqn:Et.
  { eapply (steps_quiet _ _ _ _ _ _ _ _ th (Receiving []) w H Hp); [unfold turn; by rewrite Ha, Et|done|].
    by rewrite list_insert_id. }
  pose proof (to_args _ _ _ _ _ Hok) as Hargs. rewrite Et in Hargs. apply Forall_cons in Hargs as [Hcmd _].
  destruct (commit_args cmd Hcmd) as (b & Eb & Hb). destruct (committed_sending _ _ Hb) as (pre & Hpre & Hseek).
  destruct (serving_ready _ _ _ _ _ _ Hs Hl) as [_ Herr].
  eapply (steps_quiet _ _ _ _ _ _ _ _ (enter b th) (Receiving []) w H Hp).
  - unfold turn. by rewrite Ha, Et, Eb.
  - unfold enter. cbn [err set_obuf]. rewrite Herr. cbn [Z.eqb negb].
    eapply thread_ok_go; [exact Hok|by rewrite Ha|done|done|].
    unfold phase_ok. cbn [at_ go conn todo]. exists cmd, rest, pre, 0. rewrite Z.sub_0_r.
    cbn [obuf set_obuf]. split_and!; [done|lia|lia|lia|exact Hpre|lia|by left].
  - unfold enter. cbn [err set_obuf]. rewrite Herr. cbn [Z.eqb negb conn go]. by eapply serving_obuf.
Qed.

Lemma writing_turn o ts l st i th w prog f len_at blk : linked o ts l st -> serving l w st -> progs !! i = Some prog ->
  l !! i = Some (conn th, f) -> thread_ok i prog o th f -> at_ th = Writing len_at blk -> steps_to o ts i th w.
Proof.
  intros H Hs Hp Hl Hok Ha. pose proof (to_phase _ _ _ _ _ Hok) as Hf. unfold phase_ok in Hf. rewrite Ha in Hf.
  destruct Hf as (cmd & rest & pre & k & Et & -> & Hk & Hblk & Hob & Hf).
  pose proof (to_args _ _ _ _ _ Hok) as Hargs. rewrite Et in Hargs. apply Forall_cons in Hargs as [Hcmd _].
  set (payload := resp_encode cmd) in *. set (L := Z.of_nat (length payload)) in *.
  assert (HL : L < 2 ^ 31) by (unfold L, payload; destruct Hcmd; lia).
  pose proof (sending_word _ _ _ _ Hblk) as Ew.
  destruct (decide (k = L)) as [->|Hlt].
  { eapply (steps_quiet _ _ _ _ _ _ _ _ (go Reading (conn th) th) f w H Hp).
    - unfold turn. rewrite Ha, Ew. cbn [of_option mbind outcome_bind].
      rewrite unle32_le32, s32_small by (unfold is_s32; lia). by rewrite Z.sub_diag.
    - eapply thread_ok_go; [exact Hok|by rewrite Ha|done|done|]. exists cmd, rest. split; [done|]. unfold underway.
      destruct Hf as [->|[_ Hf]]; [left|by right]. unfold L. by rewrite Nat2Z.id, firstn_all.
    - cbn [conn go]. by rewrite list_insert_id. }
  destruct Hf as [->|[-> _]]; [|done].
  pose proof (sending_data _ _ _ _ k Hblk Hk) as Ed. fold payload L in Ed. rewrite <- Hob in Ed.
  set (d := drop (Z.to_nat k) payload) in *.
  assert (Hd : Z.of_nat (length d) = L - k) by (unfold d; rewrite length_drop; lia).
  destruct (send (fd (conn th)) d w) as [[n e] w1] eqn:Es.
  set (c1 := set_obuf (obuf (conn th) + n) (conn th)).
  pose proof (serving_obuf _ _ _ _ _ _ (obuf (conn th) + n) Hs Hl) as Hs1. fold c1 in Hs1.
  assert (Hl1 : <[i := (c1, Receiving (take (Z.to_nat k) payload))]> l !! i = Some (c1, Receiving (take (Z.to_nat k) payload))).
  { apply list_lookup_insert_eq. by eapply lookup_lt_Some. }
  destruct (serving_send _ _ _ _ _ _ d n e w1 Hs1 Hl1) as [Hn Hsend]; [intros E; rewrite E in Hd; cbn in Hd; lia|done|].
  cbn zeta in Hsend. rewrite list_insert_insert_eq in Hsend.
  assert (Ebuf : take (Z.to_nat k) payload ++ take (Z.to_nat n) d = take (Z.to_nat (k + n)) payload).
  { unfold d. rewrite take_take_drop. f_equal. lia. }
  rewrite Ebuf in Hsend. destruct (sending_store pre payload _ _ (L - (k + n)) Hblk) as (blk1 & Eb & Hblk1).
  set (th1 := go (Writing (Z.of_nat (length pre)) blk1) c1 th).
  assert (H' : linked o (<[i := th1]> ts) (<[i := (c1, Receiving (take (Z.to_nat (k + n)) payload))]> l) st).
  { apply (linked_update _ _ _ _ _ _ th1 _ H Hp).
    eapply thread_ok_go; [exact Hok|by rewrite Ha|done|done|].
    unfold phase_ok. cbn [at_ go conn todo]. exists cmd, rest, pre, (k + n). fold payload L.
    split_and!; [done|done|lia|lia|exact Hblk1|unfold c1; cbn [obuf set_obuf]; lia|by left]. }
  destruct (Hsend (linked_described _ _ _ _ H')) as (l' & st' & Hr & Hs').
  destruct (linked_rtc _ _ _ _ _ _ H' Hr) as [o' H''].
  exists th1, w1, o', l', st'. split_and!; [|done|done].
  unfold turn. rewrite Ha, Ew. cbn [of_option mbind outcome_bind].
  rewrite unle32_le32, (s32_small (L - k)) by (unfold is_s32; lia).
  destruct (Z.ltb_spec 0 (L - k)); [|lia]. rewrite Ed. cbn [of_option mbind outcome_bind]. rewrite Es.
  rewrite (s32_small n) by (unfold is_s32; lia). destruct (Z.ltb_spec n 0); [lia|]. cbn [andb].
  rewrite s32_small by (unfold is_s32; lia). replace (L - k - n) with (L - (k + n)) by lia.
  by rewrite Eb.
Qed.

Lemma reading_turn o ts l st i th w prog f : linked o ts l st -> serving l w st -> progs !! i = Some prog ->
  l !! i = Some (conn th, f) -> thread_ok i prog o th f -> at_ th = Reading -> steps_to o ts i th w.
Proof.
  intros H Hs Hp Hl Hok Ha. pose proof (to_phase _ _ _ _ _ Hok) as Hf. unfold phase_ok in Hf. rewrite Ha in Hf.
  destruct Hf as (cmd & rest & Et & Hf). pose proof (to_args _ _ _ _ _ Hok) as Hargs.
  rewrite Et in Hargs. apply Forall_cons in Hargs as [Hcmd _].
  destruct (redisBufferRead (conn th) w) as [[e c'] w'] eqn:Er.
  destruct (serving_read _ _ _ _ _ _ e c' w' Hs Hl) as [He (l' & st' & Hr & Hs')]; [|by eapply linked_described|done|].
  { destruct Hf as [->|Hf]; [left; by exists cmd|by right]. }
  assert (Hstep : turn th w = Ok (go Parsing c' th, w')).
  { unfold turn. rewrite Ha, Er. by destruct (Z.eqb_spec e REDIS_ERR). }
  assert (H' : linked o (<[i := go Parsing c' th]> ts) (<[i := (c', f)]> l) st).
  { apply (linked_update _ _ _ _ _ _ (go Parsing c' th) f H Hp).
    eapply thread_ok_go; [exact Hok|by rewrite Ha|done|done|]. exists cmd, rest. split; [done|by left]. }
  destruct (linked_rtc _ _ _ _ _ _ H' Hr) as [o' H''].
  destruct Hs' as [Hs'|(sp & Hsp & Hs')]; [by exists (go Parsing c' th), w', o', l', st'|].
  assert (Hi : <[i := go Parsing c' th]> ts !! i = Some (go Parsing c' th)).
  { apply list_lookup_insert_eq. rewrite (li_threads _ _ _ _ H). by eapply lookup_lt_Some. }
  destruct (linked_thread _ _ _ _ _ _ H'' Hi) as (prog' & f' & Hp' & Hl' & Hok').
  rewrite Hsp in Hl'. injection Hl' as <-. rewrite Hp in Hp'. injection Hp' as <-.
  exists (go Parsing c' th), w', o', (<[i := (c', Delivered sp)]> l'), st'. split_and!; [done| |done].
  rewrite <- (list_insert_insert_eq ts i (go Parsing c' th) (go Parsing c' th)).
  apply (linked_update _ _ _ _ _ _ (go Parsing c' th) (Delivered sp) H'' Hp).
  eapply (thread_ok_go i prog _ (go Parsing c' th) (Executed sp) _ Parsing c'); [exact Hok'|done|done|done|].
  exists cmd, rest. split; [done|]. right. by exists sp.
Qed.

Lemma parsing_turn o ts l st i th w prog f : linked o ts l st -> serving l w st -> progs !! i = Some prog ->
  l !! i = Some (conn th, f) -> thread_ok i prog o th f -> at_ th = Parsing -> steps_to o ts i th w.
Proof.
  intros H Hs Hp Hl Hok Ha. pose proof (to_phase _ _ _ _ _ Hok) as Hf. unfold phase_ok in Hf. rewrite Ha in Hf.
  destruct Hf as (cmd & rest & Et & Hf).
  destruct (redisGetReplyFromReader (conn th) w) as [[[e aux] c'] w'] eqn:Er.
  destruct (serving_parse _ _ _ _ _ _ e aux c' w' Hs Hl Er) as [He Haux]. apply Z.eqb_neq in He.
  destruct aux as [r|].
  - destruct Haux as (sp & -> & Hm & Hs').
    eapply (steps_quiet _ _ _ _ _ _ _ _ (go (Holding r) c' th) (Receiving []) _ H Hp); [by unfold turn; rewrite Ha, Er, He| |done].
    destruct Hok as [H1 (sps & E & Hms) H3 _]. constructor; [| |done|].
    + rewrite <- H1. unfold remaining. by rewrite Ha.
    + exists (sps ++ [sp]). split; [rewrite E; by rewrite app_nil_r|]. unfold got in *. rewrite Ha, app_nil_r in Hms.
      cbn [at_ go replies]. apply Forall2_app; [done|by constructor].
    + split; [done|]. cbn [go todo]. by rewrite Et.
  - destruct Haux as [Hs' Hnd].
    eapply (steps_quiet _ _ _ _ _ _ _ _ (go Reading c' th) f _ H Hp); [by unfold turn; rewrite Ha, Er, He| |done].
    eapply thread_ok_go; [exact Hok|by rewrite Ha|done|done|]. exists cmd, rest. split; [done|].
    destruct Hf as [Hf|[sp Hf]]; [done|by destruct (Hnd sp)].
Qed.

Lemma holding_turn o ts l st i th w prog f r : linked o ts l st -> serving l w st -> progs !! i = Some prog ->
  l !! i = Some (conn th, f) -> thread_ok i prog o th f -> at_ th = Holding r -> steps_to o ts i th w.
Proof.
  intros H Hs Hp Hl Hok Ha. pose proof (to_phase _ _ _ _ _ Hok) as Hf. unfold phase_ok in Hf. rewrite Ha in Hf.
  destruct Hf as [-> Hne].
  eapply (steps_quiet _ _ _ _ _ _ _ _ (mkThread (conn th) (tail (todo th)) (replies th ++ [r]) Idle) (Receiving []) _ H Hp);
    [by unfold turn; rewrite Ha| |].
  - destruct Hok as [H1 (sps & E & Hms) H3 _]. constructor.
    + rewrite <- H1. unfold remaining. by rewrite Ha.
    + exists sps. split; [done|]. unfold got in *. rewrite Ha in Hms. cbn [at_ replies]. by rewrite app_nil_r.
    + cbn [todo]. destruct (todo th); [done|by apply Forall_cons in H3 as [_ ?]].
    + done.
  - cbn [conn]. rewrite list_insert_id by done. by apply serving_free.
Qed.

Lemma turn_step o ts l st i th w : linked o ts l st -> serving l w st -> ts !! i = Some th -> steps_to o ts i th w.
Proof.
  intros H Hs Hi. destruct (linked_thread _ _ _ _ _ _ H Hi) as (prog & f & Hp & Hl & Hok).
  destruct (at_ th) as [|len_at blk| | |r|e] eqn:Ha.
  - by eapply idle_turn.
  - by eapply writing_turn.
  - by eapply reading_turn.
  - by eapply parsing_turn.
  - by eapply holding_turn.
  - pose proof (to_phase _ _ _ _ _ Hok) as Hf. unfold phase_ok in Hf. by rewrite Ha in Hf.
Qed.

Lemma run_linked sched o ts l st w : linked o ts l st -> serving l w st ->
  exists ts' w' o' l' st', run sched ts w = Ok (ts', w') /\ linked (o ++ o') ts' l' st' /\ serving l' w' st'.
Proof.
  revert o ts l st w. induction sched as [|i sched IH]; intros o ts l st w H Hs; cbn [run].
  { exists ts, w, [], l, st. by rewrite app_nil_r. }
  destruct (ts !! i) as [th|] eqn:Hi; [|by eapply IH].
  destruct (turn_step _ _ _ _ _ _ _ H Hs Hi) as (th1 & w1 & o1 & l1 & st1 & E1 & H1 & Hs1).
  destruct (IH _ _ _ _ _ H1 Hs1) as (ts2 & w2 & o2 & l2 & st2 & E2 & H2 & Hs2).
  exists ts2, w2, (o1 ++ o2), l2, st2. rewrite E1. cbn [mbind outcome_bind]. rewrite app_assoc. by split_and!.
Qed.

Lemma linked_explains o ts l st : linked o ts l st -> explains progs st0 o ts st.
Proof.
  intros H. constructor.
  - by eapply linked_interleaving.
  - exact (li_effects _ _ _ _ H).
  - intros i th Hi. destruct (linked_thread _ _ _ _ _ _ H Hi) as (prog & f & _ & _ & Hok).
    destruct (to_replies _ _ _ _ _ Hok) as (sps & E & Hm). exists sps, (owed f). split_and!; [done|done|destruct f; cbn; lia|].
    intros Ha. pose proof (to_phase _ _ _ _ _ Hok) as Hf. unfold phase_ok in Hf. rewrite Ha in Hf. by subst f.
  - intros i th prog Hi Hp Ha. destruct (linked_thread _ _ _ _ _ _ H Hi) as (prog' & f & Hp' & _ & Hok).
    rewrite Hp in Hp'. injection Hp' as <-. rewrite by_thread_commands, <- (to_prog _ _ _ _ _ Hok).
    pose proof (to_phase _ _ _ _ _ Hok) as Hf. unfold phase_ok in Hf. unfold remaining. rewrite Ha in Hf |- *. by subst f.
  - apply Forall_lookup. intros i th Hi e He. destruct (linked_thread _ _ _ _ _ _ H Hi) as (prog & f & _ & _ & Hok).
    pose proof (to_phase _ _ _ _ _ Hok) as Hf. unfold phase_ok in Hf. by rewrite He in Hf.
Qed.
End System.

(** *** The theorem *)

(** Threads that have not started, on their connections. *)
Definition starting (cs : list (redisContext reader)) (progs : list (list (list bytes))) : list thread :=
  zip_with (fun c prog => mkThread c prog [] Idle) cs progs.

Lemma starting_linked cs progs st : length cs = length progs -> Forall (Forall args_ok) progs ->
  linked progs st [] (starting cs progs) (map (fun c => (c, Receiving [])) cs) st.
Proof.
  intros Hlen Hargs. constructor.
  - unfold starting. rewrite length_zip_with. lia.
  - by rewrite length_map.
  - intros i prog th Hp Hi. unfold starting in Hi. apply lookup_zip_with_Some in Hi as (c & prog' & -> & Hc & Hp').
    rewrite Hp in Hp'. injection Hp' as <-. exists (Receiving []).
    split; [change (map ?f cs) with (f <$> cs); by rewrite list_lookup_fmap, Hc|].
    constructor; [done|by exists []|by apply (Forall_lookup_1 _ _ _ _ Hargs Hp)|done].
  - constructor.
  - done.
Qed.

Lemma run_app s1 s2 ts w : run (s1 ++ s2) ts w = ('(ts, w) ← run s1 ts w; run s2 ts w).
Proof.
  revert ts w. induction s1 as [|i s1 IH]; intros ts w; [done|]. cbn [run app].
  destruct (ts !! i) as [th|]; [|apply IH]. destruct (turn th w) as [[th' w']| |]; cbn [mbind outcome_bind]; [apply IH|done..].
Qed.

Context {HC : ConcurrentRedis HR}.

(** C2: Synchronous calls of several threads, each on its own connection with
    one server, linearize.  Every schedule of their turns runs without a
    fault, and no call fails.  At any moment the server's state and all
    replies seen so far are those of some order in which whole commands are
    executed one after the other, each thread's in its own order; later
    moments only extend the order.  So a call that has returned comes before
    every call that starts afterwards. *)
Theorem threads_linearize cs progs w st : length cs = length progs -> Forall (Forall args_ok) progs ->
  serving (map (fun c => (c, Receiving [])) cs) w st ->
  (forall o, interleaving progs o -> is_Some (effects (map snd o) st)) ->
  forall s1 s2, exists ts1 w1 o1 st1 ts2 w2 o2 st2,
    run s1 (starting cs progs) w = Ok (ts1, w1) /\ explains progs st o1 ts1 st1 /\
    run (s1 ++ s2) (starting cs progs) w = Ok (ts2, w2) /\ explains progs st (o1 ++ o2) ts2 st2.
Proof.
  intros Hlen Hargs Hs Ho s1 s2. pose proof (starting_linked cs progs st Hlen Hargs) as H.
  destruct (run_linked progs st Ho s1 _ _ _ _ _ H Hs) as (ts1 & w1 & o1 & l1 & st1 & E1 & H1 & Hs1).
  destruct (run_linked progs st Ho s2 _ _ _ _ _ H1 Hs1) as (ts2 & w2 & o2 & l2 & st2 & E2 & H2 & _).
  exists ts1, w1, o1, st1, ts2, w2, o2, st2. split_and!; [done|by eapply linked_explains| |by eapply linked_explains].
  rewrite run_app, E1. exact E2.
Qed.

(** A sufficient condition for the last hypothesis: the commands are described
    in all states of an invariant that they keep. *)
Lemma orders_described_by (I : store -> Prop) (progs : list (list (list bytes))) st : I st ->
  (forall prog cmd st', prog ∈ progs -> cmd ∈ prog -> I st' ->
     exists sp st'', redis_effect cmd st' = Some (sp, st'') /\ I st'') ->
  forall o, interleaving progs o -> is_Some (effects (map snd o) st).
Proof.
  intros Hst Hcmd o [Ho Hp].
  assert (Hin : Forall (fun e => exists prog, prog ∈ progs /\ snd e ∈ prog) o).
  { rewrite Forall_forall in Ho |- *. intros [i cmd] He. destruct (lookup_lt_is_Some_2 progs i (Ho _ He)) as [prog Hi].
    exists prog. split; [by eapply list_elem_of_lookup_2|]. destruct (Hp i prog Hi) as [rest ->].
    apply elem_of_app. left. unfold by_thread. change (map snd) with (fmap (M := list) (@snd nat (list bytes))).
    apply list_elem_of_fmap. exists (i, cmd). split; [done|]. by apply list_elem_of_filter. }
  clear Ho Hp. revert st Hst. induction Hin as [|[i cmd] o (prog & Hpr & Hc) _ IH]; intros st Hst; [by eexists|].
  destruct (Hcmd prog cmd st Hpr Hc Hst) as (sp & st' & E & Hst'). cbn [map snd effects] in *. rewrite E.
  cbn [mbind option_bind]. destruct (IH st' Hst') as [[sps st''] ->]. by eexists.
Qed.
End Threads.

(** ** A concrete server

    It takes seven bytes of a [send] at most, executes a command as soon as it
    has all of it, and delivers the reply to the first read. *)
Module EagerServer.
Record state : Type := mkState {
  data : store;
  received : gmap Z bytes;
  answers : gmap Z redisReply;
  freed : nat
}.

Definition inbox (fd : Z) (w : state) : bytes := default [] (received w !! fd).

(** The command a buffer is. *)
Definition whole (buf : bytes) : option (list bytes) :=
  match resp_decode buf with
  | Some (cmd, _) => if bool_decide (args_ok cmd /\ resp_encode cmd = buf) then Some cmd else None
  | None => None
  end.

Definition send (fd : Z) (d : bytes) (w : state) : Z * Z * state :=
  let n := Z.min StoreServer.chunk (Z.of_nat (length d)) in
  let buf := inbox fd w ++ take (Z.to_nat n) d in
  (n, 0,
   match cmd ← whole buf; redis_effect cmd (data w) with
   | Some (sp, st) => mkState st (<[fd := []]> (received w)) (<[fd := StoreServer.pick sp]> (answers w)) (freed w)
   | None => mkState (data w) (<[fd := buf]> (received w)) (answers w) (freed w)
   end).

Definition BufferRead (c : redisContext (list redisReply)) (w : state)
    : Z * redisContext (list redisReply) * state :=
  match answers w !! fd c with
  | Some r => (REDIS_OK, mkContext (err c) (errstr c) (fd c) (flags c) (obuf c) (rd c ++ [r]),
               mkState (data w) (received w) (delete (fd c) (answers w)) (freed w))
  | None => (REDIS_ERR, set_error REDIS_ERR_EOF (lit "Server closed the connection") c, w)
  end.

Definition GetReplyFromReader (c : redisContext (list redisReply)) (w : state)
    : Z * option redisReply * redisContext (list redisReply) * state :=
  match rd c with
  | [] => (REDIS_OK, None, c, w)
  | r :: rs => (REDIS_OK, Some r, mkContext (err c) (errstr c) (fd c) (flags c) (obuf c) rs, w)
  end.

Definition lib : Hiredis := {|
  world := state;
  reader := list redisReply;
  Hiredis.send := send;
  redisBufferRead := BufferRead;
  redisGetReplyFromReader := GetReplyFromReader;
  redisConnectWithTimeout := fun _ _ _ w => (None, w);
  redisCommand := fun c _ _ w => (None, c, w);
  redisFree := fun _ w => w;
  freeReplyObject := fun _ w => mkState (data w) (received w) (answers w) (S (freed w));
  strerror_r := fun _ => [];
  GetTimeMillisecond := fun w => (0, w);
  Sleep := fun _ w => w
|}.

(** What the server has of one connection. *)
Definition held (w : state) (c : redisContext (list redisReply)) (f : inflight) : Prop :=
  err c = 0 /\
  match f with
  | Receiving buf => rd c = [] /\ inbox (fd c) w = buf /\ answers w !! fd c = None /\ whole buf = None
  | Executed sp => rd c = [] /\ inbox (fd c) w = [] /\ exists r, answers w !! fd c = Some r /\ matches sp r
  | Delivered sp => inbox (fd c) w = [] /\ answers w !! fd c = None /\ exists r, rd c = [r] /\ matches sp r
  end.

Definition serves (l : list (redisContext (list redisReply) * inflight)) (w : @world lib) (st : store) : Prop :=
  NoDup (map (fun e => fd (fst e)) l) /\ data w = st /\ Forall (fun e => held w (fst e) (snd e)) l.

Lemma whole_encode cmd : args_ok cmd -> whole (resp_encode cmd) = Some cmd.
Proof.
  intros Hok. unfold whole. rewrite <- (app_nil_r (resp_encode cmd)) at 1. rewrite resp_decode_encode.
  - by rewrite bool_decide_eq_true_2.
  - destruct Hok; lia.
  - apply Forall_forall. intros a Ha. pose proof (args_ok_arg cmd a Hok ltac:(by apply list_elem_of_In)). lia.
Qed.

Lemma whole_Some buf cmd : whole buf = Some cmd -> args_ok cmd /\ buf = resp_encode cmd.
Proof.
  unfold whole. destruct (resp_decode buf) as [[cmd' r]|]; [|done]. case_bool_decide as E; [|done].
  intros [= <-]. destruct E. by split.
Qed.

(** One connection and the world change; the others do not notice. *)
Lemma serves_update l (w : @world lib) st i c f c' f' (w' : @world lib) st' : serves l w st -> l !! i = Some (c, f) -> fd c' = fd c ->
  held w' c' f' -> data w' = st' ->
  (forall k, k <> fd c -> received w' !! k = received w !! k /\ answers w' !! k = answers w !! k) ->
  serves (<[i := (c', f')]> l) w' st'.
Proof.
  intros (Hn & _ & Ha) Hi Hfd Hh Hd Hk. split_and!; [|done|].
  - change (map ?g) with (fmap (M := list) g) in *. rewrite list_fmap_insert.
    rewrite list_insert_id; [done|]. rewrite list_lookup_fmap, Hi. cbn. by rewrite Hfd.
  - apply Forall_lookup. intros j [cj fj] Hj. destruct (decide (i = j)) as [<-|Hij].
    + rewrite list_lookup_insert_eq in Hj by (by eapply lookup_lt_Some). by injection Hj as <- <-.
    + rewrite list_lookup_insert_ne in Hj by done. pose proof (Forall_lookup_1 _ _ _ _ Ha Hj) as Hh'. cbn [fst snd] in *.
      assert (Hne : fd cj <> fd c).
      { intros E. apply Hij. change (map ?g) with (fmap (M := list) g) in Hn.
        apply (NoDup_lookup _ i j (fd c) Hn); rewrite list_lookup_fmap; [by rewrite Hi|].
        etransitivity; [exact (f_equal (fmap _) Hj)|]. exact (f_equal Some E). }
      destruct (Hk _ Hne) as [E1 E2]. unfold held, inbox in *. by rewrite E1, E2.
Qed.

Lemma serves_lookup l (w : @world lib) st i c f : serves l w st -> l !! i = Some (c, f) -> held w c f.
Proof. intros (_ & _ & Ha) Hi. exact (Forall_lookup_1 _ _ _ _ Ha Hi). Qed.

Lemma send_law l (w : @world lib) st i (c : redisContext (list redisReply)) buf d n e w' : serves l w st ->
  l !! i = Some (c, Receiving buf) -> d <> [] -> send (fd c) d w = (n, e, w') ->
  0 < n <= Z.of_nat (length d) /\
  let l1 := <[i := (c, Receiving (buf ++ take (Z.to_nat n) d))]> l in
  (@described lib l1 st -> exists l' st', rtc (@executes lib) (l1, st) (l', st') /\ serves l' w' st').
Proof.
  intros Hs Hi Hd He. destruct (serves_lookup _ _ _ _ _ _ Hs Hi) as (Herr & Hrd & Hin & Hans & _).
  assert (0 < Z.of_nat (length d)) by (destruct d; [done|cbn; lia]).
  unfold send in He. rewrite Hin in He. injection He as <- <- <-. set (n := Z.min _ _).
  assert (Hn : 0 < n <= Z.of_nat (length d)) by (unfold n, StoreServer.chunk; lia). split; [done|]. cbn zeta.
  set (buf1 := buf ++ take (Z.to_nat n) d). intros Hdesc. destruct Hs as (Hn0 & <- & Ha).
  assert (Hl1 : <[i := (c, Receiving buf1)]> l !! i = Some (c, Receiving buf1)).
  { apply list_lookup_insert_eq. by eapply lookup_lt_Some. }
  destruct (whole buf1) as [cmd|] eqn:Ew; cbn [mbind option_bind].
  - destruct (whole_Some _ _ Ew) as [Hok Eb]. rewrite Eb in *.
    destruct (Hdesc _ _ (rtc_refl _ _) _ _ _ Hl1 Hok) as [[sp st'] E]. rewrite E.
    exists (<[i := (c, Executed sp)]> l), st'. split.
    + apply rtc_once. rewrite <- (list_insert_insert_eq l i (c, Executed sp) (c, Receiving (resp_encode cmd))).
      exact (@executes_one lib _ (data w) i c cmd sp st' Hl1 Hok E).
    + eapply serves_update; [by split_and!|exact Hi|done| |done|].
      * split; [done|]. cbn [received answers]. split_and!; [done|unfold inbox; cbn; by rewrite lookup_insert_eq|].
        exists (StoreServer.pick sp). split; [apply lookup_insert_eq|apply StoreServer.pick_matches].
      * intros k Hk. cbn. by rewrite !lookup_insert_ne.
  - exists (<[i := (c, Receiving buf1)]> l), (data w). split; [apply rtc_refl|].
    eapply serves_update; [by split_and!|exact Hi|done| |done|].
    * split; [done|]. split_and!; [done|unfold inbox; cbn; by rewrite lookup_insert_eq|done|done].
    * intros k Hk. cbn. by rewrite lookup_insert_ne.
Qed.

Lemma read_law l (w : @world lib) st i (c : redisContext (list redisReply)) f e c' w' : serves l w st ->
  l !! i = Some (c, f) -> (exists cmd, args_ok cmd /\ f = Receiving (resp_encode cmd)) \/ (exists sp, f = Executed sp) ->
  BufferRead c w = (e, c', w') ->
  e <> REDIS_ERR /\ exists sp, f = Executed sp /\ serves (<[i := (c', Delivered sp)]> l) w' st.
Proof.
  intros Hs Hi Hf Hr. destruct (serves_lookup _ _ _ _ _ _ Hs Hi) as [Herr Hh].
  destruct Hf as [(cmd & Hok & ->)|[sp ->]].
  { destruct Hh as (_ & _ & _ & Hw). by rewrite whole_encode in Hw. }
  destruct Hh as (Hrd & Hin & r & Hans & Hm). unfold BufferRead in Hr. rewrite Hans in Hr. injection Hr as <- <- <-.
  split; [done|]. exists sp. split; [done|].
  eapply serves_update; [exact Hs|exact Hi|done| |by destruct Hs as (_ & ? & _)|].
  - split; [done|]. cbn [rd fd answers]. split_and!; [done|apply lookup_delete_eq|].
    exists r. split; [|done]. by rewrite Hrd.
  - intros k Hk. cbn. by rewrite lookup_delete_ne.
Qed.

Lemma parse_law l (w : @world lib) st i (c : redisContext (list redisReply)) f e aux c' w' : serves l w st ->
  l !! i = Some (c, f) -> GetReplyFromReader c w = (e, aux, c', w') ->
  e <> REDIS_ERR /\
  match aux with
  | None => serves (<[i := (c', f)]> l) w' st /\ forall sp, f <> Delivered sp
  | Some r => exists sp, f = Delivered sp /\ matches sp r /\ serves (<[i := (c', Receiving [])]> l) w' st
  end.
Proof.
  intros Hs Hi Hr. destruct (serves_lookup _ _ _ _ _ _ Hs Hi) as [Herr Hh]. unfold GetReplyFromReader in Hr.
  destruct (rd c) as [|r rs] eqn:Erd; injection Hr as <- <- <- <-; split; try done.
  - rewrite list_insert_id by done. split; [done|]. intros sp ->. destruct Hh as (_ & _ & r & Hr & _). congruence.
  - destruct f as [buf|sp|sp]; [by destruct Hh|by destruct Hh|]. destruct Hh as (Hin & Hans & r' & Hr & Hm).
    injection Hr as -> ->. exists sp. split_and!; [done|done|].
    eapply serves_update; [exact Hs|exact Hi|done| |by destruct Hs as (_ & ? & _)|done].
    split; [done|]. by cbn [rd fd].
Qed.

#[export] Instance concurrent : ConcurrentRedis lib.
Proof.
  refine (@Build_ConcurrentRedis lib serves _ _ _ _ _ _).
  - intros l w st i c f Hs Hi. destruct (serves_lookup _ _ _ _ _ _ Hs Hi) as [Herr _]. split; [|done].
    intros d w' n e w'' [= <- _ _] Hn. unfold StoreServer.chunk in Hn. lia.
  - intros l w st i c f o Hs Hi. eapply serves_update; [exact Hs|exact Hi|done| |by destruct Hs as (_ & ? & _)|done].
    exact (serves_lookup _ _ _ _ _ _ Hs Hi).
  - exact send_law.
  - intros l w st i c f e c' w' Hs Hi Hf _ Hr. destruct (read_law _ _ _ _ _ _ _ _ _ Hs Hi Hf Hr) as (He & sp & -> & Hs').
    split; [exact He|]. exists (<[i := (c', Executed sp)]> l), st. split; [apply rtc_refl|]. right. exists sp. split.
    + apply list_lookup_insert_eq. by eapply lookup_lt_Some.
    + rewrite list_insert_insert_eq. exact Hs'.
  - exact parse_law.
  - intros l w st r (H1 & H2 & H3). done.
Defined.

Definition connection (fd : Z) : redisContext (list redisReply) := mkContext 0 [] fd REDIS_BLOCK 0 [].
Definition empty : @world lib := mkState ∅ ∅ ∅ 0.

(** Two threads on one key. *)
Definition conns : list (redisContext (list redisReply)) := [connection 3; connection 4].
Definition progs : list (list (list bytes)) :=
  [[[lit "SET"; lit "k"; lit "1"]; [lit "GET"; lit "k"]]; [[lit "SET"; lit "k"; lit "2"]]].

Lemma conns_served : serves (map (fun c => (c, Receiving [])) conns) empty ∅.
Proof.
  split_and!; [apply (bool_decide_unpack _); vm_compute; reflexivity|done|].
  repeat constructor.
Qed.

(** The key holds a string, if anything. *)
Definition string_key (st : store) : Prop := forall v, st !! lit "k" = Some v -> exists s, v = RStr s.

Lemma string_key_alter v st : (forall x, v = Some x -> exists s, x = RStr s) ->
  string_key (partial_alter (fun _ => v) (lit "k") st).
Proof.
  intros Hv x Hx. apply Hv. rewrite <- Hx. symmetry. exact (lookup_partial_alter_eq (M := gmap bytes) (fun _ => v) st (lit "k")).
Qed.

Lemma key_described (name : bytes) args sp v st : key_effect (name :: lit "k" :: args) (st !! lit "k") = Some (sp, v) ->
  (forall x, v = Some x -> exists s, x = RStr s) ->
  exists sp st', redis_effect (name :: lit "k" :: args) st = Some (sp, st') /\ string_key st'.
Proof.
  intros E Hv. unfold redis_effect. rewrite E. do 2 eexists. split; [done|by apply string_key_alter].
Qed.

Lemma set_described s st : exists sp st', redis_effect [lit "SET"; lit "k"; s] st = Some (sp, st') /\ string_key st'.
Proof. eapply key_described; [reflexivity|]. intros x [= <-]. by exists s. Qed.

Lemma get_described st : string_key st ->
  exists sp st', redis_effect [lit "GET"; lit "k"] st = Some (sp, st') /\ string_key st'.
Proof.
  intros Hst. destruct (st !! lit "k") as [v|] eqn:E.
  - destruct (Hst v E) as [s ->]. eapply key_described; [rewrite E; reflexivity|]. intros x [= <-]. by exists s.
  - eapply key_described; [rewrite E; reflexivity|]. done.
Qed.

Lemma progs_described o : interleaving progs o -> is_Some (effects (map snd o) ∅).
Proof.
  apply (orders_described_by string_key); [done|]. intros prog cmd st Hp Hc Hst.
  unfold progs in Hp. apply elem_of_cons in Hp as [->|Hp].
  - apply elem_of_cons in Hc as [->|Hc]; [apply set_described|].
    apply list_elem_of_singleton in Hc as ->. by apply get_described.
  - apply list_elem_of_singleton in Hp as ->. apply list_elem_of_singleton in Hc as ->. apply set_described.
Qed.

(** The second SET starts before the first one ends and is executed after it. *)
Definition schedule : list nat := [0; 0; 0; 1; 1; 0; 0; 0; 0; 0; 1; 0; 1; 1; 0; 1; 1; 1; 1; 1; 1; 0; 0; 0; 0; 0; 0; 0; 0; 0; 0; 0; 0]%nat.
End EagerServer.
Import EagerServer.

Lemma threads_linearize_witness : exists ts1 w1 o1 st1,
  @run lib schedule (@starting lib conns progs) empty = Ok (ts1, w1) /\ @explains lib progs ∅ o1 ts1 st1 /\
  map replies ts1 = [[OK_reply; string_reply (lit "2")]; [OK_reply]].
Proof.
  destruct (@threads_linearize lib concurrent conns progs empty ∅ eq_refl) with (s1 := schedule) (s2 := @nil nat)
    as (ts1 & w1 & o1 & st1 & _ & _ & _ & _ & E & H & _).
  - apply (bool_decide_unpack _). vm_compute. reflexivity.
  - exact conns_served.
  - exact progs_described.
  - exists ts1, w1, o1, st1. split_and!; [exact E|exact H|].
    assert (Hm : match @run lib schedule (@starting lib conns progs) empty with
                 | Ok (ts, _) => map replies ts = [[OK_reply; string_reply (lit "2")]; [OK_reply]]
                 | _ => False
                 end) by (vm_compute; reflexivity).
    by rewrite E in Hm.
Defined.

(** One SET on connection 3. *)
Definition set_one : RedisCmdBuilder :=
  match Commit (builder_new <<* [lit "SET"; lit "k"; lit "1"]) with Ok b => b | _ => builder_new end.
Definition caller : @thread lib := @mkThread lib (connection 3) [[lit "SET"; lit "k"; lit "1"]] [] Idle.

Lemma exchange_turns_witness : exists n th' w',
  @turns lib n (@enter lib set_one caller) empty = Ok (th', w') /\ at_ th' = Holding OK_reply.
Proof.
  destruct (@redisGetReplyInner lib 20 (@set_obuf _ (_seek set_one) (@conn lib caller)) (_cmd set_one) true empty)
    as [[[[[e aux] c] blk] w']| |] eqn:E; [|vm_compute in E; discriminate E..].
  destruct (@exchange_turns lib 20 set_one caller empty e aux c blk w' E) as [n Hn].
  eexists n, _, w'. split; [exact Hn|].
  assert (Hr : match @redisGetReplyInner lib 20 (@set_obuf _ (_seek set_one) (@conn lib caller)) (_cmd set_one) true empty with
               | Ok (e, aux, _, _, _) => read_end e aux = Holding OK_reply
               | _ => False
               end) by (vm_compute; reflexivity).
  rewrite E in Hr. exact Hr.
Defined.
