(* ===== verification/RedisSharing.v ===== *)
(** * Two threads on one connection

    [GetRedisConnection] takes the thread index modulo the number of
    connections, so threads whose indexes agree share a connection, and
    nothing keeps their calls apart.  [RedisThreads] supposes a connection per
    thread; this file shows what the other case allows, with the server of
    [StoreServer]: one thread sends, the other runs its whole exchange, and
    each reads the reply to the other's command. *)
From Stdlib Require Import ZArith Lia Ascii.
From stdpp Require Import base numbers list list_numbers strings gmap.
From S2P Require Import Prelude Kernel Resp Hiredis RedisHelper RedisWire RedisMgr RedisMgrProps.
From S2P Require Import RedisSync RedisSyncProps RedisStore RedisPeer IRedisMgr RedisThreads.
Import StoreServer.
Open Scope Z_scope.
#[local] Open Scope seed_scope.

Section Sharing.
#[local] Existing Instance lib.

Abbreviation context := (redisContext (@reader lib)).

(** A thread before and in the call of [cmd]. *)
Definition caller (c : context) (cmd : list bytes) (p : phase) : thread := mkThread c [cmd] [] p.

(** A thread sends its command behind what the server has already. *)
Lemma turns_send others (c : context) (w : @world lib) st buf cmd : at_server others c w st buf -> args_ok cmd ->
  exists n (c1 : context) (w1 : @world lib), turns n (caller c cmd Idle) w = Ok (caller c1 cmd Reading, w1) /\
    at_server others c1 w1 st (buf ++ resp_encode cmd).
Proof.
  intros Ht Hok. destruct (commit_args cmd Hok) as (b & Eb & Hb).
  pose proof (proj2 (@talking_ready lib (peer_of others) _ _ _ _ Ht)) as Herr.
  set (c0 := set_obuf (_seek b) c). set (n := S (length (resp_encode cmd))).
  destruct (@writeInner_start lib n b _ c0 w Hb Herr eq_refl) as (pre & Hs & Hseek & Es).
  destruct (@write_loop_peer lib (peer_of others) n pre (resp_encode cmd) 0 c0 (_cmd b) w st buf)
    as (c1 & blk1 & w1 & E1 & Ht1);
    [apply Hok|lia|lia|by rewrite Z.sub_0_r|lia|rewrite app_nil_r; exact Ht|].
  destruct (write_turns _ _ _ _ _ _ _ _ _ (caller c cmd Idle) E1) as [k Hk].
  exists (S k), c1, w1. split; [|exact Ht1].
  erewrite turns_S; [exact Hk|]. cbn [turn at_ caller todo]. rewrite Eb. cbn [mbind outcome_bind]. do 2 f_equal.
  unfold enter, go, caller. cbn [conn todo replies]. fold c0. assert (Herr0 : err c0 = 0) by exact Herr.
  rewrite Herr0. cbn [Z.eqb negb]. by replace (obuf c0 - 4) with (Z.of_nat (length pre)) by lia.
Qed.

(** A thread that reads gets the reply to the first command the server has. *)
Lemma turns_reply others (c : context) (w : @world lib) st first rest cmd sp st' :
  at_server others c w st (resp_encode first ++ rest) -> args_ok first -> redis_effect first st = Some (sp, st') ->
  exists n (c1 : context) (w1 : @world lib),
    turns n (caller c cmd Reading) w = Ok (caller c1 cmd (Holding (pick sp)), w1) /\
    at_server others c1 w1 st' rest.
Proof.
  intros Ht Hok He. destruct (answers _ _ _ _ _ _ _ _ Ht Hok He) as (c1 & w1 & Ht1 & Hr).
  destruct (read_loop_complete _ _ _ _ _ _ Hr) as [N E]. specialize (E N ltac:(lia)).
  destruct (read_turns _ _ _ _ _ _ _ (caller c cmd Reading) E) as [n Hn]. by exists n, c1, w1.
Qed.

Context {HE : RedisEnv}.

(** C10: Two threads whose indexes agree modulo the number of connections use
    the same connection.  Then there is a schedule of their turns in which
    the first sends [a], the second sends [b] and takes the reply to [a] as
    its own, and the first takes the reply to [b]: with the right server at
    the other end, and without any error. *)
Theorem shared_connection_swaps (m : RedisMgr) t t' others st a b sp st1 sp' st2 :
  mgr_ok m -> t <> 0 -> t' <> 0 -> u32 t mod s_connectNum m = u32 t' mod s_connectNum m ->
  (forall k, s_vecRedisContext m !! Z.to_nat (sync_connection (s_connectNum m) t) = Some k ->
     at_server others (ctx k) (net m) st []) ->
  args_ok a -> args_ok b -> redis_effect a st = Some (sp, st1) -> redis_effect b st1 = Some (sp', st2) ->
  exists i k, GetRedisConnection t m = Ok (i, m) /\ GetRedisConnection t' m = Ok (i, m) /\
    s_vecRedisContext m !! i = Some k /\
  exists n1 (c1 : context) (w1 : @world lib) n2 (c2 : context) (w2 : @world lib) n3 (c3 : context) (w3 : @world lib),
    turns n1 (caller (ctx k) a Idle) (net m) = Ok (caller c1 a Reading, w1) /\
    turns n2 (caller c1 b Idle) w1 = Ok (caller c2 b (Holding (pick sp)), w2) /\
    turns n3 (caller c2 a Reading) w2 = Ok (caller c3 a (Holding (pick sp')), w3) /\
    at_server others c3 w3 st2 [].
Proof.
  intros Hm Ht Ht' Hmod Hs Ha Hb Ea Eb.
  destruct (GetRedisConnection_spec t m Hm) as [E1 Hr]. destruct (GetRedisConnection_spec t' m Hm) as [E2 _].
  set (i := Z.to_nat (sync_connection (s_connectNum m) t)) in *.
  assert (Ei : Z.to_nat (sync_connection (s_connectNum m) t') = i).
  { unfold i, sync_connection. destruct (Z.eqb_spec t 0), (Z.eqb_spec t' 0); [done..|]. by rewrite Hmod. }
  rewrite Ei in E2. destruct (lookup_lt_is_Some_2 (s_vecRedisContext m) i) as [k Hk].
  { destruct Hm as [_ Hl]. unfold i. lia. }
  exists i, k. split_and!; [done|done|done|]. specialize (Hs k Hk).
  destruct (turns_send _ _ _ _ [] a Hs Ha) as (n1 & c1 & w1 & T1 & S1). cbn [app] in S1.
  destruct (turns_send _ _ _ _ _ b S1 Hb) as (n2 & c2 & w2 & T2 & S2).
  destruct (turns_reply _ _ _ _ a (resp_encode b) b _ _ S2 Ha Ea) as (n3 & c3 & w3 & T3 & S3).
  rewrite <- (app_nil_r (resp_encode b)) in S3.
  destruct (turns_reply _ _ _ _ b [] a _ _ S3 Hb Eb) as (n4 & c4 & w4 & T4 & S4).
  exists n1, c1, w1, (n2 + n3)%nat, c3, w3, n4, c4, w4. split_and!; [done| |done|done].
  rewrite turns_app, T2. exact T3.
Qed.
End Sharing.

(** ** Threads 1 and 3 on two connections

    Thread 1 sets a key and is told the value, thread 3 asks for the value and
    is told [OK]. *)
Import StoreExample.

Lemma shared_connection_swaps_witness : exists (c : redisContext (@reader lib)) n1 c1 w1 n2 c2 w2 n3 c3 w3,
  @turns lib n1 (caller c [lit "SET"; lit "k"; lit "5"] Idle) (@net lib env mgr) = Ok (caller c1 [lit "SET"; lit "k"; lit "5"] Reading, w1) /\
  @turns lib n2 (caller c1 [lit "GET"; lit "k"] Idle) w1 = Ok (caller c2 [lit "GET"; lit "k"] (Holding OK_reply), w2) /\
  @turns lib n3 (caller c2 [lit "SET"; lit "k"; lit "5"] Reading) w2 =
    Ok (caller c3 [lit "SET"; lit "k"; lit "5"] (Holding (string_reply (lit "5"))), w3).
Proof.
  destruct (@shared_connection_swaps env mgr 1 3 [StoreServer.connection 3; StoreServer.connection 4] ∅
    [lit "SET"; lit "k"; lit "5"] [lit "GET"; lit "k"] (Exactly OK_reply) {[lit "k" := RStr (lit "5")]}
    (Exactly (string_reply (lit "5"))) {[lit "k" := RStr (lit "5")]})
    as (i & k & _ & _ & _ & n1 & c1 & w1 & n2 & c2 & w2 & n3 & c3 & w3 & T1 & T2 & T3 & _).
  - split; [split; by vm_compute|by vm_compute].
  - done.
  - done.
  - reflexivity.
  - intros k Hk.
    assert (E : Some (@ctx lib env k) = Some (StoreServer.connection 5)).
    { transitivity (@ctx lib env <$> @s_vecRedisContext lib env mgr !! Z.to_nat (sync_connection (s_connectNum mgr) 1)).
      - exact (eq_sym (f_equal (fmap (@ctx lib env)) Hk)).
      - vm_compute. reflexivity. }
    injection E as E. assert (Hs : at_server [StoreServer.connection 3; StoreServer.connection 4]
      (StoreServer.connection 5) (@net lib env mgr) ∅ []); [|rewrite <- E in Hs; exact Hs]. apply at_server_all.
    split_and!; [repeat constructor|reflexivity|]. apply (bool_decide_unpack _). vm_compute. reflexivity.
  - apply (bool_decide_unpack _). vm_compute. reflexivity.
  - apply (bool_decide_unpack _). vm_compute. reflexivity.
  - vm_compute. reflexivity.
  - vm_compute. reflexivity.
  - exists (ctx k), n1, c1, w1, n2, c2, w2, n3, c3, w3. split_and!; [exact T1|exact T2|exact T3].
Defined.
