(* ===== verification/RedisTest.v ===== *)
(** * The Redis unit test (Logic/UnitTest/unittest/RedisTest.h, RedisTest.cpp)

    The test is a client of [IRedisSyncCall]: its functions run on any
    implementation of the interface.  [failures] are the source lines of the
    [TEST_EQ]s that did not hold, in order.  The theorem shows that against an
    implementation that keeps the promise of [SyncStore], so in particular
    [RedisMgr] with a Redis server, the test reports nothing but, possibly, the
    order of two hash fields. *)
From Stdlib Require Import ZArith Lia Ascii.
From stdpp Require Import base numbers list list_numbers strings gmap.
From S2P Require Import Prelude Kernel Resp Hiredis RedisHelper RedisWire RedisProfile RedisMgr.
From S2P Require Import RedisMgrProps RedisSync RedisSyncProps RedisStore RedisPeer IRedisMgr.
Open Scope Z_scope.

Definition REDSI_TEST_PREFIX : bytes := lit "redistest:".
Definition buildTestKey (oldKey : bytes) : bytes := REDSI_TEST_PREFIX ++ oldKey.

(** The system under test and what has been reported. *)
Record test_run (S : Type) : Type := mkRun { sys : S; failures : list Z }.
Arguments mkRun {S} _ _.
Arguments sys {S} _.
Arguments failures {S} _.

(** [TEST_EQ(A, B)] on a source line (Interface/IUnitTest.h): [b] is the
    comparison. *)
Definition TEST_EQ {S} (line : Z) (b : bool) : M (test_run S) () :=
  if b then mret tt else mmodify (fun r => mkRun (sys r) (failures r ++ [line])).

(** Whether two values are equal, for a comparison in the source. *)
Abbreviation eq x y := (bool_decide (x = y)).

Section RedisTest.
Context {S : Type} {I : IRedisSyncCall S}.

(** A call of [s_redisMgr], on the default thread. *)
Definition on {A} (call : Z -> M S A) : M (test_run S) A := fun r =>
  match call MAIN_THREAD_IDX (sys r) with
  | Ok (a, s) => Ok (a, mkRun s (failures r))
  | Fault f => Fault f
  | OutOfFuel => OutOfFuel
  end.

(** [vals[i]]. *)
Definition vec_get (vals : list bytes) (i : Z) : M (test_run S) bytes :=
  mlift (of_option OutOfBounds (if i <? 0 then None else vals !! Z.to_nat i)).

Definition size_of {A} (l : list A) : Z := Z.of_nat (length l).

(** [tools::Sleep], as the system sees it. *)
Variable Sleep : Z -> M S unit.

Definition StringUnitTest : M (test_run S) () :=
  let key1 := buildTestKey (lit "key1") in
  let key2 := buildTestKey (lit "key2") in
  let val1 := buildTestKey (lit "val1") in
  let val2 := buildTestKey (lit "val2") in
  '(ret, ex) ← on (IExists key1);
  TEST_EQ 35 (eq ret REDIS_RESULT_OK);;
  (if ex : bool then
     '(ret, del) ← on (IDel key1);
     TEST_EQ 40 (eq ret REDIS_RESULT_OK);;
     TEST_EQ 41 (eq del true)
   else
     on (IDel key1);;
     mret tt);;
  ret ← on (ISet key1 val1);
  TEST_EQ 48 (eq ret REDIS_RESULT_OK);;
  '(ret, ex) ← on (IExists key1);
  TEST_EQ 50 (eq ret REDIS_RESULT_OK);;
  TEST_EQ 51 (eq ex true);;
  '(ret, tmp) ← on (IGet key1 []);
  TEST_EQ 54 (eq ret REDIS_RESULT_OK);;
  TEST_EQ 55 (eq val1 tmp);;
  '(ret, del) ← on (IDel key1);
  TEST_EQ 58 (eq ret REDIS_RESULT_OK);;
  TEST_EQ 59 (eq del true);;
  '(ret, tmp) ← on (IGet key1 tmp);
  TEST_EQ 61 (eq ret REDIS_RESULT_NODATA);;
  '(ret, success) ← on (ISetStringWithOption key1 val1 SetCmdOptionType_NX 0);
  TEST_EQ 63 (eq ret REDIS_RESULT_OK);;
  TEST_EQ 64 (eq success true);;
  '(ret, success) ← on (ISetStringWithOption key1 val1 SetCmdOptionType_NX 0);
  TEST_EQ 66 (eq ret REDIS_RESULT_OK);;
  TEST_EQ 67 (eq success false);;
  '(ret, success) ← on (ISetStringWithOption key1 val2 SetCmdOptionType_XX 0);
  TEST_EQ 69 (eq ret REDIS_RESULT_OK);;
  TEST_EQ 70 (eq success true);;
  '(ret, tmp) ← on (IGet key1 tmp);
  TEST_EQ 72 (eq ret REDIS_RESULT_OK);;
  TEST_EQ 73 (eq val2 tmp);;
  '(ret, success) ← on (ISetStringWithOption key2 val2 SetCmdOptionType_NX (3 * 1000));
  TEST_EQ 75 (eq ret REDIS_RESULT_OK);;
  TEST_EQ 76 (eq success true);;
  '(ret, tmp) ← on (IGet key2 tmp);
  TEST_EQ 78 (eq ret REDIS_RESULT_OK);;
  TEST_EQ 79 (eq val2 tmp);;
  on (fun _ => Sleep (4 * 1000));;
  '(ret, tmp) ← on (IGet key2 tmp);
  TEST_EQ 82 (eq ret REDIS_RESULT_NODATA);;
  on (ISet key1 val1);;
  '(ret, outLen) ← on (IAppend key1 val2 0);
  TEST_EQ 86 (eq ret REDIS_RESULT_OK);;
  TEST_EQ 87 (eq (u64 outLen) (size_of val1 + size_of val2));;
  '(ret, tmp) ← on (IGet key1 tmp);
  let tmp2 := val1 ++ val2 in
  TEST_EQ 91 (eq tmp tmp2);;
  '(ret, crTmp) ← on (IIncr key1 0);
  '(_, success) ← on (IDel key1);
  '(ret, crTmp) ← on (IIncr key1 crTmp);
  TEST_EQ 96 (eq ret REDIS_RESULT_OK);;
  TEST_EQ 97 (eq 1 crTmp);;
  '(ret, crTmp) ← on (IIncr key1 crTmp);
  TEST_EQ 99 (eq ret REDIS_RESULT_OK);;
  TEST_EQ 100 (eq 2 crTmp);;
  '(ret, crTmp) ← on (IIncrby key1 10 crTmp);
  TEST_EQ 102 (eq ret REDIS_RESULT_OK);;
  TEST_EQ 103 (eq 12 crTmp);;
  '(ret, crTmp) ← on (IDecrby key1 10 crTmp);
  TEST_EQ 105 (eq ret REDIS_RESULT_OK);;
  TEST_EQ 106 (eq 2 crTmp);;
  '(ret, crTmp) ← on (IDecr key1 crTmp);
  TEST_EQ 108 (eq ret REDIS_RESULT_OK);;
  TEST_EQ 109 (eq 1 crTmp);;
  '(ret, crTmp) ← on (IDecr key1 crTmp);
  TEST_EQ 111 (eq ret REDIS_RESULT_OK);;
  TEST_EQ 112 (eq 0 crTmp);;
  '(ret, crTmp) ← on (IDecr key1 crTmp);
  TEST_EQ 114 (eq ret REDIS_RESULT_OK);;
  TEST_EQ 115 (eq (-1) crTmp);;
  '(_, del) ← on (IDel key1);
  TEST_EQ 117 (eq del true).

Definition HashUnitTest : M (test_run S) () :=
  let key := buildTestKey (lit "hashtest") in
  let filed1 := buildTestKey (lit "filed1") in
  let filed2 := buildTestKey (lit "filed2") in
  let val1 := buildTestKey (lit "val1") in
  let val2 := buildTestKey (lit "val2") in
  '(ret, del) ← on (IDel key);
  ret ← on (IHSet key filed1 val1);
  TEST_EQ 131 (eq ret REDIS_RESULT_OK);;
  '(ret, tmp) ← on (IHGet key filed1 []);
  TEST_EQ 133 (eq ret REDIS_RESULT_OK);;
  TEST_EQ 134 (eq tmp val1);;
  '(ret, tmp) ← on (IHGet key filed2 tmp);
  TEST_EQ 136 (eq ret REDIS_RESULT_NODATA);;
  ret ← on (IHSetNx key filed1 val2);
  TEST_EQ 138 (eq (negb (ret =? REDIS_RESULT_OK)) true);;
  '(ret, tmp) ← on (IHGet key filed1 tmp);
  TEST_EQ 140 (eq ret REDIS_RESULT_OK);;
  TEST_EQ 141 (eq tmp val1);;
  ret ← on (IHSetNx key filed2 val2);
  TEST_EQ 143 (eq ret REDIS_RESULT_OK);;
  '(ret, tmp) ← on (IHGet key filed2 tmp);
  TEST_EQ 145 (eq ret REDIS_RESULT_OK);;
  TEST_EQ 146 (eq tmp val2);;
  '(ret, del) ← on (IDel key);
  TEST_EQ 148 (eq ret REDIS_RESULT_OK);;
  TEST_EQ 149 (eq del true);;
  ret ← on (IHMSet key (emplace_all [(filed1, val1); (filed2, val2)] []));
  TEST_EQ 151 (eq ret REDIS_RESULT_OK);;
  '(ret, tmp) ← on (IHGet key filed1 tmp);
  TEST_EQ 153 (eq ret REDIS_RESULT_OK);;
  TEST_EQ 154 (eq tmp val1);;
  '(ret, tmp) ← on (IHGet key filed2 tmp);
  TEST_EQ 156 (eq ret REDIS_RESULT_OK);;
  TEST_EQ 157 (eq tmp val2);;
  '(ret, vals) ← on (IHMGet key [filed1; filed2]);
  TEST_EQ 160 (eq ret REDIS_RESULT_OK);;
  v0 ← vec_get vals 0;
  TEST_EQ 161 (eq v0 val1);;
  v1 ← vec_get vals 1;
  TEST_EQ 162 (eq v1 val2);;
  '(ret, del) ← on (IDel key);
  TEST_EQ 164 (eq ret REDIS_RESULT_OK);;
  TEST_EQ 165 (eq del true);;
  ret ← on (IHMSet key (emplace_all [(filed1, val1)] []));
  TEST_EQ 167 (eq ret REDIS_RESULT_OK);;
  '(ret, vals) ← on (IHMGet key [filed1; filed2]);
  TEST_EQ 169 (eq ret REDIS_RESULT_OK);;
  TEST_EQ 170 (eq (size_of vals) 2);;
  v1 ← vec_get vals 1;
  TEST_EQ 171 (eq (size_of v1) 0);;
  '(ret, mapFiledVal) ← on (IHGetAll key);
  TEST_EQ 174 (eq ret REDIS_RESULT_OK);;
  TEST_EQ 175 (eq (size_of mapFiledVal) 1);;
  '(ret, filedLen) ← on (IHLen key 0);
  TEST_EQ 178 (eq ret REDIS_RESULT_OK);;
  TEST_EQ 179 (eq filedLen 1);;
  '(_, del) ← on (IDel key);
  '(ret, filedLen) ← on (IHLen key filedLen);
  TEST_EQ 182 (eq ret REDIS_RESULT_OK);;
  TEST_EQ 183 (eq filedLen 0);;
  ret ← on (IHMSet key (emplace_all [(filed1, val1)] []));
  '(ret, filedLen) ← on (IHLen key filedLen);
  TEST_EQ 186 (eq ret REDIS_RESULT_OK);;
  TEST_EQ 187 (eq filedLen 1);;
  '(ret, bExists) ← on (IHExists key filed2 false);
  TEST_EQ 190 (eq ret REDIS_RESULT_OK);;
  TEST_EQ 191 (eq bExists false);;
  '(ret, bExists) ← on (IHExists key filed1 bExists);
  TEST_EQ 193 (eq ret REDIS_RESULT_OK);;
  TEST_EQ 194 (eq bExists true);;
  '(ret, iFiledVal) ← on (IHIncrby key filed2 10 0);
  TEST_EQ 197 (eq ret REDIS_RESULT_OK);;
  TEST_EQ 198 (eq iFiledVal 10);;
  '(ret, iFiledVal) ← on (IHIncrby key filed2 10 iFiledVal);
  TEST_EQ 200 (eq ret REDIS_RESULT_OK);;
  TEST_EQ 201 (eq iFiledVal 20);;
  '(ret, iFiledVal) ← on (IHIncrby key filed2 (-10) iFiledVal);
  TEST_EQ 203 (eq ret REDIS_RESULT_OK);;
  TEST_EQ 204 (eq iFiledVal 10);;
  '(ret, vals) ← on (IHKeys key);
  TEST_EQ 206 (eq ret REDIS_RESULT_OK);;
  TEST_EQ 207 (eq (size_of vals) 2);;
  v0 ← vec_get vals 0;
  TEST_EQ 208 (eq v0 filed1);;
  v1 ← vec_get vals 1;
  TEST_EQ 209 (eq v1 filed2).

(** The loops of [ListUnitTest], from [i] on with [n] iterations left. *)
Fixpoint push_numbers (n : nat) (i : Z) (vecContent : list bytes) : list bytes :=
  match n with
  | O => vecContent
  | Datatypes.S n' => push_numbers n' (i + 1) (vecContent ++ [fmt_d i])
  end.

Fixpoint compare_loop (n : nat) (i : Z) (vecContent vecRet : list bytes) : M (test_run S) () :=
  match n with
  | O => mret tt
  | Datatypes.S n' =>
      a ← vec_get vecContent i;
      b ← vec_get vecRet i;
      TEST_EQ 233 (eq a b);;
      compare_loop n' (i + 1) vecContent vecRet
  end.

Definition ListUnitTest : M (test_run S) () :=
  let key := buildTestKey (lit "listkey") in
  let iNum := 10 in
  let vecContent := push_numbers (Z.to_nat iNum) 0 [] in
  on (IDel key);;
  '(ret, iLen) ← on (IPushListTailBatch key vecContent 0);
  TEST_EQ 225 (eq ret REDIS_RESULT_OK);;
  TEST_EQ 226 (eq iLen iNum);;
  '(ret, vecRet) ← on (IGetListByRange key 0 (s32 (u32 (iNum - 1))));
  TEST_EQ 230 (eq (size_of vecContent) (size_of vecRet));;
  compare_loop (Z.to_nat iNum) 0 vecContent vecRet;;
  ret ← on (ITrimList key 1 (-1));
  TEST_EQ 237 (eq ret REDIS_RESULT_OK);;
  '(ret, vecRet) ← on (IGetListByRange key 0 (s32 (u32 (iNum - 1))));
  TEST_EQ 240 (eq ret REDIS_RESULT_OK);;
  TEST_EQ 241 (eq (size_of vecRet) (u64 (size_of vecContent - 1))).

Definition SetUnitTest : M (test_run S) () :=
  let key := buildTestKey (lit "settest") in
  let member1 := buildTestKey (lit "member1") in
  let member2 := buildTestKey (lit "member2") in
  on (IDel key);;
  ret ← on (ISAdd key member1);
  TEST_EQ 253 (eq ret REDIS_RESULT_OK);;
  ret ← on (ISAdd key member1);
  TEST_EQ 255 (eq (negb (ret =? REDIS_RESULT_OK)) true);;
  ret ← on (ISAdd key member2);
  TEST_EQ 257 (eq ret REDIS_RESULT_OK);;
  '(ret, members) ← on (ISMembers key);
  TEST_EQ 260 (eq ret REDIS_RESULT_OK);;
  TEST_EQ 261 (eq (size_of members) 2);;
  ret ← on (ISRem key member1);
  TEST_EQ 263 (eq ret REDIS_RESULT_OK);;
  ret ← on (ISRem key member1);
  TEST_EQ 265 (eq ret REDIS_RESULT_NODATA);;
  ret ← on (ISRem key member2);
  TEST_EQ 267 (eq ret REDIS_RESULT_OK);;
  '(ret, members) ← on (ISMembers key);
  TEST_EQ 270 (eq ret REDIS_RESULT_OK);;
  TEST_EQ 271 (eq (size_of members) 0).

Definition TestSyncCall : M (test_run S) () :=
  StringUnitTest;; HashUnitTest;; ListUnitTest;; SetUnitTest.

(** [FIND_MODULE] only looks the manager up. *)
Definition StartTest : M (test_run S) () := TestSyncCall.
End RedisTest.

(** ** Running a test against the promise *)

Section Run.
Context {S : Type} {I : nat -> IRedisSyncCall S} {HS : SyncStore I MAIN_THREAD_IDX}.

(** With enough fuel the program returns, and its result satisfies [Q]. *)
Definition wp {A} (P : nat -> M (test_run S) A) (r : test_run S) (Q : A -> test_run S -> Prop) : Prop :=
  exists N a r', (forall fuel, (N <= fuel)%nat -> P fuel r = Ok (a, r')) /\ Q a r'.

Lemma wp_ret {A} (a : A) r (Q : A -> test_run S -> Prop) : Q a r -> wp (fun _ => mret a) r Q.
Proof. intros H. by exists 0%nat, a, r. Qed.

Lemma wp_bind {A B} (P : nat -> M (test_run S) A) (K : nat -> A -> M (test_run S) B) r Q :
  wp P r (fun a r' => wp (fun fuel => K fuel a) r' Q) -> wp (fun fuel => P fuel ≫= K fuel) r Q.
Proof.
  intros (N & a & r1 & E1 & N2 & b & r2 & E2 & HQ). exists (Nat.max N N2), b, r2. split; [|done].
  intros fuel Hf. rewrite (M_bind_Ok _ _ _ _ _ (E1 fuel ltac:(lia))). apply E2. lia.
Qed.

Lemma wp_mono {A} P r (Q Q' : A -> test_run S -> Prop) : wp P r Q -> (forall a r', Q a r' -> Q' a r') -> wp P r Q'.
Proof. intros (N & a & r' & E & HQ) H. exists N, a, r'. split; [done|by apply H]. Qed.

Lemma wp_TEST_EQ line (b : bool) r (Q : () -> test_run S -> Prop) :
  (if b then Q tt r else Q tt (mkRun (sys r) (failures r ++ [line]))) -> wp (fun _ => TEST_EQ line b) r Q.
Proof. intros H. unfold TEST_EQ. destruct b; [by apply wp_ret|]. by exists 0%nat, tt, (mkRun (sys r) (failures r ++ [line])). Qed.

Lemma wp_TEST_EQ_true line (b : bool) r (Q : () -> test_run S -> Prop) :
  b = true -> Q tt r -> wp (fun _ => TEST_EQ line b) r Q.
Proof. intros -> H. by apply wp_TEST_EQ. Qed.

Lemma wp_TEST_EQ_false line (b : bool) r (Q : () -> test_run S -> Prop) :
  b = false -> Q tt (mkRun (sys r) (failures r ++ [line])) -> wp (fun _ => TEST_EQ line b) r Q.
Proof. intros -> H. by apply wp_TEST_EQ. Qed.

Lemma wp_vec_get vals i x r (Q : bytes -> test_run S -> Prop) :
  (if i <? 0 then None else vals !! Z.to_nat i) = Some x -> Q x r -> wp (fun _ => vec_get vals i) r Q.
Proof. intros H HQ. exists 0%nat, x, r. unfold vec_get. by rewrite H. Qed.

(** What is known of the server: the value of a key and, in [F], of another
    one. *)
Definition frame : Type := option (bytes * option rvalue).

Definition in_frame (st : store) (F : frame) : Prop :=
  match F with Some (k, v) => st !! k = v | None => True end.

Definition apart (F : frame) (k : bytes) : bool :=
  match F with Some (k', _) => bool_decide (k' <> k) | None => true end.

Definition holds (s : S) (F : frame) (k : bytes) (v : option rvalue) : Prop :=
  exists st, linked s st /\ st !! k = v /\ in_frame st F.

Lemma holds_swap s k v k' v' : holds s (Some (k', v')) k v -> holds s (Some (k, v)) k' v'.
Proof. intros (st & Hl & Hv & Hf). by exists st. Qed.

(** The value of the key after a command. *)
Definition after_command (cmd : list bytes) (v : option rvalue) : option rvalue :=
  match key_effect cmd v with Some (_, v') => v' | None => v end.

Definition key_of (cmd : list bytes) : option bytes := cmd !! 1%nat.

(** A call on the key [k] whose value is [v]. *)
Lemma call_key c s F k v sp : holds s F k v -> key_of (sync_args c) = Some k -> apart F k = true ->
  args_ok (sync_args c) -> fst <$> key_effect (sync_args c) v = Some sp ->
  exists r s', matches sp r /\ holds s' F k (after_command (sync_args c) v) /\
    exists N, forall fuel, (N <= fuel)%nat ->
      call_sync (I fuel) c MAIN_THREAD_IDX s = (res ← sync_reply c r; Ok (res, s')).
Proof.
  intros (st & Hl & Hv & Hf) Hk Ha Hok He. unfold after_command.
  destruct (key_effect (sync_args c) v) as [[sp' v']|] eqn:E; [|done]. cbn in He. injection He as ->.
  assert (Ee : redis_effect (sync_args c) st = Some (sp, partial_alter (fun _ => v') k st)).
  { destruct (sync_args c) as [|name [|k' args]]; [done..|]. cbn in Hk. injection Hk as ->.
    unfold redis_effect. rewrite Hv, E. done. }
  destruct (call_law c s st sp _ Hl Hok Ee) as (r & s' & Hr & Hl' & HN). exists r, s'. split_and!; [done| |done].
  exists (partial_alter (fun _ => v') k st). split_and!; [done|apply lookup_partial_alter_eq|].
  destruct F as [[k' v1]|]; [|done]. apply bool_decide_eq_true in Ha.
  etransitivity; [by apply lookup_partial_alter_ne|exact Hf].
Qed.

(** What a call needs to be described. *)
Record ready (c : sync_call) (s : S) (F : frame) (k : bytes) (v : option rvalue) (sp : reply_spec) : Prop := {
  rdy_holds : holds s F k v;
  rdy_key : key_of (sync_args c) = Some k;
  rdy_apart : apart F k = true;
  rdy_args : args_ok (sync_args c);
  rdy_effect : fst <$> key_effect (sync_args c) v = Some sp
}.

Lemma wp_ret0 c (f : nat -> Z -> M S Z) r F k v sp Q :
  (forall fuel, call_sync (I fuel) c MAIN_THREAD_IDX = ret0 (f fuel MAIN_THREAD_IDX)) ->
  ready c (sys r) F k v sp ->
  (forall rep s', matches sp rep -> holds s' F k (after_command (sync_args c) v) ->
     exists z, sync_reply c rep = Ok (z, ONone) /\ Q z (mkRun s' (failures r))) ->
  wp (fun fuel => on (f fuel)) r Q.
Proof.
  intros Hc [Hh Hk Hv Hok He] H. destruct (call_key c (sys r) F k v sp Hh Hk Hv Hok He) as (rep & s' & Hm & Hh' & N & E).
  destruct (H rep s' Hm Hh') as (z & Er & HQ). exists N, z, (mkRun s' (failures r)). split; [|done].
  intros fuel Hf. specialize (E fuel Hf). rewrite Hc, Er in E. unfold on. unfold ret0, mbind, M_bind in E.
  destruct (f fuel MAIN_THREAD_IDX (sys r)) as [[z' s1]| |]; [|done..]. by injection E as -> ->.
Qed.

Lemma wp_ret1 {A} c (o : A -> sync_out) (f : nat -> Z -> M S (Z * A)) r F k v sp Q :
  (forall fuel, call_sync (I fuel) c MAIN_THREAD_IDX = ret1 o (f fuel MAIN_THREAD_IDX)) ->
  (forall x y, o x = o y -> x = y) -> ready c (sys r) F k v sp ->
  (forall rep s', matches sp rep -> holds s' F k (after_command (sync_args c) v) ->
     exists z x, sync_reply c rep = Ok (z, o x) /\ Q (z, x) (mkRun s' (failures r))) ->
  wp (fun fuel => on (f fuel)) r Q.
Proof.
  intros Hc Ho [Hh Hk Hv Hok He] H. destruct (call_key c (sys r) F k v sp Hh Hk Hv Hok He) as (rep & s' & Hm & Hh' & N & E).
  destruct (H rep s' Hm Hh') as (z & x & Er & HQ). exists N, (z, x), (mkRun s' (failures r)). split; [|done].
  intros fuel Hf. specialize (E fuel Hf). rewrite Hc, Er in E. unfold on. unfold ret1, mbind, M_bind in E.
  destruct (f fuel MAIN_THREAD_IDX (sys r)) as [[[z' x'] s1]| |]; [|done..].
  injection E as -> Ex ->. by rewrite (Ho _ _ Ex).
Qed.

(** Time passes for the keys that are known. *)
Definition elapsed (ms : Z) (v : option rvalue) : option rvalue := v ← v; elapse_value ms v.

Lemma wp_pause ms r F k v Q : holds (sys r) F k v ->
  (forall s', holds s' (prod_map id (elapsed ms) <$> F) k (elapsed ms v) -> Q tt (mkRun s' (failures r))) ->
  wp (fun _ => on (fun _ => pause ms)) r Q.
Proof.
  intros (st & Hl & Hv & Hf) H. destruct (pause_law ms (sys r) st Hl) as (s' & E & Hl').
  exists 0%nat, tt, (mkRun s' (failures r)). split; [intros fuel _; unfold on; by rewrite E|].
  apply H. exists (elapse ms st). split_and!; [done|by rewrite lookup_elapse, Hv|].
  destruct F as [[k' v']|]; [|done]. cbn in *. by rewrite lookup_elapse, Hf.
Qed.
End Run.

(** *** One step of a test on closed data *)

(** [lhs = rhs] with existential variables in [rhs], by evaluating [lhs]. *)
Ltac evaluate := match goal with
  | |- ?l = _ => let x := eval vm_compute in l in refine (_ : l = x); vm_compute; reflexivity
  end.

Ltac ready_tac := constructor;
  [ eassumption | reflexivity | vm_compute; reflexivity | apply (bool_decide_unpack _); vm_compute; reflexivity | evaluate ].

(** A call with one possible reply. *)
Tactic Notation "call0" uconstr(c) := eapply (wp_ret0 c); [intros ?; reflexivity|ready_tac|];
  let Hm := fresh in intros ? ? Hm ?; inversion Hm; subst; clear Hm; eexists; split; [evaluate|cbn beta iota; cbn [failures sys]].
Tactic Notation "call1" uconstr(c) := eapply (wp_ret1 c); [intros ?; reflexivity|intros ? ? [=]; assumption|ready_tac|];
  let Hm := fresh in intros ? ? Hm ?; inversion Hm; subst; clear Hm; do 2 eexists; split; [evaluate|cbn beta iota; cbn [failures sys]].

(** A call that lists strings in some order. *)
Lemma strings_read l : map (fun e => snd (GetString e [])) (map string_reply l) = l.
Proof. induction l as [|a l IH]; [done|]. cbn [map]. rewrite IH. by destruct a. Qed.

Lemma read_strings l : read_list [] (strings l) = (REDIS_OK, OList l).
Proof. unfold read_list, ParseStringArray, strings. cbn. by rewrite strings_read. Qed.

Tactic Notation "call_order" uconstr(c) :=
  eapply (wp_ret1 c); [intros ?; reflexivity|intros ? ? [=]; assumption|ready_tac|];
  let Hm := fresh in intros ? ? Hm ?; inversion Hm; subst; clear Hm;
  do 2 eexists; split; [cbn [sync_reply]; rewrite read_strings; reflexivity|cbn beta iota; cbn [failures sys]].

Ltac size_step := match goal with H : _ ≡ₚ ?l |- context [size_of ?l] =>
  apply wp_TEST_EQ_true;
    [apply bool_decide_eq_true_2; unfold size_of; rewrite <- H; reflexivity|] end.

(** Which call comes next. *)
Ltac next_call := first
  [ call1 (CDel _) | call0 (CHSet _ _ _) | call1 (CHGet _ _ _) | call0 (CHSetNx _ _ _) | call0 (CHMSet _ _)
  | call1 (CHMGet _ _) | call1 (CHGetAll _) | call1 (CHLen _ _) | call1 (CHExists _ _ _)
  | call1 (CHIncrby _ _ _ _) | call1 (CPushListTailBatch _ _ _)
  | call0 (CSet _ _) | call1 (CGet _ _) | call1 (CSetStringWithOption _ _ _ _) | call1 (CExists _)
  | call1 (CAppend _ _ _) | call1 (CIncr _ _) | call1 (CIncrby _ _ _) | call1 (CDecr _ _)
  | call1 (CDecrby _ _ _)
  | call1 (CGetListByRange _ _ _) | call0 (CTrimList _ _ _) | call0 (CSAdd _ _) 
  | call0 (CSRem _ _) ].

Ltac step := first
  [ apply wp_bind
  | apply wp_ret
  | apply wp_TEST_EQ_true; [vm_compute; reflexivity|]
  | apply wp_TEST_EQ_false; [vm_compute; reflexivity|]
  | eapply wp_vec_get; [evaluate|]
  | next_call ].

(** The other known key comes into view. *)
Ltac swap_key := match goal with |- wp _ (mkRun ?s _) _ =>
  match goal with H : holds s (Some _) _ _ |- _ => apply holds_swap in H end end.

Section Theorems.
Context {S : Type} {I : nat -> IRedisSyncCall S} {HS : SyncStore I MAIN_THREAD_IDX}.

(** The implementation still has its server. *)
Definition is_linked (s : S) : Prop := exists st, linked s st.

Lemma linked_holds s k : is_linked s -> exists v, holds s None k v.
Proof. intros [st H]. by exists (st !! k), st. Qed.

Lemma holds_linked s F k v : holds s F k v -> is_linked s.
Proof. intros (st & H & _). by exists st. Qed.

Ltac linked_tac := cbn [failures sys]; split; [reflexivity|eapply holds_linked; eassumption].

(** DEL and EXISTS, whatever the key holds. *)
Lemma wp_DEL k r F v (Q : Z * bool -> test_run S -> Prop) : holds (sys r) F k v -> apart F k = true ->
  args_ok (sync_args (CDel k)) ->
  (forall s', holds s' F k None -> Q (0, bool_decide (is_Some v)) (mkRun s' (failures r))) ->
  wp (fun fuel => on (@IDel S (I fuel) k)) r Q.
Proof.
  intros Hh Ha Hok H. eapply (wp_ret1 (CDel k)); [intros ?; reflexivity|intros ? ? [=]; assumption| |].
  - constructor; [exact Hh|reflexivity|exact Ha|exact Hok|]. reflexivity.
  - intros rep s' Hm Hh'. inversion Hm; subst. exists 0. eexists. split; [|by apply H]. cbn. by case_bool_decide.
Qed.

Lemma wp_EXISTS k r F v (Q : Z * bool -> test_run S -> Prop) : holds (sys r) F k v -> apart F k = true ->
  args_ok (sync_args (CExists k)) ->
  (forall s', holds s' F k v -> Q (0, bool_decide (is_Some v)) (mkRun s' (failures r))) ->
  wp (fun fuel => on (@IExists S (I fuel) k)) r Q.
Proof.
  intros Hh Ha Hok H. eapply (wp_ret1 (CExists k)); [intros ?; reflexivity|intros ? ? [=]; assumption| |].
  - constructor; [exact Hh|reflexivity|exact Ha|exact Hok|]. reflexivity.
  - intros rep s' Hm Hh'. inversion Hm; subst. exists 0. eexists. split; [|by apply H]. cbn. by case_bool_decide.
Qed.

Lemma SetUnitTest_wp r v : holds (sys r) None (buildTestKey (lit "settest")) v ->
  wp (fun fuel => @SetUnitTest S (I fuel)) r (fun _ r' => failures r' = failures r /\ is_linked (sys r')).
Proof.
  intros Hh. unfold SetUnitTest. cbv zeta. apply wp_bind.
  eapply wp_DEL; [exact Hh|reflexivity|apply (bool_decide_unpack _); vm_compute; reflexivity|].
  intros s' Hh'. clear Hh. repeat step. call_order (CSMembers _). repeat step. size_step. repeat step.
  call_order (CSMembers _). repeat step. size_step. linked_tac.
Qed.

Lemma ListUnitTest_wp r v : holds (sys r) None (buildTestKey (lit "listkey")) v ->
  wp (fun fuel => @ListUnitTest S (I fuel)) r (fun _ r' => failures r' = failures r /\ is_linked (sys r')).
Proof.
  intros Hh. unfold ListUnitTest. cbv zeta. apply wp_bind.
  eapply wp_DEL; [exact Hh|reflexivity|apply (bool_decide_unpack _); vm_compute; reflexivity|].
  intros s' Hh'. clear Hh. repeat step. linked_tac.
Qed.

(** The order in which the server lists two fields is not documented. *)
Lemma HashUnitTest_wp r v : holds (sys r) None (buildTestKey (lit "hashtest")) v ->
  wp (fun fuel => @HashUnitTest S (I fuel)) r
    (fun _ r' => (exists l, failures r' = failures r ++ l /\ (l = [] \/ l = [208; 209])) /\ is_linked (sys r')).
Proof.
  intros Hh. unfold HashUnitTest. cbv zeta. apply wp_bind.
  eapply wp_DEL; [exact Hh|reflexivity|apply (bool_decide_unpack _); vm_compute; reflexivity|].
  intros s' Hh'. clear Hh. repeat step. call_order (CHKeys _). repeat step. size_step.
  match goal with H : _ ≡ₚ _ |- _ => apply Permutation_length_2_inv in H as [-> | ->] end; repeat step;
    cbn [failures sys]; (split; [|eapply holds_linked; eassumption]).
  - exists [208; 209]. split; [by rewrite <- app_assoc|by right].
  - exists []. split; [by rewrite app_nil_r|by left].
Qed.

(** [key2] must not be in use, since the test does not delete it first; it
    expires in the pause. *)
Lemma StringUnitTest_wp r v :
  holds (sys r) (Some (buildTestKey (lit "key2"), None)) (buildTestKey (lit "key1")) v ->
  wp (fun fuel => @StringUnitTest S (I fuel) pause) r (fun _ r' => failures r' = failures r /\ is_linked (sys r')).
Proof.
  intros Hh. unfold StringUnitTest. cbv zeta. apply wp_bind.
  eapply wp_EXISTS; [exact Hh|reflexivity|apply (bool_decide_unpack _); vm_compute; reflexivity|].
  intros s1 H1. clear Hh. repeat step.
  match goal with |- wp _ _ ?Q =>
    assert (forall s2, holds s2 (Some (buildTestKey (lit "key2"), None)) (buildTestKey (lit "key1")) None ->
      Q tt (mkRun s2 (failures r))) as HQ
  end.
  { clear H1 s1. intros s2 H2. repeat step. swap_key. repeat step.
    eapply wp_pause; [eassumption|]. intros s3 H3'. cbn [fmap option_fmap option_map prod_map id fst snd] in H3'.
    cbn [sys failures]. repeat step. swap_key. repeat step. linked_tac. }
  destruct v as [x|]; [rewrite bool_decide_eq_true_2 by eauto|rewrite bool_decide_eq_false_2 by (by intros [? [=]])];
    apply wp_bind;
    (eapply wp_DEL; [exact H1|reflexivity|apply (bool_decide_unpack _); vm_compute; reflexivity|]);
    intros s2 H2; cbn beta iota; repeat first [exact (HQ s2 H2) | step].
Qed.

(** C8: The unit test of the Redis manager against its contract.  On any
    implementation of the interface that has a server behind it, whatever else
    the server stores as long as the key [redistest:key2] is not in use, the
    whole test (strings with their expiry, counters, hashes, lists and sets)
    runs to its end, with enough fuel and without a fault (no index is out of
    range), and reports no failed comparison, or exactly those of lines 208
    and 209, which expect an order of two hash fields that Redis does not
    promise. *)
Theorem RedisTest_passes s st : linked s st -> st !! buildTestKey (lit "key2") = None ->
  exists N r', (forall fuel, (N <= fuel)%nat -> @StartTest S (I fuel) pause (mkRun s []) = Ok (tt, r')) /\
    (failures r' = [] \/ failures r' = [208; 209]) /\ is_linked (sys r').
Proof.
  intros Hl Hk2. enough (wp (fun fuel => @StartTest S (I fuel) pause) (mkRun s [])
    (fun _ r' => (failures r' = [] \/ failures r' = [208; 209]) /\ is_linked (sys r'))) as H.
  { destruct H as (N & [] & r' & H & HQ). by exists N, r'. }
  unfold StartTest, TestSyncCall. apply wp_bind. eapply wp_mono.
  { apply (StringUnitTest_wp (mkRun s []) (st !! buildTestKey (lit "key1"))). by exists st. }
  intros _ r0 [E0 Hl0]. destruct (linked_holds _ (buildTestKey (lit "hashtest")) Hl0) as [v1 H1].
  apply wp_bind. eapply wp_mono; [exact (HashUnitTest_wp r0 v1 H1)|].
  intros _ r1 [(l & E1 & Hf) Hl1]. destruct (linked_holds _ (buildTestKey (lit "listkey")) Hl1) as [v2 H2].
  apply wp_bind. eapply wp_mono; [exact (ListUnitTest_wp r1 v2 H2)|].
  intros _ r2 [E2 Hl2]. destruct (linked_holds _ (buildTestKey (lit "settest")) Hl2) as [v3 H3].
  eapply wp_mono; [exact (SetUnitTest_wp r2 v3 H3)|]. intros _ r3 [E3 Hl3]. split; [|exact Hl3].
  rewrite E3, E2, E1, E0. exact Hf.
Qed.
End Theorems.

Import StoreExample.

(** The test on [RedisMgr]. *)
Lemma RedisTest_passes_witness : exists N r', (forall fuel, (N <= fuel)%nat ->
    @StartTest _ (RedisMgr_sync fuel) (@pause _ _ _ (RedisMgr_store 0)) (mkRun mgr []) = Ok (tt, r')) /\
  (failures r' = [] \/ failures r' = [208; 209]).
Proof.
  destruct (@RedisTest_passes _ (fun fuel => RedisMgr_sync fuel) (RedisMgr_store 0) mgr ∅ mgr_linked_empty)
    as (N & r' & E & Hf & _); [reflexivity|]. exists N, r'. split; [exact E|exact Hf].
Defined.
