(* ===== verification/UnitTest.v ===== *)
(** * The unit test module (Logic/UnitTest/UnitTest.h, UnitTest.cpp)

    Test instances are created by static registration objects, kept in a
    vector or in a map by name; the module runs those the configuration names.
    An instance is a heap object: [objects] holds what is allocated.  What a
    test does is a parameter, a computation on the module's state and the rest
    of the system. *)
From Stdlib Require Import ZArith Lia Ascii.
From stdpp Require Import base numbers list list_numbers strings gmap fin_map_dom.
From S2P Require Import Prelude Kernel.
Open Scope Z_scope.

Section UnitTest.
Context {BB : Build} {X : Xml} {W T : Type}.

(** The static members of [UnitTest]; [next] is the next free address. *)
Record UnitTest : Type := mkUnitTest {
  s_testList : list nat;
  s_testMap : gmap bytes nat;
  s_testModuleNames : list bytes;
  s_nextId : Z;
  s_testIds : gset Z;
  objects : gmap nat T;
  next : nat;
  rest : W
}.

Definition set_list l m := mkUnitTest l (s_testMap m) (s_testModuleNames m) (s_nextId m) (s_testIds m)
  (objects m) (next m) (rest m).
Definition set_map l m := mkUnitTest (s_testList m) l (s_testModuleNames m) (s_nextId m) (s_testIds m)
  (objects m) (next m) (rest m).
Definition set_names l m := mkUnitTest (s_testList m) (s_testMap m) l (s_nextId m) (s_testIds m)
  (objects m) (next m) (rest m).
Definition set_ids n l m := mkUnitTest (s_testList m) (s_testMap m) (s_testModuleNames m) n l
  (objects m) (next m) (rest m).
Definition set_objects l n m := mkUnitTest (s_testList m) (s_testMap m) (s_testModuleNames m)
  (s_nextId m) (s_testIds m) l n (rest m).

(** Before any registration. *)
Definition UnitTest_start (w : W) : UnitTest := mkUnitTest [] ∅ [] 0 ∅ ∅ 0 w.

(** The virtual [StartTest] of an instance of a class. *)
Variable StartTest : T -> M UnitTest unit.

(** ** Registration *)

(** [NEW T()]. *)
Definition new_test (t : T) : M UnitTest nat :=
  m ← mget;
  mput (set_objects (<[next m := t]> (objects m)) (S (next m)) m);;
  mret (next m).

(** [UnitTestRegister()]. *)
Definition UnitTestRegister_list (t : T) : M UnitTest () :=
  p ← new_test t;
  mmodify (fun m => set_list (s_testList m ++ [p]) m).

(** [std::map::insert], which keeps what is already there. *)
Definition map_insert (k : bytes) (p : nat) (l : gmap bytes nat) : gmap bytes nat :=
  match l !! k with Some _ => l | None => <[k := p]> l end.

(** [UnitTestRegister(const std::string &testName)]. *)
Definition UnitTestRegister_named (testName : bytes) (t : T) : M UnitTest () :=
  p ← new_test t;
  mmodify (fun m => set_map (map_insert testName p (s_testMap m)) m).

(** ** The module *)

(** The [while (test)] loop of [LoadConfig]. *)
Fixpoint names_loop (fuel : nat) (test : option xml) : M UnitTest () :=
  match fuel with
  | O => mfuel
  | S fuel' =>
      match test with
      | None => mret tt
      | Some x =>
          let name := GetAttribute_Str x (lit "name") in
          mmodify (fun m => set_names (s_testModuleNames m ++ [cstr name]) m);;
          names_loop fuel' (GetNextSibling x)
      end
  end.

Definition LoadConfig (fuel : nat) : M UnitTest bool :=
  match LoadFile with
  | None => mlift (ASSERT false);; mret false
  | Some root =>
      match GetFirstChrild root (lit "unittest") with
      | None => mlift (ASSERT false);; mret false
      | Some unitTest =>
          names_loop fuel (GetFirstChrild unitTest (lit "test"));;
          mret true
      end
  end.

Definition Initialize (fuel : nat) : M UnitTest bool :=
  ok ← LoadConfig fuel;
  if negb ok then mret false else mret true.

(** [iter->second->StartTest(kernel)]. *)
Definition start (p : nat) : M UnitTest () :=
  m ← mget;
  t ← mlift (of_option BadCall (objects m !! p));
  StartTest t.

(** The [for] loop of [Launched]; no test reaches the private vector. *)
Fixpoint launch_loop (names : list bytes) : M UnitTest () :=
  match names with
  | [] => mret tt
  | name :: names' =>
      m ← mget;
      match s_testMap m !! name with
      | Some p => start p
      | None => mret tt
      end;;
      launch_loop names'
  end.

Definition Launched : M UnitTest bool :=
  m ← mget;
  launch_loop (s_testModuleNames m);;
  mret true.

(** [DEL test]. *)
Definition delete_test (p : nat) : M UnitTest () :=
  m ← mget;
  mlift (of_option BadCall (objects m !! p));;
  mput (set_objects (delete p (objects m)) (next m) m).

Fixpoint delete_all (l : list nat) : M UnitTest () :=
  match l with
  | [] => mret tt
  | p :: l' => delete_test p;; delete_all l'
  end.

Definition Destroy : M UnitTest bool :=
  m ← mget;
  delete_all (s_testList m);;
  mmodify (set_list []);;
  mret true.

Definition GetUnitTestId : M UnitTest Z :=
  m ← mget;
  let n := s32 (s_nextId m + 1) in
  mput (set_ids n ({[n]} ∪ s_testIds m) m);;
  mret n.

(** Nothing happens yet when the last test is complete. *)
Definition CompleteTest (testId : Z) : M UnitTest () :=
  m ← mget;
  if bool_decide (testId ∈ s_testIds m)
  then mput (set_ids (s_nextId m) (s_testIds m ∖ {[testId]}) m)
  else mret tt.

(** ** Registration and start-up *)

(** What the static objects do before [main], in order: [None] is the
    registration without a name. *)
Fixpoint register_all (l : list (option bytes * T)) : M UnitTest () :=
  match l with
  | [] => mret tt
  | (None, t) :: l' => UnitTestRegister_list t;; register_all l'
  | (Some n, t) :: l' => UnitTestRegister_named n t;; register_all l'
  end.

(** The class registered first under a name. *)
Fixpoint first_named (l : list (option bytes * T)) (name : bytes) : option T :=
  match l with
  | [] => None
  | (Some n, t) :: l' => if bool_decide (n = name) then Some t else first_named l' name
  | (None, _) :: l' => first_named l' name
  end.

(** The [name] attributes of an element and its siblings. *)
Inductive chain : option xml -> list bytes -> Prop :=
  | chain_end : chain None []
  | chain_cons x names : chain (GetNextSibling x) names ->
      chain (Some x) (cstr (GetAttribute_Str x (lit "name")) :: names).

(** A test leaves the registered instances alone. *)
Definition keeps (m m' : UnitTest) : Prop :=
  s_testMap m' = s_testMap m /\ s_testList m' = s_testList m /\ objects m' = objects m.

#[export] Instance keeps_preorder : PreOrder keeps.
Proof. split; [by split|]. intros ??? (? & ? & ?) (? & ? & ?). split_and!; congruence. Qed.

(** Tests run one after the other. *)
Fixpoint start_all (l : list T) : M UnitTest () :=
  match l with
  | [] => mret tt
  | t :: l' => StartTest t;; start_all l'
  end.

(** The class of the instance a name leads to. *)
Definition named (m : UnitTest) (name : bytes) : option T :=
  p ← s_testMap m !! name; objects m !! p.

(** Every stored pointer is to an allocated object, the vector and the map
    share none, and no address in use is handed out again. *)
Record reg_ok (m : UnitTest) : Prop := {
  ok_alloc : forall p, is_Some (objects m !! p) -> (p < next m)%nat;
  ok_map : forall name p, s_testMap m !! name = Some p -> is_Some (objects m !! p);
  ok_list : Forall (fun p => is_Some (objects m !! p)) (s_testList m);
  ok_nodup : NoDup (s_testList m);
  ok_apart : forall name p, s_testMap m !! name = Some p -> p ∉ s_testList m
}.

(** What the registrations [l] add. *)
Definition is_named (r : option bytes * T) : bool := bool_decide (is_Some (fst r)).

Record registered (l : list (option bytes * T)) (m0 m : UnitTest) : Prop := {
  reg_named : forall name,
    named m name = match named m0 name with Some t => Some t | None => first_named l name end;
  reg_size : size (objects m) = (size (objects m0) + length l)%nat;
  reg_list : (length (s_testList m) + length (List.filter is_named l) = length (s_testList m0) + length l)%nat;
  reg_rest : s_testModuleNames m = s_testModuleNames m0 /\ rest m = rest m0
}.

Lemma reg_ok_start w : reg_ok (UnitTest_start w).
Proof.
  constructor; cbn.
  - intros p [? H]. by rewrite lookup_empty in H.
  - intros name p H. by rewrite lookup_empty in H.
  - constructor.
  - constructor.
  - intros name p H. by rewrite lookup_empty in H.
Qed.

(** The next address is not in use. *)
Lemma fresh_address m : reg_ok m -> objects m !! next m = None.
Proof.
  intros I. destruct (objects m !! next m) as [t|] eqn:E; [|done].
  pose proof (ok_alloc _ I (next m) ltac:(by eexists)). lia.
Qed.

Lemma kept_alloc m t p : is_Some (objects m !! p) -> is_Some (<[next m := t]> (objects m) !! p).
Proof. intros Hp. rewrite lookup_insert_is_Some. destruct (decide (next m = p)); [by left|by right]. Qed.

Lemma alloc_below m t p : reg_ok m -> is_Some (<[next m := t]> (objects m) !! p) -> (p < S (next m))%nat.
Proof. intros I [->|[_ H]]%lookup_insert_is_Some; [lia|]. apply (ok_alloc _ I) in H. lia. Qed.

Lemma named_new m t name : reg_ok m ->
  (p ← s_testMap m !! name; <[next m := t]> (objects m) !! p) = named m name.
Proof.
  intros I. unfold named. destruct (s_testMap m !! name) as [p|] eqn:E; [|done].
  cbn [mbind option_bind]. apply lookup_insert_ne. intros <-.
  pose proof (ok_alloc _ I _ (ok_map _ I _ _ E)). lia.
Qed.

Lemma register_list_ok t m : reg_ok m -> exists m', UnitTestRegister_list t m = Ok (tt, m') /\
  reg_ok m' /\ registered [(None, t)] m m'.
Proof.
  intros I. eexists. split; [reflexivity|]. pose proof (fresh_address m I) as Hf. split.
  - constructor; cbn.
    + intros p. by apply alloc_below.
    + intros name p E. by apply kept_alloc, (ok_map _ I name).
    + apply Forall_app. split; [|constructor; [|constructor]].
      * eapply Forall_impl; [by apply (ok_list _ I)|]. intros p. apply kept_alloc.
      * rewrite lookup_insert_eq. by eexists.
    + apply NoDup_app. split_and!; [by apply ok_nodup| |by apply NoDup_singleton].
      intros p Hp ->%list_elem_of_singleton. pose proof (ok_list _ I) as Hl. rewrite Forall_forall in Hl.
      specialize (Hl _ Hp). rewrite Hf in Hl. by destruct Hl.
    + intros name p E [Hp|Hp%list_elem_of_singleton]%elem_of_app; [by eapply ok_apart|].
      subst p. pose proof (ok_map _ I _ _ E) as H. rewrite Hf in H. by destruct H.
  - constructor; cbn.
    + intros name. unfold named at 1. cbn. rewrite named_new by done. by destruct (named m name).
    + rewrite map_size_insert_None by done. lia.
    + rewrite length_app. cbn. lia.
    + done.
Qed.

Lemma named_insert m n t name : reg_ok m ->
  (p ← map_insert n (next m) (s_testMap m) !! name; <[next m := t]> (objects m) !! p) =
  match named m name with Some t' => Some t' | None => if bool_decide (n = name) then Some t else None end.
Proof.
  intros I. unfold map_insert. destruct (s_testMap m !! n) as [q|] eqn:En.
  - rewrite named_new by done. unfold named. case_bool_decide as E; [|by destruct (_ ≫= _)].
    subst name. rewrite En. cbn [mbind option_bind]. by destruct (ok_map _ I _ _ En) as [t' ->].
  - destruct (decide (n = name)) as [<-|Hne].
    + rewrite lookup_insert_eq. unfold named. rewrite En. cbn [mbind option_bind].
      by rewrite lookup_insert_eq, bool_decide_eq_true_2.
    + rewrite lookup_insert_ne by done. rewrite named_new, bool_decide_eq_false_2 by done.
      by destruct (named m name).
Qed.

Lemma register_named_ok n t m : reg_ok m -> exists m', UnitTestRegister_named n t m = Ok (tt, m') /\
  reg_ok m' /\ registered [(Some n, t)] m m'.
Proof.
  intros I. eexists. split; [reflexivity|]. pose proof (fresh_address m I) as Hf.
  assert (Hmap : forall name p, map_insert n (next m) (s_testMap m) !! name = Some p ->
    s_testMap m !! name = Some p \/ p = next m).
  { intros name p. unfold map_insert. destruct (s_testMap m !! n); [by left|].
    intros [[_ <-]|[_ E]]%lookup_insert_Some; [by right|by left]. }
  split.
  - constructor; cbn.
    + intros p. by apply alloc_below.
    + intros name p [E| ->]%Hmap; [by apply kept_alloc, (ok_map _ I name)|].
      rewrite lookup_insert_eq. by eexists.
    + eapply Forall_impl; [by apply (ok_list _ I)|]. intros p. apply kept_alloc.
    + by apply ok_nodup.
    + intros name p [E| ->]%Hmap Hp; [by eapply ok_apart|].
      pose proof (ok_list _ I) as Hl. rewrite Forall_forall in Hl.
      specialize (Hl _ Hp). rewrite Hf in Hl. by destruct Hl.
  - constructor; cbn.
    + intros name. unfold named at 1. cbn. rewrite named_insert by done. done.
    + rewrite map_size_insert_None by done. lia.
    + lia.
    + done.
Qed.

Lemma registered_trans l1 l2 m0 m1 m2 : registered l1 m0 m1 -> registered l2 m1 m2 ->
  registered (l1 ++ l2) m0 m2.
Proof.
  intros [N1 S1 L1 [R1 R1']] [N2 S2 L2 [R2 R2']]. constructor.
  - intros name. rewrite N2, N1. destruct (named m0 name); [done|]. clear.
    induction l1 as [|[[n|] t] l1 IH]; cbn [first_named app]; [done| |done]. by case_bool_decide.
  - rewrite S2, S1, length_app. lia.
  - rewrite List.filter_app, !length_app in *. lia.
  - split; congruence.
Qed.

Lemma register_all_ok l m : reg_ok m ->
  exists m', register_all l m = Ok (tt, m') /\ reg_ok m' /\ registered l m m'.
Proof.
  revert m. induction l as [|[[n|] t] l IH]; intros m I; cbn [register_all].
  - eexists. split; [reflexivity|]. split; [done|]. constructor; cbn; try lia; [|done].
    intros name. by destruct (named m name).
  - destruct (register_named_ok n t m I) as (m1 & E1 & I1 & R1).
    destruct (IH m1 I1) as (m2 & E2 & I2 & R2). exists m2.
    rewrite (M_bind_Ok _ _ _ _ _ E1), E2. split_and!; [done..|]. by apply (registered_trans [_] l m m1).
  - destruct (register_list_ok t m I) as (m1 & E1 & I1 & R1).
    destruct (IH m1 I1) as (m2 & E2 & I2 & R2). exists m2.
    rewrite (M_bind_Ok _ _ _ _ _ E1), E2. split_and!; [done..|]. by apply (registered_trans [_] l m m1).
Qed.

(** ** Configuration and launch *)

Lemma names_loop_chain x names fuel m : chain x names -> (length names < fuel)%nat ->
  names_loop fuel x m = Ok (tt, set_names (s_testModuleNames m ++ names) m).
Proof.
  intros H. revert fuel m. induction H as [|x names H IH]; intros [|fuel] m Hf; cbn [length] in Hf; try lia.
  - cbn. rewrite app_nil_r. by destruct m.
  - cbn [names_loop]. unfold mmodify, mbind, M_bind in IH |- *. rewrite IH by lia. cbn.
    by rewrite <- app_assoc.
Qed.

Lemma start_named p m t : objects m !! p = Some t -> start p m = StartTest t m.
Proof. intros H. unfold start, mget, mlift, mbind, M_bind, outcome_bind. by rewrite H. Qed.

Lemma launch_loop_runs names m : (forall t, preserves keeps (StartTest t)) -> reg_ok m ->
  launch_loop names m = start_all (omap (named m) names) m.
Proof.
  intros Hk I. enough (forall m', keeps m m' -> launch_loop names m' = start_all (omap (named m) names) m') as H
    by (apply H; reflexivity).
  induction names as [|name names IH]; intros m' Hm; [done|]. cbn [launch_loop omap list_omap].
  unfold mget at 1. unfold mbind at 1, M_bind at 1. destruct Hm as (Em & El & Eo).
  assert (En : named m name = p ← s_testMap m !! name; objects m !! p) by done. rewrite Em, En.
  destruct (s_testMap m !! name) as [p|] eqn:E; cbn [mbind option_bind].
  - destruct (ok_map _ I _ _ E) as [t Ht]. rewrite Ht. cbn [start_all]. unfold mbind, M_bind.
    rewrite (start_named p m' t) by congruence. destruct (StartTest t m') as [[[] m2]| |] eqn:E2; [|done..].
    apply IH. etrans; [by split_and!; [exact Em|exact El|exact Eo]|]. by eapply Hk.
  - rewrite M_bind_ret. apply IH. by split_and!.
Qed.

(** C33: The module runs what the configuration names.  Whatever instances the
    static objects register and the configuration file lists, [Initialize]
    succeeds (the loop over the siblings ends) and [Launched] is: for every
    listed name, in the order of the file and as often as it is listed, start
    the test registered first under that name; a name without a registration
    is skipped, a test registered without a name never runs.  What the tests
    do is arbitrary, as long as they leave the registrations alone. *)
Theorem Launched_runs_configured regs w root u names fuel :
  (forall t, preserves keeps (StartTest t)) ->
  LoadFile = Some root -> GetFirstChrild root (lit "unittest") = Some u ->
  chain (GetFirstChrild u (lit "test")) names -> (length names < fuel)%nat ->
  exists m, (register_all regs;; Initialize fuel) (UnitTest_start w) = Ok (true, m) /\ rest m = w /\
    Launched m = (start_all (omap (first_named regs) names);; mret true) m.
Proof.
  intros Hk Hroot Hu Hc Hf. destruct (register_all_ok regs _ (reg_ok_start w)) as (m1 & E1 & I1 & R1).
  exists (set_names names m1). rewrite (M_bind_Ok _ _ _ _ _ E1).
  destruct (reg_rest _ _ _ R1) as [Hn Hw]. split_and!.
  - unfold Initialize, LoadConfig. rewrite Hroot, Hu. unfold mbind, M_bind.
    rewrite (names_loop_chain _ _ _ _ Hc Hf), Hn. done.
  - exact Hw.
  - unfold Launched. rewrite (M_bind_Ok mget _ _ _ _ eq_refl). unfold mbind, M_bind.
    rewrite launch_loop_runs; [|done|by destruct I1]. cbn [s_testModuleNames set_names].
    enough (forall name, named (set_names names m1) name = first_named regs name) as Hnm.
    { enough (forall l, omap (named (set_names names m1)) l = omap (first_named regs) l) as -> by done.
      induction l as [|name l IH]; [done|]. cbn [omap list_omap]. by rewrite Hnm, IH. }
    intros name.
    change (named m1 name = first_named regs name). rewrite (reg_named _ _ _ R1). unfold named. cbn.
    by rewrite lookup_empty.
Qed.

(** ** Destroy *)

Lemma delete_all_ok l m : NoDup l -> Forall (fun p => is_Some (objects m !! p)) l ->
  exists m', delete_all l m = Ok (tt, m') /\ s_testMap m' = s_testMap m /\
    (size (objects m') + length l = size (objects m))%nat /\
    forall p, objects m' !! p = if bool_decide (p ∈ l) then None else objects m !! p.
Proof.
  intros Hn Hl. revert m Hl. induction Hn as [|p l Hp Hn IH]; intros m Hl; cbn [delete_all].
  { exists m. split_and!; [done|done|cbn; lia|]. intros p. rewrite bool_decide_eq_false_2; [done|apply not_elem_of_nil]. }
  apply Forall_cons in Hl as [[t Ht] Hl].
  destruct (IH (set_objects (delete p (objects m)) (next m) m)) as (m' & E & Em & Es & Eo).
  - rewrite Forall_forall in Hl |- *. intros q Hq. cbn. rewrite lookup_delete_ne; [by apply Hl|congruence].
  - exists m'. split_and!.
    + unfold delete_test, mget, mput, mlift, mbind, M_bind, outcome_bind. rewrite Ht. exact E.
    + exact Em.
    + cbn [objects set_objects] in Es. rewrite map_size_delete_Some in Es by (by eexists).
      assert (size (objects m) <> 0)%nat; [|cbn [length]; lia].
      intros H0%map_size_empty_inv. by rewrite H0, lookup_empty in Ht.
    + intros q. rewrite Eo. cbn [objects set_objects]. destruct (decide (q = p)) as [->|Hq].
      * rewrite lookup_delete_eq, (bool_decide_eq_true_2 (p ∈ p :: l)) by apply list_elem_of_here. by case_bool_decide.
      * rewrite lookup_delete_ne by done. erewrite (bool_decide_ext (q ∈ p :: l)); [done|].
        rewrite elem_of_cons. split; [by intros [?|?]|by right].
Qed.

(** [Destroy] frees every instance registered without a name, each
    exactly once, and no other: the instances registered under a name, which
    are the only ones [UNIT_TEST_REGISTER] creates, stay allocated.  This is
    for any registrations, and whatever tests ran in between. *)
Theorem Destroy_frees_unnamed_only regs w m m2 :
  register_all regs (UnitTest_start w) = Ok (tt, m) -> keeps m m2 ->
  exists m3, Destroy m2 = Ok (true, m3) /\ s_testList m3 = [] /\
    (forall p, objects m3 !! p = if bool_decide (p ∈ s_testList m) then None else objects m !! p) /\
    (forall name, named m3 name = first_named regs name) /\
    size (objects m3) = length (List.filter is_named regs).
Proof.
  intros E (Em & El & Eo). destruct (register_all_ok regs _ (reg_ok_start w)) as (m' & E' & I & R).
  rewrite E in E'. injection E' as <-.
  destruct (delete_all_ok (s_testList m2) m2) as (m3 & E3 & Em3 & Es3 & Eo3).
  { rewrite El. by apply ok_nodup. }
  { rewrite El, Eo. by apply ok_list. }
  assert (Hp : forall p, objects m3 !! p = if bool_decide (p ∈ s_testList m) then None else objects m !! p)
    by (intros p; rewrite Eo3, El, Eo; done).
  exists (set_list [] m3). split_and!; [|done|exact Hp| |].
  - unfold Destroy, mget, mmodify, mbind, M_bind. by rewrite E3.
  - intros name. transitivity (named m name).
    + unfold named. cbn [s_testMap set_list objects]. rewrite Em3, Em.
      destruct (s_testMap m !! name) as [p|] eqn:Ep; [|done]. cbn [mbind option_bind].
      rewrite Hp, bool_decide_eq_false_2; [done|]. by eapply ok_apart.
    + rewrite (reg_named _ _ _ R). unfold named. cbn. by rewrite lookup_empty.
  - cbn [objects set_list]. pose proof (reg_size _ _ _ R) as Hs. pose proof (reg_list _ _ _ R) as Hl.
    cbn in Hs, Hl. rewrite map_size_empty in Hs. rewrite El, Eo in Es3. lia.
Qed.

(** ** Identifiers *)

Inductive id_op : Type :=
  | GetId
  | Complete (testId : Z).

(** The operations in order, with the identifiers handed out. *)
Fixpoint run_ids (l : list id_op) : M UnitTest (list Z) :=
  match l with
  | [] => mret []
  | GetId :: l' => n ← GetUnitTestId; r ← run_ids l'; mret (n :: r)
  | Complete z :: l' => CompleteTest z;; run_ids l'
  end.

Definition is_get (o : id_op) : bool := match o with GetId => true | Complete _ => false end.
Definition gets (l : list id_op) : nat := length (List.filter is_get l).

(** The identifier [z] was handed out, as the [z]-th, and not completed
    afterwards. *)
Definition outstanding (l : list id_op) (z : Z) : Prop :=
  exists a b, l = a ++ GetId :: b /\ z = Z.of_nat (gets a) + 1 /\ Complete z ∉ b.

Lemma gets_app a b : gets (a ++ b) = (gets a + gets b)%nat.
Proof. unfold gets. by rewrite List.filter_app, length_app. Qed.

Lemma gets_get b : gets (GetId :: b) = S (gets b).
Proof. done. Qed.

Lemma gets_complete t b : gets (Complete t :: b) = gets b.
Proof. done. Qed.

(** The state after the operations [l]. *)
Record ids_after (l : list id_op) (m0 m : UnitTest) : Prop := {
  ids_next : s_nextId m = Z.of_nat (gets l);
  ids_set : forall z, z ∈ s_testIds m <-> outstanding l z;
  ids_same : objects m = objects m0 /\ s_testMap m = s_testMap m0 /\ s_testList m = s_testList m0
}.

Lemma outstanding_range l z : outstanding l z -> 1 <= z <= Z.of_nat (gets l).
Proof.
  intros (a & b & -> & -> & _). rewrite gets_app, gets_get. lia.
Qed.

(** The last operation. *)
Lemma outstanding_get l z : outstanding (l ++ [GetId]) z <->
  z = Z.of_nat (gets l) + 1 \/ outstanding l z.
Proof.
  split.
  - intros (a & b & E & -> & Hb). destruct (List.exists_last (l := GetId :: b)) as (b' & o & Eb); [done|].
    rewrite Eb in E. rewrite app_assoc in E. apply app_inj_tail in E as [-> <-].
    destruct b' as [|o' b']; cbn [app] in Eb.
    { left. by rewrite app_nil_r. }
    injection Eb as E0 E1. subst o'. right. exists a, b'. split_and!; [done..|]. intros Hin. apply Hb. subst b.
    apply elem_of_app. by left.
  - intros [->|(a & b & -> & -> & Hb)].
    + exists l, []. split_and!; [done..|]. apply not_elem_of_nil.
    + exists a, (b ++ [GetId]). split_and!; [by rewrite <- app_assoc|done|].
      intros [?|H%list_elem_of_singleton]%elem_of_app; [done|discriminate H].
Qed.

Lemma outstanding_complete l t z : outstanding (l ++ [Complete t]) z <-> outstanding l z /\ z <> t.
Proof.
  split.
  - intros (a & b & E & -> & Hb). destruct (List.exists_last (l := GetId :: b)) as (b' & o & Eb); [done|].
    rewrite Eb in E. rewrite app_assoc in E. apply app_inj_tail in E as [-> <-].
    destruct b' as [|o' b']; cbn [app] in Eb; [discriminate Eb|]. injection Eb as E0 E1.
    subst o' b. split.
    + exists a, b'. split_and!; [done..|]. intros Hin. apply Hb, elem_of_app. by left.
    + intros <-. apply Hb, elem_of_app. right. by left.
  - intros [(a & b & -> & -> & Hb) Hz]. exists a, (b ++ [Complete t]). split_and!; [by rewrite <- app_assoc|done|].
    intros [?|H%list_elem_of_singleton]%elem_of_app; [done|congruence].
Qed.

Lemma run_ids_after l2 l1 m0 m : ids_after l1 m0 m -> Z.of_nat (gets (l1 ++ l2)) < 2 ^ 31 ->
  exists m', run_ids l2 m = Ok (seqZ (Z.of_nat (gets l1) + 1) (Z.of_nat (gets l2)), m') /\
    ids_after (l1 ++ l2) m0 m'.
Proof.
  revert l1 m. induction l2 as [|[|t] l2 IH]; intros l1 m I Hb.
  - exists m. rewrite app_nil_r. by split.
  - assert (Hn : s32 (s_nextId m + 1) = Z.of_nat (gets l1) + 1).
    { rewrite (ids_next _ _ _ I). apply s32_small. rewrite gets_app, gets_get in Hb.
      unfold is_s32. lia. }
    destruct (IH (l1 ++ [GetId]) (set_ids (Z.of_nat (gets l1) + 1)
      ({[Z.of_nat (gets l1) + 1]} ∪ s_testIds m) m)) as (m' & E & I').
    + constructor; cbn.
      * rewrite gets_app, gets_get. change (gets []) with 0%nat. lia.
      * intros z. rewrite outstanding_get, <- (ids_set _ _ _ I). set_solver.
      * apply (ids_same _ _ _ I).
    + by rewrite <- app_assoc.
    + exists m'. rewrite <- app_assoc in I'. split; [|exact I'].
      cbn [run_ids]. unfold GetUnitTestId, mget, mput, mret, M_ret, mbind, M_bind in E |- *.
      rewrite Hn, E. do 2 f_equal. rewrite gets_app, !gets_get. change (gets []) with 0%nat.
      rewrite (seqZ_cons (Z.of_nat (gets l1) + 1)) by lia. f_equal. f_equal; lia.
  - destruct (IH (l1 ++ [Complete t]) (set_ids (s_nextId m) (s_testIds m ∖ {[t]}) m)) as (m' & E & I').
    + constructor; cbn.
      * rewrite gets_app, gets_complete, (ids_next _ _ _ I). change (gets []) with 0%nat. lia.
      * intros z. rewrite outstanding_complete, <- (ids_set _ _ _ I). set_solver.
      * apply (ids_same _ _ _ I).
    + by rewrite <- app_assoc.
    + exists m'. rewrite <- app_assoc in I'. split; [|exact I'].
      cbn [run_ids]. rewrite gets_app, !gets_complete, Nat.add_0_r in E. unfold CompleteTest, mget, mput, mret, M_ret, mbind, M_bind.
      rewrite gets_complete. case_bool_decide as Ht; [exact E|]. rewrite <- E. f_equal. destruct m. unfold set_ids. cbn. f_equal. cbn in Ht. set_solver.
Qed.

(** Test identifiers.  In any sequence of [GetUnitTestId] and
    [CompleteTest] with fewer than 2^31 of the first, the identifiers handed
    out are 1, 2, 3, ... in order, so never the same twice, and the set holds
    exactly those handed out and not completed afterwards: completing an
    identifier twice, early or one never handed out changes nothing. *)
Theorem test_ids_outstanding l w : Z.of_nat (gets l) < 2 ^ 31 ->
  exists m, run_ids l (UnitTest_start w) = Ok (seqZ 1 (Z.of_nat (gets l)), m) /\
    s_nextId m = Z.of_nat (gets l) /\ forall z, z ∈ s_testIds m <-> outstanding l z.
Proof.
  intros Hl. destruct (run_ids_after l [] (UnitTest_start w) (UnitTest_start w)) as (m & E & I); [|exact Hl|].
  - constructor; [done| |done]. intros z. cbn. split; [set_solver|]. by intros (a & b & E & _); destruct a.
  - exists m. split; [exact E|]. by destruct I.
Qed.
End UnitTest.

Arguments UnitTest W T : clear implicits.

(** ** Witnesses *)

Module UnitTestExample.
Inductive node : Type := XRoot | XUnit | XTest (i : nat).

(** The configuration lists three tests. *)
Definition config : Xml := {|
  xml := node;
  LoadFile := Some XRoot;
  GetFirstChrild := fun x tag =>
    match x with
    | XRoot => if bool_decide (tag = lit "unittest") then Some XUnit else None
    | XUnit => Some (XTest 0)
    | XTest _ => None
    end;
  GetNextSibling := fun x =>
    match x with XTest i => if (i <? 2)%nat then Some (XTest (S i)) else None | _ => None end;
  GetAttribute_Str := fun x _ =>
    match x with
    | XTest 0 => lit "RedisTest"
    | XTest 1 => lit "Unknown"
    | _ => lit "MysqlTest"
    end;
  GetAttribute_S32 := fun _ _ => 0
|}.

(** A test writes its class in a log. *)
Definition run_test (t : bytes) : M (UnitTest (list bytes) bytes) () :=
  mmodify (fun m => mkUnitTest (s_testList m) (s_testMap m) (s_testModuleNames m) (s_nextId m)
    (s_testIds m) (objects m) (next m) (rest m ++ [t])).

(** The registration objects of MysqlTest.cpp and RedisTest.cpp. *)
Definition regs : list (option bytes * bytes) :=
  [(None, lit "MysqlTest"); (Some (lit "MysqlTest"), lit "MysqlTest"); (Some (lit "RedisTest"), lit "RedisTest")].

Definition registered_state : UnitTest (list bytes) bytes :=
  match register_all regs (UnitTest_start []) with Ok (_, m) => m | _ => UnitTest_start [] end.

Lemma config_chain : @chain config (Some (XTest 0)) [lit "RedisTest"; lit "Unknown"; lit "MysqlTest"].
Proof.
  apply (@chain_cons config (XTest 0)), (@chain_cons config (XTest 1)), (@chain_cons config (XTest 2)).
  apply @chain_end.
Qed.
End UnitTestExample.

Lemma Launched_runs_configured_witness : exists m m',
  @Launched _ _ UnitTestExample.run_test m = Ok (true, m') /\ rest m' = [lit "RedisTest"; lit "MysqlTest"].
Proof.
  destruct (@Launched_runs_configured {| ndebug := false |} UnitTestExample.config _ _
    UnitTestExample.run_test UnitTestExample.regs [] UnitTestExample.XRoot UnitTestExample.XUnit
    [lit "RedisTest"; lit "Unknown"; lit "MysqlTest"] 4) as (m & _ & Hr & E).
  - intros t m a m' [= _ <-]. by split_and!.
  - reflexivity.
  - reflexivity.
  - exact UnitTestExample.config_chain.
  - cbn. lia.
  - exists m. rewrite E. eexists. split; [reflexivity|]. cbn. rewrite Hr. reflexivity.
Defined.

Lemma Destroy_frees_unnamed_only_witness : exists m3,
  Destroy UnitTestExample.registered_state = Ok (true, m3) /\ size (objects m3) = 2%nat.
Proof.
  destruct (@Destroy_frees_unnamed_only _ _ UnitTestExample.regs [] UnitTestExample.registered_state
    UnitTestExample.registered_state) as (m3 & E & _ & _ & _ & Hs); [reflexivity|reflexivity|].
  exists m3. split; [exact E|]. rewrite Hs. reflexivity.
Defined.

Lemma test_ids_outstanding_witness : exists m,
  run_ids [GetId; GetId; Complete 1; Complete 7] (@UnitTest_start unit unit tt) = Ok ([1; 2], m) /\
  forall z, z ∈ s_testIds m <-> outstanding [GetId; GetId; Complete 1; Complete 7] z.
Proof.
  destruct (@test_ids_outstanding unit unit [GetId; GetId; Complete 1; Complete 7] tt) as (m & E & _ & H);
    [cbn; lia|]. exists m. split; [exact E|exact H].
Defined.
